(* ===== verification/_CoqProject ===== *)
-Q . S2P
Prelude.v
Bitmap.v
GpuHash.v
Index.v
Units.v
Config.v
Slabs.v
Batch.v
Rotation.v
Items.v
Packet.v
Receiver.v
Receive.v
Common.v
Logging.v
Zipf.v
LoadGen.v
LocalTest.v
Sender.v
SenderMatch.v
ReceiverMatch.v
SenderStart.v
Timer.v
Scheduler.v
Streams.v
Service.v
ServiceEvict.v
Server.v
SchedulerMain.v
SenderMain.v
ReceiverMain.v
Dpdk.v
Main.v
Program.v
Benchmark.v
Client.v
