(* ===== verification/Prelude.v ===== *)
(** * Mega-KV: a verification library

    Mega-KV (src/src, src/libgpuhash) is an in-memory key-value store whose index is a
    hash table on a GPU.  CPU threads receive packets of GET and SET jobs, put the
    jobs into batches, a Scheduler thread runs a batch of every worker on the GPU, and
    sender threads turn the results into reply packets.  This library models the C and
    CUDA code as executable functions and proves what makes it correct, and, where it
    is not, what happens instead.

    ** The files

    - [Prelude] (this file): outcomes of C code ([result]), fixed-width integers,
      arrays, doubles as [SpecFloat], tactics and list lemmas.
    - [Bitmap] (bitmap.c): the eviction bitmap, 64-bit words and their shifts.
    - [GpuHash] (libgpuhash/gpu_hash.cu, gpu_hash.h): buckets, the warp votes, the
      kernels for search, deletion and the two kinds of insertion, the launches.
    - [Index]: the interface [LocationIndex] that the rest of the program relies on,
      clients of it, and its instance, the table of [GpuHash].
    - [Units]: the units of one block of an insertion kernel, step by step, when they
      compete for the slots of a bucket; [Streams]: the kernels of a cycle as the device
      runs them, a stream per worker and all units of a kernel at once.
    - [Config] (macros.h, mega_config.h, [mega_init_config] of mega.c).
    - [Slabs] (slabs.c): size classes, carving of slabs, locations of items.
    - [Batch] (mega_batch.h, mega_job.h, the hand-over functions of mega_send.c and
      mega_scheduler.c) and [Rotation]: the three buffers of a worker that circulate
      between Receiver, Scheduler and Sender, as a transition system of threads.
    - [Items] (items.c): allocation of items, eviction and the jobs it causes.
    - [Packet]: bytes, loads and stores, byte order.
    - [Receiver] (mega_recv.c): [process_packet] and the macros it uses; [Receive]: the
      start of a Receiver, the loop that takes bursts from the network card, and the
      statistics [mega.c] reports;
      [ReceiverMatch]: the Receiver with [KEY_MATCH].
    - [Common] (mega_common.c, mega_memory.c): [calc_signature], the Receiver's signature
      with [SIGNATURE], allocation wrappers;
      [Logging] (mega_common.c, mega_common.h): [mprint] and its buffer of lines.
    - [Zipf] (zipf.h), [LoadGen] (mega_recv.c: [preload], [mega_receiver_local_read])
      and [LocalTest]: the generators of load and their composition with the Receiver.
    - [Sender] (mega_send.c): the versions of the send loop and the reply packets;
      [SenderMatch]: the same with [KEY_MATCH]; [SenderStart]: the start of a Sender,
      its packets and their headers.
    - [Timer] (mega_timer.c) and [Scheduler] (mega_scheduler.c): the wait for the time
      point, the kernels of a cycle, the statistics.
    - [Server]: all threads on one state, [Rotation]'s Scheduler and Senders, the GPU
      cycle of [Scheduler] and the Receivers' steps between two accesses.
    - [SchedulerMain] (mega_scheduler.c), [SenderMain] (mega_send.c) and [ReceiverMain]
      (mega_recv.c): the loops of the threads as they are written, which refine the steps
      of [Server].
    - [Service] and [ServiceEvict]: what the server promises its clients, a map from keys
      to values, stated over index, slabs and memory and proved of the composition of
      [ReceiverMatch], [Scheduler] and [SenderMatch]; the second one when memory is full.
    - [Dpdk] (dpdk.c) and [Main] (mega.c): ports, start-up, threads and their cores;
      [Program]: [main], the initialisation of all threads in any order, and the
      Scheduler's loop as one program.
    - [Benchmark] (src/benchmark/benchmark.c): the client's loop that sends jobs, and
      [Client]: its preloading, its reception and measurements, its start.

    ** How state and operations correspond to the code

    A C struct is a [Record] with the source's field names; a function keeps its name
    and becomes a function from the state to [result], where [Err] says which assertion,
    exit or undefined operation stops it.  Pointers into slabs are pairs of a block and
    an offset; the heap maps them to items ([Slabs.slabs_t]).  A batch is
    [Batch.mega_batch_t], a GPU table a finite map from bucket numbers to buckets.
    Other threads appear in two ways: as an argument [env] that may change the shared
    state between two reads ([Receiver], [Items], the kernels of [GpuHash]), or, where
    the order of steps is the point, as steps of a system ([Rotation], [Server], [Units], [Streams]); that
    the two views agree is [ReceiverMain.receiver_main_refines] for a Receiver,
    [SchedulerMain.scheduler_main_refines] for the Scheduler and
    [SenderMain.sender_loop_refines] for a Sender.  What the
    system answers is a parameter: [malloc_ok] and [garbage] for memory, [winner] for
    simultaneous writes of a warp, [fails] and [link_status] for DPDK, the time-stamp
    counter for timers.

    ** What the theorems show

    - The service: [Service.gets_read_map] (packets of GETs, through Receiver, cycle and
      Sender, come back with the map's values, to the client that asked and in order),
      [Service.set_updates_map] (a SET puts its value into the map with the cycle of its
      batch) and [ServiceEvict.evicting_set_updates_map] (with the memory full it also
      forgets the keys whose items are evicted).  They hold for keys of distinct
      signatures, none of them 0, for a Receiver whose buffer is not switched meanwhile,
      and, for a SET, when it is the only update of its cycle.
    - The index: [Index.gpu_index_refines_map] (the table refines a finite map),
      [GpuHash.insert_then_delete], [GpuHash.units_keep_types] (the
      units of the kernels, with any interference between their steps, keep the shape of
      the buckets and make no location up), [GpuHash.candidate_buckets];
      [Units.insert_block_refines_map] for units of a block that run at the same time;
      [Streams.streams_refine_map] for all streams of a cycle, whatever the order of their
      accesses, and [Streams.streams_keep_types] without any condition on the keys.
    - The allocator: [Slabs.slab_loc_roundtrip], [Slabs.slabs_alloc_batch_new_slab], with
      the invariant [Slabs.slabs_wf]; eviction: [Bitmap.bitmap_evict_batch_clock],
      [Bitmap.bitmap_evict_batch_second_chance], [Items.item_alloc_evicts].
    - The protocol of the buffers: [Rotation.rotation_safe], [rotation_lockstep] and
      [rotation_progress], for any interleaving of Scheduler and Senders.
    - The jobs: [Receiver.process_packet_gets],
      [search_compact_partition]; [Receive.receive_burst_gets] for the packets of a burst;
      [ReceiverMain.retries_end] (the loops that retry a job whose buffer was switched
      end when the switches do), [ReceiverMain.process_packet_ends] and
      [ReceiverMain.receiver_read_ends] (so do a packet and a sequence of packets,
      whatever their bytes; evictions, which read the same field, included).
    - The replies: [Sender.prefetch_answers_all], [SenderStart.replies_on_the_wire] (the
      bytes of a packet, headers and lengths), [SenderMatch.keyed_replies] (with
      [KEY_MATCH] every client gets, in order, a reply for each of its searches, with a
      value of the key it asked for or none).
    - The server, for any interleaving: [Server.server_never_stops] (no assertion of
      the Scheduler or a Sender fails, the index keeps its shape, even with late
      Receivers) and [Server.sender_sees_answers] (a Sender reads the index's answers);
      [SchedulerMain.scheduler_main_refines], [SenderMain.sender_loop_refines] and
      [ReceiverMain.receiver_main_refines] carry this over to the loops of the source.
      They assume nothing about the jobs: signature 0 and full buckets are included.
    - Compositions: [Scheduler.cycle_answers] (a cycle answers every search of every
      worker from the index, however full it is),
      [Scheduler.set_then_get] (a SET, the cycle of its batch
      and the searches that follow), [LocalTest.local_round_batches],
      [LoadGen.preload_covers], [Benchmark.client_gets_accepted] (client and server agree
      on the bytes), [Client.client_preload_covers] (the client stores every key once),
      [Main.main_starts] (start-up establishes what the others assume),
      [Program.program_runs] (the program from [main] on does any number of rounds).
    - Messages: [Logging.mprint_roundtrip] (the lines are printed once, in order and whole).
    - Defects, each with the situation in which it shows, such as
      [Index.reinsert_then_delete_resurrects], [Common.zero_word_key_finds_deleted],
      [Common.equal_halves_signature_0],
      [GpuHash.cuckoo_displacement_loses_element], [Sender.five_replies_not_sent],
      [Receiver.set_overruns_item], [Rotation.late_sender_init_loses_buffer],
      [SchedulerMain.unlocked_workers_differ] and [period_of_three_skips_buffers].

    ** Bounds and fuel

    Loops that are not structural take fuel, and the theorems say how much is enough:
    six rounds for an insertion kernel, one per byte of a packet for its jobs, [W] for
    the retries of a job when one of any [W] rounds is left alone, one per
    key for preloading, a lap of the bitmap for an eviction ([2^23 + 1024] steps are always enough), 92 iterations for the wait
    for the links; [Err OutOfFuel] is never the outcome of a theorem that says [Ok].
    Integers are kept at their width with [wrap]; theorems state the ranges they need,
    and the values of [Config.mega_init_config] lie in them.

    ** What is not modelled

    The build is the one of src/src/Makefile: [COMPACT_JOB], [USE_LOCK], [PRELOAD],
    [PREFETCH_BATCH], [LOCAL_TEST] and [DIS_UNIFORM] are defined, [KVSIZE] is 0;
    the other settings are modelled where a file says so ([KEY_MATCH] in [ReceiverMatch] and [SenderMatch], [MEGA_PRINT_BUFFER] in [Logging],
    the three versions of the send loop in [Sender], the ways to place threads on cores
    in [Main], no [USE_LOCK] and [NUM_SCHED_INS_DEL] in [SchedulerMain], [NOT_FORWARD] in
    [SenderMain], [NOT_COLLECT] in [Receive], [SIGNATURE] in [Common], as
    the function of a key that the Receiver then uses).  Not modelled are:

    - [NOT_GPU] of the Scheduler, which does not compile with the default
      [NUM_SCHED_INS_DEL] (it jumps to a label that is not there);
    - measurement ([TIME_MEASURE], [gettimeofday] and the speeds that are printed),
      prefetch instructions and [PREFETCH_PIPELINE], which have no effect on the state, and
      output: printing, the stack trace, [panic];
    - the macros of mega_macros.h and dpdk.h that no modelled function uses, and the
      declarations of the headers;
    - [rte_eal_init] and the other functions of DPDK, CUDA and the system beyond what
      they answer; the thread-specific data, in which each thread keeps its own batch;
    - code that is switched off by [#if 0] and the self-test of the Zipf generator;
    - the test programs of src/libgpuhash/test and the scripts.

    [Scheduler.gpu_cycle], and with it [Server] and [Service], runs the kernels of a cycle
    in launch order and the units of a kernel one after the other, which is one of the
    schedules the device has; [Streams] has all of them, with the first buckets of the
    insertions only (a unit that finds its first bucket full stops there), and
    [streams_refine_map] says when they agree on the map.  That no signature is twice in a
    bucket is not among what every schedule keeps ([Units.same_signature_stored_twice]);
    where [Scheduler.cycle_answers] and the lemmas on [gpu_cycle] say that a table is
    well-formed, they say it of the launch order.  A cycle of the Scheduler and the sending of a buffer are one step each of [Server].  The caches and the memory
    order of the CPU are not modelled.

    The code of a Receiver between two reads of [receiver_buf_id] is one step, too.

    ** Further work

    Units of different blocks of one launch on one bucket, keys that share a signature in
    [Service], and the bounds of the uniform generator. *)

From Stdlib Require Export ZArith Lia.
From Stdlib Require Import Floats.SpecFloat.
From stdpp Require Export base list list_numbers gmap fin_maps.

#[global] Open Scope Z_scope.

(** ** Outcomes of C code

    A C function of the program either returns, or stops for one of the
    reasons the code knows ([assert], [exit]), or performs an operation the C
    standard leaves undefined, or is still running when the fuel of the model
    is used up.  [result] keeps these apart, so that a theorem that says [Ok]
    says that none of the others happens. *)
Inductive error : Type :=
  | AssertFail     (** an [assert] of the source does not hold *)
  | Exit           (** the source calls [exit] *)
  | OutOfBounds    (** an access outside of the array it indexes *)
  | NullDeref      (** an access through a null or a dangling pointer *)
  | UndefinedShift (** a shift by the width of the type or more *)
  | BadConversion  (** a floating-point value that does not fit the integer type *)
  | DivByZero      (** an integer division by zero *)
  | SignedOverflow (** a signed operation whose value does not fit its type *)
  | OutOfFuel.     (** the loop of the model needs more iterations *)

Inductive result (A : Type) : Type :=
  | Ok (a : A)
  | Err (e : error).
Arguments Ok {A} a.
Arguments Err {A} e.

#[export] Instance error_eq_dec : EqDecision error.
Proof. solve_decision. Defined.

#[export] Instance Ok_inj A : Inj (=) (=) (@Ok A).
Proof. by intros x y [= ->]. Qed.

#[export] Instance result_ret : MRet result := λ A a, Ok a.
#[export] Instance result_bind : MBind result := λ A B f m,
  match m with Ok a => f a | Err e => Err e end.

(** [assert(b)] of the source. *)
Definition assert_ (b : bool) : result () := if b then Ok () else Err AssertFail.

Lemma assert_true b : b = true → assert_ b = Ok ().
Proof. by intros ->. Qed.

Lemma assert_Ok b u : assert_ b = Ok u → b = true.
Proof. by destruct b. Qed.

Lemma bind_Ok {A B} (f : A → result B) a : (Ok a ≫= f) = f a.
Proof. done. Qed.

Lemma bind_Ok_inv {A B} (f : A → result B) (m : result A) b :
  (m ≫= f) = Ok b → ∃ a, m = Ok a ∧ f a = Ok b.
Proof. destruct m; simpl; [eauto | done]. Qed.

(** ** Fixed-width integers

    An unsigned integer of [w] bits is a [Z] between [0] and [2^w]; an
    operation wraps around by reducing modulo [2^w]. *)
Definition wrap (w x : Z) : Z := x mod 2 ^ w.
Abbreviation u8 := (wrap 8).
Abbreviation u16 := (wrap 16).
Abbreviation u32 := (wrap 32).
Abbreviation u64 := (wrap 64).

(** The value of a two's-complement integer of 32 bits ([int]). *)
Definition s32 (x : Z) : Z := wrap 32 (x + 2 ^ 31) - 2 ^ 31.

(** Bitwise complement at width [w] ([~x]). *)
Definition lnot_w (w x : Z) : Z := wrap w (Z.lnot x).
Abbreviation lnot32 := (lnot_w 32).
Abbreviation lnot64 := (lnot_w 64).

(** [1 << n] at 64 bits: undefined when [n] is the width or more. *)
Definition shl64 (x n : Z) : result Z :=
  if (0 <=? n) && (n <? 64) then Ok (u64 (Z.shiftl x n)) else Err UndefinedShift.

(** Find first set: one plus the index of the least significant one bit of the
    low [w] bits, [0] when there is none ([__builtin_ffsll], CUDA's [__ffs]). *)
Fixpoint ffs_from (n : nat) (i x : Z) : Z :=
  match n with
  | O => 0
  | S n => if Z.testbit x i then i + 1 else ffs_from n (i + 1) x
  end.
Definition ffsll (x : Z) : Z := ffs_from 64 0 x.
Definition ffs32 (x : Z) : Z := ffs_from 32 0 x.

Definition in_range (w x : Z) : Prop := 0 ≤ x < 2 ^ w.

Lemma wrap_range w x : 0 ≤ w → in_range w (wrap w x).
Proof. intros. apply Z.mod_pos_bound. lia. Qed.

Lemma wrap_id w x : in_range w x → wrap w x = x.
Proof. apply Z.mod_small. Qed.


Lemma wrap_testbit w x i : 0 ≤ w → Z.testbit (wrap w x) i = (i <? w) && Z.testbit x i.
Proof.
  intros. unfold wrap. destruct (Z.ltb_spec i w).
  - by rewrite Z.mod_pow2_bits_low by lia.
  - by rewrite Z.mod_pow2_bits_high by lia.
Qed.

Lemma lnot_w_testbit w x i :
  0 ≤ w → 0 ≤ i → Z.testbit (lnot_w w x) i = (i <? w) && negb (Z.testbit x i).
Proof. intros. unfold lnot_w. by rewrite wrap_testbit, Z.lnot_spec by lia. Qed.

Lemma pow2_testbit n i : 0 ≤ n → Z.testbit (2 ^ n) i = (n =? i).
Proof. apply Z.pow2_bits_eqb. Qed.

Lemma ones_testbit n i : 0 ≤ n → Z.testbit (2 ^ n - 1) i = (0 <=? i) && (i <? n).
Proof.
  intros. replace (2 ^ n - 1) with (Z.ones n) by (rewrite Z.ones_equiv; lia).
  by apply Z.testbit_ones.
Qed.

Lemma land_low_mask x n : 0 ≤ n → Z.land x (Z.shiftl 1 n - 1) = x mod 2 ^ n.
Proof.
  intros. rewrite <-Z.land_ones, Z.ones_equiv, Z.shiftl_mul_pow2 by lia. f_equal. lia.
Qed.

Lemma shiftl1_pow2 n : 0 ≤ n → Z.shiftl 1 n = 2 ^ n.
Proof. intros. rewrite Z.shiftl_mul_pow2 by lia. lia. Qed.

Lemma in_range_testbit w x i : 0 ≤ w → in_range w x → w ≤ i → Z.testbit x i = false.
Proof.
  intros Hw Hx Hi. rewrite <-(wrap_id w x Hx), wrap_testbit by done.
  destruct (Z.ltb_spec i w); [lia | done].
Qed.

Lemma testbit_neg_index x i : i < 0 → Z.testbit x i = false.
Proof. apply Z.testbit_neg_r. Qed.

Lemma bits_ext_range w x y :
  0 ≤ w → in_range w x → in_range w y →
  (∀ i, 0 ≤ i < w → Z.testbit x i = Z.testbit y i) → x = y.
Proof.
  intros Hw Hx Hy H. apply Z.bits_inj'. intros i Hi.
  destruct (decide (i < w)); [apply H; lia |].
  rewrite !(in_range_testbit w) by (done || lia). done.
Qed.

Lemma land_range w x y : 0 ≤ w → in_range w x → in_range w (Z.land x y).
Proof.
  intros Hw Hx. assert (Z.land x y = wrap w (Z.land x y)) as ->; [|by apply wrap_range].
  apply Z.bits_inj'. intros i Hi. rewrite wrap_testbit, Z.land_spec by done.
  destruct (Z.ltb_spec i w); [done|]. by rewrite (in_range_testbit w x).
Qed.

Lemma lnot_w_range w x : 0 ≤ w → in_range w (lnot_w w x).
Proof. intros. by apply wrap_range. Qed.

Lemma lnot_w_involutive w x : 0 ≤ w → in_range w x → lnot_w w (lnot_w w x) = x.
Proof.
  intros Hw Hx. apply (bits_ext_range w); [done | by apply lnot_w_range | done |].
  intros i Hi. rewrite !lnot_w_testbit by lia.
  destruct (Z.ltb_spec i w); [|lia]. simpl. by destruct (Z.testbit x i).
Qed.

Create HintDb cint.
#[export] Hint Resolve wrap_range land_range lnot_w_range : cint.
#[export] Hint Extern 1 (_ ≤ _) => lia : cint.

Create Rewrite HintDb bits.
#[export] Hint Rewrite Z.land_spec Z.lor_spec Z.lxor_spec wrap_testbit lnot_w_testbit
  pow2_testbit ones_testbit shiftl1_pow2 using lia : bits.

(** Case analysis on the boolean comparisons of the goal, closing the
    contradictory cases by [lia]. *)
Ltac cmp_cases :=
  repeat match goal with
  | |- context [?a <? ?b] => destruct (Z.ltb_spec a b); try lia
  | |- context [?a <=? ?b] => destruct (Z.leb_spec a b); try lia
  | |- context [?a =? ?b] => destruct (Z.eqb_spec a b); try lia
  end; simpl.

(** Substitute what a successful monadic computation binds. *)
Ltac inv_ok :=
  repeat match goal with
  | H : (_ ≫= _) = Ok _ |- _ =>
      let a := fresh "a" in let H1 := fresh "Hb" in
      apply bind_Ok_inv in H; destruct H as (a & H1 & H)
  | H : Ok _ = Ok _ |- _ => injection H as H; subst
  | H : Err _ = Ok _ |- _ => discriminate H
  | a : _ * _ |- _ => destruct a
  end.

(** ** Find-first-set *)
Lemma ffs_from_spec n i x :
  0 ≤ i →
  (ffs_from n i x = 0 ∧ ∀ k, i ≤ k < i + Z.of_nat n → Z.testbit x k = false) ∨
  (∃ j, ffs_from n i x = j + 1 ∧ i ≤ j < i + Z.of_nat n ∧ Z.testbit x j = true ∧
        ∀ k, i ≤ k < j → Z.testbit x k = false).
Proof.
  revert i; induction n as [|n IH]; intros i Hi; simpl.
  - left. split; [done | lia].
  - destruct (Z.testbit x i) eqn:E.
    + right. exists i. repeat split; try lia. done.
    + destruct (IH (i + 1) ltac:(lia)) as [[H1 H2]|(j & H1 & H2 & H3 & H4)].
      * left. split; [done|]. intros k Hk.
        destruct (decide (k = i)) as [->|]; [done | apply H2; lia].
      * right. exists j. repeat split; try done; try lia. intros k Hk.
        destruct (decide (k = i)) as [->|]; [done | apply H4; lia].
Qed.

Lemma ffsll_none x : (∀ k, 0 ≤ k < 64 → Z.testbit x k = false) → ffsll x = 0.
Proof.
  intros H. destruct (ffs_from_spec 64 0 x) as [[? _]|(j & _ & ? & Hj & _)]; [lia|done|].
  rewrite H in Hj by lia. done.
Qed.

Lemma ffsll_some x j :
  0 ≤ j < 64 → Z.testbit x j = true → (∀ k, 0 ≤ k < j → Z.testbit x k = false) →
  ffsll x = j + 1.
Proof.
  intros Hj Ht Hlow. unfold ffsll.
  destruct (ffs_from_spec 64 0 x) as [[_ H]|(j' & Heq & ? & Hj' & H)]; [lia| |].
  - rewrite H in Ht by lia. done.
  - rewrite Heq. destruct (Z.lt_trichotomy j j') as [Hlt|[->|Hlt]]; [|done|].
    + rewrite H in Ht by lia. done.
    + rewrite Hlow in Hj' by lia. done.
Qed.

(** ** Arrays

    A C array is a list of fixed length; an access outside of it is an
    error of the model instead of stdpp's silent no-op. *)
Definition arr_get {A} (l : list A) (i : Z) : result A :=
  if 0 <=? i then
    match l !! Z.to_nat i with Some a => Ok a | None => Err OutOfBounds end
  else Err OutOfBounds.

Definition arr_set {A} (l : list A) (i : Z) (a : A) : result (list A) :=
  if (0 <=? i) && (i <? Z.of_nat (length l)) then Ok (<[Z.to_nat i := a]> l)
  else Err OutOfBounds.

Lemma arr_get_Ok {A} (l : list A) i a :
  arr_get l i = Ok a ↔ 0 ≤ i ∧ l !! Z.to_nat i = Some a.
Proof.
  unfold arr_get. destruct (Z.leb_spec 0 i); [|split; [done|lia]].
  destruct (l !! Z.to_nat i) eqn:E; split.
  - by intros [= ->].
  - by intros [_ [= ->]].
  - done.
  - by intros [_ ?].
Qed.

Lemma arr_get_lookup {A} (l : list A) i a :
  0 ≤ i → l !! Z.to_nat i = Some a → arr_get l i = Ok a.
Proof. intros. by apply arr_get_Ok. Qed.

Lemma arr_get_in_bounds {A} (l : list A) i :
  0 ≤ i < Z.of_nat (length l) → ∃ a, arr_get l i = Ok a ∧ l !! Z.to_nat i = Some a.
Proof.
  intros Hi. destruct (lookup_lt_is_Some_2 l (Z.to_nat i)) as [a Ha]; [lia|].
  exists a. split; [by apply arr_get_lookup; [lia|] | done].
Qed.

Lemma arr_set_in_bounds {A} (l : list A) i a :
  0 ≤ i < Z.of_nat (length l) → arr_set l i a = Ok (<[Z.to_nat i := a]> l).
Proof. intros. unfold arr_set. by cmp_cases. Qed.

Lemma arr_set_Ok {A} (l l' : list A) i a :
  arr_set l i a = Ok l' → 0 ≤ i < Z.of_nat (length l) ∧ l' = <[Z.to_nat i := a]> l.
Proof. unfold arr_set. cmp_cases; intros [=<-]; auto with lia. Qed.

(** Code without loops that take fuel: [fuel_free] goes through it. *)
Definition fuel_free {A} (m : result A) : Prop := m ≠ Err OutOfFuel.

Lemma fuel_free_Ok {A} (a : A) : fuel_free (Ok a).
Proof. done. Qed.
Lemma fuel_free_bind {A B} (m : result A) (f : A → result B) :
  fuel_free m → (∀ a, fuel_free (f a)) → fuel_free (m ≫= f).
Proof. unfold fuel_free. destruct m as [a|e]; simpl; [auto|]. intros Hm _ [= ->]. by apply Hm. Qed.
Lemma fuel_free_assert b : fuel_free (assert_ b).
Proof. by destruct b. Qed.
Lemma fuel_free_arr_get {A} (l : list A) i : fuel_free (arr_get l i).
Proof. unfold fuel_free, arr_get. by repeat case_match. Qed.
Lemma fuel_free_arr_set {A} (l : list A) i a : fuel_free (arr_set l i a).
Proof. unfold fuel_free, arr_set. by repeat case_match. Qed.

Create HintDb fuel_free.
#[export] Hint Resolve fuel_free_Ok fuel_free_assert fuel_free_arr_get fuel_free_arr_set : fuel_free.

Ltac fuel_free :=
  repeat first
    [ progress auto with fuel_free nocore
    | apply fuel_free_bind; [|intros ?]
    | case_match
    | done ].

(** [ends I m]: [m] does not run out of fuel, and what it returns satisfies [I]. *)
Definition ends {A} (I : A → Prop) (m : result A) : Prop :=
  match m with Ok a => I a | Err e => e ≠ OutOfFuel end.

Lemma ends_bind {A B} (I : A → Prop) (J : B → Prop) (m : result A) (f : A → result B) :
  ends I m → (∀ a, m = Ok a → I a → ends J (f a)) → ends J (m ≫= f).
Proof. destruct m as [a|e]; simpl; auto. Qed.

Lemma ends_mono {A} (I J : A → Prop) (m : result A) : ends I m → (∀ a, I a → J a) → ends J m.
Proof. destruct m as [a|e]; simpl; auto. Qed.

Lemma ends_fuel_free {A} (m : result A) : fuel_free m → ends (λ _, True) m.
Proof. unfold fuel_free. destruct m as [a|e]; simpl; [done|]. congruence. Qed.

(** The first statement of a block is free of loops. *)
Lemma ends_free_bind {A B} (J : B → Prop) (m : result A) (f : A → result B) :
  fuel_free m → (∀ a, m = Ok a → ends J (f a)) → ends J (m ≫= f).
Proof. intros Hm Hf. eapply ends_bind; [by apply ends_fuel_free|]. intros a Ha _. by apply Hf. Qed.

(** [write_run arr i l] is [arr] with [l] stored from index [i] on. *)
Definition write_run {A} (arr : list A) (i : nat) (l : list A) : list A :=
  take i arr ++ l ++ drop (i + length l) arr.

Lemma write_run_nil {A} (arr : list A) i : write_run arr i [] = arr.
Proof. unfold write_run. rewrite Nat.add_0_r. simpl. apply take_drop. Qed.

Lemma write_run_length {A} (arr : list A) i l :
  (i + length l ≤ length arr)%nat → length (write_run arr i l) = length arr.
Proof. intros. unfold write_run. rewrite !length_app, length_take, length_drop. lia. Qed.

Lemma take_write_run {A} (arr : list A) i l :
  (i ≤ length arr)%nat → take (i + length l) (write_run arr i l) = take i arr ++ l.
Proof.
  intros Hi. unfold write_run. rewrite app_assoc. apply take_app_length'.
  rewrite length_app, length_take. lia.
Qed.

Lemma write_run_cons {A} (arr : list A) i a l :
  (i + S (length l) ≤ length arr)%nat →
  write_run (<[i := a]> arr) (S i) l = write_run arr i (a :: l).
Proof.
  intros. unfold write_run. simpl.
  rewrite (take_S_r _ i a) by (apply list_lookup_insert_eq; lia).
  rewrite take_insert_ge by lia. rewrite drop_insert_lt by lia.
  rewrite <-app_assoc. simpl. do 4 f_equal. lia.
Qed.

Lemma write_run_app {A} (arr : list A) i l1 l2 :
  (i + length l1 + length l2 ≤ length arr)%nat →
  write_run (write_run arr i l1) (i + length l1) l2 = write_run arr i (l1 ++ l2).
Proof.
  intros. unfold write_run.
  rewrite take_app_ge by (rewrite length_take; lia).
  rewrite length_take, Nat.min_l by lia.
  replace (i + length l1 - i)%nat with (length l1) by lia.
  rewrite take_app_length. rewrite (drop_app_ge (take i arr)) by (rewrite length_take; lia).
  rewrite length_take, Nat.min_l by lia.
  rewrite drop_app_ge by lia. rewrite drop_drop, length_app, <-!app_assoc.
  do 4 f_equal. lia.
Qed.

Lemma filter_none {A} (P : A → Prop) `{∀ x, Decision (P x)} (l : list A) :
  (∀ x, x ∈ l → ¬ P x) → filter P l = [].
Proof.
  intros H'. induction l as [|x l IH]; [done|].
  rewrite filter_cons_False by (apply H'; left). apply IH. intros y Hy. apply H'. by right.
Qed.

(** ** Doubles

    IEEE-754 binary64, as the executable specification of the Standard Library:
    53 bits of precision, exponents below 1024, rounding to nearest even. *)
Abbreviation double := spec_float.
Definition double_of_Z (z : Z) : double := binary_normalize 53 1024 z 0 false.
Definition dmul : double → double → double := SFmul 53 1024.
Definition dadd : double → double → double := SFadd 53 1024.
Definition dsub : double → double → double := SFsub 53 1024.
Definition ddiv : double → double → double := SFdiv 53 1024.

(** Conversion to an integer truncates; out of range of [lo .. hi] it is
    undefined. *)
Definition Z_of_double (lo hi : Z) (d : double) : result Z :=
  let conv z := if (lo <=? z) && (z <=? hi) then Ok z else Err BadConversion in
  match d with
  | S754_zero _ => conv 0
  | S754_finite s m e =>
      let a := Z.shiftl (Zpos m) e in conv (if s then - a else a)
  | _ => Err BadConversion
  end.
Definition u32_of_double : double → result Z := Z_of_double 0 (2 ^ 32 - 1).

(** ** Sums *)

Definition zsum {A} (f : A → Z) (l : list A) : Z := foldr (λ a n, f a + n) 0 l.

Lemma zsum_insert {A} (f : A → Z) (l : list A) (i : nat) a b :
  l !! i = Some a → zsum f (<[i := b]> l) = zsum f l - f a + f b.
Proof.
  revert i. induction l as [|c l IH]; intros [|i]; simpl; try done.
  - intros [= ->]. lia.
  - intros Hi. rewrite (IH i Hi). lia.
Qed.

Lemma zsum_bound {A} (f : A → Z) (l : list A) m :
  (∀ i a, l !! i = Some a → 0 ≤ f a ≤ m) → 0 ≤ zsum f l ≤ Z.of_nat (length l) * m.
Proof.
  induction l as [|c l IH]; intros H; simpl; [lia|].
  pose proof (H 0%nat c eq_refl). assert (0 ≤ zsum f l ≤ Z.of_nat (length l) * m) as ?.
  { apply IH. intros i a Hi. by apply (H (S i)). }
  lia.
Qed.
