(* ===== verification/Bitmap.v ===== *)
(** * The eviction bitmap (src/src/bitmap.c, src/src/include/bitmap.h)

    One bit per item of a slab class, in words of 64 bits: [1] means "may be
    evicted", [0] means "touched since the hand of the clock passed".  The
    allocator grows the used part of the bitmap with every new slab
    ([bitmap_update]), the Sender clears a bit on every access
    ([bitmap_touch], inlined in the [ITEM_GET] macro), and the Receiver takes
    a batch of victims when memory is full ([bitmap_evict_batch]).

    The functions run between [pthread_mutex_lock] and
    [pthread_mutex_unlock] of the bitmap's own mutex, so each is one atomic
    step on the state [bitmap_t]. *)

From S2P Require Import Prelude.

Definition BITSPERWORD : Z := 64.
Definition BM_MASK_BIT : Z := 6.

(** [~(uint64_t)0] *)
Definition all_ones64 : Z := lnot64 0.

Record bitmap_t := Bitmap {
  bm_map : list Z;          (** [uint64_t *map] *)
  bm_size : Z;              (** preallocated words *)
  bm_current_size : Z;      (** words in use *)
  bm_walker : Z;            (** the hand of the clock *)
  bm_offset_mask : Z;       (** bits of the walker's word still to examine *)
}.

Definition with_map (bm : bitmap_t) (m : list Z) : bitmap_t :=
  Bitmap m (bm_size bm) (bm_current_size bm) (bm_walker bm) (bm_offset_mask bm).
Definition with_mask (bm : bitmap_t) (k : Z) : bitmap_t :=
  Bitmap (bm_map bm) (bm_size bm) (bm_current_size bm) (bm_walker bm) k.

(** [bitmap->walker ++; if (bitmap->walker == bitmap->current_size)
    bitmap->walker = 0; bitmap->offset_mask = ~0] *)
Definition advance (bm : bitmap_t) : bitmap_t :=
  let w := u32 (bm_walker bm + 1) in
  Bitmap (bm_map bm) (bm_size bm) (bm_current_size bm)
    (if w =? bm_current_size bm then 0 else w) all_ones64.

(** [malloc_ok] says whether the [malloc] of the words succeeds; the source
    tests [bitmap] instead of [bitmap->map], so a failure is followed by a
    [memset] through the null pointer. *)
Definition bitmap_init (malloc_ok : bool) (elem_num : Z) : result bitmap_t :=
  _ ← assert_ (Z.rem elem_num BITSPERWORD =? 0);
  let sz := u32 (Z.quot elem_num BITSPERWORD) in
  let len := u64 (Z.quot elem_num 8) in
  if negb malloc_ok && (0 <? len) then Err NullDeref
  else if sz * 8 <? len then Err OutOfBounds
  else Ok (Bitmap (replicate (Z.to_nat sz) all_ones64) sz 0 0 all_ones64).

(** The loop of [bitmap_evict]; one unit of fuel per iteration. *)
Fixpoint bitmap_evict_loop (fuel : nat) (bm : bitmap_t) : result (bitmap_t * Z) :=
  match fuel with
  | O => Err OutOfFuel
  | S fuel =>
      word ← arr_get (bm_map bm) (bm_walker bm);
      let j := ffsll (Z.land word (bm_offset_mask bm)) - 1 in
      if 0 <=? j then
        bit ← shl64 1 j;
        m ← arr_set (bm_map bm) (bm_walker bm)
              (Z.land (Z.lor word (bit - 1)) (lnot64 bit));
        next ← shl64 1 (j + 1);
        Ok (with_mask (with_map bm m) (lnot64 (next - 1)),
            u32 (bm_walker bm * BITSPERWORD + j))
      else bitmap_evict_loop fuel (advance bm)
  end.
Definition bitmap_evict := bitmap_evict_loop.

(** The inner loop of [bitmap_evict_batch]: store the offsets of the bits of
    [word] selected by [mask] in ascending order. *)
Fixpoint evict_word (fuel : nat) (word walker mask : Z) (offset_array : list Z) (i : Z)
    : result (Z * list Z * Z) :=
  match fuel with
  | O => Err OutOfFuel
  | S fuel =>
      let j := ffsll (Z.land word mask) - 1 in
      if 0 <=? j then
        arr ← arr_set offset_array i (u32 (u32 (Z.shiftl walker BM_MASK_BIT) + j));
        let i := u32 (i + 1) in
        if j =? 63 then Ok (mask, arr, i)
        else next ← shl64 1 (j + 1);
             evict_word fuel word walker (lnot64 (next - 1)) arr i
      else Ok (mask, offset_array, i)
  end.

Definition evict_word_fuel : nat := 65.

(** One iteration of the outer loop of [bitmap_evict_batch]. *)
Definition evict_batch_step (bm : bitmap_t) (offset_array : list Z) (i : Z)
    : result (bitmap_t * list Z * Z) :=
  record ← arr_get (bm_map bm) (bm_walker bm);
  '(mask, arr, i) ← evict_word evict_word_fuel record (bm_walker bm) (bm_offset_mask bm)
                      offset_array i;
  m ← arr_set (bm_map bm) (bm_walker bm) (lnot64 record);
  _ ← assert_ (bm_walker bm <? bm_current_size bm);
  Ok (advance (with_mask (with_map bm m) mask), arr, i).

Fixpoint evict_batch_loop (fuel : nat) (bm : bitmap_t) (offset_array : list Z) (i num : Z)
    : result (bitmap_t * list Z * Z) :=
  if i <? num then
    match fuel with
    | O => Err OutOfFuel
    | S fuel =>
        '(bm, arr, i) ← evict_batch_step bm offset_array i;
        evict_batch_loop fuel bm arr i num
    end
  else Ok (bm, offset_array, i).

(** Returns the new bitmap, the caller's array and the number of victims. *)
Definition bitmap_evict_batch (fuel : nat) (bm : bitmap_t) (offset_array : list Z) (num : Z)
    : result (bitmap_t * list Z * Z) :=
  _ ← assert_ (negb (bm_current_size bm =? 0) && (bm_walker bm <? bm_current_size bm));
  '(bm, arr, i) ← evict_batch_loop fuel bm offset_array 0 num;
  _ ← assert_ (negb (i =? 0));
  Ok (bm, arr, i).

(** The [int] result is [-1] or [0]. *)
Definition bitmap_update (bm : bitmap_t) (new_elem_num : Z) : result (bitmap_t * Z) :=
  let grown := u32 (bm_current_size bm + Z.quot new_elem_num BITSPERWORD) in
  if bm_size bm <=? grown then Ok (bm, -1)
  else
    _ ← assert_ (Z.rem new_elem_num BITSPERWORD =? 0);
    _ ← assert_ (grown <? bm_size bm);
    Ok (Bitmap (bm_map bm) (bm_size bm) grown (bm_walker bm) (bm_offset_mask bm), 0).

Definition bitmap_touch (bm : bitmap_t) (pos : Z) : result bitmap_t :=
  word ← arr_get (bm_map bm) (pos / BITSPERWORD);
  bit ← shl64 1 (pos mod BITSPERWORD);
  m ← arr_set (bm_map bm) (pos / BITSPERWORD) (Z.land word (lnot64 bit));
  Ok (with_map bm m).

(** ** Specification: the clock algorithm on whole words *)

(** The indices of the one bits of a word from [k] on, in ascending order. *)
Definition set_bits_from (k : Z) (x : Z) : list Z :=
  filter (λ b, Z.testbit x b = true) (seqZ k (64 - k)).
Abbreviation set_bits := (set_bits_from 0).

(** The mask that keeps the bits from [k] on. *)
Definition high_mask (k : Z) : Z := lnot64 (2 ^ k - 1).

(** The bit of item [pos]. *)
Definition bit_at (m : list Z) (pos : Z) : bool :=
  match m !! Z.to_nat (pos / 64) with
  | Some w => Z.testbit w (pos mod 64)
  | None => false
  end.

(** The clock sweep that [bitmap_evict_batch] promises: words are visited in
    cyclic order from the hand; a visit yields every marked item of the word in
    ascending order and flips the whole word. *)
Fixpoint sweep (fuel : nat) (cs w num : Z) (m : list Z) (out : list Z)
    : option (list Z * list Z * Z) :=
  if Z.of_nat (length out) <? num then
    match fuel with
    | O => None
    | S fuel =>
        word ← m !! Z.to_nat w;
        sweep fuel cs (if w + 1 =? cs then 0 else w + 1) num
          (<[Z.to_nat w := lnot64 word]> m)
          (out ++ ((λ b, 64 * w + b) <$> set_bits word))
    end
  else Some (m, out, w).

(** Well-formed bitmaps.  At most [2^26] words, so that every item offset fits
    in 32 bits. *)
Record bitmap_wf (bm : bitmap_t) : Prop := {
  wf_len : Z.of_nat (length (bm_map bm)) = bm_size bm;
  wf_size : bm_size bm ≤ 2 ^ 26;
  wf_current : 0 ≤ bm_current_size bm ≤ bm_size bm;
  wf_walker : 0 ≤ bm_walker bm;
  wf_walker_lt : bm_walker bm < Z.max 1 (bm_current_size bm);
  wf_words : Forall (in_range 64) (bm_map bm);
}.

(** ** Bits of a word *)

Lemma all_ones64_testbit i : 0 ≤ i → Z.testbit all_ones64 i = (i <? 64).
Proof. intros. unfold all_ones64. rewrite lnot_w_testbit, Z.bits_0 by lia. apply andb_true_r. Qed.

Lemma high_mask_testbit k i :
  0 ≤ k → 0 ≤ i → Z.testbit (high_mask k) i = (i <? 64) && (k <=? i).
Proof.
  intros. unfold high_mask. rewrite lnot_w_testbit, ones_testbit by lia. by cmp_cases.
Qed.

Lemma high_mask_0 : high_mask 0 = all_ones64.
Proof. reflexivity. Qed.

Lemma set_bits_from_nil k x :
  (∀ b, k ≤ b < 64 → Z.testbit x b = false) → set_bits_from k x = [].
Proof.
  intros H. apply filter_none. intros b Hb%elem_of_seqZ. rewrite H by lia. done.
Qed.

Lemma set_bits_from_cons k x j :
  k ≤ j < 64 → Z.testbit x j = true → (∀ b, k ≤ b < j → Z.testbit x b = false) →
  set_bits_from k x = j :: set_bits_from (j + 1) x.
Proof.
  intros Hj Ht Hlow. unfold set_bits_from.
  replace (64 - k) with ((j - k) + (1 + (64 - (j + 1)))) by lia.
  rewrite seqZ_app, seqZ_app, !filter_app by lia.
  rewrite (filter_none _ (seqZ k (j - k))).
  - replace (k + (j - k)) with j by lia. simpl app.
    rewrite (seqZ_cons j 1), (seqZ_nil (Z.succ j)), filter_cons_True by (done || lia). done.
  - intros b Hb%elem_of_seqZ. rewrite Hlow by lia. done.
Qed.

Lemma elem_of_set_bits_from k x b :
  b ∈ set_bits_from k x ↔ k ≤ b < 64 ∧ Z.testbit x b = true.
Proof.
  unfold set_bits_from. rewrite list_elem_of_filter, elem_of_seqZ.
  split; intros [? ?]; split; lia || done.
 Qed.

Lemma length_set_bits_from k x : Z.of_nat (length (set_bits_from k x)) ≤ Z.max 0 (64 - k).
Proof.
  unfold set_bits_from.
  pose proof (length_filter (λ b, Z.testbit x b = true) (seqZ k (64 - k))).
  rewrite length_seqZ in *. lia.
Qed.

(** [__builtin_ffsll(word & mask) - 1] finds the head of the remaining bits. *)
Lemma ffs_high_mask x k :
  0 ≤ k → in_range 64 x →
  let j := ffsll (Z.land x (high_mask k)) - 1 in
  (j = -1 ∧ set_bits_from k x = []) ∨
  (k ≤ j < 64 ∧ set_bits_from k x = j :: set_bits_from (j + 1) x).
Proof.
  intros Hk Hx j.
  assert (Hbit : ∀ b, 0 ≤ b < 64 →
    Z.testbit (Z.land x (high_mask k)) b = Z.testbit x b && (k <=? b)).
  { intros b Hb. rewrite Z.land_spec, high_mask_testbit by lia. by cmp_cases. }
  destruct (ffs_from_spec 64 0 (Z.land x (high_mask k))) as [[Hf H]|(j' & Hf & Hj & Ht & H)];
    [lia | | ]; fold (ffsll (Z.land x (high_mask k))) in Hf.
  - left. split; [unfold j; lia|]. apply set_bits_from_nil. intros b Hb.
    specialize (H b ltac:(lia)). rewrite Hbit in H by lia.
    destruct (Z.leb_spec k b); [|lia]. by rewrite andb_true_r in H.
  - right. assert (j = j') as -> by (unfold j; lia).
    rewrite Hbit in Ht by lia. apply andb_true_iff in Ht as [Ht Hkj].
    apply Z.leb_le in Hkj. split; [lia|]. apply set_bits_from_cons; [lia | done |].
    intros b Hb. specialize (H b ltac:(lia)). rewrite Hbit in H by lia.
    destruct (Z.leb_spec k b); [|lia]. by rewrite andb_true_r in H.
Qed.

Lemma shl64_pow2 n : 0 ≤ n < 64 → shl64 1 n = Ok (2 ^ n).
Proof.
  intros. unfold shl64. cmp_cases. f_equal. rewrite shiftl1_pow2 by lia.
  apply wrap_id. split; [lia|]. apply Z.pow_lt_mono_r; lia.
Qed.

(** ** The inner loop stores exactly the marked bits of the word *)
Lemma evict_word_spec fuel word w k arr i :
  (64 - k < Z.of_nat fuel) → 0 ≤ k ≤ 63 → in_range 64 word → 0 ≤ w < 2 ^ 26 →
  0 ≤ i → Z.of_nat (length arr) < 2 ^ 32 →
  i + Z.of_nat (length (set_bits_from k word)) ≤ Z.of_nat (length arr) →
  ∃ mask, evict_word fuel word w (high_mask k) arr i =
    Ok (mask, write_run arr (Z.to_nat i) ((λ b, 64 * w + b) <$> set_bits_from k word),
        i + Z.of_nat (length (set_bits_from k word))).
Proof.
  revert k arr i. induction fuel as [|fuel IH]; intros k arr i Hf Hk Hx Hw Hi Harr Hlen; [lia|].
  cbn [evict_word]. destruct (ffs_high_mask word k ltac:(lia) Hx) as [[-> Hnil]|[Hj Hcons]].
  - exists (high_mask k). rewrite Hnil. simpl. rewrite write_run_nil. do 2 f_equal. lia.
  - set (j := ffsll _ - 1) in *. rewrite Hcons in *. cbn [length fmap list_fmap] in *.
    destruct (Z.leb_spec 0 j); [|lia].
    assert (u32 (u32 (Z.shiftl w BM_MASK_BIT) + j) = 64 * w + j) as ->.
    { unfold BM_MASK_BIT. rewrite Z.shiftl_mul_pow2, (wrap_id 32 (w * _)), wrap_id
        by (unfold in_range; lia). lia. }
    rewrite arr_set_in_bounds by lia. rewrite bind_Ok.
    rewrite (wrap_id 32 (i + 1)) by (unfold in_range; lia).
    destruct (Z.eqb_spec j 63) as [->|].
    + exists (high_mask k). rewrite set_bits_from_nil by lia. cbn.
      rewrite <-write_run_cons by (cbn; lia). rewrite write_run_nil. done.
    + rewrite shl64_pow2 by lia. rewrite bind_Ok.
      destruct (IH (j + 1) (<[Z.to_nat i:=64 * w + j]> arr) (i + 1)) as [mask Hm];
        [lia|lia|done|done|lia|rewrite length_insert; lia|rewrite length_insert; lia|].
      exists mask. fold (high_mask (j + 1)). rewrite Hm. f_equal. f_equal; [f_equal|lia].
      replace (Z.to_nat (i + 1)) with (S (Z.to_nat i)) by lia.
      apply write_run_cons. rewrite length_fmap. lia.
Qed.

(** ** The batch eviction is the clock sweep *)

Definition zero_words (m : list Z) : nat := length (filter (λ w, w = 0) m).

Definition next_word (cs w : Z) : Z := if w + 1 =? cs then 0 else w + 1.

Lemma sweep_S fuel cs w num m out :
  sweep (S fuel) cs w num m out =
    if Z.of_nat (length out) <? num then
      word ← m !! Z.to_nat w;
      sweep fuel cs (next_word cs w) num (<[Z.to_nat w := lnot64 word]> m)
        (out ++ ((λ b, 64 * w + b) <$> set_bits word))
    else Some (m, out, w).
Proof. done. Qed.

Lemma next_word_range cs w : 0 ≤ w < cs → 0 ≤ next_word cs w < cs.
Proof. intros. unfold next_word. cmp_cases. Qed.

Lemma advance_full m sz cs w k :
  0 ≤ w < cs → cs ≤ 2 ^ 26 →
  advance (Bitmap m sz cs w k) = Bitmap m sz cs (next_word cs w) all_ones64.
Proof.
  intros. unfold advance, next_word. simpl. rewrite wrap_id by (unfold in_range; lia). done.
Qed.

Lemma length_set_bits x : Z.of_nat (length (set_bits x)) ≤ 64.
Proof. pose proof (length_set_bits_from 0 x). lia. Qed.

Section batch.
Context (sz cs num : Z) (arr : list Z).
Context (Hsz : sz ≤ 2 ^ 26) (Hcs : 0 < cs ≤ sz).
Context (Harr : num + 63 ≤ Z.of_nat (length arr)) (Harr32 : Z.of_nat (length arr) < 2 ^ 32).

Lemma evict_batch_step_spec m w out word :
  Z.of_nat (length m) = sz → 0 ≤ w < cs → Forall (in_range 64) m →
  Z.of_nat (length out) < num → m !! Z.to_nat w = Some word →
  let out' := out ++ ((λ b, 64 * w + b) <$> set_bits word) in
  evict_batch_step (Bitmap m sz cs w all_ones64) (write_run arr 0 out) (Z.of_nat (length out))
  = Ok (Bitmap (<[Z.to_nat w := lnot64 word]> m) sz cs (next_word cs w) all_ones64,
        write_run arr 0 out', Z.of_nat (length out')).
Proof.
  intros Hm Hw Hwords Hout Hword out'.
  pose proof (length_set_bits word) as Hlen.
  assert (Hrun : length (write_run arr 0 out) = length arr) by (apply write_run_length; lia).
  unfold evict_batch_step; simpl bm_map; simpl bm_walker; simpl bm_offset_mask.
  rewrite (arr_get_lookup m w word) by (done || lia). rewrite bind_Ok.
  destruct (evict_word_spec evict_word_fuel word w 0 (write_run arr 0 out)
    (Z.of_nat (length out))) as [mask Hmask];
    [done|lia|by eapply Forall_lookup_1|lia|lia|lia|rewrite Hrun; lia|].
  rewrite high_mask_0 in Hmask. rewrite Hmask, bind_Ok, arr_set_in_bounds, bind_Ok by lia.
  simpl bm_current_size. destruct (Z.ltb_spec w cs); [|lia]. cbn -[advance write_run].
  unfold with_mask, with_map. cbn -[advance write_run]. rewrite advance_full by lia.
  do 3 f_equal.
  - unfold out'. rewrite Nat2Z.id, <-write_run_app; [done|]. rewrite length_fmap. lia.
  - unfold out'. rewrite length_app, length_fmap. lia.
Qed.

Lemma sweep_words_range m w word :
  Forall (in_range 64) m → m !! w = Some word → Forall (in_range 64) (<[w := lnot64 word]> m).
Proof. intros. apply Forall_insert; [done | by apply lnot_w_range]. Qed.

Lemma evict_batch_loop_sweep fuel m w out :
  Z.of_nat (length m) = sz → 0 ≤ w < cs → Forall (in_range 64) m →
  evict_batch_loop fuel (Bitmap m sz cs w all_ones64) (write_run arr 0 out)
    (Z.of_nat (length out)) num =
  match sweep fuel cs w num m out with
  | Some (m', out', w') =>
      Ok (Bitmap m' sz cs w' all_ones64, write_run arr 0 out', Z.of_nat (length out'))
  | None => Err OutOfFuel
  end.
Proof.
  revert m w out. induction fuel as [|fuel IH]; intros m w out Hm Hw Hwords; simpl.
  { by destruct (Z.ltb_spec (Z.of_nat (length out)) num). }
  destruct (Z.ltb_spec (Z.of_nat (length out)) num); [|done].
  destruct (lookup_lt_is_Some_2 m (Z.to_nat w)) as [word Hword]; [lia|].
  rewrite (evict_batch_step_spec m w out word) by done. simpl.
  rewrite Hword. simpl. apply IH.
  - by rewrite length_insert.
  - by apply next_word_range.
  - by apply sweep_words_range.
Qed.
End batch.

(** ** Termination of the sweep *)

Lemma zero_words_insert (m : list Z) (i : nat) (x y : Z) :
  m !! i = Some x →
  (zero_words (<[i := y]> m) + (if decide (x = 0%Z) then 1 else 0) =
   zero_words m + (if decide (y = 0%Z) then 1 else 0))%nat.
Proof.
  unfold zero_words. revert i. induction m as [|z m IH]; intros [|i] Hi; simplify_eq/=.
  - rewrite !filter_cons. repeat case_decide; simpl; lia.
  - specialize (IH i Hi). rewrite !filter_cons. repeat case_decide; simpl; lia.
Qed.

Lemma set_bits_nonzero x : in_range 64 x → x ≠ 0 → set_bits x ≠ [].
Proof.
  intros Hx Hne Hnil. apply Hne. apply (bits_ext_range 64); [lia|done|by split|].
  intros i Hi. rewrite Z.bits_0. destruct (Z.testbit x i) eqn:E; [|done].
  assert (i ∈ set_bits x) as Hin by (apply elem_of_set_bits_from; auto).
  rewrite Hnil in Hin. by apply elem_of_nil in Hin.
Qed.

Lemma lnot64_0_ne : lnot64 0 ≠ 0.
Proof. done. Qed.

(** Every visit either yields a victim or turns an empty word into a full one. *)
Lemma sweep_terminates fuel cs w num m out :
  0 ≤ w < cs → cs ≤ Z.of_nat (length m) → Forall (in_range 64) m →
  2 * (num - Z.of_nat (length out)) + Z.of_nat (zero_words m) ≤ Z.of_nat fuel →
  is_Some (sweep fuel cs w num m out).
Proof.
  revert w m out. induction fuel as [|fuel IH]; intros w m out Hw Hcs Hm Hfuel; simpl.
  { destruct (Z.ltb_spec (Z.of_nat (length out)) num); [lia | by eexists]. }
  destruct (Z.ltb_spec (Z.of_nat (length out)) num); [|by eexists].
  destruct (lookup_lt_is_Some_2 m (Z.to_nat w)) as [word Hword]; [lia|].
  rewrite Hword. simpl. fold (next_word cs w). apply IH.
  - by apply next_word_range.
  - by rewrite length_insert.
  - by apply sweep_words_range.
  - pose proof (zero_words_insert m _ word (lnot64 word) Hword) as Hz.
    rewrite length_app, length_fmap. destruct (decide (word = 0)) as [->|Hne].
    + rewrite decide_False in Hz by apply lnot64_0_ne. lia.
    + pose proof (set_bits_nonzero word (Forall_lookup_1 _ _ _ _ Hm Hword) Hne) as Hbits.
      destruct (set_bits word); [done|]. simpl. case_decide; lia.
Qed.

(** ** What a sweep yields *)

Lemma sweep_bounds fuel cs w num m out m' out' w' :
  sweep fuel cs w num m out = Some (m', out', w') →
  0 ≤ w < cs → Forall (in_range 64) m →
  Z.of_nat (length out) ≤ Z.max 0 (num + 63) → Forall (λ p, 0 ≤ p < 64 * cs) out →
  num ≤ Z.of_nat (length out') ≤ Z.max 0 (num + 63) ∧ length m' = length m ∧ 0 ≤ w' < cs ∧
  Forall (in_range 64) m' ∧ Forall (λ p, 0 ≤ p < 64 * cs) out'.
Proof.
  revert w m out. induction fuel as [|fuel IH]; intros w m out; simpl;
    destruct (Z.ltb_spec (Z.of_nat (length out)) num); try done;
    try (intros [= -> -> ->]; intros; split_and!; done || lia).
  destruct (m !! Z.to_nat w) as [word|] eqn:Hword; [|done]. simpl.
  intros Hs Hw Hm Hlen Hout. pose proof (length_set_bits word).
  rewrite <-(length_insert m (Z.to_nat w) (lnot64 word)). eapply IH; [exact Hs| | | |].
  - by apply next_word_range.
  - by apply sweep_words_range.
  - rewrite length_app, length_fmap. lia.
  - apply Forall_app. split; [done|]. apply Forall_fmap, Forall_forall.
    intros b [Hb _]%elem_of_set_bits_from. simpl. lia.
Qed.

(** ** Within one lap the hand visits every word at most once *)

(** How many steps of the hand lead from [w0] to [w]. *)
Definition dist (cs w0 w : Z) : Z := (w - w0) mod cs.

(** The state of a sweep after [t] steps from word [w0] of the map [m0]. *)
Record lap_inv (cs w0 : Z) (m0 : list Z) (t w : Z) (m out : list Z) : Prop := {
  lap_hand : w = (w0 + t) mod cs;
  lap_len : length m = length m0;
  lap_visited : ∀ v, 0 ≤ v < cs → dist cs w0 v < t →
    m !! Z.to_nat v = lnot64 <$> m0 !! Z.to_nat v;
  lap_ahead : ∀ v, 0 ≤ v → (v < cs → t ≤ dist cs w0 v) →
    m !! Z.to_nat v = m0 !! Z.to_nat v;
  lap_nodup : NoDup out;
  lap_out : ∀ p, p ∈ out ↔
    0 ≤ p < 64 * cs ∧ dist cs w0 (p / 64) < t ∧ bit_at m0 p = true;
}.

Lemma dist_range cs w0 w : 0 < cs → 0 ≤ dist cs w0 w < cs.
Proof. intros. unfold dist. apply Z.mod_pos_bound. lia. Qed.

Lemma dist_hand cs w0 t : 0 < cs → 0 ≤ t < cs → dist cs w0 ((w0 + t) mod cs) = t.
Proof.
  intros. unfold dist. rewrite Zminus_mod_idemp_l. replace (w0 + t - w0) with t by lia.
  by apply Z.mod_small.
Qed.

Lemma dist_inj cs w0 v w :
  0 ≤ v < cs → 0 ≤ w < cs → dist cs w0 v = dist cs w0 w → v = w.
Proof.
  unfold dist. intros Hv Hw Heq.
  assert (H : (v - w0 + w0) mod cs = (w - w0 + w0) mod cs)
    by (by rewrite <-(Zplus_mod_idemp_l (v - w0)), <-(Zplus_mod_idemp_l (w - w0)), Heq).
  by rewrite !Z.sub_add, !Z.mod_small in H by lia.
Qed.

Lemma next_word_mod cs w0 t : 0 < cs → next_word cs ((w0 + t) mod cs) = (w0 + (t + 1)) mod cs.
Proof.
  intros. unfold next_word. rewrite Z.add_assoc, <-(Zplus_mod_idemp_l (w0 + t)).
  pose proof (Z.mod_pos_bound (w0 + t) cs).
  destruct (Z.eqb_spec ((w0 + t) mod cs + 1) cs) as [Heq|].
  - by rewrite Heq, Z.mod_same by lia.
  - rewrite (Z.mod_small ((w0 + t) mod cs + 1)) by lia. done.
Qed.

Lemma lap_inv_step cs w0 m0 t w m out word :
  0 ≤ w0 < cs → 0 ≤ t < cs → cs ≤ Z.of_nat (length m0) →
  lap_inv cs w0 m0 t w m out → m !! Z.to_nat w = Some word →
  lap_inv cs w0 m0 (t + 1) (next_word cs w) (<[Z.to_nat w := lnot64 word]> m)
    (out ++ ((λ b, 64 * w + b) <$> set_bits word)).
Proof.
  intros Hw0 Ht Hcs [-> Hlen Hvis Hahead Hnd Hout] Hword.
  set (w := (w0 + t) mod cs) in *.
  assert (Hw : 0 ≤ w < cs) by (apply Z.mod_pos_bound; lia).
  assert (Hdw : dist cs w0 w = t) by (apply dist_hand; lia).
  assert (Hword0 : m0 !! Z.to_nat w = Some word) by (rewrite <-Hahead; auto with lia).
  split.
  - apply next_word_mod. lia.
  - by rewrite length_insert.
  - intros v Hv Hd. destruct (decide (v = w)) as [->|Hne].
    + rewrite list_lookup_insert_eq by lia. by rewrite Hword0.
    + rewrite list_lookup_insert_ne by lia. apply Hvis; [done|].
      destruct (decide (dist cs w0 v = t)); [|lia]. destruct Hne. apply (dist_inj cs w0); lia.
  - intros v Hv Hd. rewrite list_lookup_insert_ne; [apply Hahead; lia|].
    intros Heq. assert (v = w) as -> by lia. lia.
  - apply NoDup_app. split_and!; [done| |].
    + intros p Hp Hp'. apply Hout in Hp as (Hr & Hd & _).
      apply list_elem_of_fmap in Hp' as (b & -> & [Hb _]%elem_of_set_bits_from).
      rewrite (Z.mul_comm 64 w), Z.div_add_l, (Z.div_small b) in Hd by lia.
      rewrite Z.add_0_r in Hd. lia.
    + apply NoDup_fmap_2; [intros ???; lia|]. unfold set_bits_from. apply NoDup_filter, NoDup_seqZ.
  - intros p. rewrite elem_of_app, Hout, list_elem_of_fmap. split.
    + intros [(?&?&?)|(b & -> & [Hb Hbit]%elem_of_set_bits_from)]; [split_and!; auto; lia|].
      unfold bit_at. rewrite (Z.mul_comm 64 w), Z.div_add_l, (Z.div_small b) by lia.
      rewrite Z.add_0_r, Hword0, Z.add_comm, Z.mod_add, Z.mod_small by lia.
      split_and!; try done; lia.
    + intros (Hp & Hd & Hbit). destruct (decide (p / 64 = w)) as [Heq|Hne].
      * right. exists (p mod 64). split; [rewrite <-Heq; apply Z.div_mod; lia|].
        apply elem_of_set_bits_from. unfold bit_at in Hbit. rewrite Heq, Hword0 in Hbit.
        split; [apply Z.mod_pos_bound; lia | done].
      * left. split_and!; auto; try lia. destruct (decide (dist cs w0 (p / 64) = t)); [|lia].
        destruct Hne. apply (dist_inj cs w0); [|lia|lia].
        split; [apply Z.div_pos; lia | apply Z.div_lt_upper_bound; lia].
Qed.

Lemma sweep_lap fuel cs w0 num m0 t w m out m' out' w' :
  0 ≤ w0 < cs → 0 ≤ t → t + Z.of_nat fuel ≤ cs → cs ≤ Z.of_nat (length m0) →
  lap_inv cs w0 m0 t w m out →
  sweep fuel cs w num m out = Some (m', out', w') →
  ∃ t', t ≤ t' ≤ t + Z.of_nat fuel ∧ lap_inv cs w0 m0 t' w' m' out'.
Proof.
  intros Hw0. revert t w m out. induction fuel as [|fuel IH]; intros t w m out Ht Hf Hcs Hinv;
    simpl; destruct (Z.ltb_spec (Z.of_nat (length out)) num); try done;
    try (intros [= -> -> ->]; exists t; split; [lia | done]).
  destruct (m !! Z.to_nat w) as [word|] eqn:Hword; [|done]. simpl. intros Hs.
  destruct (IH (t + 1) (next_word cs w) (<[Z.to_nat w := lnot64 word]> m)
    (out ++ ((λ b, 64 * w + b) <$> set_bits word))) as (t' & ? & ?);
    [lia|lia|done| |exact Hs|].
  - apply lap_inv_step; [done|lia|done|done|done].
  - exists t'. split; [lia | done].
Qed.

Lemma lap_inv_start cs w0 m0 : 0 ≤ w0 < cs → lap_inv cs w0 m0 0 w0 m0 [].
Proof.
  intros. split; try done.
  - by rewrite Z.add_0_r, Z.mod_small.
  - intros v ??. pose proof (dist_range cs w0 v). lia.
  - constructor.
  - intros p. rewrite elem_of_nil. split; [done|]. intros (? & ? & ?).
    pose proof (dist_range cs w0 (p / 64)). lia.
Qed.

(** ** bitmap_evict: one victim at a time *)

Definition evict_result (bm : bitmap_t) (word j : Z) : bitmap_t :=
  with_mask (with_map bm (<[Z.to_nat (bm_walker bm) :=
    Z.land (Z.lor word (2 ^ j - 1)) (lnot64 (2 ^ j))]> (bm_map bm))) (high_mask (j + 1)).

Lemma bitmap_evict_step fuel m sz cs w k word :
  0 ≤ w < cs → cs ≤ sz → sz ≤ 2 ^ 26 → Z.of_nat (length m) = sz → 0 ≤ k ≤ 63 →
  in_range 64 word → m !! Z.to_nat w = Some word →
  (set_bits_from k word = [] ∧
   bitmap_evict_loop (S fuel) (Bitmap m sz cs w (high_mask k)) =
   bitmap_evict_loop fuel (Bitmap m sz cs (next_word cs w) all_ones64)) ∨
  (∃ j, k ≤ j < 64 ∧ Z.testbit word j = true ∧
   bitmap_evict_loop (S fuel) (Bitmap m sz cs w (high_mask k)) =
   if j =? 63 then Err UndefinedShift
   else Ok (evict_result (Bitmap m sz cs w (high_mask k)) word j, 64 * w + j)).
Proof.
  intros Hw Hcs Hsz Hlen Hk Hword Hm. cbn [bitmap_evict_loop bm_map bm_walker bm_offset_mask].
  rewrite (arr_get_lookup m w word) by (done || lia). rewrite bind_Ok.
  destruct (ffs_high_mask word k ltac:(lia) Hword) as [[Hj Hnil]|[Hj Hcons]].
  - left. split; [done|]. rewrite Hj. simpl. by rewrite advance_full by lia.
  - right. set (j := ffsll _ - 1) in *. exists j.
    assert (Hin : j ∈ set_bits_from k word) by (rewrite Hcons; left).
    apply elem_of_set_bits_from in Hin as [_ Ht]. split; [done|]. split; [done|].
    destruct (Z.leb_spec 0 j); [|lia].
    rewrite (shl64_pow2 j), bind_Ok, arr_set_in_bounds, bind_Ok by lia.
    destruct (Z.eqb_spec j 63) as [->|]; [done|].
    rewrite shl64_pow2, bind_Ok by lia. unfold evict_result, BITSPERWORD. cbn [bm_map bm_walker].
    do 2 f_equal. rewrite wrap_id by (unfold in_range; lia). lia.
Qed.

Section evict_one.
Context (m : list Z) (sz cs : Z).
Context (Hcs : 0 < cs ≤ sz) (Hsz : sz ≤ 2 ^ 26) (Hlen : Z.of_nat (length m) = sz).
Context (Hm : Forall (in_range 64) m).

Definition evict_outcome (fuel : nat) (w k : Z) : Prop :=
  ∃ w' k' word j, 0 ≤ w' < cs ∧ m !! Z.to_nat w' = Some word ∧ 0 ≤ j < 64 ∧
    Z.testbit word j = true ∧
    bitmap_evict_loop fuel (Bitmap m sz cs w (high_mask k)) =
    if j =? 63 then Err UndefinedShift
    else Ok (evict_result (Bitmap m sz cs w' k') word j, 64 * w' + j).

Lemma bitmap_evict_reaches p word fuel t w0 :
  0 ≤ w0 < cs → 0 ≤ p < cs → m !! Z.to_nat p = Some word → word ≠ 0 →
  0 ≤ t ≤ dist cs w0 p → dist cs w0 p - t < Z.of_nat fuel →
  evict_outcome fuel ((w0 + t) mod cs) 0.
Proof.
  intros Hw0 Hp Hword Hne. revert t. induction fuel as [|fuel IH]; intros t Ht Hf; [lia|].
  pose proof (dist_range cs w0 p ltac:(lia)) as Hdp.
  set (w := (w0 + t) mod cs).
  assert (Hw : 0 ≤ w < cs) by (apply Z.mod_pos_bound; lia).
  destruct (lookup_lt_is_Some_2 m (Z.to_nat w)) as [x Hx]; [lia|].
  destruct (bitmap_evict_step fuel m sz cs w 0 x) as [[Hnil Hrec]|(j & Hj & Htb & Hrec)];
    try (done || lia); [by eapply Forall_lookup_1| |].
  - assert (t < dist cs w0 p) as Hlt.
    { destruct (decide (t = dist cs w0 p)) as [->|]; [|lia].
      assert (w = p) as Hwp.
      { apply (dist_inj cs w0); [done..|]. unfold w. by rewrite dist_hand by lia. }
      rewrite Hwp, Hword in Hx. injection Hx as <-.
      destruct (set_bits_nonzero word); [by eapply Forall_lookup_1|done|done]. }
    destruct (IH (t + 1)) as (w' & k' & word' & j & ? & ? & ? & ? & Heq); [lia..|].
    exists w', k', word', j. split_and!; try done; try lia.
    fold w. rewrite Hrec. unfold w. rewrite next_word_mod, <-high_mask_0 by lia. done.
  - exists w, (high_mask 0), x, j. split_and!; try done; lia.
Qed.

Lemma bitmap_evict_spins fuel w k :
  0 ≤ w < cs → 0 ≤ k ≤ 63 → (∀ v, 0 ≤ v < cs → m !! Z.to_nat v = Some 0) →
  bitmap_evict_loop fuel (Bitmap m sz cs w (high_mask k)) = Err OutOfFuel.
Proof.
  intros Hw Hk Hzero. revert w k Hw Hk. induction fuel as [|fuel IH]; intros w k Hw Hk; [done|].
  destruct (bitmap_evict_step fuel m sz cs w k 0) as [[_ ->]|(j & Hj & Ht & _)];
    try (done || lia); [by apply Hzero| |].
  - rewrite <-high_mask_0. apply IH; [by apply next_word_range | lia].
  - by rewrite Z.bits_0 in Ht.
Qed.
End evict_one.

Lemma bit_at_hit m w j word :
  0 ≤ w → 0 ≤ j < 64 → m !! Z.to_nat w = Some word → bit_at m (64 * w + j) = Z.testbit word j.
Proof.
  intros Hw Hj Hword. unfold bit_at.
  rewrite (Z.mul_comm 64 w), Z.div_add_l, (Z.div_small j), Z.add_0_r, Hword by lia.
  by rewrite Z.add_comm, Z.mod_add, Z.mod_small by lia.
Qed.

Lemma bit_at_split p : p = 64 * (p / 64) + p mod 64.
Proof. apply Z.div_mod. lia. Qed.

Lemma lnot_pow2_land_testbit w x j i :
  0 ≤ w → 0 ≤ i → 0 ≤ j → in_range w x →
  Z.testbit (Z.land x (lnot_w w (2 ^ j))) i = Z.testbit x i && negb (j =? i).
Proof.
  intros Hw Hi Hj Hx. rewrite Z.land_spec, lnot_w_testbit, pow2_testbit by lia.
  destruct (Z.ltb_spec i w); [done|]. by rewrite (in_range_testbit w x i).
Qed.

Lemma lor_range w x y : 0 ≤ w → in_range w x → in_range w y → in_range w (Z.lor x y).
Proof.
  intros Hw Hx Hy. assert (Z.lor x y = wrap w (Z.lor x y)) as ->; [|by apply wrap_range].
  apply Z.bits_inj'. intros i Hi. rewrite wrap_testbit, Z.lor_spec by done.
  destruct (Z.ltb_spec i w); [done|].
  by rewrite (in_range_testbit w x), (in_range_testbit w y).
Qed.

Lemma ones_range w j : 0 ≤ j ≤ w → in_range w (2 ^ j - 1).
Proof. intros. pose proof (Z.pow_le_mono_r 2 j w). unfold in_range. lia. Qed.

(** ** Properties *)

Lemma wf_split bm :
  bitmap_wf bm → 0 < bm_current_size bm →
  0 ≤ bm_walker bm < bm_current_size bm ∧ 0 < bm_current_size bm ≤ bm_size bm.
Proof. intros [? ? ? ? ? ?] ?. lia. Qed.

Lemma evict_batch_sweep fuel bm arr num :
  bitmap_wf bm → bm_offset_mask bm = all_ones64 → 0 < bm_current_size bm →
  0 < num → num + 63 ≤ Z.of_nat (length arr) < 2 ^ 32 →
  bitmap_evict_batch fuel bm arr num =
  match sweep fuel (bm_current_size bm) (bm_walker bm) num (bm_map bm) [] with
  | Some (m, out, w) =>
      Ok (Bitmap m (bm_size bm) (bm_current_size bm) w all_ones64, write_run arr 0 out,
          Z.of_nat (length out))
  | None => Err OutOfFuel
  end.
Proof.
  intros Hwf Hmask Hcs Hnum Harr. destruct (wf_split bm Hwf Hcs) as [Hw Hsz].
  destruct Hwf as [Hlen Hsize _ _ _ Hwords]. destruct bm as [m sz cs w k]. simpl in *. subst k.
  unfold bitmap_evict_batch. cbn [bm_current_size bm_walker].
  destruct (Z.eqb_spec cs 0); [lia|]. destruct (Z.ltb_spec w cs); [|lia]. cbn [negb andb].
  rewrite assert_true, bind_Ok by done.
  pose proof (evict_batch_loop_sweep sz cs num arr Hsize Hsz (proj1 Harr) (proj2 Harr)
    fuel m w [] Hlen Hw Hwords) as Hloop.
  rewrite write_run_nil in Hloop. change (Z.of_nat (length [])) with 0 in Hloop. rewrite Hloop.
  destruct (sweep fuel cs w num m []) as [[[m' out'] w']|] eqn:Hs; [|done].
  destruct (sweep_bounds _ _ _ _ _ _ _ _ _ Hs Hw Hwords) as [Hnout _]; [simpl; lia|constructor|].
  rewrite bind_Ok. destruct (Z.eqb_spec (Z.of_nat (length out')) 0); [lia|]. done.
Qed.

Lemma bitmap_evict_batch_eq fuel bm arr num :
  bitmap_wf bm → bm_offset_mask bm = all_ones64 → 0 < bm_current_size bm →
  0 < num → num + 63 ≤ Z.of_nat (length arr) < 2 ^ 32 →
  2 * num + Z.of_nat (zero_words (bm_map bm)) ≤ Z.of_nat fuel →
  ∃ m out w,
    let bm' := Bitmap m (bm_size bm) (bm_current_size bm) w all_ones64 in
    sweep fuel (bm_current_size bm) (bm_walker bm) num (bm_map bm) [] = Some (m, out, w) ∧
    bitmap_evict_batch fuel bm arr num = Ok (bm', write_run arr 0 out, Z.of_nat (length out)) ∧
    num ≤ Z.of_nat (length out) ≤ num + 63 ∧
    Forall (λ p, 0 ≤ p < 64 * bm_current_size bm) out ∧
    bitmap_wf bm'.
Proof.
  intros Hwf Hmask Hcs Hnum Harr Hfuel. destruct (wf_split bm Hwf Hcs) as [Hw Hsz].
  rewrite evict_batch_sweep by done. destruct Hwf as [Hlen Hsize ? ? ? Hwords].
  destruct (sweep_terminates fuel (bm_current_size bm) (bm_walker bm) num (bm_map bm) [])
    as [[[m out] w] Hs]; [done|lia|done|simpl; lia|].
  rewrite Hs. exists m, out, w.
  destruct (sweep_bounds _ _ _ _ _ _ _ _ _ Hs Hw Hwords) as (? & Hm & ? & ? & ?);
    [simpl; lia|constructor|].
  split_and!; try done; try lia. split; simpl; try done; try lia.
Qed.

(** C24: [bitmap_evict_batch] is the clock sweep on whole words.  From a full
    [offset_mask] it terminates - two iterations per requested victim plus one
    per empty word are enough - with exactly the offsets the sweep yields stored
    from index 0 of the caller's array on: between [num] and [num + 63] of them,
    all inside the used part of the bitmap, so that an array of [num + 63]
    entries is never overrun.  The bitmap it leaves is the one of the sweep,
    well-formed and with a full mask again. *)
Theorem bitmap_evict_batch_clock fuel bm arr num :
  bitmap_wf bm → bm_offset_mask bm = all_ones64 → 0 < bm_current_size bm →
  0 < num → num + 63 ≤ Z.of_nat (length arr) < 2 ^ 32 →
  2 * num + Z.of_nat (zero_words (bm_map bm)) ≤ Z.of_nat fuel →
  ∃ m out w,
    let bm' := Bitmap m (bm_size bm) (bm_current_size bm) w all_ones64 in
    sweep fuel (bm_current_size bm) (bm_walker bm) num (bm_map bm) [] = Some (m, out, w) ∧
    bitmap_evict_batch fuel bm arr num = Ok (bm', write_run arr 0 out, Z.of_nat (length out)) ∧
    num ≤ Z.of_nat (length out) ≤ num + 63 ∧
    Forall (λ p, 0 ≤ p < 64 * bm_current_size bm) out ∧
    bitmap_wf bm'.
Proof. apply bitmap_evict_batch_eq. Qed.

(** C33: second chance.  As long as the hand does not go round the whole bitmap
    (no more iterations than words), a batch holds no item twice, every victim
    was marked and is unmarked afterwards, and no item whose bit was cleared by
    an access is evicted. *)
Theorem bitmap_evict_batch_second_chance fuel bm arr num bm' arr' i :
  bitmap_wf bm → bm_offset_mask bm = all_ones64 → 0 < bm_current_size bm →
  0 < num → num + 63 ≤ Z.of_nat (length arr) < 2 ^ 32 →
  Z.of_nat fuel ≤ bm_current_size bm →
  bitmap_evict_batch fuel bm arr num = Ok (bm', arr', i) →
  let victims := take (Z.to_nat i) arr' in
  NoDup victims ∧
  ∀ p, p ∈ victims → bit_at (bm_map bm) p = true ∧ bit_at (bm_map bm') p = false.
Proof.
  intros Hwf Hmask Hcs Hnum Harr Hfuel. destruct (wf_split bm Hwf Hcs) as [Hw Hsz].
  rewrite evict_batch_sweep by done. destruct Hwf as [Hlen Hsize ? ? ? Hwords].
  destruct (sweep fuel _ _ num (bm_map bm) []) as [[[m out] w]|] eqn:Hs; [|done].
  intros [= <- <- <-]. rewrite Nat2Z.id. unfold write_run. simpl take. cbn [app].
  rewrite take_app_length.
  destruct (sweep_lap fuel (bm_current_size bm) (bm_walker bm) num (bm_map bm) 0 (bm_walker bm)
    (bm_map bm) [] m out w) as (t & _ & [_ _ Hvis _ Hnd Hout]);
    [done|lia|lia|lia|by apply lap_inv_start|done|].
  split; [done|]. intros p Hp. apply Hout in Hp as (Hr & Hd & Hbit). split; [done|].
  simpl. unfold bit_at in *. rewrite Hvis; [|split; [apply Z.div_pos; lia|]|done];
    [|apply Z.div_lt_upper_bound; lia].
  destruct (bm_map bm !! Z.to_nat (p / 64)) as [x|] eqn:Hx; [|done]. simpl.
  pose proof (Z.mod_pos_bound p 64). rewrite lnot_w_testbit, Hbit by lia. by destruct (_ <? _).
Qed.

(** [bitmap_touch] clears the bit of its item and of no other, and keeps the
    bitmap well-formed; it stays inside the map for every item of it. *)
Theorem bitmap_touch_clears bm pos :
  bitmap_wf bm → 0 ≤ pos < 64 * bm_size bm →
  ∃ bm', bitmap_touch bm pos = Ok bm' ∧ bitmap_wf bm' ∧
    (∀ p, 0 ≤ p → bit_at (bm_map bm') p = bit_at (bm_map bm) p && negb (p =? pos)) ∧
    (bm_size bm', bm_current_size bm', bm_walker bm', bm_offset_mask bm') =
    (bm_size bm, bm_current_size bm, bm_walker bm, bm_offset_mask bm).
Proof.
  intros [Hlen Hsz Hcs Hw Hwlt Hwords] Hpos. unfold bitmap_touch, BITSPERWORD.
  pose proof (Z.mod_pos_bound pos 64 ltac:(lia)) as Hj.
  assert (Hq : 0 ≤ pos / 64 < bm_size bm)
    by (split; [apply Z.div_pos | apply Z.div_lt_upper_bound]; lia).
  destruct (arr_get_in_bounds (bm_map bm) (pos / 64)) as (x & -> & Hx); [lia|].
  assert (Hx64 : in_range 64 x) by (by eapply Forall_lookup_1).
  rewrite bind_Ok, shl64_pow2, bind_Ok, arr_set_in_bounds, bind_Ok by lia.
  eexists. split; [done|]. split_and!; [| |done].
  - split; simpl; try done; [by rewrite length_insert|].
    apply Forall_insert; [done|]. by apply land_range.
  - intros p Hp. unfold bit_at. simpl. pose proof (bit_at_split p). pose proof (bit_at_split pos).
    pose proof (Z.mod_pos_bound p 64 ltac:(lia)).
    assert (0 ≤ p / 64) by (apply Z.div_pos; lia).
    destruct (decide (p / 64 = pos / 64)) as [Heq|Hne].
    + rewrite Heq, list_lookup_insert_eq, Hx by lia.
      rewrite lnot_pow2_land_testbit by (done || lia).
      f_equal. f_equal. destruct (Z.eqb_spec (pos mod 64) (p mod 64)), (Z.eqb_spec p pos); lia.
    + rewrite list_lookup_insert_ne by lia.
      destruct (Z.eqb_spec p pos) as [->|]; [done|]. by rewrite andb_true_r.
Qed.

Lemma bitmap_update_eq bm n :
  bitmap_wf bm → 0 ≤ n < 2 ^ 31 → n mod 64 = 0 →
  bitmap_update bm n =
    (if bm_current_size bm + n / 64 <? bm_size bm
     then Ok (Bitmap (bm_map bm) (bm_size bm) (bm_current_size bm + n / 64)
                (bm_walker bm) (bm_offset_mask bm), 0)
     else Ok (bm, -1)).
Proof.
  intros [Hlen Hsz Hcs Hw Hwlt Hwords] Hn Hmod.
  assert (0 ≤ n / 64 < 2 ^ 25) by (split; [apply Z.div_pos | apply Z.div_lt_upper_bound]; lia).
  unfold bitmap_update, BITSPERWORD. rewrite Z.quot_div_nonneg, Z.rem_mod_nonneg, Hmod by lia.
  rewrite wrap_id by (unfold in_range; lia).
  destruct (Z.leb_spec (bm_size bm) (bm_current_size bm + n / 64)),
    (Z.ltb_spec (bm_current_size bm + n / 64) (bm_size bm)); try lia; done.
Qed.

Lemma bitmap_update_Ok bm n :
  bitmap_wf bm → 0 ≤ n < 2 ^ 31 → n mod 64 = 0 →
  ∃ bm' r, bitmap_update bm n = Ok (bm', r) ∧ bitmap_wf bm' ∧
    (r = -1 ∨ r = 0 ∧ bm_current_size bm' = bm_current_size bm + n / 64) ∧
    bm_size bm' = bm_size bm ∧ bm_offset_mask bm' = bm_offset_mask bm ∧
    bm_current_size bm ≤ bm_current_size bm'.
Proof.
  intros Hwf Hn Hmod. rewrite bitmap_update_eq by done. assert (0 ≤ n / 64) by (apply Z.div_pos; lia).
  destruct (Z.ltb_spec (bm_current_size bm + n / 64) (bm_size bm)).
  - eexists _, 0. split; [done|]. destruct Hwf. split; [split; simpl; try done; lia|].
    split; [by right|]. simpl. split_and!; try done. lia.
  - exists bm, (-1). split_and!; try done. by left.
Qed.

(** [bitmap_update] grows the used part by whole words exactly when the
    grown part stays below the preallocated size, and otherwise returns [-1] and
    changes nothing: the last preallocated word is never used. *)
Theorem bitmap_update_grows bm n :
  bitmap_wf bm → 0 ≤ n < 2 ^ 31 → n mod 64 = 0 →
  bitmap_update bm n =
    (if bm_current_size bm + n / 64 <? bm_size bm
     then Ok (Bitmap (bm_map bm) (bm_size bm) (bm_current_size bm + n / 64)
                (bm_walker bm) (bm_offset_mask bm), 0)
     else Ok (bm, -1)) ∧
  ∀ bm' r, bitmap_update bm n = Ok (bm', r) → bitmap_wf bm'.
Proof.
  intros Hwf Hn Hmod. split; [by apply bitmap_update_eq|]. intros bm' r.
  destruct (bitmap_update_Ok bm n Hwf Hn Hmod) as (? & ? & -> & ? & _). by intros [= <- <-].
Qed.

Lemma bitmap_init_eq (malloc_ok : bool) (n : Z) :
  0 < n < 2 ^ 31 → n mod 64 = 0 →
  if malloc_ok then
    ∃ bm, bitmap_init malloc_ok n = Ok bm ∧ bitmap_wf bm ∧ bm_offset_mask bm = all_ones64 ∧
      bm_size bm = n / 64 ∧ bm_current_size bm = 0 ∧ ∀ p, 0 ≤ p < n → bit_at (bm_map bm) p = true
  else bitmap_init malloc_ok n = Err NullDeref.
Proof.
  intros Hn Hmod. unfold bitmap_init, BITSPERWORD.
  assert (n = 64 * (n / 64)) by (pose proof (Z.div_mod n 64); lia).
  assert (0 < n / 64 < 2 ^ 25) by lia.
  rewrite !Z.quot_div_nonneg, Z.rem_mod_nonneg, Hmod, assert_true, bind_Ok by (done || lia).
  assert (n / 8 = 8 * (n / 64)) as ->.
  { replace n with ((8 * (n / 64)) * 8) at 1 by lia. apply Z.div_mul. lia. }
  rewrite !wrap_id by (unfold in_range; lia).
  destruct (Z.ltb_spec 0 (8 * (n / 64))); [|lia].
  destruct (Z.ltb_spec (n / 64 * 8) (8 * (n / 64))); [lia|].
  destruct malloc_ok; simpl; [|done].
  eexists. split; [done|]. split_and!; try done.
  - split; simpl; try lia; [rewrite length_replicate; lia|].
    apply Forall_replicate, lnot_w_range. lia.
  - intros p Hp. unfold bit_at. simpl. pose proof (Z.mod_pos_bound p 64).
    rewrite lookup_replicate_2.
    + rewrite all_ones64_testbit by lia. apply Z.ltb_lt. lia.
    + assert (p / 64 < n / 64) by (apply Z.div_lt_upper_bound; lia).
      assert (0 ≤ p / 64) by (apply Z.div_pos; lia). lia.
Qed.

(** [bitmap_init] gives a well-formed bitmap with every item marked, and
    dereferences the null pointer when the allocation of the words fails, since
    the check that follows it tests another pointer. *)
Theorem bitmap_init_wf (malloc_ok : bool) (n : Z) :
  0 < n < 2 ^ 31 → n mod 64 = 0 →
  if malloc_ok then
    ∃ bm, bitmap_init malloc_ok n = Ok bm ∧ bitmap_wf bm ∧ bm_offset_mask bm = all_ones64 ∧
      bm_size bm = n / 64 ∧ bm_current_size bm = 0 ∧ ∀ p, 0 ≤ p < n → bit_at (bm_map bm) p = true
  else bitmap_init malloc_ok n = Err NullDeref.
Proof. apply bitmap_init_eq. Qed.

(** [bitmap_evict] returns a marked item of the used part whenever there is
    one, clears its bit and resumes after it, within one lap - unless the victim
    is the last bit of its word: then the mask is computed with a shift by the
    full width, which C leaves undefined. *)
Theorem bitmap_evict_finds_victim fuel bm k p :
  bitmap_wf bm → 0 ≤ k ≤ 63 → bm_offset_mask bm = high_mask k →
  0 ≤ p < 64 * bm_current_size bm → bit_at (bm_map bm) p = true →
  bm_current_size bm < Z.of_nat fuel →
  ∃ pos, 0 ≤ pos < 64 * bm_current_size bm ∧ bit_at (bm_map bm) pos = true ∧
    if pos mod 64 =? 63 then bitmap_evict fuel bm = Err UndefinedShift
    else ∃ bm', bitmap_evict fuel bm = Ok (bm', pos) ∧
           bit_at (bm_map bm') pos = false ∧ bm_offset_mask bm' = high_mask (pos mod 64 + 1).
Proof.
  intros Hwf Hk Hmask Hp Hbit Hfuel. destruct (wf_split bm Hwf ltac:(lia)) as [Hw Hcs].
  destruct Hwf as [Hlen Hsz _ _ _ Hwords]. destruct bm as [m sz cs w mask]. simpl in *. subst mask.
  assert (Hq : 0 ≤ p / 64 < cs) by (split; [apply Z.div_pos | apply Z.div_lt_upper_bound]; lia).
  destruct (lookup_lt_is_Some_2 m (Z.to_nat (p / 64))) as [y Hy]; [lia|].
  assert (Hy0 : y ≠ 0).
  { intros ->. unfold bit_at in Hbit. rewrite Hy, Z.bits_0 in Hbit. done. }
  assert (evict_outcome m sz cs fuel w k) as (w' & k' & word & j & Hw' & Hword & Hj & Ht & Heq).
  { destruct fuel as [|fuel]; [lia|].
    destruct (lookup_lt_is_Some_2 m (Z.to_nat w)) as [x Hx]; [lia|].
    destruct (bitmap_evict_step fuel m sz cs w k x) as [[_ Hrec]|(j & Hj & Ht & Hrec)];
      try (done || lia); [by eapply Forall_lookup_1| |].
    - destruct (bitmap_evict_reaches m sz cs Hcs Hsz Hlen Hwords (p / 64) y fuel 0 (next_word cs w))
        as (w' & k' & word & j & Hout); try done.
      + by apply next_word_range.
      + pose proof (dist_range cs (next_word cs w) (p / 64)). lia.
      + pose proof (dist_range cs (next_word cs w) (p / 64)). lia.
      + exists w', k', word, j.
        rewrite Z.add_0_r, Z.mod_small, high_mask_0 in Hout by (by apply next_word_range).
        by rewrite Hrec.
    - exists w, (high_mask k), x, j. split_and!; try done; lia. }
  exists (64 * w' + j). rewrite (bit_at_hit m w' j word) by (done || lia).
  rewrite (Z.mul_comm 64 w'), Z.add_comm, Z.mod_add, Z.mod_small by lia.
  split; [lia|]. split; [done|]. unfold bitmap_evict. rewrite Heq.
  destruct (Z.eqb_spec j 63); [done|]. eexists. split; [f_equal; f_equal; lia|].
  split; [|done]. simpl. rewrite (Z.mul_comm w' 64), Z.add_comm.
  rewrite (bit_at_hit _ w' j (Z.land (Z.lor word (2 ^ j - 1)) (lnot64 (2 ^ j)))).
  - rewrite Z.land_spec, lnot_w_testbit, pow2_testbit, Z.eqb_refl by lia.
    by rewrite andb_false_r, andb_false_r.
  - lia.
  - done.
  - apply list_lookup_insert_eq. lia.
Qed.

(** When every item of the used part has been touched, [bitmap_evict] never
    returns: unlike the batch version it does not turn empty words into full
    ones, so its loop runs round the bitmap for ever, holding the lock. *)
Theorem bitmap_evict_never_returns fuel bm k :
  bitmap_wf bm → 0 < bm_current_size bm → 0 ≤ k ≤ 63 → bm_offset_mask bm = high_mask k →
  (∀ v, 0 ≤ v < bm_current_size bm → bm_map bm !! Z.to_nat v = Some 0) →
  bitmap_evict fuel bm = Err OutOfFuel.
Proof.
  intros Hwf Hcs Hk Hmask Hzero. destruct (wf_split bm Hwf Hcs) as [Hw Hsz].
  destruct Hwf as [Hlen ? _ _ _ _]. destruct bm as [m sz cs w mask]. simpl in *. subst mask.
  by apply bitmap_evict_spins.
Qed.

(** ** The properties at a concrete bitmap

    Three words, two of them in use; items 0, 2 and 127 are marked. *)
Definition ex_bitmap : bitmap_t := Bitmap [5; 2 ^ 63; all_ones64] 3 2 0 all_ones64.
Definition ex_offsets : list Z := replicate 67 0.

Lemma ex_bitmap_wf : bitmap_wf ex_bitmap.
Proof.
  split; simpl; try lia.
  repeat constructor; unfold in_range; simpl; lia || by vm_compute.
Qed.

Lemma bitmap_evict_batch_clock_witness :
  ∃ m out w, bitmap_evict_batch 9 ex_bitmap ex_offsets 3 =
    Ok (Bitmap m 3 2 w all_ones64, write_run ex_offsets 0 out, Z.of_nat (length out)).
Proof.
  destruct (bitmap_evict_batch_clock 9 ex_bitmap ex_offsets 3 ex_bitmap_wf eq_refl)
    as (m & out & w & _ & H & _); [done|done|by vm_compute|by vm_compute|].
  exists m, out, w. exact H.
Defined.

Lemma bitmap_evict_batch_second_chance_witness :
  ∃ bm' arr', bitmap_evict_batch 2 ex_bitmap ex_offsets 3 = Ok (bm', arr', 3) ∧
    take 3 arr' = [0; 2; 127] ∧ NoDup (take 3 arr').
Proof.
  eexists _, _. split; [vm_compute; reflexivity|]. split; [reflexivity|].
  refine (proj1 (bitmap_evict_batch_second_chance 2 ex_bitmap ex_offsets 3 _ _ 3 ex_bitmap_wf
    eq_refl _ _ _ _ _)); by vm_compute.
Defined.

Lemma bitmap_touch_clears_witness :
  ∃ bm', bitmap_touch ex_bitmap 2 = Ok bm' ∧ bitmap_wf bm'.
Proof.
  destruct (bitmap_touch_clears ex_bitmap 2 ex_bitmap_wf) as (bm' & H & Hwf & _);
    [by vm_compute|]. by exists bm'.
Defined.

Lemma bitmap_update_grows_witness : bitmap_update ex_bitmap 64 = Ok (ex_bitmap, -1).
Proof. apply (bitmap_update_grows ex_bitmap 64 ex_bitmap_wf); by vm_compute. Defined.

Lemma bitmap_init_wf_witness : bitmap_init false 128 = Err NullDeref.
Proof. apply (bitmap_init_wf false 128); by vm_compute. Defined.

Lemma bitmap_evict_finds_victim_witness :
  ∃ pos, 0 ≤ pos < 128 ∧ bit_at (bm_map ex_bitmap) pos = true.
Proof.
  destruct (bitmap_evict_finds_victim 3 ex_bitmap 0 2 ex_bitmap_wf) as (pos & ? & ? & _);
    [by vm_compute..|]. by exists pos.
Defined.

Lemma bitmap_evict_never_returns_witness :
  bitmap_evict 1000 (Bitmap [0; 0; 1] 3 2 1 all_ones64) = Err OutOfFuel.
Proof.
  apply (bitmap_evict_never_returns 1000 _ 0); try by vm_compute.
  - split; simpl; try lia. repeat constructor; lia.
  - intros v Hv. simpl in Hv. assert (v = 0 ∨ v = 1) as [->| ->] by lia; reflexivity.
Defined.
