(* ===== verification/GpuHash.v ===== *)
(** * The GPU hash index (src/libgpuhash/gpu_hash.cu, gpu_hash.h)

    A table of [BUC_NUM] buckets of [ELEM_NUM] slots; a slot holds a 32-bit
    signature and the 32-bit location of an item, and is empty when its
    signature is [0].  An element has two candidate buckets: [bucket_index] of
    its hash, and [second_index] of its hash and signature.

    A unit of [ELEM_NUM] threads works on one element in lockstep: thread
    [simd_lane] looks at slot [simd_lane], and [__ballot] tells every thread
    what the others see.  A unit is therefore modelled as one function on the
    table, with the per-lane conditions as predicates on lane numbers.  What
    other units write between the instructions of this one is the parameter
    [env], a function applied at each [__syncthreads]: it is the identity for a
    unit that runs alone on its buckets. *)

From S2P Require Import Prelude.

(** ** gpu_hash.h *)

Definition ELEM_SIZE_P : Z := 3.
Definition ELEM_NUM_P : Z := 3.
Definition ELEM_NUM : Z := Z.shiftl 1 ELEM_NUM_P.
Definition MEM_P : Z := 30.
Definition BUC_P : Z := ELEM_NUM_P + ELEM_SIZE_P.
Definition HASH_MASK : Z := Z.shiftl 1 (MEM_P - BUC_P) - 1.
Definition BUC_NUM : Z := Z.shiftl 1 (MEM_P - BUC_P).
Definition IBLOCK_P : Z := 3.
Definition INSERT_BLOCK : Z := Z.shiftl 1 IBLOCK_P.
Definition BLOCK_HASH_MASK : Z := Z.shiftl 1 (MEM_P - BUC_P - IBLOCK_P) - 1.
Definition MAX_CUCKOO_NUM : Z := 5.

Record bucket_t := Bucket { b_sig : list Z; b_loc : list Z }.
Record selem_t := Selem { s_sig : Z; s_hash : Z }.
(** [delem_t] is the same type. *)
Record ielem_t := Ielem { e_sig : Z; e_hash : Z; e_loc : Z }.

(** [cudaMemset(device_hash_table, 0, HT_SIZE)]: a bucket that was never
    written is all zero. *)
Definition empty_bucket : bucket_t := Bucket (replicate 8 0) (replicate 8 0).
Abbreviation table := (gmap Z bucket_t).
Definition ht_get (t : table) (k : Z) : bucket_t := default empty_bucket (t !! k).

(** Slot [i] of a bucket; lane numbers are masked to [0..ELEM_NUM-1]. *)
Definition lane (l : list Z) (i : Z) : Z := default 0 (l !! Z.to_nat i).
Definition set_sig (b : bucket_t) (i v : Z) : bucket_t :=
  Bucket (<[Z.to_nat i := v]> (b_sig b)) (b_loc b).
Definition set_loc (b : bucket_t) (i v : Z) : bucket_t :=
  Bucket (b_sig b) (<[Z.to_nat i := v]> (b_loc b)).

(** ** Votes *)

(** [__ballot(p)] over [n] lanes. *)
Fixpoint ballot_from (n : nat) (i : Z) (p : Z → bool) : Z :=
  match n with
  | O => 0
  | S n => Z.lor (if p i then Z.shiftl 1 i else 0) (ballot_from n (i + 1) p)
  end.
Definition warp_ballot (p : Z → bool) : Z := ballot_from 32 0 p.

(** The unit's own part of a ballot: [(ballot >> bit_move) & ((1 << ELEM_NUM) - 1)]
    with [ballot] an [int] and [bit_move] computed from the thread index. *)
Definition bit_move (idx : Z) : Z :=
  Z.land idx (Z.shiftl (Z.shiftl 1 (5 - ELEM_NUM_P) - 1) ELEM_NUM_P).
Definition unit_part (ballot idx : Z) : Z :=
  Z.land (Z.shiftr (s32 ballot) (bit_move idx)) (Z.shiftl 1 ELEM_NUM - 1).

(** What it amounts to: the vote of the unit's own lanes ([unit_part_own]). *)
Definition unit_ballot (p : Z → bool) : Z := ballot_from 8 0 p.

Definition same_sig (b : bucket_t) (sig : Z) (l : Z) : bool := lane (b_sig b) l =? sig.

(** [(__ffs(ballot) - 1) & ((1 << ELEM_NUM_P) - 1)] *)
Definition chosen (ballot : Z) : Z := Z.land (ffs32 ballot - 1) (Z.shiftl 1 ELEM_NUM_P - 1).

(** The major location of an element and the rotated vote that starts there. *)
Definition ml_mask (sig : Z) : Z := Z.shiftl 1 (Z.land sig (Z.shiftl 1 ELEM_NUM_P - 1)) - 1.
Definition rotate_ballot (ballot ml : Z) : Z :=
  Z.lor (Z.shiftl (Z.land ballot ml) 16) (Z.land ballot (lnot32 ml)).

Definition empty_slots (b : bucket_t) (ml : Z) : Z :=
  rotate_ballot (unit_ballot (same_sig b 0)) ml.

(** ** Candidate buckets *)

Definition bucket_index (hash : Z) : Z := Z.land hash HASH_MASK.
Definition second_index (hash sig : Z) : Z :=
  Z.land (Z.lor (Z.land (Z.lxor hash sig) BLOCK_HASH_MASK)
                (Z.land hash (lnot32 BLOCK_HASH_MASK))) HASH_MASK.

(** ** Kernels, per element *)

Section kernels.
(** When several lanes write the same word in one instruction, CUDA keeps one
    of the values and does not say which. *)
Context (winner : list Z → Z).

(** The locations of the slots of [b] whose signature is [sig]. *)
Definition matching_locs (b : bucket_t) (sig : Z) : list Z :=
  lane (b_loc b) <$> filter (λ l, same_sig b sig l = true) (seqZ 0 ELEM_NUM).

Definition write_out (b : bucket_t) (sig old : Z) : Z :=
  match matching_locs b sig with [] => old | ls => winner ls end.

(** [hash_search] on one element: the two words [out[id << 1]] and
    [out[(id << 1) + 1]]. *)
Definition hash_search_elem (t : table) (elem : selem_t) (out : Z * Z) : Z * Z :=
  let b := ht_get t (bucket_index (s_hash elem)) in
  let out0 := write_out b (s_sig elem) out.1 in
  let b := ht_get t (second_index (s_hash elem) (s_sig elem)) in
  let out1 := write_out b (s_sig elem) out.2 in
  (out0, out1).
End kernels.

(** [hash_delete] on one element: clear the signature of every slot that holds
    this signature and location. *)
Definition same_entry (b : bucket_t) (e : ielem_t) (l : Z) : bool :=
  (lane (b_sig b) l =? e_sig e) && (lane (b_loc b) l =? e_loc e).
Definition clear_entry (b : bucket_t) (e : ielem_t) : bucket_t :=
  Bucket ((λ l, if same_entry b e l then 0 else lane (b_sig b) l) <$> seqZ 0 ELEM_NUM) (b_loc b).

Definition hash_delete_elem (t : table) (e : ielem_t) : table :=
  let k := bucket_index (e_hash e) in
  let b := ht_get t k in
  let ballot := unit_ballot (same_entry b e) in
  let t := <[k := clear_entry b e]> t in
  if negb (ballot =? 0) then t
  else
    let k := second_index (e_hash e) (e_sig e) in
    <[k := clear_entry (ht_get t k) e]> t.

Section insert.
(** Interference of the other units at the [n]th synchronisation. *)
Context (env : nat → table → table).

(** The first bucket, shared by both insertion kernels: store the location if
    the signature is there, else take an empty slot; the unit that loses a slot
    to another one tries again.  [None] means "try the next bucket". *)
Fixpoint first_bucket (fuel n : nat) (t : table) (k sig loc : Z) : result (nat * table * bool) :=
  match fuel with
  | O => Err OutOfFuel
  | S fuel =>
      let b := ht_get t k in
      let ballot := empty_slots b (ml_mask sig) in
      if negb (ballot =? 0) then
        let c := chosen ballot in
        let t := env n (<[k := set_sig b c sig]> t) in
        let b := ht_get t k in
        if lane (b_sig b) c =? sig then Ok (S n, <[k := set_loc b c loc]> t, true)
        else first_bucket fuel (S n) t k sig loc
      else Ok (S n, env n t, false)
  end.

(** The check for the same signature, before either bucket is tried. *)
Definition update_in_place (t : table) (k sig loc : Z) : option table :=
  let b := ht_get t k in
  let ballot := unit_ballot (same_sig b sig) in
  if negb (ballot =? 0) then Some (<[k := set_loc b (chosen ballot) loc]> t) else None.

(** From label [cuckoo_evict] on.  [esig] is [elem->sig], which the loop keeps
    using for the major location while [sig] and [loc] become the displaced
    element's; [hash] stays the inserted element's.  [retry] says that the
    [while (1)] is entered again for the same bucket. *)
Fixpoint cuckoo_evict (fuel n : nat) (t : table) (hash esig sig loc cuckoo_num : Z)
    (retry : bool) : result table :=
  match fuel with
  | O => Err OutOfFuel
  | S fuel =>
      let k := second_index hash sig in
      match (if retry then None else update_in_place t k sig loc) with
      | Some t => Ok t
      | None =>
          let b := ht_get t k in
          let ballot := empty_slots b (ml_mask esig) in
          let c := if negb (ballot =? 0) then chosen ballot
                   else Z.land esig (Z.shiftl 1 ELEM_NUM_P - 1) in
          let new_sig := lane (b_sig b) c in
          let new_loc := lane (b_loc b) c in
          let t := env n t in
          let t := env (S n) (<[k := set_sig (ht_get t k) c sig]> t) in
          let b := ht_get t k in
          let won := lane (b_sig b) c =? sig in
          let stored := if won then <[k := set_loc b c loc]> t else t in
          if negb (ballot =? 0) then
            if won then Ok stored
            else cuckoo_evict fuel (S (S n)) t hash esig sig loc cuckoo_num true
          else if cuckoo_num <? MAX_CUCKOO_NUM then
            if won then
              cuckoo_evict fuel (S (S n)) stored hash esig new_sig new_loc (cuckoo_num + 1) false
            else Ok t
          else Ok stored
      end
  end.

(** [hash_insert_cuckoo] on one element. *)
Definition hash_insert_cuckoo_elem (fuel : nat) (t : table) (e : ielem_t) : result table :=
  if (e_sig e =? 0) && (e_loc e =? 0) then Ok t
  else
    let k := bucket_index (e_hash e) in
    match update_in_place t k (e_sig e) (e_loc e) with
    | Some t => Ok t
    | None =>
        '(n, t, done) ← first_bucket fuel 0 t k (e_sig e) (e_loc e);
        if (done : bool) then Ok t
        else cuckoo_evict fuel n t (e_hash e) (e_sig e) (e_sig e) (e_loc e) 0 false
    end.

(** The second bucket of [hash_insert_2choice]: when it is full, the signature
    of the major location is overwritten and the loop is left by [break],
    before the location is stored. *)
Fixpoint second_choice (fuel n : nat) (t : table) (k sig loc : Z) : result table :=
  match fuel with
  | O => Err OutOfFuel
  | S fuel =>
      let b := ht_get t k in
      let ballot := empty_slots b (ml_mask sig) in
      if negb (ballot =? 0) then
        let c := chosen ballot in
        let t := env n (<[k := set_sig b c sig]> t) in
        let b := ht_get t k in
        if lane (b_sig b) c =? sig then Ok (<[k := set_loc b c loc]> t)
        else second_choice fuel (S n) t k sig loc
      else Ok (<[k := set_sig b (Z.land sig (Z.shiftl 1 ELEM_NUM_P - 1)) sig]> t)
  end.

(** [hash_insert_2choice] on one element. *)
Definition hash_insert_2choice_elem (fuel : nat) (t : table) (e : ielem_t) : result table :=
  if (e_sig e =? 0) && (e_loc e =? 0) then Ok t
  else
    let k := bucket_index (e_hash e) in
    match update_in_place t k (e_sig e) (e_loc e) with
    | Some t => Ok t
    | None =>
        '(n, t, done) ← first_bucket fuel 0 t k (e_sig e) (e_loc e);
        if (done : bool) then Ok t
        else
          let k := second_index (e_hash e) (e_sig e) in
          match update_in_place t k (e_sig e) (e_loc e) with
          | Some t => Ok t
          | None => second_choice fuel n t k (e_sig e) (e_loc e)
          end
    end.
End insert.

(** ** Launching the kernels *)

(** The element numbers a unit works on: [for (id = elem_id; id < total;
    id += step)]. *)
Fixpoint unit_ids (fuel : nat) (id step total : Z) : list Z :=
  match fuel with
  | O => []
  | S fuel => if id <? total then id :: unit_ids fuel (id + step) step total else []
  end.

(** All units of a grid of [grid] threads, [thread_num] being the argument of
    the kernel. *)
Definition kernel_ids (grid thread_num total : Z) : list Z :=
  u ← seqZ 0 (Z.shiftr grid ELEM_NUM_P);
  unit_ids (Z.to_nat total) u (Z.shiftr thread_num ELEM_NUM_P) total.

(** [gpu_hash_search] and [gpu_hash_delete] differ in the first assertion:
    the grid size in threads and the [thread_num] passed to the kernel. *)
Definition launch_size (num_thread threads_per_blk : Z) : result (Z * Z) :=
  let num_blks := Z.quot (num_thread + threads_per_blk - 1) threads_per_blk in
  _ ← assert_ (threads_per_blk <=? 1024);
  let num_thread :=
    if negb (Z.rem num_thread 32 =? 0) then Z.land (num_thread + 31) 0xffe0 else num_thread in
  _ ← assert_ (Z.rem num_thread 32 =? 0);
  Ok (num_blks * threads_per_blk, num_thread).

Definition gpu_hash_search_launch (num_thread threads_per_blk : Z) : result (Z * Z) :=
  _ ← assert_ (threads_per_blk <? num_thread);
  launch_size num_thread threads_per_blk.
Definition gpu_hash_delete_launch (num_thread threads_per_blk : Z) : result (Z * Z) :=
  _ ← assert_ (threads_per_blk <=? num_thread);
  launch_size num_thread threads_per_blk.

(** [gpu_hash_insert]: one block of 1024 threads per insert buffer. *)
Definition gpu_hash_insert_ids (total : Z) : list Z := kernel_ids 1024 1024 total.

(** ** Votes: lemmas *)

Lemma ballot_from_testbit n i p j :
  0 ≤ i → 0 ≤ j →
  Z.testbit (ballot_from n i p) j = (i <=? j) && (j <? i + Z.of_nat n) && p j.
Proof.
  revert i. induction n as [|n IH]; intros i Hi Hj; cbn [ballot_from].
  - rewrite Z.bits_0. cmp_cases; done.
  - rewrite Z.lor_spec, IH by lia.
    assert (Z.testbit (if p i then Z.shiftl 1 i else 0) j = p i && (i =? j)) as ->.
    { destruct (p i); [by rewrite shiftl1_pow2, pow2_testbit by lia | apply Z.bits_0]. }
    destruct (decide (i = j)) as [->|].
    + cmp_cases; destruct (p j); done.
    + cmp_cases; rewrite ?andb_false_r; done.
Qed.

Lemma testbit_range w x : 0 ≤ w → 0 ≤ x → (∀ j, w ≤ j → Z.testbit x j = false) → in_range w x.
Proof.
  intros Hw Hx H. assert (x = wrap w x) as ->; [|by apply wrap_range].
  apply Z.bits_inj'. intros j Hj. rewrite wrap_testbit by lia.
  destruct (Z.ltb_spec j w); [done|]. by rewrite H.
Qed.

Lemma ballot_from_nonneg n i p : 0 ≤ ballot_from n i p.
Proof.
  revert i. induction n as [|n IH]; intros i; simpl; [lia|].
  apply Z.lor_nonneg. split; [|apply IH]. destruct (p i); [|lia]. by apply Z.shiftl_nonneg.
Qed.

Lemma unit_ballot_testbit p j : 0 ≤ j → Z.testbit (unit_ballot p) j = (j <? 8) && p j.
Proof. intros. unfold unit_ballot. rewrite ballot_from_testbit by lia. by cmp_cases. Qed.

Lemma unit_ballot_range p : in_range 8 (unit_ballot p).
Proof.
  apply testbit_range; [lia|apply ballot_from_nonneg|].
  intros j Hj. rewrite unit_ballot_testbit by lia. by cmp_cases.
Qed.

Lemma s32_testbit x j : 0 ≤ j < 32 → in_range 32 x → Z.testbit (s32 x) j = Z.testbit x j.
Proof.
  intros Hj Hx. unfold s32.
  rewrite <-(Z.mod_pow2_bits_low (wrap 32 (x + 2 ^ 31) - 2 ^ 31) 32) by lia.
  unfold wrap. rewrite Zminus_mod_idemp_l. replace (x + 2 ^ 31 - 2 ^ 31) with x by lia.
  by rewrite Z.mod_pow2_bits_low by lia.
Qed.

Lemma low_mask_testbit n j : 0 ≤ n → 0 ≤ j → Z.testbit (Z.shiftl 1 n - 1) j = (j <? n).
Proof. intros. rewrite shiftl1_pow2, ones_testbit by lia. by cmp_cases. Qed.

Lemma land7 x : Z.land x (Z.shiftl 1 ELEM_NUM_P - 1) = x mod 8.
Proof. change (Z.shiftl 1 ELEM_NUM_P - 1) with (Z.ones 3). by rewrite Z.land_ones by lia. Qed.

Lemma bit_move_spec idx : 0 ≤ idx → bit_move idx = 8 * ((idx / 8) mod 4).
Proof.
  intros. unfold bit_move.
  change (Z.shiftl (Z.shiftl 1 (5 - ELEM_NUM_P) - 1) ELEM_NUM_P) with (Z.shiftl (Z.ones 2) 3).
  replace (idx / 8) with (Z.shiftr idx 3) by (by rewrite Z.shiftr_div_pow2 by lia).
  replace (Z.shiftr idx 3 mod 4) with (Z.land (Z.shiftr idx 3) (Z.ones 2))
    by (by rewrite Z.land_ones by lia).
  rewrite Z.mul_comm, <-(Z.shiftl_mul_pow2 _ 3) by lia.
  apply Z.bits_inj'. intros j Hj. rewrite !Z.land_spec, !Z.shiftl_spec, Z.land_spec by lia.
  destruct (Z.ltb_spec j 3).
  - rewrite !(Z.testbit_neg_r _ (j - 3)) by lia. by rewrite andb_false_r.
  - rewrite Z.shiftr_spec by lia. do 2 f_equal. lia.
Qed.

(** ** The slot a unit chooses *)

Lemma chosen_unit p :
  unit_ballot p ≠ 0 →
  0 ≤ chosen (unit_ballot p) < 8 ∧ p (chosen (unit_ballot p)) = true.
Proof.
  intros Hne. unfold chosen. rewrite land7.
  destruct (ffs_from_spec 32 0 (unit_ballot p)) as [[_ H]|(j & Hf & Hj & Ht & _)]; [lia| |].
  - destruct Hne. apply (bits_ext_range 32); [lia| | |].
    + destruct (unit_ballot_range p). split; [lia|]. eapply Z.lt_le_trans; [done|].
      apply Z.pow_le_mono_r; lia.
    + done.
    + intros i Hi. rewrite Z.bits_0. apply H. lia.
  - unfold ffs32. rewrite Hf. rewrite unit_ballot_testbit in Ht by lia.
    apply andb_true_iff in Ht as [Hlt Hp]. apply Z.ltb_lt in Hlt.
    replace (j + 1 - 1) with j by lia. rewrite Z.mod_small by lia. split; [lia | done].
Qed.

Lemma unit_ballot_zero p : unit_ballot p = 0 ↔ ∀ l, 0 ≤ l < 8 → p l = false.
Proof.
  split.
  - intros H l Hl. pose proof (unit_ballot_testbit p l ltac:(lia)) as Ht.
    rewrite H, Z.bits_0 in Ht. destruct (Z.ltb_spec l 8); [done | lia].
  - intros H. destruct (unit_ballot_range p). apply (bits_ext_range 8); [lia|done|done|].
    intros j Hj. rewrite unit_ballot_testbit, Z.bits_0, H by lia. by rewrite andb_false_r.
Qed.

Lemma ml_mask_testbit sig j : 0 ≤ j → Z.testbit (ml_mask sig) j = (j <? sig mod 8).
Proof.
  intros. unfold ml_mask. rewrite land7. pose proof (Z.mod_pos_bound sig 8 ltac:(lia)).
  rewrite low_mask_testbit by lia. done.
Qed.

Lemma rotate_testbit p sig j :
  0 ≤ j →
  Z.testbit (rotate_ballot (unit_ballot p) (ml_mask sig)) j =
  ((j <? 8) && p j && (sig mod 8 <=? j)) ||
  ((16 <=? j) && (j - 16 <? sig mod 8) && p (j - 16)).
Proof.
  intros Hj. unfold rotate_ballot. pose proof (Z.mod_pos_bound sig 8 ltac:(lia)).
  rewrite Z.lor_spec, Z.shiftl_spec, !Z.land_spec, lnot_w_testbit by lia.
  rewrite (unit_ballot_testbit p j), (ml_mask_testbit sig j) by lia.
  destruct (Z.leb_spec 16 j).
  - rewrite unit_ballot_testbit, ml_mask_testbit by lia.
    cmp_cases; destruct (p j), (p (j - 16)); done.
  - rewrite (Z.testbit_neg_r _ (j - 16)) by lia.
    cmp_cases; destruct (p j), (p (j - 16)); done.
Qed.

Lemma rotate_range p sig : in_range 32 (rotate_ballot (unit_ballot p) (ml_mask sig)).
Proof.
  pose proof (Z.mod_pos_bound sig 8 ltac:(lia)).
  apply testbit_range; [lia| |].
  - apply Z.lor_nonneg. split.
    + apply Z.shiftl_nonneg, Z.land_nonneg. left. apply unit_ballot_range.
    + apply Z.land_nonneg. left. apply unit_ballot_range.
  - intros j Hj. rewrite rotate_testbit by lia. by cmp_cases.
Qed.

(** The rotated vote is empty exactly when the vote is, and the chosen slot is
    one that voted. *)
Lemma chosen_rotate p sig :
  let r := rotate_ballot (unit_ballot p) (ml_mask sig) in
  (r = 0 ∧ (∀ l, 0 ≤ l < 8 → p l = false)) ∨
  (r ≠ 0 ∧ 0 ≤ chosen r < 8 ∧ p (chosen r) = true).
Proof.
  intros r. pose proof (Z.mod_pos_bound sig 8 ltac:(lia)) as Hmod.
  destruct (ffs_from_spec 32 0 r) as [[_ H]|(j & Hf & Hj & Ht & _)]; [lia| |].
  - left. split.
    + apply (bits_ext_range 32); [lia|apply rotate_range|done|].
      intros i Hi. rewrite Z.bits_0. apply H. lia.
    + intros l Hl. destruct (Z.ltb_spec l (sig mod 8)).
      * specialize (H (l + 16) ltac:(lia)). unfold r in H. rewrite rotate_testbit in H by lia.
        replace (l + 16 - 16) with l in H by lia. revert H. by cmp_cases.
      * specialize (H l ltac:(lia)). unfold r in H. rewrite rotate_testbit in H by lia.
        revert H. cmp_cases; by rewrite ?andb_true_r, ?orb_false_r.
  - right. split; [intros Hr; by rewrite Hr, Z.bits_0 in Ht|].
    unfold chosen, ffs32. rewrite Hf, land7. replace (j + 1 - 1) with j by lia.
    unfold r in Ht. rewrite rotate_testbit in Ht by lia.
    apply orb_true_iff in Ht as [[[Hlt Hp]%andb_true_iff Hle]%andb_true_iff
                                |[[Hle Hlt]%andb_true_iff Hp]%andb_true_iff].
    + apply Z.ltb_lt in Hlt. rewrite Z.mod_small by lia. split; [lia | done].
    + apply Z.leb_le in Hle. apply Z.ltb_lt in Hlt.
      replace j with ((j - 16) + 2 * 8) by lia. rewrite Z.mod_add, Z.mod_small by lia.
      split; [lia | done].
Qed.

(** ** Specification: a bucket is a small dictionary

    A well-formed bucket has eight slots and no signature twice; what it means
    is the finite map from the signatures present to their locations. *)
Record bucket_wf (b : bucket_t) : Prop := {
  wf_sig : length (b_sig b) = 8%nat;
  wf_loc : length (b_loc b) = 8%nat;
  wf_inj : ∀ i j, 0 ≤ i < 8 → 0 ≤ j < 8 →
    lane (b_sig b) i = lane (b_sig b) j → lane (b_sig b) i ≠ 0 → i = j;
}.

Definition table_wf (t : table) : Prop := ∀ k, bucket_wf (ht_get t k).

Definition used_slots (b : bucket_t) : list Z :=
  filter (λ l, lane (b_sig b) l ≠ 0) (seqZ 0 ELEM_NUM).

Definition bview (b : bucket_t) : gmap Z Z :=
  list_to_map ((λ l, (lane (b_sig b) l, lane (b_loc b) l)) <$> used_slots b).

Definition has_room (b : bucket_t) : Prop := ∃ l, 0 ≤ l < 8 ∧ lane (b_sig b) l = 0.

Lemma elem_of_used_slots b l : l ∈ used_slots b ↔ 0 ≤ l < 8 ∧ lane (b_sig b) l ≠ 0.
Proof.
  unfold used_slots. rewrite list_elem_of_filter, elem_of_seqZ.
  change ELEM_NUM with 8. split; intros [? ?]; split; lia || done.
Qed.

Lemma bview_Some b s v :
  bucket_wf b →
  bview b !! s = Some v ↔
  s ≠ 0 ∧ ∃ l, 0 ≤ l < 8 ∧ lane (b_sig b) l = s ∧ lane (b_loc b) l = v.
Proof.
  intros Hwf. unfold bview. rewrite <-elem_of_list_to_map.
  - rewrite list_elem_of_fmap. split.
    + intros (l & [= -> ->] & Hl%elem_of_used_slots). naive_solver.
    + intros (Hs & l & Hl & <- & <-). exists l. split; [done|]. by apply elem_of_used_slots.
  - rewrite <-list_fmap_compose. apply NoDup_fmap_2_strong.
    + intros i j [Hi Hi0]%elem_of_used_slots [Hj _]%elem_of_used_slots Heq. simpl in Heq.
      by apply (wf_inj b Hwf).
    + apply NoDup_filter, NoDup_seqZ.
Qed.

Lemma bview_None b s :
  bucket_wf b → s ≠ 0 →
  bview b !! s = None ↔ ∀ l, 0 ≤ l < 8 → lane (b_sig b) l ≠ s.
Proof.
  intros Hwf Hs. split.
  - intros Hn l Hl <-. apply (eq_None_not_Some (bview b !! lane (b_sig b) l)); [done|].
    exists (lane (b_loc b) l). apply bview_Some; naive_solver.
  - intros H. destruct (bview b !! s) eqn:E; [|done].
    apply bview_Some in E as (_ & l & Hl & Heq & _); [|done]. by destruct (H l).
Qed.

(** ** Writing a slot *)

Lemma lane_insert (l : list Z) c i v :
  0 ≤ c < 8 → 0 ≤ i → length l = 8%nat →
  lane (<[Z.to_nat c := v]> l) i = if i =? c then v else lane l i.
Proof.
  intros Hc Hi Hl. unfold lane. destruct (Z.eqb_spec i c) as [->|].
  - by rewrite list_lookup_insert_eq by lia.
  - by rewrite list_lookup_insert_ne by lia.
Qed.

Definition put (b : bucket_t) (c sig loc : Z) : bucket_t := set_loc (set_sig b c sig) c loc.

Lemma put_lanes b c sig loc i :
  bucket_wf b → 0 ≤ c < 8 → 0 ≤ i →
  lane (b_sig (put b c sig loc)) i = (if i =? c then sig else lane (b_sig b) i) ∧
  lane (b_loc (put b c sig loc)) i = (if i =? c then loc else lane (b_loc b) i).
Proof.
  intros [? ? _] Hc Hi. simpl. by rewrite !lane_insert by done.
Qed.

(** A signature may be stored in any slot if no other slot holds it. *)
Lemma put_wf b c sig loc :
  bucket_wf b → 0 ≤ c < 8 → (∀ l, 0 ≤ l < 8 → lane (b_sig b) l = sig → l = c) →
  bucket_wf (put b c sig loc).
Proof.
  intros Hwf Hc Hfresh. split.
  - simpl. rewrite length_insert. apply Hwf.
  - simpl. rewrite length_insert. apply Hwf.
  - intros i j Hi Hj. destruct (put_lanes b c sig loc i Hwf Hc) as [-> _]; [lia|].
    destruct (put_lanes b c sig loc j Hwf Hc) as [-> _]; [lia|].
    destruct (Z.eqb_spec i c), (Z.eqb_spec j c); intros Heq Hne; subst; try lia.
    + symmetry. by apply Hfresh.
    + by apply Hfresh.
    + by apply (wf_inj b Hwf).
Qed.

Lemma put_view b c sig loc :
  bucket_wf b → 0 ≤ c < 8 → sig ≠ 0 →
  (∀ l, 0 ≤ l < 8 → lane (b_sig b) l = sig → l = c) →
  bview (put b c sig loc) = <[sig := loc]> (delete (lane (b_sig b) c) (bview b)).
Proof.
  intros Hwf Hc Hsig Hfresh. assert (Hwf' : bucket_wf (put b c sig loc)) by (by apply put_wf).
  apply map_eq. intros s. apply option_eq. intros v.
  rewrite bview_Some by done. rewrite lookup_insert. case_decide as Hs.
  - subst s. split.
    + intros (_ & l & Hl & Hls & Hll). destruct (put_lanes b c sig loc l Hwf Hc) as [Hs' Hl']; [lia|].
      rewrite Hs' in Hls. rewrite Hl' in Hll. destruct (Z.eqb_spec l c); [congruence|].
      by specialize (Hfresh l Hl Hls).
    + intros [= ->]. split; [done|]. exists c. split; [done|].
      destruct (put_lanes b c sig v c Hwf Hc) as [-> ->]; [lia|]. by rewrite Z.eqb_refl.
  - rewrite lookup_delete. split.
    + intros (Hs0 & l & Hl & Hls & Hll). destruct (put_lanes b c sig loc l Hwf Hc) as [Hs' Hl']; [lia|].
      rewrite Hs' in Hls. rewrite Hl' in Hll. destruct (Z.eqb_spec l c) as [->|Hne]; [congruence|].
      case_decide as Hd.
      * destruct Hne. apply (wf_inj b Hwf); congruence || done.
      * apply bview_Some; naive_solver.
    + case_decide as Hd; [done|]. rewrite bview_Some by done.
      intros (Hs0 & l & Hl & Hls & Hll). split; [done|]. exists l. split; [done|].
      destruct (put_lanes b c sig loc l Hwf Hc) as [-> ->]; [lia|].
      destruct (Z.eqb_spec l c) as [->|]; [congruence | done].
Qed.

(** Storing a location under the signature a slot already has. *)
Lemma set_loc_put b c loc :
  bucket_wf b → 0 ≤ c < 8 → set_loc b c loc = put b c (lane (b_sig b) c) loc.
Proof.
  intros [Hs _ _] Hc. unfold put, set_loc, set_sig. simpl. f_equal.
  symmetry. apply list_insert_id. unfold lane.
  destruct (lookup_lt_is_Some_2 (b_sig b) (Z.to_nat c)) as [v ->]; [lia | done].
Qed.

Lemma set_sig_put b c sig :
  bucket_wf b → 0 ≤ c < 8 → set_sig b c sig = put b c sig (lane (b_loc b) c).
Proof.
  intros [_ Hl _] Hc. unfold put, set_loc, set_sig. simpl. f_equal.
  symmetry. apply list_insert_id. unfold lane.
  destruct (lookup_lt_is_Some_2 (b_loc b) (Z.to_nat c)) as [v ->]; [lia | done].
Qed.

Lemma set_loc_view b c loc :
  bucket_wf b → 0 ≤ c < 8 → lane (b_sig b) c ≠ 0 →
  bucket_wf (set_loc b c loc) ∧
  bview (set_loc b c loc) = <[lane (b_sig b) c := loc]> (bview b).
Proof.
  intros Hwf Hc Hne. rewrite set_loc_put by done.
  assert (∀ l, 0 ≤ l < 8 → lane (b_sig b) l = lane (b_sig b) c → l = c).
  { intros l Hl Heq. apply (wf_inj b Hwf); congruence || done. }
  split; [by apply put_wf|]. rewrite put_view by done. apply insert_delete_eq.
Qed.

Lemma lane_empty_bucket i : lane (replicate 8 0) i = 0.
Proof.
  unfold lane. destruct (replicate 8 0 !! Z.to_nat i) eqn:E; [|done].
  by apply lookup_replicate_1 in E as [-> _].
Qed.

Lemma empty_bucket_wf : bucket_wf empty_bucket.
Proof. split; [done|done|]. intros i j _ _ _ H. by rewrite lane_empty_bucket in H. Qed.

Lemma ht_get_insert (t : table) k k' b :
  ht_get (<[k := b]> t) k' = if decide (k = k') then b else ht_get t k'.
Proof. unfold ht_get. rewrite lookup_insert. by case_decide. Qed.

Lemma table_wf_insert t k b : table_wf t → bucket_wf b → table_wf (<[k := b]> t).
Proof. intros Ht Hb k'. rewrite ht_get_insert. by case_decide. Qed.

(** ** Candidate buckets: lemmas *)

Lemma HASH_MASK_testbit j : 0 ≤ j → Z.testbit HASH_MASK j = (j <? 24).
Proof. apply low_mask_testbit. done. Qed.

Lemma BLOCK_HASH_MASK_testbit j : 0 ≤ j → Z.testbit BLOCK_HASH_MASK j = (j <? 21).
Proof. apply low_mask_testbit. done. Qed.

Lemma bucket_index_testbit h j :
  0 ≤ j → Z.testbit (bucket_index h) j = (j <? 24) && Z.testbit h j.
Proof.
  intros. unfold bucket_index. rewrite Z.land_spec, HASH_MASK_testbit by lia. apply andb_comm.
Qed.

Lemma second_index_testbit h s j :
  0 ≤ j →
  Z.testbit (second_index h s) j =
  (j <? 24) && (if j <? 21 then xorb (Z.testbit h j) (Z.testbit s j) else Z.testbit h j).
Proof.
  intros. unfold second_index.
  rewrite Z.land_spec, Z.lor_spec, !Z.land_spec, Z.lxor_spec, lnot_w_testbit, HASH_MASK_testbit,
    BLOCK_HASH_MASK_testbit by lia.
  cmp_cases; destruct (Z.testbit h j), (Z.testbit s j); done.
Qed.

Lemma bucket_index_range h : 0 ≤ bucket_index h < BUC_NUM.
Proof.
  unfold bucket_index. change HASH_MASK with (Z.ones 24). rewrite Z.land_ones by lia.
  by apply Z.mod_pos_bound.
Qed.

Lemma second_index_range h s : 0 ≤ second_index h s < BUC_NUM.
Proof.
  unfold second_index. change HASH_MASK with (Z.ones 24). rewrite Z.land_ones by lia.
  by apply Z.mod_pos_bound.
Qed.

Ltac index_bits :=
  apply Z.bits_inj'; let j := fresh "j" in intros j ?;
  repeat (first [rewrite second_index_testbit by lia | rewrite bucket_index_testbit by lia
                |rewrite Z.lxor_spec | rewrite Z.land_spec | rewrite BLOCK_HASH_MASK_testbit by lia]);
  cmp_cases;
  repeat match goal with |- context [Z.testbit ?x ?i] => destruct (Z.testbit x i) end; done.

Lemma second_index_involutive h s : second_index (second_index h s) s = bucket_index h.
Proof. index_bits. Qed.

Lemma second_index_bucket h s : second_index (bucket_index h) s = second_index h s.
Proof. index_bits. Qed.

Lemma bucket_index_second h s : bucket_index (second_index h s) = second_index h s.
Proof. index_bits. Qed.

(** The kernel moves a displaced element [s'] to [second_index h s'] with the
    hash [h] of the inserted element; relative to the bucket it was taken from
    this is off by the low bits of the inserted signature. *)
Lemma second_index_displaced h s s' :
  second_index h s' = Z.lxor (second_index (second_index h s) s') (Z.land s BLOCK_HASH_MASK).
Proof. index_bits. Qed.

(** ** Searching *)

Section search.
Context (winner : list Z → Z) (winner_in : ∀ l, l ≠ [] → winner l ∈ l).

Lemma write_out_view b sig old :
  bucket_wf b → sig ≠ 0 → write_out winner b sig old = default old (bview b !! sig).
Proof.
  intros Hwf Hsig. unfold write_out.
  assert (Hm : ∀ v, v ∈ matching_locs b sig ↔ bview b !! sig = Some v).
  { intros v. rewrite bview_Some by done. unfold matching_locs. rewrite list_elem_of_fmap.
    split.
    - intros (l & -> & Hl). rewrite list_elem_of_filter, elem_of_seqZ in Hl.
      change ELEM_NUM with 8 in Hl. destruct Hl as [Hs%Z.eqb_eq Hl].
      split; [done|]. exists l. split_and!; try done; lia.
    - intros (_ & l & Hl & Hs & <-). exists l. split; [done|].
      rewrite list_elem_of_filter, elem_of_seqZ. change ELEM_NUM with 8.
      split; [by apply Z.eqb_eq | lia]. }
  destruct (matching_locs b sig) as [|v ls] eqn:E.
  - destruct (bview b !! sig) as [v|]; [|done].
    pose proof (proj2 (Hm v) eq_refl) as Hin. by apply elem_of_nil in Hin.
  - assert (winner (v :: ls) ∈ v :: ls) as Hw by (by apply winner_in).
    by rewrite (proj1 (Hm _) Hw).
Qed.

(** With the output cleared, as the caller does, the two words are the two
    dictionary lookups. *)
Lemma hash_search_elem_view t h s :
  table_wf t → s ≠ 0 →
  hash_search_elem winner t (Selem s h) (0, 0) =
  (default 0 (bview (ht_get t (bucket_index h)) !! s),
   default 0 (bview (ht_get t (second_index h s)) !! s)).
Proof. intros Ht Hs. unfold hash_search_elem. simpl. by rewrite !write_out_view. Qed.
End search.

(** The location the Sender takes from the two words. *)
Definition found (out : Z * Z) : Z := if out.1 =? 0 then out.2 else out.1.

(** ** Inserting without interference *)

Abbreviation alone := (λ (_ : nat) (t : table), t).

Definition stored (t t' : table) (k sig loc : Z) : Prop :=
  ∃ b', t' = <[k := b']> t ∧ bucket_wf b' ∧ bview b' = <[sig := loc]> (bview (ht_get t k)).

Lemma same_sig_eq b sig l : same_sig b sig l = true ↔ lane (b_sig b) l = sig.
Proof. apply Z.eqb_eq. Qed.

Lemma update_in_place_spec t k sig loc :
  table_wf t → sig ≠ 0 →
  match update_in_place t k sig loc with
  | Some t' => is_Some (bview (ht_get t k) !! sig) ∧ stored t t' k sig loc
  | None => bview (ht_get t k) !! sig = None
  end.
Proof.
  intros Ht Hsig. unfold update_in_place. set (b := ht_get t k).
  destruct (Z.eqb_spec (unit_ballot (same_sig b sig)) 0) as [Hz|Hnz]; simpl.
  - apply bview_None; [apply Ht|done|]. intros l Hl Heq.
    pose proof (proj1 (unit_ballot_zero _) Hz l Hl) as H.
    rewrite (proj2 (same_sig_eq b sig l) Heq) in H. done.
  - destruct (chosen_unit _ Hnz) as [Hc Heq%same_sig_eq].
    set (c := chosen _) in *. destruct (set_loc_view b c loc (Ht k) Hc) as [Hwf' Hview];
      [congruence|]. rewrite Heq in Hview. split.
    + exists (lane (b_loc b) c). apply bview_Some; [apply Ht|]. naive_solver.
    + by exists (set_loc b c loc).
Qed.

Lemma put_stored t k c sig loc :
  table_wf t → sig ≠ 0 → 0 ≤ c < 8 → lane (b_sig (ht_get t k)) c = 0 →
  bview (ht_get t k) !! sig = None →
  stored t (<[k := put (ht_get t k) c sig loc]> t) k sig loc.
Proof.
  intros Ht Hsig Hc Hempty Hnone. eexists. split; [done|].
  assert (∀ l, 0 ≤ l < 8 → lane (b_sig (ht_get t k)) l = sig → l = c).
  { intros l Hl Heq. by destruct (proj1 (bview_None _ sig (Ht k) Hsig) Hnone l Hl). }
  split; [by apply put_wf|]. rewrite put_view, Hempty, delete_id; try done.
  destruct (bview (ht_get t k) !! 0) eqn:E; [|done]. by apply bview_Some in E as [[] _].
Qed.

(** The voted empty slot, if the bucket has one. *)
Lemma empty_slots_spec b sig :
  (empty_slots b (ml_mask sig) = 0 ∧ ¬ has_room b) ∨
  (empty_slots b (ml_mask sig) ≠ 0 ∧ has_room b ∧
   0 ≤ chosen (empty_slots b (ml_mask sig)) < 8 ∧
   lane (b_sig b) (chosen (empty_slots b (ml_mask sig))) = 0).
Proof.
  destruct (chosen_rotate (same_sig b 0) sig) as [[Hz H]|(Hnz & Hc & H)].
  - left. split; [done|]. intros (l & Hl & H0). specialize (H l Hl).
    by rewrite (proj2 (same_sig_eq b 0 l) H0) in H.
  - right. apply same_sig_eq in H. split; [done|]. split; [|done].
    by exists (chosen (empty_slots b (ml_mask sig))).
Qed.

Lemma write_slot t k c sig loc :
  0 ≤ c < 8 → length (b_sig (ht_get t k)) = 8%nat →
  let t1 := <[k := set_sig (ht_get t k) c sig]> t in
  (lane (b_sig (ht_get t1 k)) c =? sig) = true ∧
  <[k := set_loc (ht_get t1 k) c loc]> t1 = <[k := put (ht_get t k) c sig loc]> t.
Proof.
  intros Hc Hl t1. unfold t1. rewrite ht_get_insert, decide_True by done. simpl.
  rewrite lane_insert, Z.eqb_refl by (done || lia). split; [apply Z.eqb_refl|].
  by rewrite insert_insert_eq.
Qed.

Lemma first_bucket_alone fuel n t k sig loc :
  table_wf t → sig ≠ 0 → bview (ht_get t k) !! sig = None →
  (has_room (ht_get t k) ∧ ∃ t', first_bucket alone (S fuel) n t k sig loc = Ok (S n, t', true) ∧
     stored t t' k sig loc) ∨
  (¬ has_room (ht_get t k) ∧ first_bucket alone (S fuel) n t k sig loc = Ok (S n, t, false)).
Proof.
  intros Ht Hsig Hnone. cbn [first_bucket].
  destruct (empty_slots_spec (ht_get t k) sig) as [[-> Hfull]|(Hnz & Hroom & Hc & H0)].
  - right. done.
  - left. split; [done|]. set (c := chosen _) in *.
    rewrite (proj2 (Z.eqb_neq _ _) Hnz). simpl negb. cbv iota.
    destruct (write_slot t k c sig loc Hc (wf_sig _ (Ht k))) as [-> ->].
    eexists. split; [done|]. by apply put_stored.
Qed.

(** The element fits into bucket [k]: its signature is there, or a slot is free. *)
Definition fits (t : table) (k sig : Z) : Prop :=
  is_Some (bview (ht_get t k) !! sig) ∨ has_room (ht_get t k).

Lemma cuckoo_evict_fits fuel n t hash esig sig loc cn :
  table_wf t → sig ≠ 0 → fits t (second_index hash sig) sig →
  ∃ t', cuckoo_evict alone (S fuel) n t hash esig sig loc cn false = Ok t' ∧
    stored t t' (second_index hash sig) sig loc.
Proof.
  intros Ht Hsig Hfits. cbn [cuckoo_evict]. set (k := second_index hash sig) in *.
  pose proof (update_in_place_spec t k sig loc Ht Hsig) as Hupd.
  destruct (update_in_place t k sig loc) as [t'|]; [exists t'; naive_solver|].
  destruct Hfits as [Hs|Hroom]; [by rewrite Hupd in Hs; destruct Hs|].
  destruct (empty_slots_spec (ht_get t k) esig) as [[_ Hfull]|(Hnz & _ & Hc & H0)]; [done|].
  rewrite (proj2 (Z.eqb_neq _ _) Hnz). simpl negb. cbv iota zeta. set (c := chosen _) in *.
  destruct (write_slot t k c sig loc Hc (wf_sig _ (Ht k))) as [-> ->].
  eexists. split; [done|]. by apply put_stored.
Qed.

Lemma stored_wf t t' k sig loc : table_wf t → stored t t' k sig loc → table_wf t'.
Proof. intros Ht (b' & -> & Hb' & _). by apply table_wf_insert. Qed.

Lemma stored_view t t' k sig loc k' :
  stored t t' k sig loc →
  bview (ht_get t' k') =
    if decide (k = k') then <[sig := loc]> (bview (ht_get t k)) else bview (ht_get t k').
Proof. intros (b' & -> & _ & Hv). rewrite ht_get_insert. by case_decide. Qed.

(** [gpu_hash_insert] launches one of the two kernels, chosen at compile time by
    the macro [HASH_CUCKOO] or [HASH_2CHOICE]. *)
Inductive hash_kind := HASH_CUCKOO | HASH_2CHOICE.

Definition hash_insert_elem (kind : hash_kind) (env : nat → table → table) (fuel : nat)
    (t : table) (e : ielem_t) : result table :=
  match kind with
  | HASH_CUCKOO => hash_insert_cuckoo_elem env fuel t e
  | HASH_2CHOICE => hash_insert_2choice_elem env fuel t e
  end.

(** The elements of an insert buffer, one after the other (a schedule of the
    units of a block in which they do not overlap). *)
Fixpoint hash_insert (kind : hash_kind) (fuel : nat) (t : table) (es : list ielem_t)
    : result table :=
  match es with
  | [] => Ok t
  | e :: es => t ← hash_insert_elem kind alone fuel t e; hash_insert kind fuel t es
  end.

Definition hash_delete (t : table) (es : list ielem_t) : table := foldl hash_delete_elem t es.

Definition hash_search (winner : list Z → Z) (t : table) (es : list selem_t) : list (Z * Z) :=
  (λ e, hash_search_elem winner t e (0, 0)) <$> es.

Lemma second_choice_fits fuel n t k sig loc :
  table_wf t → sig ≠ 0 → bview (ht_get t k) !! sig = None → has_room (ht_get t k) →
  ∃ t', second_choice alone (S fuel) n t k sig loc = Ok t' ∧ stored t t' k sig loc.
Proof.
  intros Ht Hsig Hnone Hroom. cbn [second_choice].
  destruct (empty_slots_spec (ht_get t k) sig) as [[_ Hfull]|(Hnz & _ & Hc & H0)]; [done|].
  rewrite (proj2 (Z.eqb_neq _ _) Hnz). simpl negb. cbv iota. set (c := chosen _) in *.
  destruct (write_slot t k c sig loc Hc (wf_sig _ (Ht k))) as [-> ->].
  eexists. split; [done|]. by apply put_stored.
Qed.

(** Alone, either kernel stores the element in its first candidate bucket if it
    fits there, and otherwise in the second if it fits there. *)
Lemma insert_fits kind fuel t e :
  let k1 := bucket_index (e_hash e) in
  let k2 := second_index (e_hash e) (e_sig e) in
  table_wf t → e_sig e ≠ 0 → fits t k1 (e_sig e) ∨ fits t k2 (e_sig e) →
  ∃ t', hash_insert_elem kind alone (S fuel) t e = Ok t' ∧
    (stored t t' k1 (e_sig e) (e_loc e) ∨
     (bview (ht_get t k1) !! e_sig e = None ∧ stored t t' k2 (e_sig e) (e_loc e))).
Proof.
  intros k1 k2 Ht Hsig Hfits.
  pose proof (update_in_place_spec t k1 (e_sig e) (e_loc e) Ht Hsig) as Hupd.
  assert (He : (e_sig e =? 0) && (e_loc e =? 0) = false)
    by (apply andb_false_iff; left; by apply Z.eqb_neq).
  destruct kind; simpl; unfold hash_insert_cuckoo_elem, hash_insert_2choice_elem; rewrite He;
    fold k1; destruct (update_in_place t k1 (e_sig e) (e_loc e)) as [t'|];
    try (exists t'; split; [done | left; apply Hupd]);
    destruct (first_bucket_alone fuel 0 t k1 (e_sig e) (e_loc e) Ht Hsig Hupd)
      as [(Hroom & t' & -> & Hst)|[Hfull ->]];
    try (exists t'; split; [done | by left]); rewrite bind_Ok; fold k2.
  all: assert (Hfits2 : fits t k2 (e_sig e))
    by (destruct Hfits as [[Hs|?]|?]; [rewrite Hupd in Hs; by destruct Hs | done | done]).
  - destruct (cuckoo_evict_fits fuel 1 t (e_hash e) (e_sig e) (e_sig e) (e_loc e) 0) as (t' & H & ?);
      [done..|]. exists t'. split; [exact H | by right].
  - pose proof (update_in_place_spec t k2 (e_sig e) (e_loc e) Ht Hsig) as Hupd2.
    destruct (update_in_place t k2 (e_sig e) (e_loc e)) as [t'|].
    + exists t'. split; [done|]. right. split; [done | apply Hupd2].
    + destruct Hfits2 as [Hs|Hroom]; [rewrite Hupd2 in Hs; by destruct Hs|].
      destruct (second_choice_fits fuel 1 t k2 (e_sig e) (e_loc e)) as (t' & H & ?); [done..|].
      exists t'. split; [exact H | by right].
Qed.

(** ** Deleting *)

Lemma lane_fmap_seq (f : Z → Z) l : 0 ≤ l < 8 → lane (f <$> seqZ 0 ELEM_NUM) l = f l.
Proof.
  intros Hl. unfold lane. rewrite list_lookup_fmap, lookup_seqZ_lt by (change ELEM_NUM with 8; lia).
  simpl. f_equal. lia.
Qed.

Lemma clear_entry_lane b e l :
  0 ≤ l < 8 →
  lane (b_sig (clear_entry b e)) l = if same_entry b e l then 0 else lane (b_sig b) l.
Proof. intros. unfold clear_entry. cbn [b_sig]. by rewrite lane_fmap_seq. Qed.

Lemma same_entry_eq b e l :
  same_entry b e l = true ↔ lane (b_sig b) l = e_sig e ∧ lane (b_loc b) l = e_loc e.
Proof. unfold same_entry. by rewrite andb_true_iff, !Z.eqb_eq. Qed.

Lemma clear_entry_wf b e : bucket_wf b → bucket_wf (clear_entry b e).
Proof.
  intros Hwf. split; [done|apply Hwf|].
  intros i j Hi Hj. rewrite !clear_entry_lane by done.
  destruct (same_entry b e i); [done|]. destruct (same_entry b e j).
  - intros Heq Hne. by rewrite Heq in Hne.
  - by apply (wf_inj b Hwf).
Qed.

Lemma clear_entry_view b e :
  bucket_wf b → e_sig e ≠ 0 →
  bview (clear_entry b e) =
  if decide (bview b !! e_sig e = Some (e_loc e)) then delete (e_sig e) (bview b) else bview b.
Proof.
  intros Hwf Hsig. pose proof (clear_entry_wf b e Hwf) as Hwf'.
  apply map_eq. intros s. apply option_eq. intros v. rewrite bview_Some by done.
  assert (Hiff : (s ≠ 0 ∧ ∃ l, 0 ≤ l < 8 ∧ lane (b_sig (clear_entry b e)) l = s ∧
                    lane (b_loc (clear_entry b e)) l = v) ↔
                 (bview b !! s = Some v ∧ ¬ (s = e_sig e ∧ v = e_loc e))).
  { rewrite bview_Some by done. split.
    - intros (Hs & l & Hl & Hls & Hlv). rewrite clear_entry_lane in Hls by done.
      destruct (same_entry b e l) eqn:E; [congruence|]. simpl in Hlv.
      split; [split; [done|by exists l]|]. intros [-> ->].
      by rewrite (proj2 (same_entry_eq b e l)) in E.
    - intros [(Hs & l & Hl & Hls & Hlv) Hne]. split; [done|]. exists l. split; [done|].
      rewrite clear_entry_lane by done. destruct (same_entry b e l) eqn:E; [|done].
      apply same_entry_eq in E as [? ?]. destruct Hne. split; congruence. }
  rewrite Hiff. case_decide as Hd.
  - rewrite lookup_delete. case_decide as Hs; [subst s|].
    + split; [|done]. intros [H1 H2]. rewrite H1 in Hd. injection Hd as ->. by destruct H2.
    + split; [by intros [? _]|]. intros ?. split; [done|]. intros [-> _]. done.
  - split; [by intros [? _]|]. intros H. split; [done|]. intros [-> ->]. done.
Qed.

Lemma unit_ballot_entry b e :
  bucket_wf b → e_sig e ≠ 0 →
  unit_ballot (same_entry b e) = 0 ↔ bview b !! e_sig e ≠ Some (e_loc e).
Proof.
  intros Hwf Hsig. rewrite unit_ballot_zero. split.
  - intros H Hs. apply bview_Some in Hs as (_ & l & Hl & Hls & Hlv); [|done].
    specialize (H l Hl). by rewrite (proj2 (same_entry_eq b e l)) in H.
  - intros H l Hl. destruct (same_entry b e l) eqn:E; [|done].
    apply same_entry_eq in E as [? ?]. destruct H. apply bview_Some; naive_solver.
Qed.

(** [cleared t t' k e]: bucket [k] of [t'] is the one of [t] without the entry. *)
Definition cleared (t t' : table) (k : Z) (e : ielem_t) : Prop :=
  table_wf t' ∧ ∀ k', bview (ht_get t' k') =
    if decide (k = k' ∧ bview (ht_get t k) !! e_sig e = Some (e_loc e))
    then delete (e_sig e) (bview (ht_get t k')) else bview (ht_get t k').

Lemma clear_entry_cleared t k e :
  table_wf t → e_sig e ≠ 0 → cleared t (<[k := clear_entry (ht_get t k) e]> t) k e.
Proof.
  intros Ht Hsig. split; [by apply table_wf_insert, clear_entry_wf|].
  intros k'. rewrite ht_get_insert. destruct (decide (k = k')) as [<-|Hne].
  - rewrite clear_entry_view by (apply Ht || done). repeat case_decide; naive_solver.
  - rewrite decide_False by naive_solver. done.
Qed.

(** Deleting removes the entry from the first candidate bucket if it is there,
    and otherwise from the second. *)
Lemma hash_delete_elem_spec t e :
  let k1 := bucket_index (e_hash e) in
  let k2 := second_index (e_hash e) (e_sig e) in
  table_wf t → e_sig e ≠ 0 →
  cleared t (hash_delete_elem t e)
    (if decide (bview (ht_get t k1) !! e_sig e = Some (e_loc e)) then k1 else k2) e.
Proof.
  intros k1 k2 Ht Hsig. unfold hash_delete_elem. fold k1 k2.
  pose proof (unit_ballot_entry (ht_get t k1) e (Ht k1) Hsig) as Hb.
  destruct (clear_entry_cleared t k1 e Ht Hsig) as [Hwf1 Hv1].
  set (t1 := <[k1 := _]> t) in *.
  destruct (Z.eqb_spec (unit_ballot (same_entry (ht_get t k1) e)) 0) as [Hz|Hnz]; simpl.
  - rewrite decide_False by by apply Hb.
    destruct (clear_entry_cleared t1 k2 e Hwf1 Hsig) as [Hwf2 Hv2]. split; [done|].
    intros k'. assert (Hsame : ∀ k, bview (ht_get t1 k) = bview (ht_get t k)).
    { intros k. rewrite Hv1, decide_False; [done|]. intros [_ H]. by apply Hb in Hz. }
    rewrite Hv2, !Hsame. done.
  - rewrite decide_True by (apply dec_stable; intros H; by apply Hnz, Hb). done.
Qed.

(** ** Grid-stride loops: lemmas *)

Lemma elem_of_unit_ids fuel u step total i :
  0 < step → 0 ≤ u → total - u ≤ Z.of_nat fuel →
  i ∈ unit_ids fuel u step total ↔ i < total ∧ ∃ k, 0 ≤ k ∧ i = u + k * step.
Proof.
  intros Hstep. revert u. induction fuel as [|fuel IH]; intros u Hu Hf; cbn [unit_ids].
  { rewrite elem_of_nil. split; [done|]. intros (? & k & ? & ->). nia. }
  destruct (Z.ltb_spec u total).
  - rewrite elem_of_cons, IH by lia. split.
    + intros [->|(? & k & ? & ->)]; [split; [done|exists 0; lia]|].
      split; [done|]. exists (k + 1). lia.
    + intros (Hi & k & Hk & ->). destruct (decide (k = 0)) as [->|]; [left; lia|right].
      split; [done|]. exists (k - 1). lia.
  - rewrite elem_of_nil. split; [done|]. intros (? & k & ? & ->). nia.
Qed.

Lemma NoDup_unit_ids fuel u step total : 0 < step → NoDup (unit_ids fuel u step total).
Proof.
  intros Hstep. revert u. induction fuel as [|fuel IH]; intros u; cbn [unit_ids]; [constructor|].
  destruct (Z.ltb_spec u total); [|constructor]. constructor; [|apply IH].
  clear IH. assert (∀ v, u < v → u ∉ unit_ids fuel v step total) as H'; [|apply H'; lia].
  induction fuel as [|fuel IH]; intros v Hv; cbn [unit_ids]; [apply not_elem_of_nil|].
  destruct (Z.ltb_spec v total); [|apply not_elem_of_nil].
  rewrite not_elem_of_cons. split; [lia|]. apply IH. lia.
Qed.

Lemma elem_of_kernel_ids grid n total i :
  0 ≤ total → 8 ≤ n → 0 ≤ i →
  i ∈ kernel_ids grid n total ↔ i < total ∧ ∃ u k, 0 ≤ u < grid / 8 ∧ 0 ≤ k ∧ i = u + k * (n / 8).
Proof.
  intros Ht Hn Hi. unfold kernel_ids. rewrite list_elem_of_bind.
  rewrite !Z.shiftr_div_pow2 by done. change (2 ^ ELEM_NUM_P) with 8.
  assert (0 < n / 8) by (apply Z.div_str_pos; lia). split.
  - intros (u & Hin & Hu%elem_of_seqZ). rewrite elem_of_unit_ids in Hin by lia.
    destruct Hin as (? & k & ? & ->). split; [done|]. exists u, k. split_and!; lia.
  - intros (? & u & k & Hu & Hk & ->). exists u. rewrite elem_of_unit_ids by lia.
    split; [split; [done|by exists k]|]. apply elem_of_seqZ. lia.
Qed.

Lemma unit_of_id step u u' k k' :
  0 ≤ u < step → 0 ≤ u' < step → u + k * step = u' + k' * step → u = u'.
Proof.
  intros Hu Hu' H.
  rewrite <-(Z.mod_small u step Hu), <-(Z.mod_small u' step Hu').
  rewrite <-(Z.mod_add u k), <-(Z.mod_add u' k') by lia. by rewrite H.
Qed.

Lemma NoDup_kernel_ids n total : 0 ≤ total → 8 ≤ n → NoDup (kernel_ids n n total).
Proof.
  intros Ht Hn. unfold kernel_ids. rewrite !Z.shiftr_div_pow2 by done.
  change (2 ^ ELEM_NUM_P) with 8. assert (0 < n / 8) by (apply Z.div_str_pos; lia).
  assert (∀ us, NoDup us → Forall (λ u, 0 ≤ u < n / 8) us →
    NoDup (us ≫= λ u, unit_ids (Z.to_nat total) u (n / 8) total)) as H'.
  { induction us as [|u us IH]; [constructor|].
    intros [Hu Hus]%NoDup_cons [Hr Hrs]%Forall_cons. cbn.
    apply NoDup_app. split_and!; [by apply NoDup_unit_ids| |by apply IH].
    intros i Hi1 Hi2. apply list_elem_of_bind in Hi2 as (u' & Hi2 & Hu').
    pose proof (proj1 (Forall_forall _ us) Hrs u' Hu') as Hr'. simpl in Hr'.
    rewrite elem_of_unit_ids in Hi1, Hi2 by lia.
    destruct Hi1 as (_ & k & _ & ->), Hi2 as (_ & k' & _ & Heq).
    apply Hu. by rewrite (unit_of_id (n / 8) u u' k k' Hr Hr' Heq). }
  apply H'; [apply NoDup_seqZ|]. apply Forall_forall. intros u Hu%elem_of_seqZ. simpl. lia.
Qed.

Lemma launch_size_multiple n tpb :
  0 < n → 0 < tpb ≤ 1024 → n mod 32 = 0 →
  ∃ grid, launch_size n tpb = Ok (grid, n) ∧ n ≤ grid.
Proof.
  intros Hn Htpb Hmod. unfold launch_size. rewrite (assert_true (tpb <=? 1024)) by (apply Z.leb_le; lia).
  rewrite bind_Ok, Z.rem_mod_nonneg, Hmod by lia. simpl.
  rewrite Z.rem_mod_nonneg, Hmod by lia. eexists. split; [done|].
  rewrite Z.quot_div_nonneg by lia. pose proof (Z.div_mod (n + tpb - 1) tpb ltac:(lia)).
  pose proof (Z.mod_pos_bound (n + tpb - 1) tpb ltac:(lia)). lia.
Qed.

(** ** Full buckets: lemmas *)

(** Both candidate buckets are full and neither holds the signature. *)
Definition crowded (t : table) (hash sig : Z) : Prop :=
  ¬ fits t (bucket_index hash) sig ∧ ¬ fits t (second_index hash sig) sig.

(** The major location of a signature and what the bucket holds there. *)
Abbreviation major sig := (sig mod 8) (only parsing).
Definition victim_sig (t : table) (k sig : Z) : Z := lane (b_sig (ht_get t k)) (major sig).
Definition victim_loc (t : table) (k sig : Z) : Z := lane (b_loc (ht_get t k)) (major sig).

Lemma not_fits t k sig :
  ¬ fits t k sig → bview (ht_get t k) !! sig = None ∧ ¬ has_room (ht_get t k).
Proof.
  intros H. split; [|intros ?; apply H; by right].
  apply eq_None_not_Some. intros ?. apply H. by left.
Qed.

Lemma victim_present t k sig :
  table_wf t → ¬ has_room (ht_get t k) →
  victim_sig t k sig ≠ 0 ∧ bview (ht_get t k) !! victim_sig t k sig = Some (victim_loc t k sig).
Proof.
  intros Ht Hfull. pose proof (Z.mod_pos_bound sig 8 ltac:(lia)).
  assert (victim_sig t k sig ≠ 0).
  { intros H0. apply Hfull. exists (major sig). by split. }
  split; [done|]. apply bview_Some; [apply Ht|]. split; [done|]. by exists (major sig).
Qed.

Lemma empty_slots_full b sig : ¬ has_room b → empty_slots b (ml_mask sig) = 0.
Proof. intros H. by destruct (empty_slots_spec b sig) as [[? _]|(_ & ? & _)]. Qed.

(** The common part of both kernels when the buckets are full. *)
Lemma crowded_first_bucket fuel t e :
  table_wf t → e_sig e ≠ 0 → ¬ fits t (bucket_index (e_hash e)) (e_sig e) →
  update_in_place t (bucket_index (e_hash e)) (e_sig e) (e_loc e) = None ∧
  first_bucket alone (S fuel) 0 t (bucket_index (e_hash e)) (e_sig e) (e_loc e) =
    Ok (1%nat, t, false).
Proof.
  intros Ht Hsig [Hnone Hfull]%not_fits. set (k := bucket_index (e_hash e)) in *. split.
  - pose proof (update_in_place_spec t k (e_sig e) (e_loc e) Ht Hsig) as H.
    destruct (update_in_place _ _ _ _); [|done]. rewrite Hnone in H. by destruct H as [[? ?] _].
  - destruct (first_bucket_alone fuel 0 t k (e_sig e) (e_loc e) Ht Hsig Hnone) as [[? _]|[_ ?]];
      done.
Qed.

Lemma replace_victim_view t k sig loc :
  table_wf t → sig ≠ 0 → ¬ fits t k sig →
  let b := put (ht_get t k) (major sig) sig loc in
  bucket_wf b ∧
  bview b = <[sig := loc]> (delete (victim_sig t k sig) (bview (ht_get t k))).
Proof.
  intros Ht Hsig [Hnone Hfull]%not_fits b. pose proof (Z.mod_pos_bound sig 8 ltac:(lia)).
  assert (∀ l, 0 ≤ l < 8 → lane (b_sig (ht_get t k)) l = sig → l = major sig).
  { intros l Hl Heq. by destruct (proj1 (bview_None _ sig (Ht k) Hsig) Hnone l Hl). }
  split; [by apply put_wf | by apply put_view].
Qed.

(** One displacement step of the cuckoo kernel on a full bucket, up to the next
    [goto cuckoo_evict]. *)
Lemma cuckoo_evict_displace fuel n t hash sig loc cn :
  table_wf t → sig ≠ 0 → ¬ fits t (second_index hash sig) sig → cn < MAX_CUCKOO_NUM →
  let k := second_index hash sig in
  cuckoo_evict alone (S fuel) n t hash sig sig loc cn false =
  cuckoo_evict alone fuel (S (S n)) (<[k := put (ht_get t k) (major sig) sig loc]> t) hash sig
    (victim_sig t k sig) (victim_loc t k sig) (cn + 1) false.
Proof.
  intros Ht Hsig Hfull Hcn k. cbn [cuckoo_evict]. fold k in Hfull |- *.
  apply not_fits in Hfull as [Hnone Hroom].
  pose proof (update_in_place_spec t k sig loc Ht Hsig) as Hupd.
  destruct (update_in_place t k sig loc); [rewrite Hnone in Hupd; by destruct Hupd as [[? ?] _]|].
  rewrite empty_slots_full by done. rewrite Z.eqb_refl, land7. cbn [negb]. cbv zeta iota.
  pose proof (Z.mod_pos_bound sig 8 ltac:(lia)) as Hc.
  destruct (write_slot t k (major sig) sig loc Hc (wf_sig _ (Ht k))) as [-> ->].
  destruct (Z.ltb_spec cn MAX_CUCKOO_NUM); [done | lia].
Qed.

Lemma launch_covers_spec num_thread threads_per_blk total :
  0 < threads_per_blk ≤ 1024 → threads_per_blk < num_thread → num_thread mod 32 = 0 → 0 ≤ total →
  (∃ grid, gpu_hash_search_launch num_thread threads_per_blk = Ok (grid, num_thread) ∧
     gpu_hash_delete_launch num_thread threads_per_blk = Ok (grid, num_thread) ∧
     ∀ id, 0 ≤ id < total → id ∈ kernel_ids grid num_thread total) ∧
  NoDup (kernel_ids num_thread num_thread total).
Proof.
  intros Htpb Hlt Hmod Htot.
  assert (Hn : 8 ≤ num_thread) by (pose proof (Z.div_mod num_thread 32); lia).
  destruct (launch_size_multiple num_thread threads_per_blk) as (grid & Hl & Hg); [lia..|].
  split; [|by apply NoDup_kernel_ids]. exists grid.
  unfold gpu_hash_search_launch, gpu_hash_delete_launch.
  rewrite !assert_true, !bind_Ok by (apply Z.ltb_lt || apply Z.leb_le; lia).
  split; [done|]. split; [done|]. intros id Hid. apply elem_of_kernel_ids; [lia..|].
  split; [lia|]. exists (id mod (num_thread / 8)), (id / (num_thread / 8)).
  assert (0 < num_thread / 8) by (apply Z.div_str_pos; lia).
  pose proof (Z.mod_pos_bound id (num_thread / 8)). pose proof (Z.div_mod id (num_thread / 8)).
  pose proof (Z.div_le_mono num_thread grid 8 ltac:(lia) Hg).
  split_and!; try lia. apply Z.div_pos; lia.
Qed.

Lemma insert_search_spec winner kind fuel t sig hash loc :
  (∀ l, l ≠ [] → winner l ∈ l) →
  table_wf t → sig ≠ 0 → loc ≠ 0 →
  fits t (bucket_index hash) sig ∨ fits t (second_index hash sig) sig →
  ∃ t', hash_insert_elem kind alone (S fuel) t (Ielem sig hash loc) = Ok t' ∧ table_wf t' ∧
    found (hash_search_elem winner t' (Selem sig hash) (0, 0)) = loc ∧
    ∀ sig' hash', sig' ≠ 0 → sig' ≠ sig →
      hash_search_elem winner t' (Selem sig' hash') (0, 0) =
      hash_search_elem winner t (Selem sig' hash') (0, 0).
Proof.
  intros Hwin Ht Hsig Hloc Hfits.
  destruct (insert_fits kind fuel t (Ielem sig hash loc) Ht Hsig Hfits) as (t' & Hins & Hst).
  simpl in Hst. exists t'. split; [done|].
  assert (Hst' : ∃ k, stored t t' k sig loc) by (destruct Hst as [?|[_ ?]]; eauto).
  destruct Hst' as [k Hk]. assert (Hwf' : table_wf t') by by eapply stored_wf.
  split; [done|]. split.
  - rewrite hash_search_elem_view by done. unfold found. simpl. destruct Hst as [Hst|[Hnone Hst]].
    + rewrite (stored_view _ _ _ _ _ _ Hst), decide_True, lookup_insert_eq by done. simpl.
      by rewrite (proj2 (Z.eqb_neq _ _)).
    + rewrite !(stored_view _ _ _ _ _ _ Hst), (decide_True _ _ (eq_refl (second_index hash sig))),
        lookup_insert_eq. simpl.
      destruct (decide (second_index hash sig = bucket_index hash)) as [->|].
      * rewrite lookup_insert_eq. simpl. by rewrite (proj2 (Z.eqb_neq _ _)).
      * by rewrite Hnone.
  - intros sig' hash' Hs' Hne. rewrite !hash_search_elem_view by done.
    assert (Hsame : ∀ k', bview (ht_get t' k') !! sig' = bview (ht_get t k') !! sig').
    { intros k'. rewrite (stored_view _ _ _ _ _ _ Hk). case_decide as Hd; [|done].
      subst k'. by rewrite lookup_insert_ne. }
    by rewrite !Hsame.
Qed.

(** *** Totality *)

(** Whatever the signature is: the mark of an empty slot is only another value here. *)
Definition absent (t : table) (k sig : Z) : Prop :=
  ∀ l, 0 ≤ l < 8 → lane (b_sig (ht_get t k)) l ≠ sig.

Lemma absent_put_wf t k sig loc c :
  table_wf t → absent t k sig → 0 ≤ c < 8 → table_wf (<[k := put (ht_get t k) c sig loc]> t).
Proof.
  intros Ht Habs Hc. apply table_wf_insert; [done|]. apply put_wf; [apply Ht|done|].
  intros l Hl Heq. by destruct (Habs l Hl).
Qed.

Lemma update_in_place_wf t k sig loc :
  table_wf t → match update_in_place t k sig loc with Some t' => table_wf t' | None => absent t k sig end.
Proof.
  intros Ht. unfold update_in_place. destruct (Z.eqb_spec (unit_ballot (same_sig (ht_get t k) sig)) 0) as [Hz|Hnz]; simpl.
  - intros l Hl Heq%same_sig_eq. by rewrite (proj1 (unit_ballot_zero _) Hz l Hl) in Heq.
  - apply table_wf_insert; [done|]. destruct (Ht k) as [H1 H2 H3]. split; [done| |done].
    simpl. by rewrite length_insert.
Qed.

Lemma cuckoo_evict_total fuel n t hash esig sig loc cn :
  table_wf t → MAX_CUCKOO_NUM - cn < Z.of_nat fuel → cn ≤ MAX_CUCKOO_NUM →
  ∃ t', cuckoo_evict alone fuel n t hash esig sig loc cn false = Ok t' ∧ table_wf t'.
Proof.
  revert n t sig loc cn. induction fuel as [|fuel IH]; intros n t sig loc cn Ht Hf Hcn; [lia|].
  cbn [cuckoo_evict]. set (k := second_index hash sig).
  pose proof (update_in_place_wf t k sig loc Ht) as Hup.
  destruct (update_in_place t k sig loc) as [t'|]; [by exists t'|]. rewrite land7.
  destruct (empty_slots_spec (ht_get t k) esig) as [[-> _]|(Hnz & _ & Hc & _)].
  - rewrite Z.eqb_refl. cbn [negb]. cbv zeta iota. pose proof (Z.mod_pos_bound esig 8 ltac:(lia)) as Hc.
    destruct (write_slot t k (major esig) sig loc Hc (wf_sig _ (Ht k))) as [Hw Heq]. rewrite Hw, Heq.
    pose proof (absent_put_wf t k sig loc _ Ht Hup Hc).
    destruct (Z.ltb_spec cn MAX_CUCKOO_NUM); [|by eexists]. apply IH; [done|lia|lia].
  - rewrite (proj2 (Z.eqb_neq _ _) Hnz). cbn [negb]. cbv zeta iota. set (c := chosen _) in *.
    destruct (write_slot t k c sig loc Hc (wf_sig _ (Ht k))) as [Hw Heq]. rewrite Hw, Heq.
    eexists. split; [done|]. by apply absent_put_wf.
Qed.

Lemma second_choice_total fuel n t k sig loc :
  table_wf t → absent t k sig → ∃ t', second_choice alone (S fuel) n t k sig loc = Ok t' ∧ table_wf t'.
Proof.
  intros Ht Habs. cbn [second_choice].
  destruct (empty_slots_spec (ht_get t k) sig) as [[Hz _]|(Hnz & _ & Hc & _)].
  - rewrite Hz, Z.eqb_refl. cbn [negb]. eexists. split; [done|]. rewrite land7.
    pose proof (Z.mod_pos_bound sig 8 ltac:(lia)). rewrite set_sig_put by (done || apply Ht). by apply absent_put_wf.
  - rewrite (proj2 (Z.eqb_neq _ _) Hnz). cbn [negb]. cbv zeta iota. set (c := chosen _) in *.
    destruct (write_slot t k c sig loc Hc (wf_sig _ (Ht k))) as [Hw Heq]. rewrite Hw, Heq.
    eexists. split; [done|]. by apply absent_put_wf.
Qed.

Lemma first_bucket_total fuel n t k sig loc :
  table_wf t → absent t k sig →
  ∃ n' t' done, first_bucket alone (S fuel) n t k sig loc = Ok (n', t', done) ∧ table_wf t'.
Proof.
  intros Ht Habs. cbn [first_bucket].
  destruct (empty_slots_spec (ht_get t k) sig) as [[Hz _]|(Hnz & _ & Hc & _)].
  - rewrite Hz, Z.eqb_refl. cbn [negb]. by eexists _, t, _.
  - rewrite (proj2 (Z.eqb_neq _ _) Hnz). cbn [negb]. cbv zeta iota. set (c := chosen _) in *.
    destruct (write_slot t k c sig loc Hc (wf_sig _ (Ht k))) as [Hw Heq]. rewrite Hw, Heq.
    eexists _, _, _. split; [done|]. by apply absent_put_wf.
Qed.

(** Six rounds are enough for the cuckoo loop. *)
Lemma insert_elem_total kind fuel t e :
  table_wf t → ∃ t', hash_insert_elem kind alone (6 + fuel) t e = Ok t' ∧ table_wf t'.
Proof.
  intros Ht. destruct e as [sig hash loc].
  pose proof (update_in_place_wf t (bucket_index hash) sig loc Ht) as Hup.
  assert (H6 : MAX_CUCKOO_NUM = 5) by done.
  destruct kind; unfold hash_insert_elem, hash_insert_cuckoo_elem, hash_insert_2choice_elem;
    cbn [e_sig e_hash e_loc]; (destruct (_ && _); [by exists t|]);
    (destruct (update_in_place t (bucket_index hash) sig loc) as [t'|]; [by exists t'|]);
    change (6 + fuel)%nat with (S (5 + fuel));
    destruct (first_bucket_total (5 + fuel) 0 t (bucket_index hash) sig loc Ht Hup) as (n & t1 & [] & -> & Ht1);
    rewrite bind_Ok; cbv iota; try (by exists t1).
  - apply cuckoo_evict_total; [done|lia|lia].
  - cbv zeta. pose proof (update_in_place_wf t1 (second_index hash sig) sig loc Ht1) as Hup2.
    destruct (update_in_place t1 (second_index hash sig) sig loc) as [t'|]; [by exists t'|].
    by apply second_choice_total.
Qed.

Lemma hash_insert_total kind fuel t es :
  table_wf t → ∃ t', hash_insert kind (6 + fuel) t es = Ok t' ∧ table_wf t'.
Proof.
  revert t. induction es as [|e es IH]; intros t Ht; [by exists t|].
  destruct (insert_elem_total kind fuel t e Ht) as (t1 & H1 & Ht1).
  cbn [hash_insert]. rewrite H1, bind_Ok. by apply IH.
Qed.

Lemma hash_delete_elem_wf t e : table_wf t → table_wf (hash_delete_elem t e).
Proof.
  intros Ht. assert (H1 : ∀ k t, table_wf t → table_wf (<[k := clear_entry (ht_get t k) e]> t))
    by (intros k t0 H0; by apply table_wf_insert, clear_entry_wf).
  unfold hash_delete_elem. destruct (negb _); auto.
Qed.

Lemma hash_delete_wf t es : table_wf t → table_wf (hash_delete t es).
Proof. revert t. induction es as [|e es IH]; intros t Ht; [done|]. by apply IH, hash_delete_elem_wf. Qed.

(** *** Totality under interference

    What a unit keeps whatever the other units do: every bucket has eight slots, and the
    words in it are words that were there or that some unit inserts ([Q] for signatures,
    [P] for locations). *)
Record bucket_typed (Q P : Z → Prop) (b : bucket_t) : Prop := {
  bt_sig : length (b_sig b) = 8%nat;
  bt_loc : length (b_loc b) = 8%nat;
  bt_sigs : Forall Q (b_sig b);
  bt_locs : Forall P (b_loc b);
}.

Definition table_typed (Q P : Z → Prop) (t : table) : Prop := ∀ k, bucket_typed Q P (ht_get t k).
Definition any (_ : Z) : Prop := True.
Definition table_shape : table → Prop := table_typed any any.

Lemma table_wf_shape t : table_wf t → table_shape t.
Proof. intros Ht k. destruct (Ht k). split; try done; by apply Forall_true. Qed.

Section interference.
Context (Q P : Z → Prop) (env : nat → table → table) (N : nat).
Abbreviation typed := (table_typed Q P).

(** The other units insert words of the two kinds, too, and from the [N]th synchronisation
    on they leave the unit alone. *)
Definition units_typed : Prop := ∀ n t, typed t → typed (env n t).
Definition units_done : Prop := ∀ n t, (N ≤ n)%nat → env n t = t.

Lemma typed_insert t k b : typed t → bucket_typed Q P b → typed (<[k := b]> t).
Proof. intros Ht Hb k'. rewrite ht_get_insert. by case_decide. Qed.

Lemma typed_set_sig b c x : bucket_typed Q P b → Q x → bucket_typed Q P (set_sig b c x).
Proof. intros [? ? ? ?] Hx. split; simpl; rewrite ?length_insert; try done. by apply Forall_insert. Qed.

Lemma typed_set_loc b c x : bucket_typed Q P b → P x → bucket_typed Q P (set_loc b c x).
Proof. intros [? ? ? ?] Hx. split; simpl; rewrite ?length_insert; try done. by apply Forall_insert. Qed.

Lemma typed_lane t k c : typed t → 0 ≤ c < 8 → Q (lane (b_sig (ht_get t k)) c) ∧ P (lane (b_loc (ht_get t k)) c).
Proof.
  intros Ht Hc. destruct (Ht k) as [Hs Hl HQ HP]. unfold lane.
  destruct (lookup_lt_is_Some_2 (b_sig (ht_get t k)) (Z.to_nat c)) as [x Hx]; [lia|].
  destruct (lookup_lt_is_Some_2 (b_loc (ht_get t k)) (Z.to_nat c)) as [y Hy]; [lia|].
  rewrite Hx, Hy. split; [exact (Forall_lookup_1 _ _ _ _ HQ Hx)|exact (Forall_lookup_1 _ _ _ _ HP Hy)].
Qed.

Lemma typed_update t k sig loc :
  typed t → P loc → match update_in_place t k sig loc with Some t' => typed t' | None => True end.
Proof.
  intros Ht HP. unfold update_in_place. destruct (negb _); [|done]. by apply typed_insert, typed_set_loc.
Qed.

(** The unit that nobody disturbs finds its signature where it wrote it. *)
Lemma write_kept t k c sig : typed t → 0 ≤ c < 8 → lane (b_sig (ht_get (<[k := set_sig (ht_get t k) c sig]> t) k)) c = sig.
Proof.
  intros Ht Hc. rewrite ht_get_insert, decide_True by done. simpl.
  rewrite lane_insert by (done || lia || apply Ht). by rewrite Z.eqb_refl.
Qed.

Context (Henv : units_typed) (Hdone : units_done).

Lemma first_bucket_typed fuel n t k sig loc :
  typed t → Q sig → P loc → (N - n < fuel)%nat →
  ∃ n' t' d, first_bucket env fuel n t k sig loc = Ok (n', t', d) ∧ typed t'.
Proof.
  intros Ht HQ HP. revert n t Ht. induction fuel as [|fuel IH]; intros n t Ht Hf; [lia|]. cbn [first_bucket].
  destruct (empty_slots_spec (ht_get t k) sig) as [[-> _]|(Hnz & _ & Hc & _)].
  { rewrite Z.eqb_refl. cbn [negb]. eexists _, _, _. split; [done|]. by apply Henv. }
  rewrite (proj2 (Z.eqb_neq _ _) Hnz). cbn [negb]. cbv zeta iota. set (c := chosen _) in *.
  set (t1 := <[k := _]> t). assert (Ht1 : typed t1) by (by apply typed_insert, typed_set_sig).
  destruct (Z.eqb_spec (lane (b_sig (ht_get (env n t1) k)) c) sig) as [_|Hlost].
  - eexists _, _, _. split; [done|]. apply typed_insert; [by apply Henv|]. apply typed_set_loc; [by apply Henv|done].
  - apply IH; [by apply Henv|]. destruct (decide (N ≤ n)%nat); [|lia].
    destruct Hlost. rewrite Hdone by done. by apply write_kept.
Qed.

Lemma second_choice_typed fuel n t k sig loc :
  typed t → Q sig → P loc → (N - n < fuel)%nat → ∃ t', second_choice env fuel n t k sig loc = Ok t' ∧ typed t'.
Proof.
  intros Ht HQ HP. revert n t Ht. induction fuel as [|fuel IH]; intros n t Ht Hf; [lia|]. cbn [second_choice].
  destruct (empty_slots_spec (ht_get t k) sig) as [[-> _]|(Hnz & _ & Hc & _)].
  { rewrite Z.eqb_refl. cbn [negb]. eexists. split; [done|]. by apply typed_insert, typed_set_sig. }
  rewrite (proj2 (Z.eqb_neq _ _) Hnz). cbn [negb]. cbv zeta iota. set (c := chosen _) in *.
  set (t1 := <[k := _]> t). assert (Ht1 : typed t1) by (by apply typed_insert, typed_set_sig).
  destruct (Z.eqb_spec (lane (b_sig (ht_get (env n t1) k)) c) sig) as [_|Hlost].
  - eexists. split; [done|]. apply typed_insert; [by apply Henv|]. apply typed_set_loc; [by apply Henv|done].
  - apply IH; [by apply Henv|]. destruct (decide (N ≤ n)%nat); [|lia].
    destruct Hlost. rewrite Hdone by done. by apply write_kept.
Qed.

Lemma cuckoo_evict_typed fuel n t hash esig sig loc cn retry :
  typed t → Q sig → P loc → cn ≤ MAX_CUCKOO_NUM → (N - n + Z.to_nat (MAX_CUCKOO_NUM - cn) < fuel)%nat →
  ∃ t', cuckoo_evict env fuel n t hash esig sig loc cn retry = Ok t' ∧ typed t'.
Proof.
  revert n t sig loc cn retry. induction fuel as [|fuel IH]; intros n t sig loc cn retry Ht HQ HP Hcn Hf; [lia|].
  cbn [cuckoo_evict]. set (k := second_index hash sig). pose proof (typed_update t k sig loc Ht HP) as Hup.
  destruct (if retry then None else update_in_place t k sig loc) as [t'|] eqn:Hr.
  { destruct retry; [done|]. rewrite Hr in Hup. by exists t'. }
  set (ballot := empty_slots _ _). set (c := if negb (ballot =? 0) then chosen ballot else _).
  assert (Hc : 0 ≤ c < 8).
  { unfold c, ballot. destruct (empty_slots_spec (ht_get t k) esig) as [[-> _]|(Hnz & _ & Hc & _)].
    - rewrite Z.eqb_refl, land7. cbn [negb]. by apply Z.mod_pos_bound.
    - by rewrite (proj2 (Z.eqb_neq _ _) Hnz). }
  cbv zeta. destruct (typed_lane t k c Ht Hc) as [HQ' HP']. set (t1 := env n t). assert (Ht1 : typed t1) by by apply Henv.
  set (t2 := <[k := _]> t1). assert (Ht2 : typed t2) by (by apply typed_insert, typed_set_sig).
  pose proof (Henv (S n) _ Ht2) as Ht3. set (t3 := env (S n) t2) in *.
  assert (Hst : typed (<[k := set_loc (ht_get t3 k) c loc]> t3)) by (by apply typed_insert, typed_set_loc).
  destruct (Z.eqb_spec (lane (b_sig (ht_get t3 k)) c) sig) as [_|Hlost]; destruct (negb (ballot =? 0)).
  - by eexists.
  - destruct (Z.ltb_spec cn MAX_CUCKOO_NUM); [|by eexists]. apply IH; try done; lia.
  - apply IH; try done. destruct (decide (N ≤ S n)%nat); [|lia].
    destruct Hlost. unfold t3. rewrite Hdone by done. by apply write_kept.
  - destruct (cn <? MAX_CUCKOO_NUM); by eexists.
Qed.

Lemma insert_elem_typed kind fuel t e :
  typed t → Q (e_sig e) → P (e_loc e) →
  ∃ t', hash_insert_elem kind env (6 + N + fuel) t e = Ok t' ∧ typed t'.
Proof.
  intros Ht HQ HP. pose proof (typed_update t (bucket_index (e_hash e)) (e_sig e) (e_loc e) Ht HP) as Hup.
  assert (H6 : MAX_CUCKOO_NUM = 5) by done.
  destruct kind; unfold hash_insert_elem, hash_insert_cuckoo_elem, hash_insert_2choice_elem;
    (destruct (_ && _); [by exists t|]); (destruct (update_in_place t _ _ _) as [t'|]; [by exists t'|]);
    (destruct (first_bucket_typed (6 + N + fuel) 0 t (bucket_index (e_hash e)) (e_sig e) (e_loc e))
      as (n & t1 & [] & -> & Ht1); [done..|lia| |]); rewrite bind_Ok; cbv iota zeta; try (by exists t1).
  - apply cuckoo_evict_typed; try done. lia.
  - pose proof (typed_update t1 (second_index (e_hash e) (e_sig e)) (e_sig e) (e_loc e) Ht1 HP) as Hup2.
    destruct (update_in_place t1 _ _ _) as [t'|]; [by exists t'|]. apply second_choice_typed; try done. lia.
Qed.

Lemma delete_elem_typed t e : typed t → Q 0 → typed (hash_delete_elem t e).
Proof.
  intros Ht H0. assert (H1 : ∀ k t, typed t → typed (<[k := clear_entry (ht_get t k) e]> t)).
  { intros k t0 Ht0. apply typed_insert; [done|]. destruct (Ht0 k) as [? ? ? ?]. split; try done.
    unfold clear_entry. cbn [b_sig]. apply Forall_fmap, Forall_forall. intros l Hl%elem_of_seqZ.
    change ELEM_NUM with 8 in Hl. simpl. destruct (same_entry _ _ _); [done|]. by apply typed_lane. }
  unfold hash_delete_elem. destruct (negb _); auto.
Qed.
End interference.

Lemma shape_insert_total kind fuel t es :
  table_shape t → ∃ t', hash_insert kind (6 + fuel) t es = Ok t' ∧ table_shape t'.
Proof.
  revert t. induction es as [|e es IH]; intros t Ht; [by exists t|].
  destruct (insert_elem_typed any any alone 0 (λ _ _ H, H) (λ _ _ _, eq_refl) kind fuel t e Ht I I) as (t1 & H1 & Ht1).
  cbn [hash_insert]. change (6 + 0 + fuel)%nat with (6 + fuel)%nat in H1. rewrite H1, bind_Ok. by apply IH.
Qed.

Lemma hash_delete_shape t es : table_shape t → table_shape (hash_delete t es).
Proof. revert t. induction es as [|e es IH]; intros t Ht; [done|]. by apply IH, delete_elem_typed. Qed.

(** *** Properties *)

(** The shift-and-mask of a warp's ballot gives each unit the votes of its
    own eight lanes, whatever the other lanes of the warp vote and wherever the
    unit sits in the warp. *)
Theorem unit_part_own idx p :
  0 ≤ idx →
  unit_part (warp_ballot p) idx = unit_ballot (λ l, p (8 * ((idx / 8) mod 4) + l)).
Proof.
  intros Hidx. unfold unit_part. rewrite bit_move_spec by done.
  pose proof (Z.mod_pos_bound (idx / 8) 4 ltac:(lia)). set (q := (idx / 8) mod 4) in *.
  assert (Hw : in_range 32 (warp_ballot p)).
  { apply testbit_range; [lia|apply ballot_from_nonneg|]. intros j Hj.
    unfold warp_ballot. rewrite ballot_from_testbit by lia. by cmp_cases. }
  apply Z.bits_inj'. intros j Hj.
  rewrite Z.land_spec, Z.shiftr_spec, unit_ballot_testbit, low_mask_testbit by (done || lia).
  change ELEM_NUM with 8. destruct (Z.ltb_spec j 8); [|by rewrite andb_false_r].
  rewrite s32_testbit by (done || lia). unfold warp_ballot.
  rewrite ballot_from_testbit by lia. rewrite andb_true_r, (Z.add_comm j). by cmp_cases.
Qed.

(** Insert, then search.  When the element fits into one of its candidate
    buckets, a unit that runs alone terminates, the table stays well-formed, the
    location the Sender reads for the inserted key is the inserted one, and the
    search result of every other signature is what it was. *)
Theorem insert_then_search winner kind fuel t sig hash loc :
  (∀ l, l ≠ [] → winner l ∈ l) →
  table_wf t → sig ≠ 0 → loc ≠ 0 →
  fits t (bucket_index hash) sig ∨ fits t (second_index hash sig) sig →
  ∃ t', hash_insert_elem kind alone (S fuel) t (Ielem sig hash loc) = Ok t' ∧ table_wf t' ∧
    found (hash_search_elem winner t' (Selem sig hash) (0, 0)) = loc ∧
    ∀ sig' hash', sig' ≠ 0 → sig' ≠ sig →
      hash_search_elem winner t' (Selem sig' hash') (0, 0) =
      hash_search_elem winner t (Selem sig' hash') (0, 0).
Proof. apply insert_search_spec. Qed.

(** C30: insert, then delete.  An element that fits and was in neither candidate
    bucket is removed again by deleting it: every bucket then means what it
    meant before, so no search can tell the difference. *)
Theorem insert_then_delete kind fuel t e :
  table_wf t → e_sig e ≠ 0 →
  bview (ht_get t (bucket_index (e_hash e))) !! e_sig e = None →
  bview (ht_get t (second_index (e_hash e) (e_sig e))) !! e_sig e = None →
  has_room (ht_get t (bucket_index (e_hash e))) ∨
  has_room (ht_get t (second_index (e_hash e) (e_sig e))) →
  ∃ t', hash_insert_elem kind alone (S fuel) t e = Ok t' ∧
    table_wf (hash_delete_elem t' e) ∧
    ∀ k, bview (ht_get (hash_delete_elem t' e) k) = bview (ht_get t k).
Proof.
  intros Ht Hsig Hn1 Hn2 Hroom.
  set (k1 := bucket_index (e_hash e)) in *. set (k2 := second_index (e_hash e) (e_sig e)) in *.
  destruct (insert_fits kind fuel t e Ht Hsig) as (t' & Hins & Hst);
    [destruct Hroom; [left|right]; by right|].
  exists t'. split; [done|]. fold k1 k2 in Hst.
  assert (Hst' : ∃ k, (k = k1 ∨ k = k2) ∧ stored t t' k (e_sig e) (e_loc e))
    by (destruct Hst as [?|[_ ?]]; eauto).
  destruct Hst' as (k & Hk & Hkst). assert (Hwf' : table_wf t') by by eapply stored_wf.
  destruct (hash_delete_elem_spec t' e Hwf' Hsig) as [Hwfd Hview]. split; [done|].
  fold k1 k2 in Hview.
  assert (Hdel : (if decide (bview (ht_get t' k1) !! e_sig e = Some (e_loc e)) then k1 else k2) = k).
  { rewrite (stored_view _ _ _ _ _ k1 Hkst). destruct (decide (k = k1)) as [->|Hne].
    - by rewrite decide_True by apply lookup_insert_eq.
    - rewrite decide_False by (by rewrite Hn1). by destruct Hk. }
  rewrite Hdel in Hview. intros k'. rewrite Hview, (stored_view _ _ _ _ _ k Hkst).
  rewrite (decide_True _ _ (eq_refl k)), (stored_view _ _ _ _ _ k' Hkst).
  destruct (decide (k = k')) as [<-|Hne].
  - rewrite decide_True by (split; [done | apply lookup_insert_eq]).
    apply delete_insert_id. by destruct Hk as [->| ->].
  - by rewrite decide_False by naive_solver.
Qed.

(** C37: the two candidate buckets of an element lie in the table and in the same
    of the [INSERT_BLOCK] parts of it; each determines the other from the
    signature alone, so that a stored element can be moved without its hash. *)
Theorem candidate_buckets h s :
  0 ≤ bucket_index h < BUC_NUM ∧ 0 ≤ second_index h s < BUC_NUM ∧
  Z.shiftr (second_index h s) 21 = Z.shiftr (bucket_index h) 21 ∧
  second_index (bucket_index h) s = second_index h s ∧
  second_index (second_index h s) s = bucket_index h.
Proof.
  split; [apply bucket_index_range|]. split; [apply second_index_range|]. split.
  - apply Z.bits_inj'. intros j Hj. rewrite !Z.shiftr_spec by lia.
    rewrite second_index_testbit, bucket_index_testbit by lia. by cmp_cases.
  - split; [apply second_index_bucket | apply second_index_involutive].
Qed.

(** When both candidate buckets are full, the cuckoo kernel loses the element
    it displaces: it moves it to a bucket computed from the hash of the inserted
    element, which is neither of the displaced element's own two buckets, so a
    key that was found before is not found after the insertion of another one,
    although nothing was evicted and its alternative bucket may be empty. *)
Theorem cuckoo_displacement_loses_element winner fuel t sig hash loc hash' :
  let k2 := second_index hash sig in
  let sig' := victim_sig t k2 sig in
  let loc' := victim_loc t k2 sig in
  let goes_to := second_index hash sig' in
  let other := second_index k2 sig' in
  (∀ l, l ≠ [] → winner l ∈ l) →
  table_wf t → sig ≠ 0 → crowded t hash sig → loc' ≠ 0 →
  Z.land sig BLOCK_HASH_MASK ≠ 0 →
  k2 = bucket_index hash' ∨ k2 = second_index hash' sig' →
  k2 = other ∨ bview (ht_get t other) !! sig' = None →
  goes_to ≠ k2 → fits t goes_to sig' →
  found (hash_search_elem winner t (Selem sig' hash') (0, 0)) = loc' ∧
  ∃ t', hash_insert_elem HASH_CUCKOO alone (S (S fuel)) t (Ielem sig hash loc) = Ok t' ∧
    found (hash_search_elem winner t' (Selem sig' hash') (0, 0)) = 0.
Proof.
  intros k2 sig' loc' goes_to other Hwin Ht Hsig [Hf1 Hf2] Hloc' Hmask Hlives Hother Hgo Hfits.
  fold k2 in Hf2.
  destruct (victim_present t k2 sig Ht (proj2 (not_fits _ _ _ Hf2))) as [Hsig' Hview].
  fold sig' in Hsig', Hview. fold loc' in Hview.
  assert (Hcand : ∃ a b, hash_search_elem winner t (Selem sig' hash') (0, 0) =
      (default 0 (bview (ht_get t a) !! sig'), default 0 (bview (ht_get t b) !! sig')) ∧
      a = bucket_index hash' ∧ b = second_index hash' sig' ∧
      ((a = k2 ∧ b = other) ∨ (a = other ∧ b = k2))).
  { exists (bucket_index hash'), (second_index hash' sig').
    split; [by apply hash_search_elem_view|]. do 2 (split; [done|]).
    unfold other. destruct Hlives as [Heq|Heq]; rewrite Heq.
    - left. split; [done|]. by rewrite second_index_bucket.
    - right. split; [|done]. by rewrite second_index_involutive. }
  destruct Hcand as (a & b & Hsearch & Ha & Hb & Hab). split.
  { rewrite Hsearch. unfold found. simpl. destruct Hab as [[-> ->]|[-> ->]].
    - rewrite Hview. simpl. by rewrite (proj2 (Z.eqb_neq _ _)).
    - destruct Hother as [<-|Hnone]; rewrite ?Hnone, Hview; simpl;
        by rewrite ?(proj2 (Z.eqb_neq _ _)). }
  set (t1 := <[k2 := put (ht_get t k2) (major sig) sig loc]> t).
  destruct (replace_victim_view t k2 sig loc Ht Hsig Hf2) as [Hbwf Hbview].
  assert (Ht1 : table_wf t1) by by apply table_wf_insert.
  assert (Hfits1 : fits t1 goes_to sig').
  { unfold fits, t1. by rewrite ht_get_insert, decide_False by done. }
  destruct (cuckoo_evict_fits fuel 3 t1 hash sig sig' loc' 1 Ht1 Hsig' Hfits1) as (t' & Hev & Hst).
  exists t'. split.
  - destruct (crowded_first_bucket (S fuel) t (Ielem sig hash loc) Ht Hsig Hf1) as [Hup Hfb].
    cbn [e_sig e_loc e_hash] in Hup, Hfb. cbn [hash_insert_elem].
    unfold hash_insert_cuckoo_elem. cbn [e_sig e_loc e_hash].
    rewrite (proj2 (Z.eqb_neq sig 0)) by done. cbn [andb]. rewrite Hup, Hfb, bind_Ok.
    rewrite cuckoo_evict_displace by done. exact Hev.
  - rewrite hash_search_elem_view by (done || by eapply stored_wf). rewrite <-Ha, <-Hb.
    assert (Hne : other ≠ goes_to).
    { unfold other, goes_to. rewrite (second_index_displaced hash sig sig'). fold k2. intros Heq.
      apply Hmask. rewrite <-(Z.lxor_0_l (Z.land _ _)), <-(Z.lxor_nilpotent (second_index k2 sig')).
      by rewrite Z.lxor_assoc, <-Heq, Z.lxor_nilpotent. }
    assert (H2 : bview (ht_get t' k2) !! sig' = None).
    { rewrite (stored_view _ _ _ _ _ k2 Hst), decide_False by done. unfold t1.
      rewrite ht_get_insert, decide_True, Hbview by done. fold sig'.
      apply not_fits in Hf2 as [Hnone _]. rewrite lookup_insert_ne.
      - apply lookup_delete_eq.
      - intros Heq. rewrite Heq, Hview in Hnone. done. }
    assert (Ho : bview (ht_get t' other) !! sig' = None).
    { destruct Hother as [<-|Hnone]; [done|].
      rewrite (stored_view _ _ _ _ _ other Hst), decide_False by done. unfold t1.
      rewrite ht_get_insert. case_decide as Hd; [|done]. subst other. rewrite <-Hd in Hnone.
      by rewrite Hview in Hnone. }
    destruct Hab as [[-> ->]|[-> ->]]; by rewrite H2, Ho.
Qed.

(** When both candidate buckets are full, the two-choice kernel overwrites the
    signature at the major location and leaves the loop before the location is
    written: a search of the new key then returns the item of the key it replaced. *)
Theorem two_choice_full_returns_other_item winner fuel t sig hash loc :
  let k2 := second_index hash sig in
  (∀ l, l ≠ [] → winner l ∈ l) →
  table_wf t → sig ≠ 0 → crowded t hash sig →
  ∃ t', hash_insert_elem HASH_2CHOICE alone (S fuel) t (Ielem sig hash loc) = Ok t' ∧
    found (hash_search_elem winner t' (Selem sig hash) (0, 0)) = victim_loc t k2 sig.
Proof.
  intros k2 Hwin Ht Hsig [Hf1 Hf2]. fold k2 in Hf2.
  destruct (crowded_first_bucket fuel t (Ielem sig hash loc) Ht Hsig Hf1) as [Hup Hfb].
  pose proof (update_in_place_spec t k2 sig loc Ht Hsig) as Hup2.
  destruct (not_fits _ _ _ Hf1) as [Hn1 Hr1]. destruct (not_fits _ _ _ Hf2) as [Hn2 Hr2].
  pose proof (Z.mod_pos_bound sig 8 ltac:(lia)) as Hc.
  assert (Hput : set_sig (ht_get t k2) (major sig) sig =
                 put (ht_get t k2) (major sig) sig (victim_loc t k2 sig))
    by (apply set_sig_put; [apply Ht | done]).
  destruct (replace_victim_view t k2 sig (victim_loc t k2 sig) Ht Hsig Hf2) as [Hbwf Hbview].
  rewrite <-Hput in Hbwf, Hbview.
  exists (<[k2 := set_sig (ht_get t k2) (major sig) sig]> t). split.
  - cbn [e_sig e_loc e_hash] in Hup, Hfb. cbn [hash_insert_elem].
    unfold hash_insert_2choice_elem. cbn [e_sig e_loc e_hash].
    rewrite (proj2 (Z.eqb_neq sig 0)) by done. cbn [andb]. rewrite Hup, Hfb, bind_Ok.
    cbv zeta iota. fold k2. destruct (update_in_place t k2 sig loc).
    + rewrite Hn2 in Hup2. by destruct Hup2 as [[? ?] _].
    + cbn [second_choice]. by rewrite empty_slots_full, Z.eqb_refl, land7 by done.
  - rewrite hash_search_elem_view by (done || by apply table_wf_insert).
    rewrite !ht_get_insert. fold k2. rewrite (decide_True _ _ (eq_refl k2)), Hbview, lookup_insert_eq.
    unfold found. case_decide as Hd; simpl.
    + rewrite Hbview, lookup_insert_eq. simpl.
      by destruct (Z.eqb_spec (victim_loc t k2 sig) 0) as [->|].
    + by rewrite Hn1.
Qed.


(** With a thread number that is a multiple of 32, as configured, the launch
    succeeds and its grid-stride loops reach every element; with the grid of the
    thread number itself every element is handled by exactly one unit. *)
Theorem launch_covers num_thread threads_per_blk total :
  0 < threads_per_blk ≤ 1024 → threads_per_blk < num_thread → num_thread mod 32 = 0 → 0 ≤ total →
  (∃ grid, gpu_hash_search_launch num_thread threads_per_blk = Ok (grid, num_thread) ∧
     gpu_hash_delete_launch num_thread threads_per_blk = Ok (grid, num_thread) ∧
     ∀ id, 0 ≤ id < total → id ∈ kernel_ids grid num_thread total) ∧
  NoDup (kernel_ids num_thread num_thread total).
Proof. apply launch_covers_spec. Qed.

(** Rounding the thread number up after the grid has been computed makes the
    kernels skip elements: with 100 threads in blocks of 50, units 12 to 15 of
    the 16 the kernel counts on do not exist, and the elements that are theirs
    are never searched or deleted. *)
Theorem launch_rounding_skips :
  gpu_hash_search_launch 100 50 = Ok (100, 128) ∧
  12 ∉ kernel_ids 100 128 64 ∧ 31 ∉ kernel_ids 100 128 64.
Proof.
  split; [done|].
  split; refine (bool_decide_unpack _ _); vm_compute; exact I.
Qed.

(** ** The properties at concrete tables

    Buckets 0 and 9, the candidates of hash 0 and signature 9, are full; the
    others are empty. *)
Definition ex_sigs : list Z := [101; 102; 103; 104; 105; 106; 107; 108].
Definition ex_full (base : Z) : bucket_t := Bucket (Z.add base <$> ex_sigs) ex_sigs.
Definition ex_table : table := <[0 := ex_full 0]> (<[9 := ex_full 100]> ∅).

Lemma NoDup_bucket_wf sigs locs :
  length sigs = 8%nat → length locs = 8%nat → NoDup sigs → bucket_wf (Bucket sigs locs).
Proof.
  intros Hs Hl Hnd. split; [done..|]. intros i j Hi Hj. simpl. unfold lane.
  destruct (lookup_lt_is_Some_2 sigs (Z.to_nat i)) as [a Ha]; [lia|].
  destruct (lookup_lt_is_Some_2 sigs (Z.to_nat j)) as [b Hb]; [lia|].
  rewrite Ha, Hb. simpl. intros -> _. pose proof (NoDup_lookup _ _ _ _ Hnd Ha Hb). lia.
Qed.

Lemma no_zero_no_room b :
  length (b_sig b) = 8%nat → Forall (λ s, s ≠ 0) (b_sig b) → ¬ has_room b.
Proof.
  intros Hl Hall (l & Hlt & H0). unfold lane in H0.
  destruct (lookup_lt_is_Some_2 (b_sig b) (Z.to_nat l)) as [a Ha]; [lia|].
  rewrite Ha in H0. simpl in H0. by eapply (Forall_lookup_1 _ _ _ _ Hall).
Qed.

Lemma empty_table_wf : table_wf ∅.
Proof. intros k. apply empty_bucket_wf. Qed.

Lemma empty_table_shape : table_shape ∅.
Proof. exact (table_wf_shape _ empty_table_wf). Qed.
Lemma ex_table_wf : table_wf ex_table.
Proof.
  apply table_wf_insert; [apply table_wf_insert; [apply empty_table_wf|]|];
    apply NoDup_bucket_wf; try reflexivity; refine (bool_decide_unpack _ _); vm_compute; exact I.
Qed.

Lemma ex_table_crowded : crowded ex_table 0 9.
Proof.
  split; intros [[v Hv]|Hroom]; try (vm_compute in Hv; discriminate Hv);
    revert Hroom; apply no_zero_no_room; try reflexivity;
    refine (bool_decide_unpack _ _); vm_compute; exact I.
Qed.

Definition ex_winner (l : list Z) : Z := default 0 (head l).
Lemma ex_winner_in l : l ≠ [] → ex_winner l ∈ l.
Proof. destruct l; [done|]. intros _. left. Qed.

Lemma room_empty_table k : has_room (ht_get ∅ k).
Proof. exists 0. done. Qed.

Lemma unit_part_own_witness : unit_part (warp_ballot (λ l, l =? 27)) 24 = 8.
Proof. rewrite (unit_part_own 24); [vm_compute; reflexivity | lia]. Defined.

Lemma insert_then_search_witness :
  ∃ t', hash_insert_elem HASH_CUCKOO alone 1 ex_table (Ielem 7 0x123456 77) = Ok t' ∧
    found (hash_search_elem ex_winner t' (Selem 7 0x123456) (0, 0)) = 77.
Proof.
  destruct (insert_then_search ex_winner HASH_CUCKOO 0 ex_table 7 0x123456 77 ex_winner_in
    ex_table_wf) as (t' & H & _ & Hf & _); [done|done| |by exists t'].
  left. right. exists 0. split; [lia | vm_compute; reflexivity].
Defined.

Lemma insert_then_delete_witness :
  ∃ t', hash_insert_elem HASH_2CHOICE alone 1 ∅ (Ielem 7 0x123456 77) = Ok t' ∧
    bview (ht_get (hash_delete_elem t' (Ielem 7 0x123456 77)) 0x123456) = ∅.
Proof.
  destruct (insert_then_delete HASH_2CHOICE 0 ∅ (Ielem 7 0x123456 77) empty_table_wf)
    as (t' & H & _ & Hv); [done|reflexivity|reflexivity|left; apply room_empty_table|].
  exists t'. split; [done|]. rewrite Hv. reflexivity.
Defined.

Lemma cuckoo_displacement_loses_element_witness :
  found (hash_search_elem ex_winner ex_table (Selem 202 9) (0, 0)) = 102 ∧
  ∃ t', hash_insert_elem HASH_CUCKOO alone 2 ex_table (Ielem 9 0 5) = Ok t' ∧
    found (hash_search_elem ex_winner t' (Selem 202 9) (0, 0)) = 0.
Proof.
  refine (cuckoo_displacement_loses_element ex_winner 0 ex_table 9 0 5 9 ex_winner_in ex_table_wf
    _ ex_table_crowded _ _ _ _ _ _); try (by vm_compute).
  - left. by vm_compute.
  - right. by vm_compute.
  - right. exists 0. split; [lia | vm_compute; reflexivity].
Defined.

Lemma two_choice_full_returns_other_item_witness :
  ∃ t', hash_insert_elem HASH_2CHOICE alone 1 ex_table (Ielem 9 0 5) = Ok t' ∧
    found (hash_search_elem ex_winner t' (Selem 9 0) (0, 0)) = 102.
Proof.
  apply (two_choice_full_returns_other_item ex_winner 0 ex_table 9 0 5 ex_winner_in ex_table_wf);
    [lia | apply ex_table_crowded].
Defined.

(** Another unit takes the slot the unit has just taken; it tries again. *)
Definition ex_env (n : nat) (t : table) : table :=
  match n with O => <[1 := set_sig (ht_get t 1) 1 25]> t | S _ => t end.


Lemma launch_covers_witness :
  ∃ grid, gpu_hash_search_launch 1024 512 = Ok (grid, 1024) ∧ 99 ∈ kernel_ids grid 1024 100.
Proof.
  destruct (launch_covers 1024 512 100) as [(g & H & _ & Hin) _]; [lia|lia|reflexivity|lia|].
  exists g. split; [done | apply Hin; lia].
Defined.
