(* ===== verification/Index.v ===== *)
(** * The index as a map from keys to locations

    What the rest of the program needs of the GPU hash table: a table that finds,
    for the hash and signature of a key, the location that was last inserted for
    it.  [LocationIndex] states this promise; the instance for the table of
    [GpuHash] discharges it under the conditions the table needs, and the clients
    ([Scheduler]) are verified against the class. *)

From S2P Require Import Prelude GpuHash.

(** ** The interface *)

Class LocationIndex (T : Type) := {
  ix_ok : T → Prop;
  (** The location the Sender takes for a search element, 0 for none. *)
  ix_find : T → selem_t → Z;
  ix_insert : T → ielem_t → result T;
  ix_delete : T → ielem_t → T;
  (** There is room for the element. *)
  ix_fits : T → ielem_t → Prop;
  (** At most one entry for the element's signature can be found. *)
  ix_single : T → ielem_t → Prop;
  ix_insert_spec t e :
    ix_ok t → ix_fits t e → e_sig e ≠ 0 → e_loc e ≠ 0 →
    ∃ t', ix_insert t e = Ok t' ∧ ix_ok t' ∧ ix_find t' (Selem (e_sig e) (e_hash e)) = e_loc e ∧
      ∀ x, s_sig x ≠ 0 → s_sig x ≠ e_sig e → ix_find t' x = ix_find t x;
  ix_delete_spec t e :
    ix_ok t → ix_single t e → e_sig e ≠ 0 → e_loc e ≠ 0 →
    ix_ok (ix_delete t e) ∧
    (let l := ix_find t (Selem (e_sig e) (e_hash e)) in
     ix_find (ix_delete t e) (Selem (e_sig e) (e_hash e)) = if l =? e_loc e then 0 else l) ∧
    (∀ x, s_sig x ≠ 0 → s_sig x ≠ e_sig e → ix_find (ix_delete t e) x = ix_find t x) ∧
    ∀ e', ix_single t e' → ix_single (ix_delete t e) e';
}.

(** ** Clients of the interface *)

Section refinement.
Context `{Ix : LocationIndex T} (hash_of : Z → Z).

(** The table represents the map [m] from signatures to locations, when every
    signature [s] belongs to one key only, whose hash is [hash_of s]. *)
Definition represents (t : T) (m : gmap Z Z) : Prop :=
  ix_ok t ∧ ∀ s, s ≠ 0 → ix_find t (Selem s (hash_of s)) = default 0 (m !! s).

Definition proper_elem (e : ielem_t) : Prop :=
  e_sig e ≠ 0 ∧ e_loc e ≠ 0 ∧ e_hash e = hash_of (e_sig e).

Fixpoint insert_list (t : T) (es : list ielem_t) : result T :=
  match es with
  | [] => Ok t
  | e :: es => t ← ix_insert t e; insert_list t es
  end.

(** Every element fits when it is its turn. *)
Fixpoint all_fit (t : T) (es : list ielem_t) : Prop :=
  match es with
  | [] => True
  | e :: es => ix_fits t e ∧ ∀ t', ix_insert t e = Ok t' → all_fit t' es
  end.

Definition map_insert (m : gmap Z Z) (e : ielem_t) : gmap Z Z := <[e_sig e := e_loc e]> m.

Lemma represents_insert t m e :
  represents t m → proper_elem e → ix_fits t e →
  ∃ t', ix_insert t e = Ok t' ∧ represents t' (map_insert m e).
Proof.
  intros [Hok Hm] (Hs & Hl & Hh) Hfit.
  destruct (ix_insert_spec t e Hok Hfit Hs Hl) as (t' & Hi & Hok' & Hf & Ho).
  exists t'. split; [done|]. split; [done|]. intros s Hs'. unfold map_insert.
  destruct (decide (s = e_sig e)) as [->|Hne].
  - by rewrite lookup_insert_eq, <-Hh, Hf.
  - by rewrite lookup_insert_ne, Ho, Hm by done.
Qed.

Lemma insert_list_refines t m es :
  represents t m → Forall proper_elem es → all_fit t es →
  ∃ t', insert_list t es = Ok t' ∧ represents t' (foldl map_insert m es).
Proof.
  intros Hr Hes. revert t m Hr. induction Hes as [|e es He Hes IH]; intros t m Hr Hfit; [by exists t|].
  destruct Hfit as [Hfit Hnext]. destruct (represents_insert t m e Hr He Hfit) as (t1 & H1 & Hr1).
  destruct (IH t1 (map_insert m e) Hr1 (Hnext t1 H1)) as (t2 & H2 & Hr2).
  exists t2. simpl. by rewrite H1, bind_Ok.
Qed.

(** The deletion of an element takes the binding away that it names. *)
Definition map_delete (m : gmap Z Z) (e : ielem_t) : gmap Z Z :=
  if decide (m !! e_sig e = Some (e_loc e)) then delete (e_sig e) m else m.

Lemma represents_delete t m e :
  represents t m → proper_elem e → ix_single t e → represents (ix_delete t e) (map_delete m e).
Proof.
  intros [Hok Hm] (Hs & Hl & Hh) Hsingle.
  destruct (ix_delete_spec t e Hok Hsingle Hs Hl) as (Hok' & Hf & Ho & _). cbv zeta in Hf. rewrite Hh, Hm in Hf by done.
  split; [done|]. intros s Hs'. unfold map_delete. destruct (decide (s = e_sig e)) as [->|Hne].
  - rewrite Hf. destruct (decide (m !! e_sig e = Some (e_loc e))) as [He|He].
    + by rewrite He, lookup_delete_eq, Z.eqb_refl.
    + destruct (Z.eqb_spec (default 0 (m !! e_sig e)) (e_loc e)) as [Heq|]; [|done].
      destruct (m !! e_sig e); simpl in Heq; congruence.
  - rewrite Ho, Hm by done. destruct (decide _); by rewrite ?lookup_delete_ne.
Qed.

Lemma delete_list_refines t m es :
  represents t m → Forall proper_elem es → Forall (ix_single t) es →
  represents (foldl ix_delete t es) (foldl map_delete m es).
Proof.
  intros Hr Hes. revert t m Hr. induction Hes as [|e es He _ IH]; intros t m Hr Hsingle; [done|].
  apply Forall_cons in Hsingle as [Hse Hsingle]. simpl. apply IH; [by apply represents_delete|].
  eapply Forall_impl; [exact Hsingle|]. destruct He as (Hs & Hl & _). apply (ix_delete_spec t e); [apply Hr|done..].
Qed.

(** What a sequence of deletions leaves, whatever their order. *)
Lemma map_deletes_lookup m es s :
  foldl map_delete m es !! s =
    if decide (Exists (λ e, e_sig e = s ∧ m !! s = Some (e_loc e)) es) then None else m !! s.
Proof.
  revert m. induction es as [|e es IH]; intros m; [done|]. cbn [foldl]. rewrite IH. unfold map_delete. destruct (decide (m !! e_sig e = Some (e_loc e))) as [He|He].
  - destruct (decide (s = e_sig e)) as [->|Hne].
    + rewrite lookup_delete_eq. repeat case_decide; try done;
      match goal with H : ¬ Exists _ (e :: es) |- _ => destruct H; by left end.
    + rewrite lookup_delete_ne by done. apply decide_ext. rewrite Exists_cons. naive_solver.
  - apply decide_ext. rewrite Exists_cons. naive_solver.
Qed.
End refinement.

(** ** The GPU hash table *)

(** The winners of simultaneous writes are among the values written. *)
Record winner_t := Winner { win : list Z → Z; win_in : ∀ l, l ≠ [] → win l ∈ l }.

Section gpu_index.
Context (w : winner_t) (kind : hash_kind) (fuel : nat).

Definition gpu_find (t : table) (x : selem_t) : Z := found (hash_search_elem (win w) t x (0, 0)).
Definition gpu_fits (t : table) (e : ielem_t) : Prop :=
  fits t (bucket_index (e_hash e)) (e_sig e) ∨ fits t (second_index (e_hash e) (e_sig e)) (e_sig e).
Definition gpu_single (t : table) (e : ielem_t) : Prop :=
  bview (ht_get t (bucket_index (e_hash e))) !! e_sig e = None ∨
  bview (ht_get t (second_index (e_hash e) (e_sig e))) !! e_sig e = None ∨
  bucket_index (e_hash e) = second_index (e_hash e) (e_sig e).

Lemma gpu_find_view t s h :
  table_wf t → s ≠ 0 →
  gpu_find t (Selem s h) =
    let a := default 0 (bview (ht_get t (bucket_index h)) !! s) in
    if a =? 0 then default 0 (bview (ht_get t (second_index h s)) !! s) else a.
Proof. intros Ht Hs. unfold gpu_find. by rewrite hash_search_elem_view by (apply w || done). Qed.

Lemma gpu_insert_spec t e :
  table_wf t → gpu_fits t e → e_sig e ≠ 0 → e_loc e ≠ 0 →
  ∃ t', hash_insert_elem kind alone (S fuel) t e = Ok t' ∧ table_wf t' ∧
    gpu_find t' (Selem (e_sig e) (e_hash e)) = e_loc e ∧
    ∀ x, s_sig x ≠ 0 → s_sig x ≠ e_sig e → gpu_find t' x = gpu_find t x.
Proof.
  intros Ht Hfit Hs Hl. destruct e as [sig hash loc].
  destruct (insert_search_spec (win w) kind fuel t sig hash loc (win_in w) Ht Hs Hl Hfit)
    as (t' & H1 & H2 & H3 & H4).
  exists t'. split_and!; try done. intros [s h] Hs' Hne. unfold gpu_find. by rewrite H4.
Qed.

Lemma gpu_delete_find t e :
  table_wf t → gpu_single t e → e_sig e ≠ 0 → e_loc e ≠ 0 →
  let l := gpu_find t (Selem (e_sig e) (e_hash e)) in
  gpu_find (hash_delete_elem t e) (Selem (e_sig e) (e_hash e)) = if l =? e_loc e then 0 else l.
Proof.
  intros Ht Hsingle Hs Hl. destruct (hash_delete_elem_spec t e Ht Hs) as [Hwf Hview].
  set (k1 := bucket_index (e_hash e)) in *. set (k2 := second_index (e_hash e) (e_sig e)) in *.
  rewrite !gpu_find_view by done. cbv zeta. fold k1 k2. unfold gpu_single in Hsingle. fold k1 k2 in Hsingle.
  rewrite !Hview. clear Hview Hwf.
  destruct (decide (bview (ht_get t k1) !! e_sig e = Some (e_loc e))) as [E1|E1].
  - rewrite (decide_True _ _ (conj eq_refl E1)), lookup_delete_eq, E1. simpl.
    rewrite (proj2 (Z.eqb_neq (e_loc e) 0)), Z.eqb_refl by done.
    destruct (decide (k1 = k2 ∧ _)) as [|Hne]; [by rewrite lookup_delete_eq|].
    destruct Hsingle as [Hn|[->|Heq]]; [congruence|done|tauto].
  - destruct (decide (k2 = k1 ∧ _)) as [[Heq E3]|_]; [rewrite Heq in E3; congruence|].
    destruct (bview (ht_get t k1) !! e_sig e) as [a|] eqn:E2; simpl.
    + destruct (decide (k2 = k2 ∧ _)) as [[_ E4]|_].
      * destruct Hsingle as [Hn|[Hn|Heq]]; [congruence..|]. rewrite Heq, E4 in E2. congruence.
      * destruct (Z.eqb_spec a 0), (Z.eqb_spec a (e_loc e)); subst; try congruence.
        -- destruct (Z.eqb_spec (default 0 (bview (ht_get t k2) !! e_sig e)) (e_loc e)) as [E|]; [|done].
           destruct Hsingle as [Hn|[Hn|Heq]]; [congruence|rewrite Hn in E; simpl in E; congruence|].
           rewrite <-Heq, E2 in E. simpl in E. congruence.
    + destruct (decide (k2 = k2 ∧ _)) as [[_ E4]|E4].
      * rewrite lookup_delete_eq, E4. simpl. by rewrite Z.eqb_refl.
      * destruct (Z.eqb_spec (default 0 (bview (ht_get t k2) !! e_sig e)) (e_loc e)) as [E|]; [|done].
        destruct (bview (ht_get t k2) !! e_sig e) eqn:E5; simpl in E; [subst; tauto|congruence].
Qed.

Lemma gpu_delete_spec t e :
  table_wf t → gpu_single t e → e_sig e ≠ 0 → e_loc e ≠ 0 →
  table_wf (hash_delete_elem t e) ∧
  (let l := gpu_find t (Selem (e_sig e) (e_hash e)) in
   gpu_find (hash_delete_elem t e) (Selem (e_sig e) (e_hash e)) = if l =? e_loc e then 0 else l) ∧
  (∀ x, s_sig x ≠ 0 → s_sig x ≠ e_sig e → gpu_find (hash_delete_elem t e) x = gpu_find t x) ∧
  ∀ e', gpu_single t e' → gpu_single (hash_delete_elem t e) e'.
Proof.
  intros Ht Hsingle Hs Hl. destruct (hash_delete_elem_spec t e Ht Hs) as [Hwf Hview].
  split; [done|]. split; [by apply gpu_delete_find|].
  assert (Hd : ∀ k s (P : Prop) (d : Decision P), s ≠ e_sig e →
    (if decide P then delete (e_sig e) (bview (ht_get t k)) else bview (ht_get t k)) !! s =
    bview (ht_get t k) !! s).
  { intros k s P d Hne. destruct (decide P); [by rewrite lookup_delete_ne|done]. }
  assert (Hn : ∀ k s, bview (ht_get t k) !! s = None → bview (ht_get (hash_delete_elem t e) k) !! s = None).
  { intros k s Hk. rewrite Hview. match goal with |- (if ?D then _ else _) !! _ = _ => destruct D end; [|done].
    apply lookup_delete_None. by right. }
  split.
  - intros [s h] Hs' Hne. simpl in *. rewrite !gpu_find_view by done. cbv zeta. by rewrite !Hview, !Hd.
  - intros e' [H|[H|H]]; [left|right; left|right; right]; by try apply Hn.
Qed.

(** Clearing slots makes room. *)
Lemma fits_clear t k k' e sig :
  table_wf t → fits t k sig → fits (<[k' := clear_entry (ht_get t k') e]> t) k sig.
Proof.
  intros Ht Hfit. unfold fits in *. rewrite ht_get_insert. destruct (decide (k' = k)) as [->|]; [|done].
  destruct Hfit as [[v Hv]|(l & Hl & H0)].
  - apply bview_Some in Hv as (Hs & l & Hl & Hsig & Hloc); [|apply Ht].
    destruct (same_entry (ht_get t k) e l) eqn:E.
    + right. exists l. split; [done|]. by rewrite clear_entry_lane, E.
    + left. exists v. apply bview_Some; [apply clear_entry_wf, Ht|]. split; [done|]. exists l.
      by rewrite clear_entry_lane, E.
  - right. exists l. split; [done|]. rewrite clear_entry_lane by done. by destruct (same_entry _ _ _).
Qed.

Lemma gpu_fits_delete t d e :
  table_wf t → e_sig d ≠ 0 → gpu_fits t e → gpu_fits (hash_delete_elem t d) e.
Proof.
  intros Ht Hs Hfit. unfold gpu_fits, hash_delete_elem in *. cbv zeta.
  pose proof (proj1 (clear_entry_cleared t (bucket_index (e_hash d)) d Ht Hs)) as Ht1.
  destruct (negb _); destruct Hfit as [H|H]; [left|right|left|right];
    repeat apply fits_clear; done.
Qed.

Lemma gpu_fits_deletes t ds e :
  table_wf t → Forall (λ d, e_sig d ≠ 0) ds → gpu_fits t e → gpu_fits (hash_delete t ds) e.
Proof.
  intros Ht Hds. revert t Ht. induction Hds as [|d ds Hd _ IH]; intros t Ht Hfit; [done|].
  apply IH; [by apply hash_delete_elem_spec|by apply gpu_fits_delete].
Qed.

#[export] Instance gpu_location_index : LocationIndex table := {
  ix_ok := table_wf;
  ix_find := gpu_find;
  ix_insert := hash_insert_elem kind alone (S fuel);
  ix_delete := hash_delete_elem;
  ix_fits := gpu_fits;
  ix_single := gpu_single;
  ix_insert_spec := gpu_insert_spec;
  ix_delete_spec := gpu_delete_spec;
}.

(** The kernel's sequence of insertions is the interface's. *)
Lemma hash_insert_list t es : hash_insert kind (S fuel) t es = insert_list t es.
Proof. revert t. induction es as [|e es IH]; intros t; [done|]. simpl. destruct (hash_insert_elem _ _ _ _ _); [apply IH | done]. Qed.
End gpu_index.


(** ** Properties *)

(** An element whose signature is not in its first bucket, which has room, is
    stored there, whatever its second bucket holds. *)
Lemma insert_first_bucket kind fuel t e :
  table_wf t → e_sig e ≠ 0 →
  bview (ht_get t (bucket_index (e_hash e))) !! e_sig e = None →
  has_room (ht_get t (bucket_index (e_hash e))) →
  ∃ t', hash_insert_elem kind alone (S fuel) t e = Ok t' ∧
    stored t t' (bucket_index (e_hash e)) (e_sig e) (e_loc e).
Proof.
  intros Ht Hsig Hnone Hroom.
  pose proof (update_in_place_spec t (bucket_index (e_hash e)) (e_sig e) (e_loc e) Ht Hsig) as Hupd.
  assert (He : (e_sig e =? 0) && (e_loc e =? 0) = false)
    by (apply andb_false_iff; left; by apply Z.eqb_neq).
  destruct kind; simpl; unfold hash_insert_cuckoo_elem, hash_insert_2choice_elem; rewrite He;
    destruct (update_in_place t _ _ _) as [t'|];
    try (destruct Hupd as [[? Hs] _]; congruence);
    destruct (first_bucket_alone fuel 0 t (bucket_index (e_hash e)) (e_sig e) (e_loc e) Ht Hsig Hupd)
      as [(_ & t' & -> & Hst)|[Hfull ->]]; try done; by exists t'.
Qed.

(** C6: the index refines a map.  Start with a table that represents a map from
    signatures to locations; insert elements that each fit when it is their turn.
    The insertion kernel ends, and the resulting table represents the map with
    the same insertions: every search returns the location last inserted for its
    signature, or 0. *)
Theorem gpu_index_refines_map w kind fuel hash_of t m es :
  let Ix := gpu_location_index w kind fuel in
  represents hash_of t m → Forall (proper_elem hash_of) es → all_fit t es →
  ∃ t', hash_insert kind (S fuel) t es = Ok t' ∧
    represents hash_of t' (foldl (λ m e, <[e_sig e := e_loc e]> m) m es).
Proof. intros Ix Hr Hes Hfit. rewrite (hash_insert_list w). by apply insert_list_refines. Qed.

(** A stale entry.  The insertion kernels look for the signature in the second
    bucket only when the first is full.  When an item whose entry is in the
    second bucket is stored again while the first has room, the index holds two
    entries; deleting the new one, as the eviction of the new item does, makes the
    search return the old location again. *)
Theorem reinsert_then_delete_resurrects w kind fuel t sig hash loc1 loc2 :
  let k1 := bucket_index hash in
  let k2 := second_index hash sig in
  table_wf t → sig ≠ 0 → loc1 ≠ 0 → loc2 ≠ 0 → k1 ≠ k2 →
  bview (ht_get t k1) !! sig = None → has_room (ht_get t k1) → bview (ht_get t k2) !! sig = Some loc1 →
  ∃ t', hash_insert_elem kind alone (S fuel) t (Ielem sig hash loc2) = Ok t' ∧
    gpu_find w t' (Selem sig hash) = loc2 ∧
    gpu_find w (hash_delete_elem t' (Ielem sig hash loc2)) (Selem sig hash) = loc1.
Proof.
  intros k1 k2 Ht Hsig Hl1 Hl2 Hk Hnone Hroom Hold.
  destruct (insert_first_bucket kind fuel t (Ielem sig hash loc2) Ht Hsig Hnone Hroom) as (t' & H & Hst).
  simpl in Hst. exists t'. split; [done|]. pose proof (stored_wf _ _ _ _ _ Ht Hst) as Hwf.
  assert (Hv1 : bview (ht_get t' k1) !! sig = Some loc2).
  { by rewrite (stored_view _ _ _ _ _ _ Hst), decide_True, lookup_insert_eq by done. }
  assert (Hv2 : bview (ht_get t' k2) !! sig = Some loc1).
  { by rewrite (stored_view _ _ _ _ _ _ Hst), decide_False by done. }
  split.
  - rewrite gpu_find_view by done. cbv zeta. fold k1. rewrite Hv1. simpl. by rewrite (proj2 (Z.eqb_neq _ _)).
  - destruct (hash_delete_elem_spec t' (Ielem sig hash loc2) Hwf Hsig) as [Hwf' Hview]. simpl in Hview.
    fold k1 k2 in Hview. rewrite (decide_True _ _ Hv1) in Hview.
    rewrite gpu_find_view by done. cbv zeta. fold k1 k2. rewrite !Hview.
    rewrite (decide_True _ _ (conj eq_refl Hv1)), lookup_delete_eq, decide_False by naive_solver.
    by rewrite Hv2.
Qed.

(** ** The properties at concrete tables *)

Definition ex_w : winner_t := Winner ex_winner ex_winner_in.

Lemma gpu_index_refines_map_witness :
  ∃ t', hash_insert HASH_CUCKOO 1 ∅ [Ielem 7 7 70; Ielem 8 8 80; Ielem 7 7 71] = Ok t' ∧
    gpu_find ex_w t' (Selem 7 7) = 71.
Proof.
  destruct (gpu_index_refines_map ex_w HASH_CUCKOO 0 id ∅ ∅ [Ielem 7 7 70; Ielem 8 8 80; Ielem 7 7 71])
    as (t' & H & _ & Hf).
  - split; [exact empty_table_wf|]. intros s Hs. simpl. rewrite gpu_find_view by (exact empty_table_wf || done).
    reflexivity.
  - repeat constructor; done.
  - simpl. split; [left; right; apply room_empty_table|]. intros t1 H1. vm_compute in H1. injection H1 as <-.
    split; [left; right; exists 0; split; [lia | vm_compute; reflexivity]|].
    intros t2 H2. vm_compute in H2. injection H2 as <-.
    split; [|done]. left. left. exists 70. vm_compute. reflexivity.
  - exists t'. split; [exact H|]. apply (Hf 7). done.
Defined.

(** Bucket 9, the second one of hash 0 and signature 9, holds that signature. *)
Definition ex_second : table := <[9 := Bucket [9; 1; 2; 3; 4; 5; 6; 7] [50; 51; 52; 53; 54; 55; 56; 57]]> ∅.

Lemma reinsert_then_delete_resurrects_witness :
  ∃ t', hash_insert_elem HASH_CUCKOO alone 1 ex_second (Ielem 9 0 60) = Ok t' ∧
    gpu_find ex_w (hash_delete_elem t' (Ielem 9 0 60)) (Selem 9 0) = 50.
Proof.
  destruct (reinsert_then_delete_resurrects ex_w HASH_CUCKOO 0 ex_second 9 0 50 60)
    as (t' & H & _ & Hf); try done.
  - apply table_wf_insert; [apply empty_table_wf|]. apply NoDup_bucket_wf; try reflexivity.
    refine (bool_decide_unpack _ _). vm_compute. exact I.
  - exists 0. split; [lia | vm_compute; reflexivity].
  - by exists t'.
Defined.
