(* ===== verification/Units.v ===== *)
(** * The units of an insertion block (src/libgpuhash/gpu_hash.cu)

    [GpuHash] has the insertion kernels for one unit of threads, with the other
    units as interference.  Here all units of a block run on one table: a step is
    one vote or one write of a unit, in any order, and [__syncthreads] lets the
    units go on when all that are not finished have reached it.  The states are
    those of the first bucket, whose code both kernels share; a unit that finds it
    full goes on with the second bucket ([UNext]), which is not followed here.
    The properties say that, when the elements fit into their first buckets, no
    unit loses its element: slots for which two units compete are tried again until
    all are stored, and the order of the steps makes no difference to the searches. *)

From S2P Require Import Prelude GpuHash Index.

(** Where a unit is with the first element of its list; [None] for a vote without
    an empty slot. *)
Inductive unit_pc :=
  | UStart                       (** about to look for the signature *)
  | UBallot                      (** about to look for an empty slot *)
  | UWrite (c : Z)               (** about to write its signature to slot [c] *)
  | UBarrier (c : option Z)      (** at [__syncthreads] *)
  | UCheck (c : option Z)        (** behind it *)
  | UStore (c : Z)               (** about to write the location *)
  | UNext.                       (** tries the second bucket *)

#[export] Instance unit_pc_eq_dec : EqDecision unit_pc.
Proof. solve_decision. Defined.

(** The elements a unit has still to insert: those of [unit_ids]. *)
Record unit_t := UnitT { u_pc : unit_pc; u_todo : list ielem_t }.

Record block := Block { bl_table : table; bl_units : list unit_t }.

(** The next step of a unit; [None] when it waits, is finished or has gone on. *)
Definition unit_step (t : table) (u : unit_t) : option (table * unit_t) :=
  match u_todo u with
  | [] => None
  | e :: rest =>
      let k := bucket_index (e_hash e) in
      let b := ht_get t k in
      match u_pc u with
      | UStart =>
          if (e_sig e =? 0) && (e_loc e =? 0) then Some (t, UnitT UStart rest)
          else
            let ballot := unit_ballot (same_sig b (e_sig e)) in
            Some (t, UnitT (if negb (ballot =? 0) then UStore (chosen ballot) else UBallot) (e :: rest))
      | UBallot =>
          let ballot := empty_slots b (ml_mask (e_sig e)) in
          Some (t, UnitT (if negb (ballot =? 0) then UWrite (chosen ballot) else UBarrier None) (e :: rest))
      | UWrite c => Some (<[k := set_sig b c (e_sig e)]> t, UnitT (UBarrier (Some c)) (e :: rest))
      | UCheck (Some c) =>
          Some (t, UnitT (if lane (b_sig b) c =? e_sig e then UStore c else UBallot) (e :: rest))
      | UCheck None => Some (t, UnitT UNext (e :: rest))
      | UStore c => Some (<[k := set_loc b c (e_loc e)]> t, UnitT UStart rest)
      | UBarrier _ | UNext => None
      end
  end.

(** [__syncthreads]: no unit is on its way to it. *)
Definition at_barrier (u : unit_t) : bool :=
  match u_todo u, u_pc u with _ :: _, UBarrier _ => true | _, _ => false end.
Definition finished (u : unit_t) : bool := match u_todo u with [] => true | _ => false end.
Definition pass_barrier (u : unit_t) : unit_t :=
  match u_todo u, u_pc u with
  | _ :: _, UBarrier c => UnitT (UCheck c) (u_todo u)
  | _, _ => u
  end.
Definition may_pass (us : list unit_t) : bool :=
  forallb (λ u, at_barrier u || finished u) us && existsb at_barrier us.

Inductive block_step (s s' : block) : Prop :=
  | step_unit i u t' u' : bl_units s !! i = Some u → unit_step (bl_table s) u = Some (t', u') →
      s' = Block t' (<[i := u']> (bl_units s)) → block_step s s'
  | step_barrier : may_pass (bl_units s) = true →
      s' = Block (bl_table s) (pass_barrier <$> bl_units s) → block_step s s'.

Definition all_finished (s : block) : bool := forallb finished (bl_units s).

(** The block at its start: unit [u] has the elements [u], [u + step], ... *)
Definition block0 (t : table) (todos : list (list ielem_t)) : block := Block t (UnitT UStart <$> todos).

(** The elements of unit [u]: those with the numbers [u], [u + step], ... of the
    buffer, [step] being the number of units in the block of 1024 threads that
    [gpu_hash_insert] launches. *)
Definition unit_elems (es : list ielem_t) (u : Z) : list ielem_t :=
  omap (λ id, es !! Z.to_nat id)
    (unit_ids (length es) u (Z.shiftr 1024 ELEM_NUM_P) (Z.of_nat (length es))).
Definition insert_block (t : table) (es : list ielem_t) : block :=
  block0 t (unit_elems es <$> seqZ 0 (Z.shiftr 1024 ELEM_NUM_P)).

(** An executable schedule: unit numbers, and [None] for the barrier. *)
Fixpoint run_block (sched : list (option nat)) (s : block) : option block :=
  match sched with
  | [] => Some s
  | Some i :: sched =>
      u ← bl_units s !! i; '(t, u) ← unit_step (bl_table s) u;
      run_block sched (Block t (<[i := u]> (bl_units s)))
  | None :: sched =>
      if may_pass (bl_units s)
      then run_block sched (Block (bl_table s) (pass_barrier <$> bl_units s)) else None
  end.

(** ** The invariant *)

Section units.
Context (t0 : table) (es : list ielem_t).

Abbreviation bk e := (bucket_index (e_hash e)).
Definition slot (t : table) (k l : Z) : Z := lane (b_sig (ht_get t k)) l.
Definition sloc (t : table) (k l : Z) : Z := lane (b_loc (ht_get t k)) l.

(** The element needs a slot of its own. *)
Definition fresh (e : ielem_t) : Prop := bview (ht_get t0 (bk e)) !! e_sig e = None.

Definition free_slots (k : Z) : list Z := filter (λ l, slot t0 k l = 0) (seqZ 0 8).
Definition needed (k : Z) : list ielem_t := filter (λ e, bk e = k ∧ fresh e) es.

(** What the elements must satisfy: signatures that differ and are not 0, and
    enough free slots in the first buckets. *)
Record block_ok : Prop := {
  bo_wf : table_wf t0;
  bo_sig : Forall (λ e, e_sig e ≠ 0) es;
  bo_distinct : NoDup (e_sig <$> es);
  bo_room : ∀ k, (length (needed k) ≤ length (free_slots k))%nat;
}.

(** The slot a unit has written its signature to, or has found it in. *)
Definition wrote (pc : unit_pc) : option Z :=
  match pc with UBarrier c | UCheck c => c | UStore c => Some c | _ => None end.

(** A unit that waits at the barrier has its signature in slot [c]. *)
Definition held (t : table) (us : list unit_t) (k c : Z) : Prop :=
  ∃ j v e rest, us !! j = Some v ∧ u_pc v = UBarrier (Some c) ∧ u_todo v = e :: rest ∧ bk e = k ∧
    slot t k c = e_sig e.

Definition unit_ok (t : table) (us : list unit_t) (u : unit_t) : Prop :=
  match u_todo u with
  | [] => True
  | e :: _ =>
      let k := bk e in
      match u_pc u with
      | UStart => True
      | UBallot => fresh e
      | UWrite c => fresh e ∧ 0 ≤ c < 8 ∧ slot t0 k c = 0 ∧ (slot t k c = 0 ∨ held t us k c)
      | UBarrier (Some c) => fresh e ∧ 0 ≤ c < 8 ∧ slot t0 k c = 0 ∧ held t us k c
      | UCheck (Some c) => fresh e ∧ 0 ≤ c < 8
      | UStore c => 0 ≤ c < 8 ∧ slot t k c = e_sig e
      | UBarrier None | UCheck None | UNext => False
      end
  end.

Definition pending (us : list unit_t) (e : ielem_t) : Prop :=
  ∃ i u, us !! i = Some u ∧ e ∈ u_todo u.

Record block_inv (s : block) : Prop := {
  iv_wf : table_wf (bl_table s);
  (** the lists of the units *)
  iv_todo : ∀ i u, bl_units s !! i = Some u → NoDup (u_todo u) ∧ ∀ e, e ∈ u_todo u → e ∈ es;
  iv_own : ∀ i j u v e, bl_units s !! i = Some u → bl_units s !! j = Some v →
    e ∈ u_todo u → e ∈ u_todo v → i = j;
  (** a slot keeps its signature, or was free and has that of an element *)
  iv_slot : ∀ k l, 0 ≤ l < 8 → slot (bl_table s) k l = slot t0 k l ∨
    slot t0 k l = 0 ∧ ∃ e, e ∈ es ∧ bk e = k ∧ fresh e ∧ slot (bl_table s) k l = e_sig e;
  (** a pending signature that is new to its bucket is where its unit wrote it *)
  iv_new : ∀ e l, pending (bl_units s) e → fresh e → 0 ≤ l < 8 → slot (bl_table s) (bk e) l = e_sig e →
    ∃ i u rest, bl_units s !! i = Some u ∧ u_todo u = e :: rest ∧ wrote (u_pc u) = Some l;
  (** what is stored stays *)
  iv_done : ∀ e, e ∈ es → ¬ pending (bl_units s) e →
    ∃ l, 0 ≤ l < 8 ∧ slot (bl_table s) (bk e) l = e_sig e ∧ sloc (bl_table s) (bk e) l = e_loc e;
  iv_old : ∀ k l, 0 ≤ l < 8 → slot t0 k l ≠ 0 →
    (∀ e, e ∈ es → bk e = k → e_sig e = slot t0 k l → pending (bl_units s) e) →
    sloc (bl_table s) k l = sloc t0 k l;
  iv_unit : ∀ i u, bl_units s !! i = Some u → unit_ok (bl_table s) (bl_units s) u;
}.

(** *** Consequences of the invariant *)

Lemma slot_set_sig t k c x k' l :
  table_wf t → 0 ≤ c < 8 → 0 ≤ l →
  slot (<[k := set_sig (ht_get t k) c x]> t) k' l = (if decide (k' = k ∧ l = c) then x else slot t k' l) ∧
  sloc (<[k := set_sig (ht_get t k) c x]> t) k' l = sloc t k' l.
Proof.
  intros Hwf Hc Hl. unfold slot, sloc. rewrite ht_get_insert.
  destruct (decide (k = k')) as [<-|Hne]; [|rewrite decide_False by naive_solver; done].
  simpl. rewrite lane_insert by (done || apply Hwf). split; [|done].
  destruct (Z.eqb_spec l c); [rewrite decide_True by done | rewrite decide_False by naive_solver]; done.
Qed.

Lemma slot_set_loc t k c x k' l :
  table_wf t → 0 ≤ c < 8 → 0 ≤ l →
  slot (<[k := set_loc (ht_get t k) c x]> t) k' l = slot t k' l ∧
  sloc (<[k := set_loc (ht_get t k) c x]> t) k' l = (if decide (k' = k ∧ l = c) then x else sloc t k' l).
Proof.
  intros Hwf Hc Hl. unfold slot, sloc. rewrite ht_get_insert.
  destruct (decide (k = k')) as [<-|Hne]; [|rewrite decide_False by naive_solver; done].
  simpl. rewrite lane_insert by (done || apply Hwf). split; [done|].
  destruct (Z.eqb_spec l c); [rewrite decide_True by done | rewrite decide_False by naive_solver]; done.
Qed.

Section facts.
Context (Hok : block_ok) (s : block) (Hinv : block_inv s).
Abbreviation t := (bl_table s).
Abbreviation us := (bl_units s).

Lemma same_element e e' : e ∈ es → e' ∈ es → e_sig e = e_sig e' → e = e'.
Proof.
  intros (i & Hi)%list_elem_of_lookup (j & Hj)%list_elem_of_lookup Heq.
  assert (i = j) as <-; [|congruence].
  apply (NoDup_lookup _ i j (e_sig e) (bo_distinct Hok)); rewrite list_lookup_fmap, ?Hi, ?Hj; simpl; congruence.
Qed.

Lemma sig_nonzero e : e ∈ es → e_sig e ≠ 0.
Proof. intros He. exact (proj1 (Forall_forall _ _) (bo_sig Hok) e He). Qed.

Lemma head_in i u e rest : us !! i = Some u → u_todo u = e :: rest → e ∈ es ∧ pending us e ∧ e ∉ rest.
Proof.
  intros Hi Ht. destruct (iv_todo _ Hinv i u Hi) as [Hnd Hin]. rewrite Ht in Hnd, Hin.
  apply NoDup_cons in Hnd as [Hne _]. split; [apply Hin; left|]. split; [|done].
  exists i, u. split; [done|]. rewrite Ht. left.
Qed.

(** Only the unit that works on a new element can have written its signature. *)
Lemma new_slot_own i u e rest l :
  us !! i = Some u → u_todo u = e :: rest → fresh e → 0 ≤ l < 8 →
  slot t (bk e) l = e_sig e → wrote (u_pc u) = Some l.
Proof.
  intros Hi Ht Hf Hl Hs. destruct (head_in i u e rest Hi Ht) as (He & Hp & _).
  destruct (iv_new _ Hinv e l Hp Hf Hl Hs) as (j & v & rest' & Hj & Hv & Hw).
  assert (i = j) as <-; [|congruence].
  apply (iv_own _ Hinv i j u v e); try done; [rewrite Ht|rewrite Hv]; left.
Qed.

Lemma fresh_slots e : e ∈ es → fresh e ↔ ∀ l, 0 ≤ l < 8 → slot t0 (bk e) l ≠ e_sig e.
Proof. intros He. apply bview_None; [apply (bo_wf Hok) | by apply sig_nonzero]. Qed.

(** A unit that waits behind its signature is the only one with that slot. *)
Lemma held_own i u e rest k c :
  us !! i = Some u → u_todo u = e :: rest → held t us k c → slot t k c = e_sig e →
  u_pc u = UBarrier (Some c).
Proof.
  intros Hi Ht (j & v & e' & rest' & Hj & Hv & Hvt & Hk & Hs) Hs'.
  destruct (head_in i u e rest Hi Ht) as (He & _). destruct (head_in j v e' rest' Hj Hvt) as (He' & _).
  assert (e = e') as <- by (apply same_element; congruence).
  assert (i = j) as <-; [|congruence].
  apply (iv_own _ Hinv i j u v e); try done; [rewrite Ht|rewrite Hvt]; left.
Qed.

(** A bucket with a pending new element that is not in any of its slots has a
    free one. *)
Lemma room_left e :
  e ∈ es → fresh e → (∀ l, 0 ≤ l < 8 → slot t (bk e) l ≠ e_sig e) → has_room (ht_get t (bk e)).
Proof.
  intros He Hf Hno. set (k := bk e) in *.
  destruct (decide (Exists (λ l, slot t k l = 0) (seqZ 0 8))) as [Hex|Hnex].
  { apply Exists_exists in Hex as (l & Hl%elem_of_seqZ & H0). exists l. split; [lia | done]. }
  exfalso. assert (Hfull : ∀ l, 0 ≤ l < 8 → slot t k l ≠ 0).
  { intros l Hl H0. apply Hnex, Exists_exists. exists l. split; [apply elem_of_seqZ; lia | done]. }
  pose proof (bo_room Hok k) as Hroom.
  assert (Hfree : ∀ l, l ∈ free_slots k ↔ slot t0 k l = 0 ∧ 0 ≤ l < 8).
  { intros l. unfold free_slots. rewrite list_elem_of_filter, elem_of_seqZ.
    split; intros [? ?]; split; done || lia. }
  assert (Hnd : NoDup (e_sig e :: (slot t k <$> free_slots k))).
  { apply NoDup_cons. split.
    - intros (l & Heq & [_ Hl]%Hfree)%list_elem_of_fmap. by apply (Hno l Hl).
    - apply NoDup_fmap_2_strong; [|apply NoDup_filter, NoDup_seqZ].
      intros i j [_ Hi]%Hfree [_ Hj]%Hfree Heq.
      apply (wf_inj _ (iv_wf _ Hinv k)); [done|done|exact Heq|by apply Hfull]. }
  assert (Hsub : e_sig e :: (slot t k <$> free_slots k) ⊆ e_sig <$> needed k).
  { intros x [->|(l & -> & [H0 Hl]%Hfree)%list_elem_of_fmap]%elem_of_cons.
    - apply list_elem_of_fmap_2, list_elem_of_filter. done.
    - destruct (iv_slot _ Hinv k l Hl) as [Heq|(_ & e' & He' & Hk & Hf' & Hs)].
      + destruct (Hfull l Hl). congruence.
      + rewrite Hs. apply list_elem_of_fmap_2, list_elem_of_filter. done. }
  pose proof (submseteq_length _ _ (NoDup_submseteq _ _ Hnd Hsub)) as Hlen.
  rewrite length_cons, !length_fmap in Hlen. lia.
Qed.

(** *** Every step keeps the invariant *)

Lemma pending_same i u u' e :
  us !! i = Some u → u_todo u' = u_todo u → pending (<[i := u']> us) e ↔ pending us e.
Proof.
  intros Hi Ht. split; intros (j & v & Hj & He).
  - apply list_lookup_insert_Some in Hj as [(<- & <- & _)|[_ Hj]]; [|by exists j, v].
    exists i, u. by rewrite <-Ht.
  - destruct (decide (i = j)) as [<-|Hne].
    + exists i, u'. rewrite list_lookup_insert_eq by (by eapply lookup_lt_Some). split; [done|].
      rewrite Ht. congruence.
    + exists j, v. by rewrite list_lookup_insert_ne.
Qed.

Lemma held_keep i u u' k c :
  us !! i = Some u → (∀ c, u_pc u ≠ UBarrier (Some c)) → held t us k c → held t (<[i := u']> us) k c.
Proof.
  intros Hi Hpc (j & v & e & rest & Hj & Hv & H). exists j, v, e, rest. split; [|done].
  rewrite list_lookup_insert_ne; [done|]. intros ->. apply (Hpc c). congruence.
Qed.

Lemma unit_ok_keep us' v :
  (∀ k c, held t us k c → held t us' k c) → unit_ok t us v → unit_ok t us' v.
Proof.
  intros Hh. unfold unit_ok. destruct (u_todo v) as [|e rest]; [done|].
  destruct (u_pc v) as [| |c|[c|]|[c|]|c|]; try done;
    intros (? & Hl & ? & Hc); do 3 (split; [done|]).
  - destruct Hc as [|Hc]; [by left | right; by apply Hh].
  - by apply Hh.
Qed.

(** The lists of the units under an update that shortens one. *)
Lemma todo_shorter i u u' :
  us !! i = Some u → u_todo u' `sublist_of` u_todo u →
  (∀ j v, <[i := u']> us !! j = Some v → NoDup (u_todo v) ∧ ∀ e, e ∈ u_todo v → e ∈ es) ∧
  (∀ j j' v v' e, <[i := u']> us !! j = Some v → <[i := u']> us !! j' = Some v' →
    e ∈ u_todo v → e ∈ u_todo v' → j = j').
Proof.
  intros Hi Hsub.
  assert (Hold : ∀ j v, <[i := u']> us !! j = Some v → ∃ v0, us !! j = Some v0 ∧ u_todo v `sublist_of` u_todo v0).
  { intros j v [(<- & <- & _)|[_ Hj]]%list_lookup_insert_Some; eauto. }
  split.
  - intros j v (v0 & Hj & Hs)%Hold. destruct (iv_todo _ Hinv j v0 Hj) as [Hnd Hin]. split.
    + by eapply sublist_NoDup.
    + intros e He. apply Hin. by eapply elem_of_sublist.
  - intros j j' v v' e (v0 & Hj & Hs)%Hold (v0' & Hj' & Hs')%Hold He He'.
    apply (iv_own _ Hinv j j' v0 v0' e); eauto using elem_of_sublist.
Qed.

(** Steps that leave the table alone. *)
Lemma move_inv i u u' :
  us !! i = Some u → u_todo u' = u_todo u → (∀ c, u_pc u ≠ UBarrier (Some c)) →
  unit_ok t (<[i := u']> us) u' →
  (∀ e rest l, u_todo u = e :: rest → fresh e → slot t (bk e) l = e_sig e →
     wrote (u_pc u) = Some l → wrote (u_pc u') = Some l) →
  block_inv (Block t (<[i := u']> us)).
Proof.
  intros Hi Ht Hpc Hu Hw. pose proof (λ e, pending_same i u u' e Hi Ht) as Hpend.
  destruct (todo_shorter i u u' Hi) as [Htodo Hown]; [by rewrite Ht|].
  assert (Hlt : (i < length us)%nat) by by eapply lookup_lt_Some.
  split; simpl; try done.
  - apply Hinv.
  - apply Hinv.
  - intros e l Hp Hf Hl Hs. destruct (iv_new _ Hinv e l (proj1 (Hpend e) Hp) Hf Hl Hs)
      as (j & v & rest & Hj & Hv & Hwv).
    destruct (decide (i = j)) as [<-|Hne].
    + exists i, u', rest. rewrite list_lookup_insert_eq by done. assert (v = u) as -> by congruence.
      split_and!; [done|by rewrite Ht|by eapply Hw].
    + exists j, v, rest. by rewrite list_lookup_insert_ne.
  - intros e He Hp. apply (iv_done _ Hinv e He). by rewrite <-Hpend.
  - intros k l Hl H0 Hall. apply (iv_old _ Hinv k l Hl H0). intros e He Hk Hs.
    by apply Hpend, Hall.
  - intros j v [(<- & <- & _)|[_ Hj]]%list_lookup_insert_Some; [done|].
    eapply unit_ok_keep; [|by eapply iv_unit]. intros k c. by apply held_keep with u.
Qed.

(** *** A unit writes its signature *)

Section write.
Context (i : nat) (u : unit_t) (e : ielem_t) (rest : list ielem_t) (c : Z).
Context (Hi : us !! i = Some u) (Ht : u_todo u = e :: rest) (Hpc : u_pc u = UWrite c).
Abbreviation t' := (<[bk e := set_sig (ht_get t (bk e)) c (e_sig e)]> t).
Abbreviation u' := (UnitT (UBarrier (Some c)) (e :: rest)).
Abbreviation us' := (<[i := u']> us).

Lemma write_pre :
  fresh e ∧ 0 ≤ c < 8 ∧ slot t0 (bk e) c = 0 ∧ (slot t (bk e) c = 0 ∨ held t us (bk e) c).
Proof. pose proof (iv_unit _ Hinv i u Hi) as Hu. unfold unit_ok in Hu. by rewrite Ht, Hpc in Hu. Qed.

Lemma write_unit : us' !! i = Some u'.
Proof. apply list_lookup_insert_eq. by eapply lookup_lt_Some. Qed.

Lemma write_slots k l : 0 ≤ l →
  slot t' k l = (if decide (k = bk e ∧ l = c) then e_sig e else slot t k l) ∧ sloc t' k l = sloc t k l.
Proof. apply slot_set_sig; [apply (iv_wf _ Hinv) | apply write_pre]. Qed.

Lemma not_written l : 0 ≤ l < 8 → slot t (bk e) l ≠ e_sig e.
Proof.
  intros Hl Hs. destruct write_pre as (Hf & _).
  pose proof (new_slot_own i u e rest l Hi Ht Hf Hl Hs) as Hw. by rewrite Hpc in Hw.
Qed.

(** The slot is free, or that of a unit that still waits at the barrier and will
    see that it has lost it. *)
Lemma overwritten e' :
  e' ∈ es → bk e' = bk e → slot t (bk e) c = e_sig e' →
  ∃ j v rest', us !! j = Some v ∧ u_pc v = UBarrier (Some c) ∧ u_todo v = e' :: rest'.
Proof.
  intros He' Hk Hs. destruct write_pre as (_ & _ & _ & [H0|Hh]).
  - destruct (sig_nonzero e' He'). congruence.
  - destruct Hh as (j & v & e2 & rest2 & Hj & Hv & Hvt & Hk2 & Hs2).
    destruct (head_in j v e2 rest2 Hj Hvt) as (He2 & _).
    assert (e' = e2) as -> by (apply same_element; congruence). eauto 6.
Qed.

Lemma write_own : held t' us' (bk e) c.
Proof.
  destruct write_pre as (_ & Hc & _). exists i, u', e, rest. split; [apply write_unit|].
  split_and!; try done. destruct (write_slots (bk e) c) as [-> _]; [lia|]. by rewrite decide_True.
Qed.

Lemma write_held k c' : held t us k c' → held t' us' k c'.
Proof.
  intros Hh. destruct (decide (k = bk e ∧ c' = c)) as [[-> ->]|Hd]; [apply write_own|].
  destruct Hh as (j & v & e' & rest' & Hj & Hv & Hvt & Hk & Hs). exists j, v, e', rest'.
  rewrite list_lookup_insert_ne by (intros ->; congruence). split_and!; try done.
  pose proof (iv_unit _ Hinv j v Hj) as Hvo. unfold unit_ok in Hvo. rewrite Hvt, Hv in Hvo.
  destruct (write_slots k c') as [-> _]; [lia|]. by rewrite decide_False.
Qed.

(** No unit has stored, or is to store, its location in the slot. *)
Lemma write_spares j v e' rest' :
  us !! j = Some v → u_todo v = e' :: rest' → bk e' = bk e → u_pc v ≠ UBarrier (Some c) →
  slot t (bk e) c ≠ e_sig e'.
Proof.
  intros Hj Hvt Hk Hv Hs. destruct (head_in j v e' rest' Hj Hvt) as (He' & _).
  destruct (overwritten e' He' Hk Hs) as (j2 & v2 & rest2 & Hj2 & Hv2 & Hvt2).
  assert (j = j2) as <-; [|congruence].
  apply (iv_own _ Hinv j j2 v v2 e'); try done; [rewrite Hvt|rewrite Hvt2]; left.
Qed.

Lemma write_unit_ok j v : us' !! j = Some v → unit_ok t' us' v.
Proof.
  destruct write_pre as (Hf & Hc & H0 & _).
  intros [(<- & <- & _)|[Hne Hj]]%list_lookup_insert_Some.
  { unfold unit_ok. simpl. do 3 (split; [done|]). apply write_own. }
  pose proof (iv_unit _ Hinv j v Hj) as Hv. unfold unit_ok in Hv |- *.
  destruct (u_todo v) as [|e' rest'] eqn:Hvt; [done|].
  destruct (u_pc v) as [| |c'|[c'|]|[c'|]|c'|] eqn:Hvpc; try done.
  - destruct Hv as (? & Hc' & ? & [Hz|Hh]); do 3 (split; [done|]); [|right; by apply write_held].
    destruct (decide (bk e' = bk e ∧ c' = c)) as [[Hk ->]|Hd].
    + right. rewrite Hk. apply write_own.
    + left. destruct (write_slots (bk e') c') as [-> _]; [lia|]. by rewrite decide_False.
  - destruct Hv as (? & ? & ? & Hh); do 3 (split; [done|]). by apply write_held.
  - destruct Hv as [Hc' Hs]. split; [done|]. destruct (write_slots (bk e') c') as [-> _]; [lia|].
    rewrite decide_False; [done|]. intros [Hk ->]. rewrite Hk in Hs.
    by apply (write_spares j v e' rest' Hj Hvt Hk); [rewrite Hvpc|].
Qed.

Lemma write_inv : block_inv (Block t' us').
Proof.
  destruct write_pre as (Hf & Hc & H0 & _). destruct (head_in i u e rest Hi Ht) as (He & _).
  pose proof (λ e', pending_same i u u' e' Hi (eq_sym Ht)) as Hpend.
  destruct (todo_shorter i u u' Hi) as [Htodo Hown]; [by rewrite Ht|].
  split; simpl; try done.
  - apply table_wf_insert; [apply Hinv|]. rewrite set_sig_put by (apply Hinv || done).
    apply put_wf; [apply Hinv|done|]. intros l Hl Hs. by destruct (not_written l Hl).
  - intros k l Hl. destruct (write_slots k l) as [-> _]; [lia|]. case_decide as Hd; [|by apply Hinv].
    destruct Hd as [-> ->]. right. split; [done|]. by exists e.
  - intros e' l Hp' Hf' Hl. apply Hpend in Hp'.
    destruct (write_slots (bk e') l) as [-> _]; [lia|]. case_decide as Hd; intros Hs.
    + destruct Hd as [_ ->]. assert (e = e') as <-.
      { destruct Hp' as (j & v & Hj & Hv). apply same_element; [done| |done].
        by apply (iv_todo _ Hinv j v Hj). }
      exists i, u', rest. by rewrite write_unit.
    + destruct (iv_new _ Hinv e' l Hp' Hf' Hl Hs) as (j & v & rest' & Hj & Hv & Hw).
      exists j, v, rest'. rewrite list_lookup_insert_ne; [done|]. intros ->.
      assert (v = u) as -> by congruence. by rewrite Hpc in Hw.
  - intros e' He' Hp'. rewrite Hpend in Hp'.
    destruct (iv_done _ Hinv e' He' Hp') as (l & Hl & Hs & Hs2).
    exists l. destruct (write_slots (bk e') l) as [-> ->]; [lia|]. rewrite decide_False; [done|].
    intros [Hk ->]. rewrite Hk in Hs.
    destruct (overwritten e' He' Hk Hs) as (j & v & rest' & Hj & _ & Hvt).
    by destruct (head_in j v e' rest' Hj Hvt) as (_ & Hpv & _).
  - intros k l Hl Hne0 Hall. destruct (write_slots k l) as [_ ->]; [lia|].
    apply (iv_old _ Hinv k l Hl Hne0). intros e' He' Hk Hs. by apply Hpend, Hall.
  - apply write_unit_ok.
Qed.
End write.

(** *** A unit stores its location *)

Section store.
Context (i : nat) (u : unit_t) (e : ielem_t) (rest : list ielem_t) (c : Z).
Context (Hi : us !! i = Some u) (Ht : u_todo u = e :: rest) (Hpc : u_pc u = UStore c).
Abbreviation t' := (<[bk e := set_loc (ht_get t (bk e)) c (e_loc e)]> t).
Abbreviation u' := (UnitT UStart rest).
Abbreviation us' := (<[i := u']> us).

Lemma store_pre : 0 ≤ c < 8 ∧ slot t (bk e) c = e_sig e.
Proof. pose proof (iv_unit _ Hinv i u Hi) as Hu. unfold unit_ok in Hu. by rewrite Ht, Hpc in Hu. Qed.

Lemma store_slots k l : 0 ≤ l →
  slot t' k l = slot t k l ∧ sloc t' k l = (if decide (k = bk e ∧ l = c) then e_loc e else sloc t k l).
Proof. apply slot_set_loc; [apply (iv_wf _ Hinv) | apply store_pre]. Qed.

Lemma store_unit : us' !! i = Some u'.
Proof. apply list_lookup_insert_eq. by eapply lookup_lt_Some. Qed.

(** The element is done with, the others are as pending as before. *)
Lemma store_pending e' : pending us' e' ↔ pending us e' ∧ e' ≠ e.
Proof.
  destruct (head_in i u e rest Hi Ht) as (_ & _ & Hne). split.
  - intros (j & v & [(<- & <- & _)|[Hij Hj]]%list_lookup_insert_Some & Hin).
    + split; [exists i, u; rewrite Ht; split; [done|by right]|]. by intros ->.
    + split; [by exists j, v|]. intros ->. destruct Hij.
      apply (iv_own _ Hinv i j u v e); try done. rewrite Ht. left.
  - intros [(j & v & Hj & Hin) Hne']. destruct (decide (i = j)) as [<-|Hij].
    + exists i, u'. split; [apply store_unit|]. assert (v = u) as -> by congruence.
      rewrite Ht in Hin. by apply elem_of_cons in Hin as [->|].
    + exists j, v. by rewrite list_lookup_insert_ne.
Qed.

Lemma store_held k c' : held t us k c' → held t' us' k c'.
Proof.
  intros (j & v & e' & rest' & Hj & Hv & Hvt & Hk & Hs). exists j, v, e', rest'.
  rewrite list_lookup_insert_ne by (intros ->; congruence). split_and!; try done.
  pose proof (iv_unit _ Hinv j v Hj) as Hvo. unfold unit_ok in Hvo. rewrite Hvt, Hv in Hvo.
  by destruct (store_slots k c') as [-> _]; [lia|].
Qed.

Lemma store_unit_ok j v : us' !! j = Some v → unit_ok t' us' v.
Proof.
  intros [(<- & <- & _)|[Hne Hj]]%list_lookup_insert_Some; [unfold unit_ok; simpl; by destruct rest|].
  pose proof (iv_unit _ Hinv j v Hj) as Hv. unfold unit_ok in Hv |- *.
  destruct (u_todo v) as [|e' rest'] eqn:Hvt; [done|].
  destruct (u_pc v) as [| |c'|[c'|]|[c'|]|c'|] eqn:Hvpc; try done.
  - destruct Hv as (? & Hc' & ? & [Hz|Hh]); do 3 (split; [done|]); [|right; by apply store_held].
    left. by destruct (store_slots (bk e') c') as [-> _]; [lia|].
  - destruct Hv as (? & ? & ? & Hh); do 3 (split; [done|]). by apply store_held.
  - destruct Hv as [Hc' Hs]. split; [done|]. by destruct (store_slots (bk e') c') as [-> _]; [lia|].
Qed.

Lemma store_inv : block_inv (Block t' us').
Proof.
  destruct store_pre as [Hc Hs]. destruct (head_in i u e rest Hi Ht) as (He & _ & Hne).
  destruct (todo_shorter i u u' Hi) as [Htodo Hown]; [rewrite Ht; by apply sublist_cons|].
  split; simpl; try done.
  - apply table_wf_insert; [apply Hinv|]. apply set_loc_view; [apply Hinv|done|].
    change (slot t (bk e) c ≠ 0). rewrite Hs. by apply sig_nonzero.
  - intros k l Hl. destruct (store_slots k l) as [-> _]; [lia|]. by apply Hinv.
  - intros e' l [Hp Hne']%store_pending Hf Hl. destruct (store_slots (bk e') l) as [-> _]; [lia|].
    intros Hs'. destruct (iv_new _ Hinv e' l Hp Hf Hl Hs') as (j & v & rest' & Hj & Hv & Hw).
    exists j, v, rest'. rewrite list_lookup_insert_ne; [done|]. intros ->. congruence.
  - intros e' He' Hp'.
    assert (e' = e ∨ ¬ pending us e') as [->|Hp].
    { destruct (decide (e_sig e' = e_sig e)); [left; by apply same_element|right].
      intros Hp. apply Hp', store_pending. split; [done | by intros ->]. }
    + exists c. destruct (store_slots (bk e) c) as [-> ->]; [lia|]. by rewrite decide_True.
    + destruct (iv_done _ Hinv e' He' Hp) as (l & Hl & Hs1 & Hs2). exists l.
      destruct (store_slots (bk e') l) as [-> ->]; [lia|]. split_and!; try done; try lia.
      case_decide as Hd; [|done]. destruct Hd as [Hk ->].
      by rewrite (same_element e' e He' He) by congruence.
  - intros k l Hl Hne0 Hall. destruct (store_slots k l) as [_ ->]; [lia|]. rewrite decide_False.
    + apply (iv_old _ Hinv k l Hl Hne0). intros e' He' Hk Hs'. by eapply store_pending, Hall.
    + intros [-> ->]. destruct (iv_slot _ Hinv (bk e) c Hc) as [Heq|[H0 _]]; [|congruence].
      destruct (proj1 (store_pending e)) as [_ []]; [|done]. apply Hall; congruence.
  - apply store_unit_ok.
Qed.
End store.

(** *** The barrier *)

Lemma pass_barrier_todo u : u_todo (pass_barrier u) = u_todo u.
Proof. by destruct u as [[] []]. Qed.

Lemma pass_barrier_wrote u : wrote (u_pc (pass_barrier u)) = wrote (u_pc u).
Proof. by destruct u as [[] []]. Qed.

Lemma pass_pending e : pending (pass_barrier <$> us) e ↔ pending us e.
Proof.
  split; intros (j & v & Hj & He).
  - rewrite list_lookup_fmap in Hj. destruct (us !! j) as [u|] eqn:Hu; [|done].
    injection Hj as <-. rewrite pass_barrier_todo in He. by exists j, u.
  - exists j, (pass_barrier v). by rewrite list_lookup_fmap, Hj, pass_barrier_todo.
Qed.

Lemma may_pass_units i u : may_pass us = true → us !! i = Some u → at_barrier u = true ∨ u_todo u = [].
Proof.
  intros [Hall _]%andb_true_iff Hi. rewrite forallb_forall in Hall.
  specialize (Hall u (proj1 (list_elem_of_In _ _) (list_elem_of_lookup_2 _ _ _ Hi))).
  apply orb_true_iff in Hall as [?|Hf]; [by left|right]. unfold finished in Hf. by destruct (u_todo u).
Qed.

Lemma barrier_inv : may_pass us = true → block_inv (Block t (pass_barrier <$> us)).
Proof.
  intros Hmay.
  assert (Hlook : ∀ i v, (pass_barrier <$> us) !! i = Some v →
    ∃ u, us !! i = Some u ∧ v = pass_barrier u).
  { intros i v Hi. rewrite list_lookup_fmap in Hi. destruct (us !! i) as [u|]; [|done].
    injection Hi as <-. eauto. }
  split; simpl.
  - apply Hinv.
  - intros i v (u & Hi & ->)%Hlook. rewrite pass_barrier_todo. by eapply iv_todo.
  - intros i j v v' e (u & Hi & ->)%Hlook (u' & Hj & ->)%Hlook. rewrite !pass_barrier_todo.
    by eapply iv_own.
  - apply Hinv.
  - intros e l Hp Hf Hl Hs. apply pass_pending in Hp.
    destruct (iv_new _ Hinv e l Hp Hf Hl Hs) as (i & u & rest & Hi & Ht & Hw).
    exists i, (pass_barrier u), rest. by rewrite list_lookup_fmap, Hi, pass_barrier_todo, pass_barrier_wrote.
  - intros e He Hp. rewrite pass_pending in Hp. by apply Hinv.
  - intros k l Hl H0 Hall. apply (iv_old _ Hinv k l Hl H0). intros e He Hk Hs. by apply pass_pending, Hall.
  - intros i v (u & Hi & ->)%Hlook. pose proof (iv_unit _ Hinv i u Hi) as Hu.
    destruct (may_pass_units i u Hmay Hi) as [Hb|Hf].
    + unfold at_barrier in Hb. unfold pass_barrier, unit_ok in *.
      destruct (u_todo u) as [|e rest], (u_pc u) as [| |?|[c|]|?|?|]; try done. simpl. tauto.
    + unfold unit_ok. by rewrite pass_barrier_todo, Hf.
Qed.

(** *** Votes *)

Lemma start_step i u e rest t' u' :
  us !! i = Some u → u_todo u = e :: rest → u_pc u = UStart → unit_step t u = Some (t', u') →
  t' = t ∧ ((u' = UnitT UBallot (e :: rest) ∧ fresh e) ∨
            ∃ c, u' = UnitT (UStore c) (e :: rest) ∧ 0 ≤ c < 8 ∧ slot t (bk e) c = e_sig e).
Proof.
  intros Hi Ht Hpc Hstep. destruct (head_in i u e rest Hi Ht) as (He & _).
  unfold unit_step in Hstep. rewrite Ht, Hpc, (proj2 (Z.eqb_neq _ _) (sig_nonzero e He)) in Hstep.
  injection Hstep as <- <-. split; [done|].
  destruct (Z.eqb_spec (unit_ballot (same_sig (ht_get t (bk e)) (e_sig e))) 0) as [H0|H0]; simpl.
  - left. split; [done|]. apply fresh_slots; [done|]. intros l Hl Hs.
    pose proof (sig_nonzero e He). destruct (iv_slot _ Hinv (bk e) l Hl) as [Heq|[? _]]; [|congruence].
    assert (Hsame : same_sig (ht_get t (bk e)) (e_sig e) l = true) by (apply same_sig_eq; unfold slot in *; congruence).
    rewrite (proj1 (unit_ballot_zero _) H0 l Hl) in Hsame. done.
  - right. destruct (chosen_unit _ H0) as [Hc Hs%same_sig_eq]. eauto.
Qed.

Lemma ballot_step i u e rest t' u' :
  us !! i = Some u → u_todo u = e :: rest → u_pc u = UBallot → unit_step t u = Some (t', u') →
  t' = t ∧ ∃ c, u' = UnitT (UWrite c) (e :: rest) ∧ fresh e ∧ 0 ≤ c < 8 ∧
    slot t0 (bk e) c = 0 ∧ slot t (bk e) c = 0.
Proof.
  intros Hi Ht Hpc Hstep. destruct (head_in i u e rest Hi Ht) as (He & _).
  pose proof (iv_unit _ Hinv i u Hi) as Hf. unfold unit_ok in Hf. rewrite Ht, Hpc in Hf.
  assert (Hroom : has_room (ht_get t (bk e))).
  { apply room_left; try done. intros l Hl Hs.
    pose proof (new_slot_own i u e rest l Hi Ht Hf Hl Hs) as Hw. by rewrite Hpc in Hw. }
  unfold unit_step in Hstep. rewrite Ht, Hpc in Hstep. injection Hstep as <- <-. split; [done|].
  destruct (empty_slots_spec (ht_get t (bk e)) (e_sig e)) as [[_ []]|(Hne & _ & Hc & H0)]; [done|].
  rewrite (proj2 (Z.eqb_neq _ _) Hne). simpl. eexists. do 3 (split; [done|]). split; [|done].
  destruct (iv_slot _ Hinv (bk e) _ Hc) as [Heq|[? _]]; [|done]. unfold slot in *. congruence.
Qed.

Lemma step_inv s' : block_step s s' → block_inv s'.
Proof.
  intros [i u t' u' Hi Hstep ->|Hmay ->]; [|by apply barrier_inv].
  destruct (u_todo u) as [|e rest] eqn:Ht; [unfold unit_step in Hstep; by rewrite Ht in Hstep|].
  destruct (u_pc u) as [| |c|c|[c|]|c|] eqn:Hpc.
  - destruct (start_step i u e rest t' u' Hi Ht Hpc Hstep) as [-> [[-> Hf]|(c & -> & Hc & Hs)]];
      apply move_inv with u; try done; try congruence; intros ? ? ? ? ? ?; by rewrite Hpc.
  - destruct (ballot_step i u e rest t' u' Hi Ht Hpc Hstep) as [-> (c & -> & Hf & Hc & H0 & Hs)].
    apply move_inv with u; try done; try congruence; [unfold unit_ok; simpl; tauto|].
    intros ? ? ? ? ? ?; by rewrite Hpc.
  - unfold unit_step in Hstep. rewrite Ht, Hpc in Hstep. injection Hstep as <- <-. by eapply write_inv.
  - unfold unit_step in Hstep. by rewrite Ht, Hpc in Hstep.
  - pose proof (iv_unit _ Hinv i u Hi) as Hu. unfold unit_ok in Hu. rewrite Ht, Hpc in Hu.
    destruct Hu as [Hf Hc]. unfold unit_step in Hstep. rewrite Ht, Hpc in Hstep. injection Hstep as <- <-.
    change (lane (b_sig (ht_get t (bk e))) c) with (slot t (bk e) c).
    destruct (Z.eqb_spec (slot t (bk e) c) (e_sig e));
      apply move_inv with u; try done; try congruence; intros e2 rest2 l He2; rewrite Hpc; simpl; congruence.
  - pose proof (iv_unit _ Hinv i u Hi) as Hu. unfold unit_ok in Hu. by rewrite Ht, Hpc in Hu.
  - unfold unit_step in Hstep. rewrite Ht, Hpc in Hstep. injection Hstep as <- <-. by eapply store_inv.
  - unfold unit_step in Hstep. by rewrite Ht, Hpc in Hstep.
Qed.

(** *** No deadlock *)

Lemma progress : all_finished s = false → ∃ s', block_step s s'.
Proof.
  intros Hnf.
  destruct (decide (Exists (λ u, is_Some (unit_step t u)) us)) as [Hex|Hno].
  { apply Exists_exists in Hex as (u & (i & Hi)%list_elem_of_lookup & [[t' u'] Hs]).
    eexists. by eapply step_unit. }
  assert (Hall : ∀ i u, us !! i = Some u → at_barrier u = true ∨ finished u = true).
  { intros i u Hi. unfold at_barrier, finished. destruct (u_todo u) as [|e rest] eqn:Ht; [by right|left].
    assert (Hn : unit_step t u = None).
    { apply eq_None_not_Some. intros Hs. apply Hno, Exists_exists. exists u.
      split; [by eapply list_elem_of_lookup_2 | done]. }
    pose proof (iv_unit _ Hinv i u Hi) as Hu. unfold unit_ok, unit_step in *. rewrite Ht in Hn, Hu.
    destruct (u_pc u) as [| |?|?|[?|]|?|]; try done. by destruct (_ && _). }
  eexists. apply step_barrier; [|done]. apply andb_true_iff. split.
  - apply forallb_forall. intros u (i & Hi)%list_elem_of_In%list_elem_of_lookup. apply orb_true_iff.
    by eapply Hall.
  - unfold all_finished in Hnf. destruct (existsb at_barrier us) eqn:Hx; [done|]. rewrite <-Hnf.
    apply forallb_forall. intros u Hin.
    destruct (proj1 (list_elem_of_lookup _ _) (proj2 (list_elem_of_In _ _) Hin)) as [i Hi].
    destruct (Hall i u Hi) as [Hb|]; [|done]. 
    assert (existsb at_barrier us = true) as Ht by (apply existsb_exists; by exists u). congruence.
Qed.
End facts.

(** *** Every run ends

    A unit that has won its slot will store its location without waiting for the
    others, so its element no longer counts; every barrier has a winner, and
    between two barriers a unit takes a few steps ([weight]). *)

Definition won (t : table) (u : unit_t) : bool :=
  match u_todo u, u_pc u with
  | _ :: _, UStore _ => true
  | e :: _, UCheck (Some c) => slot t (bk e) c =? e_sig e
  | _, _ => false
  end.

Definition weight (u : unit_t) : Z :=
  match u_todo u, u_pc u with
  | [], _ => 0
  | _, UStart => 3
  | _, UBallot => 2
  | _, UWrite _ => 1
  | _, UCheck _ => 5
  | _, UStore _ => 4
  | _, _ => 0
  end.

Definition cost (a : Z) (t : table) (u : unit_t) : Z :=
  a * (Z.of_nat (length (u_todo u)) - (if won t u then 1 else 0)) + weight u.

Definition remaining (a : Z) (s : block) : Z := zsum (cost a (bl_table s)) (bl_units s).

Lemma zsum_le {A} (f g : A → Z) l : (∀ x, x ∈ l → f x ≤ g x) → zsum f l ≤ zsum g l.
Proof.
  intros H. induction l as [|x l IH]; [done|]. simpl. pose proof (H x ltac:(left)).
  assert (zsum f l ≤ zsum g l); [apply IH; intros y Hy; apply H; by right|lia].
Qed.

Lemma zsum_fmap_gain {A} (f : A → Z) (g : A → A) (l : list A) x d :
  (∀ y, y ∈ l → f (g y) ≤ f y + 5) → x ∈ l → f (g x) ≤ f x + 5 - d →
  zsum f (g <$> l) ≤ zsum f l + 5 * Z.of_nat (length l) - d.
Proof.
  intros H Hx Hd. assert (Hall : ∀ l', (∀ y, y ∈ l' → f (g y) ≤ f y + 5) →
    zsum f (g <$> l') ≤ zsum f l' + 5 * Z.of_nat (length l')).
  { induction l' as [|y l' IH]; intros Hl; [simpl; lia|]. rewrite fmap_cons, length_cons. simpl.
    pose proof (Hl y ltac:(left)). specialize (IH (λ z Hz, Hl z ltac:(by right))). lia. }
  induction l as [|y l IH]; [by apply elem_of_nil in Hx|]. rewrite fmap_cons, length_cons. simpl.
  apply elem_of_cons in Hx as [<-|Hx].
  - pose proof (Hall l (λ z Hz, H z ltac:(by right))). lia.
  - pose proof (H y ltac:(left)). specialize (IH (λ z Hz, H z ltac:(by right)) Hx). lia.
Qed.

Lemma cost_nonneg a t u : 0 ≤ a → 0 ≤ cost a t u.
Proof.
  intros Ha. unfold cost, won, weight. destruct (u_todo u) as [|e rest]; [simpl; lia|].
  rewrite length_cons. destruct (u_pc u) as [| |?|?|[?|]|?|]; try destruct (_ =? _); nia.
Qed.

Lemma remaining_nonneg a s : 0 ≤ a → 0 ≤ remaining a s.
Proof.
  intros Ha. unfold remaining. induction (bl_units s) as [|u us IH]; simpl; [lia|].
  pose proof (cost_nonneg a (bl_table s) u Ha). lia.
Qed.

(** A step of a unit: it comes nearer to its end and no other unit loses. *)
Lemma unit_decreases a s i u t' u' :
  1 < a → block_ok → block_inv s → bl_units s !! i = Some u → unit_step (bl_table s) u = Some (t', u') →
  cost a t' u' < cost a t' u ∧ ∀ j v, bl_units s !! j = Some v → won (bl_table s) v = true → won t' v = true.
Proof.
  intros Ha Hok Hinv Hi Hstep.
  destruct (u_todo u) as [|e rest] eqn:Ht; [unfold unit_step in Hstep; by rewrite Ht in Hstep|].
  unfold cost, won at 2, weight at 2. rewrite Ht, length_cons.
  destruct (u_pc u) as [| |c|c|[c|]|c|] eqn:Hpc.
  - destruct (start_step Hok s Hinv i u e rest t' u' Hi Ht Hpc Hstep) as [-> [[-> Hf]|(c & -> & Hc & Hs)]];
      (split; [|done]); cbn -[Z.mul Z.of_nat]; lia.
  - destruct (ballot_step Hok s Hinv i u e rest t' u' Hi Ht Hpc Hstep) as [-> (c & -> & _)].
    split; [|done]. cbn -[Z.mul Z.of_nat]; lia.
  - unfold unit_step in Hstep. rewrite Ht, Hpc in Hstep. injection Hstep as <- <-.
    split; [cbn -[Z.mul Z.of_nat]; lia|]. intros j v Hj. unfold won.
    destruct (u_todo v) as [|e' rest'] eqn:Hvt; [done|]. destruct (u_pc v) as [| |?|?|[c'|]|?|] eqn:Hvpc; try done.
    intros Hs%Z.eqb_eq. apply Z.eqb_eq. pose proof (iv_unit _ Hinv j v Hj) as Hv.
    unfold unit_ok in Hv. rewrite Hvt, Hvpc in Hv.
    destruct (write_slots s Hinv i u e rest c Hi Ht Hpc (bk e') c') as [-> _]; [lia|].
    rewrite decide_False; [done|]. intros [Hk ->]. rewrite Hk in Hs.
    by apply (write_spares Hok s Hinv i u e rest c Hi Ht Hpc j v e' rest' Hj Hvt Hk); [rewrite Hvpc|].
  - unfold unit_step in Hstep. by rewrite Ht, Hpc in Hstep.
  - unfold unit_step in Hstep. rewrite Ht, Hpc in Hstep. injection Hstep as <- <-. split; [|done].
    unfold slot. destruct (_ =? _) eqn:E; cbn -[Z.mul Z.of_nat]; lia.
  - unfold unit_step in Hstep. rewrite Ht, Hpc in Hstep. injection Hstep as <- <-. split; [|done].
    cbn -[Z.mul Z.of_nat]; lia.
  - unfold unit_step in Hstep. rewrite Ht, Hpc in Hstep. injection Hstep as <- <-.
    split; [unfold won, weight; destruct rest; cbn -[Z.mul Z.of_nat]; lia|].
    intros j v Hj. unfold won. destruct (u_todo v) as [|e' rest'] eqn:Hvt; [done|].
    destruct (u_pc v) as [| |?|?|[c'|]|?|] eqn:Hvpc; try done.
    pose proof (iv_unit _ Hinv j v Hj) as Hv. unfold unit_ok in Hv. rewrite Hvt, Hvpc in Hv.
    by destruct (store_slots s Hinv i u e rest c Hi Ht Hpc (bk e') c') as [-> _]; [lia|].
  - unfold unit_step in Hstep. by rewrite Ht, Hpc in Hstep.
Qed.

Lemma pass_cost a t u : 0 ≤ a → cost a t (pass_barrier u) ≤ cost a t u + 5.
Proof.
  intros Ha. unfold cost. rewrite pass_barrier_todo. unfold won, weight, pass_barrier.
  destruct u as [[| |?|[c|]|[?|]|?|] [|e rest]]; simpl; try lia. destruct (_ =? _); lia.
Qed.

Lemma step_decreases s s' :
  block_ok → block_inv s → block_step s s' →
  let a := 5 * Z.of_nat (length (bl_units s)) + 1 in remaining a s' < remaining a s.
Proof.
  intros Hok Hinv Hstep a. destruct Hstep as [i u t' u' Hi Hstep ->|Hmay ->].
  - assert (1 < a) as Ha by (pose proof (lookup_lt_Some _ _ _ Hi); lia).
    destruct (unit_decreases a s i u t' u' Ha Hok Hinv Hi Hstep) as [Hlt Hmono].
    unfold remaining. simpl. rewrite (zsum_insert _ _ i u u' Hi).
    assert (zsum (cost a t') (bl_units s) ≤ zsum (cost a (bl_table s)) (bl_units s)); [|lia].
    apply zsum_le. intros v (j & Hj)%list_elem_of_lookup. specialize (Hmono j v Hj). unfold cost.
    destruct (won (bl_table s) v), (won t' v); lia || by specialize (Hmono eq_refl).
  - assert (∃ u, u ∈ bl_units s ∧ at_barrier u = true) as (u & (i & Hi)%list_elem_of_lookup & Hb).
    { apply andb_true_iff in Hmay as [_ (u & Hu & Hb)%existsb_exists]. exists u.
      by rewrite list_elem_of_In. }
    pose proof (iv_unit _ Hinv i u Hi) as Hu. unfold at_barrier in Hb. unfold unit_ok in Hu.
    destruct (u_todo u) as [|e rest]; [done|]. destruct (u_pc u) as [| |?|[c|]|?|?|]; try done.
    destruct Hu as (_ & _ & _ & (j & v & e' & rest' & Hj & Hv & Hvt & Hk & Hs)).
    assert (zsum (cost a (bl_table s)) (pass_barrier <$> bl_units s) ≤
      zsum (cost a (bl_table s)) (bl_units s) + 5 * Z.of_nat (length (bl_units s)) - a); [|unfold remaining; simpl; lia].
    apply zsum_fmap_gain with v.
    + intros y _. apply pass_cost. lia.
    + by eapply list_elem_of_lookup_2.
    + unfold cost. rewrite pass_barrier_todo. unfold won, weight, pass_barrier. rewrite Hvt, Hv. simpl.
      rewrite Hk, Hs, Z.eqb_refl. lia.
Qed.

Lemma run_inv s n s' : block_ok → block_inv s → nsteps block_step n s s' →
  block_inv s' ∧ length (bl_units s') = length (bl_units s) ∧
  let a := 5 * Z.of_nat (length (bl_units s)) + 1 in remaining a s' + Z.of_nat n ≤ remaining a s.
Proof.
  intros Hok Hinv Hrun. induction Hrun as [s|n s s1 s' Hstep Hrun IH]; [split_and!; [done|done|lia]|].
  assert (length (bl_units s1) = length (bl_units s)) as Hlen.
  { destruct Hstep as [i u t' u' _ _ ->|_ ->]; simpl; [apply length_insert|apply length_fmap]. }
  pose proof (step_decreases s s1 Hok Hinv Hstep) as Hdec.
  destruct (IH (step_inv Hok s Hinv s1 Hstep)) as (Hinv' & Hlen' & Hrem).
  split; [done|]. split; [congruence|]. rewrite Hlen in Hrem. cbv zeta in *. lia.
Qed.

(** *** The start *)

Lemma block0_inv todos :
  block_ok →
  (∀ i l, todos !! i = Some l → NoDup l ∧ ∀ e, e ∈ l → e ∈ es) →
  (∀ i j l l' e, todos !! i = Some l → todos !! j = Some l' → e ∈ l → e ∈ l' → i = j) →
  (∀ e, e ∈ es → ∃ i l, todos !! i = Some l ∧ e ∈ l) →
  block_inv (block0 t0 todos).
Proof.
  intros Hok Htodo Hown Hcover.
  assert (Hlook : ∀ i u, (UnitT UStart <$> todos) !! i = Some u →
    ∃ l, todos !! i = Some l ∧ u = UnitT UStart l).
  { intros i u Hi. rewrite list_lookup_fmap in Hi. destruct (todos !! i) as [l|]; [|done].
    injection Hi as <-. eauto. }
  assert (Hpend : ∀ e, e ∈ es → pending (UnitT UStart <$> todos) e).
  { intros e (i & l & Hi & He)%Hcover. exists i, (UnitT UStart l). by rewrite list_lookup_fmap, Hi. }
  split; simpl.
  - apply Hok.
  - intros i u (l & Hi & ->)%Hlook. by eapply Htodo.
  - intros i j u v e (l & Hi & ->)%Hlook (l' & Hj & ->)%Hlook. by apply Hown.
  - by left.
  - intros e l (i & u & Hi & He) Hf Hl Hs. apply Hlook in Hi as (l' & Hi & ->).
    destruct (Htodo i l' Hi) as [_ Hin]. by destruct (proj1 (fresh_slots Hok e (Hin e He)) Hf l Hl).
  - intros e He Hp. by destruct Hp; apply Hpend.
  - done.
  - intros i u (l & Hi & ->)%Hlook. unfold unit_ok. by destruct l.
Qed.

(** *** The end *)

Lemma final_view s k x :
  block_ok → block_inv s → all_finished s = true → x ≠ 0 →
  (∀ e, e ∈ es → bk e = k → e_sig e = x → bview (ht_get (bl_table s) k) !! x = Some (e_loc e)) ∧
  ((∀ e, e ∈ es → bk e = k → e_sig e ≠ x) → bview (ht_get (bl_table s) k) !! x = bview (ht_get t0 k) !! x).
Proof.
  intros Hok Hinv Hfin Hx. pose proof (iv_wf _ Hinv k) as Hwf.
  assert (Hnp : ∀ e, ¬ pending (bl_units s) e).
  { intros e (i & u & Hi & He). unfold all_finished in Hfin. rewrite forallb_forall in Hfin.
    specialize (Hfin u (proj1 (list_elem_of_In _ _) (list_elem_of_lookup_2 _ _ _ Hi))).
    unfold finished in Hfin. destruct (u_todo u); [by apply elem_of_nil in He|done]. }
  split.
  - intros e He <- <-. destruct (iv_done _ Hinv e He (Hnp e)) as (l & Hl & Hs & Hs2).
    apply bview_Some; [done|]. split; [done|]. by exists l.
  - intros Hno.
    assert (Hsame : ∀ l, 0 ≤ l < 8 → slot t0 k l ≠ 0 → slot (bl_table s) k l = slot t0 k l).
    { intros l Hl H0. destruct (iv_slot _ Hinv k l Hl) as [|[? _]]; [done|congruence]. }
    assert (Hsloc : ∀ l, 0 ≤ l < 8 → slot t0 k l = x → sloc (bl_table s) k l = sloc t0 k l).
    { intros l Hl Hs. apply (iv_old _ Hinv k l Hl); [congruence|]. intros e He Hk Hse.
      by destruct (Hno e He Hk); congruence. }
    apply option_eq. intros v. rewrite !bview_Some by (done || apply Hok).
    split; intros [_ (l & Hl & Hs & Hv)]; (split; [done|]); exists l; (split; [done|]).
    + destruct (iv_slot _ Hinv k l Hl) as [Heq|(_ & e & He & Hk & _ & Hse)].
      * assert (slot t0 k l = x) by (unfold slot in *; congruence).
        split; [done|]. rewrite <-Hv. symmetry. by apply Hsloc.
      * destruct (Hno e He Hk). unfold slot in *. congruence.
    + split; [rewrite <-Hs; apply Hsame; [done|unfold slot; congruence]|]. rewrite <-Hv. by apply Hsloc.
Qed.
End units.

Lemma foldl_insert_other (m : gmap Z Z) es s :
  (∀ e, e ∈ es → e_sig e ≠ s) → foldl (λ m e, <[e_sig e := e_loc e]> m) m es !! s = m !! s.
Proof.
  revert m. induction es as [|e es IH]; intros m Hno; [done|]. simpl. rewrite IH by (intros; apply Hno; by right).
  apply lookup_insert_ne, Hno. left.
Qed.

Lemma foldl_insert_elem (m : gmap Z Z) es e :
  NoDup (e_sig <$> es) → e ∈ es → foldl (λ m e, <[e_sig e := e_loc e]> m) m es !! e_sig e = Some (e_loc e).
Proof.
  revert m. induction es as [|e' es IH]; intros m Hnd He; [by apply elem_of_nil in He|].
  rewrite fmap_cons in Hnd. apply NoDup_cons in Hnd as [Hne Hnd]. simpl.
  apply elem_of_cons in He as [<-|He]; [|by apply IH]. rewrite foldl_insert_other; [apply lookup_insert_eq|].
  intros e' He' Heq. apply Hne. rewrite <-Heq. by apply list_elem_of_fmap_2.
Qed.

(** *** The elements of a buffer, by unit *)

Lemma elem_of_unit_elems es u e :
  0 ≤ u → e ∈ unit_elems es u ↔ ∃ k, 0 ≤ k ∧ es !! Z.to_nat (u + k * 128) = Some e.
Proof.
  intros Hu. unfold unit_elems. rewrite list_elem_of_omap. change (Z.shiftr 1024 ELEM_NUM_P) with 128. split.
  - intros (id & Hid & He). rewrite elem_of_unit_ids in Hid by lia.
    destruct Hid as (_ & k & Hk & ->). by exists k.
  - intros (k & Hk & He). exists (u + k * 128). split; [|done]. apply elem_of_unit_ids; [lia..|].
    split; [|by exists k]. apply lookup_lt_Some in He. lia.
Qed.

Lemma NoDup_omap_lookup (es : list ielem_t) ids :
  NoDup es → Forall (λ id, 0 ≤ id) ids → NoDup ids → NoDup (omap (λ id, es !! Z.to_nat id) ids).
Proof.
  intros Hes. induction ids as [|id ids IH]; [constructor|].
  intros [H0 Hall]%Forall_cons [Hni Hnd]%NoDup_cons. specialize (IH Hall Hnd). simpl.
  destruct (es !! Z.to_nat id) as [e|] eqn:He; [|done]. apply NoDup_cons. split; [|done].
  intros (id' & Hid' & He')%list_elem_of_omap. apply Hni.
  pose proof (NoDup_lookup _ _ _ _ Hes He He') as Heq.
  pose proof (proj1 (Forall_forall _ _) Hall id' Hid') as H0'. simpl in H0'.
  assert (id = id') as -> by lia. done.
Qed.

Lemma insert_block_inv t es : block_ok t es → block_inv t es (insert_block t es).
Proof.
  intros Hok. assert (Hnd : NoDup es) by (eapply NoDup_fmap_1, Hok).
  assert (Hlook : ∀ i l, (unit_elems es <$> seqZ 0 (Z.shiftr 1024 ELEM_NUM_P)) !! i = Some l →
    0 ≤ Z.of_nat i < 128 ∧ l = unit_elems es (Z.of_nat i)).
  { intros i l Hi. rewrite list_lookup_fmap in Hi. destruct (seqZ _ _ !! i) eqn:E; [|done].
    apply lookup_seqZ in E as [-> Hlt]. injection Hi as <-.
    change (Z.shiftr 1024 ELEM_NUM_P) with 128 in Hlt. split; [lia|]. done. }
  apply block0_inv; [done| | |].
  - intros i l [Hi ->]%Hlook. split.
    + apply NoDup_omap_lookup; [done| |by apply NoDup_unit_ids].
      apply Forall_forall. intros id Hid. rewrite elem_of_unit_ids in Hid by (done || lia).
      destruct Hid as (_ & k & Hk & ->). change (Z.shiftr 1024 ELEM_NUM_P) with 128. lia.
    + intros e (k & _ & He)%elem_of_unit_elems; [|lia]. by eapply list_elem_of_lookup_2.
  - intros i j l l' e [Hi ->]%Hlook [Hj ->]%Hlook He He'.
    apply elem_of_unit_elems in He as (k & Hk & He); [|lia].
    apply elem_of_unit_elems in He' as (k' & Hk' & He'); [|lia].
    pose proof (NoDup_lookup _ _ _ _ Hnd He He') as Heq.
    pose proof (unit_of_id 128 (Z.of_nat i) (Z.of_nat j) k k' Hi Hj ltac:(lia)). lia.
  - intros e (p & Hp)%list_elem_of_lookup. exists (p mod 128)%nat, (unit_elems es (Z.of_nat (p mod 128))).
    pose proof (Nat.mod_upper_bound p 128 ltac:(lia)). pose proof (Nat.div_mod_eq p 128). split.
    + rewrite list_lookup_fmap, lookup_seqZ_lt; [done|]. change (Z.shiftr 1024 ELEM_NUM_P) with 128. lia.
    + apply elem_of_unit_elems; [lia|]. exists (Z.of_nat (p / 128)). split; [lia|].
      replace (Z.to_nat _) with p by lia. done.
Qed.

Lemma insert_block_units t es : length (bl_units (insert_block t es)) = 128%nat.
Proof. unfold insert_block, block0. cbn [bl_units]. by rewrite !length_fmap, length_seqZ. Qed.

Lemma insert_block_cost t es a :
  NoDup es → 0 ≤ a → remaining a (insert_block t es) ≤ a * Z.of_nat (length es) + 3 * 128.
Proof.
  intros Hnd Ha. unfold remaining, insert_block, block0. cbn [bl_units bl_table].
  change (Z.shiftr 1024 ELEM_NUM_P) with 128.
  assert (Hsum : ∀ ids, zsum (cost a t) (UnitT UStart <$> (unit_elems es <$> ids)) ≤
    a * Z.of_nat (length (ids ≫= unit_elems es)) + 3 * Z.of_nat (length ids)).
  { induction ids as [|u ids IH]; [simpl; lia|]. rewrite !fmap_cons, bind_cons, length_app, length_cons.
    cbn [zsum foldr]. fold (zsum (cost a t) (UnitT UStart <$> (unit_elems es <$> ids))).
    unfold cost at 1, won, weight. simpl u_todo. simpl u_pc.
    destruct (unit_elems es u); simpl length; lia. }
  specialize (Hsum (seqZ 0 128)). rewrite (length_seqZ 0 128) in Hsum.
  assert (length (seqZ 0 128 ≫= unit_elems es) ≤ length es)%nat; [|nia].
  apply submseteq_length, NoDup_submseteq.
  - apply NoDup_bind; [| |apply NoDup_seqZ].
    + intros u u' e Hu%elem_of_seqZ Hu'%elem_of_seqZ He He'.
      apply elem_of_unit_elems in He as (k & Hk & He); [|lia].
      apply elem_of_unit_elems in He' as (k' & Hk' & He'); [|lia].
      pose proof (NoDup_lookup _ _ _ _ Hnd He He') as Heq.
      apply (unit_of_id 128 u u' k k'); lia.
    + intros u Hu%elem_of_seqZ. apply NoDup_omap_lookup; [done| |by apply NoDup_unit_ids].
      apply Forall_forall. intros id Hid. rewrite elem_of_unit_ids in Hid by (done || lia).
      destruct Hid as (_ & k & Hk & ->). change (Z.shiftr 1024 ELEM_NUM_P) with 128. lia.
  - intros e (u & He & Hu%elem_of_seqZ)%list_elem_of_bind.
    apply elem_of_unit_elems in He as (k & _ & He); [|lia]. by eapply list_elem_of_lookup_2.
Qed.

(** ** Properties *)

(** C9: the insertion block refines a map, whatever the order in which its units
    run.  Take a table that represents a map from signatures to locations and a
    buffer of elements with different signatures that fit into their first buckets.
    Then no run of the block is longer than a bound linear in the number of elements;
    no state it reaches is stuck before every unit is finished, though units keep
    taking the same empty slots and wait for each other at the barrier; and when all
    are finished, the table represents the map with all the elements inserted. *)
Theorem insert_block_refines_map w kind fuel hash_of t m es :
  let Ix := gpu_location_index w kind fuel in
  represents hash_of t m → Forall (proper_elem hash_of) es → NoDup (e_sig <$> es) →
  (∀ k, (length (needed t es k) ≤ length (free_slots t k))%nat) →
  ∀ n s, nsteps block_step n (insert_block t es) s →
    Z.of_nat n ≤ 641 * Z.of_nat (length es) + 384 ∧
    (all_finished s = false → ∃ s', block_step s s') ∧
    (all_finished s = true → represents hash_of (bl_table s) (foldl (λ m e, <[e_sig e := e_loc e]> m) m es)).
Proof.
  intros Ix [Hwf Hm] Hes Hnd Hroom n s Hrun. rewrite Forall_forall in Hes.
  assert (Hok : block_ok t es).
  { split; [done| |done|done]. apply Forall_forall. intros e He. apply (Hes e He). }
  destruct (run_inv t es _ n s Hok (insert_block_inv t es Hok) Hrun) as (Hinv & _ & Hrem).
  split; [|split].
  - rewrite insert_block_units in Hrem. cbv zeta in Hrem.
    change (5 * Z.of_nat 128 + 1) with 641 in Hrem.
    pose proof (insert_block_cost t es 641 (NoDup_fmap_1 _ _ Hnd) ltac:(lia)).
    pose proof (remaining_nonneg 641 s ltac:(lia)). lia.
  - by apply (progress t es s Hinv).
  - intros Hfin. split; [apply Hinv|]. intros x Hx. simpl. pose proof (iv_wf _ _ _ Hinv) as Hwf'.
    rewrite gpu_find_view by done. specialize (Hm x Hx). simpl in Hm. rewrite gpu_find_view in Hm by done.
    destruct (final_view t es s (bucket_index (hash_of x)) x Hok Hinv Hfin Hx) as [Hin Hout].
    destruct (final_view t es s (second_index (hash_of x) x) x Hok Hinv Hfin Hx) as [_ Hout2].
    destruct (decide (x ∈ e_sig <$> es)) as [(e & -> & He)%list_elem_of_fmap|Hno].
    + destruct (Hes e He) as (_ & Hl & Hh). rewrite foldl_insert_elem by done.
      rewrite (Hin e He) by (done || by rewrite Hh). simpl. by rewrite (proj2 (Z.eqb_neq _ _) Hl).
    + assert (Hno' : ∀ e, e ∈ es → e_sig e ≠ x).
      { intros e He <-. by apply Hno, list_elem_of_fmap_2. }
      rewrite foldl_insert_other by done. rewrite Hout, Hout2 by (intros; by apply Hno'). done.
Qed.

(** ** Schedules, and the properties at concrete tables *)

Lemma run_block_steps sched s s' : run_block sched s = Some s' → nsteps block_step (length sched) s s'.
Proof.
  revert s. induction sched as [|[i|] sched IH]; intros s Hrun; cbn [run_block] in Hrun.
  - injection Hrun as <-. constructor.
  - destruct (bl_units s !! i) as [u|] eqn:Hi; [|done]. simpl in Hrun.
    destruct (unit_step (bl_table s) u) as [[t' u']|] eqn:Hs; [|done]. simpl in Hrun.
    eapply nsteps_l; [by eapply step_unit|]. by apply IH.
  - destruct (may_pass (bl_units s)) eqn:Hm; [|done].
    eapply nsteps_l; [by eapply step_barrier|]. by apply IH.
Qed.

(** Units 0 and 1 take the same empty slot; unit 1 writes last and wins, unit 0
    tries again. *)
Definition ex_clash : list ielem_t := [Ielem 8 5 80; Ielem 16 5 160].
Definition ex_sched : list (option nat) :=
  (Some <$> [0; 0; 1; 1; 0; 1]%nat) ++ [None] ++ (Some <$> [0; 1; 1; 0; 0]%nat) ++ [None] ++ [Some 0%nat; Some 0%nat].

Lemma insert_block_refines_map_witness :
  ∃ s, run_block ex_sched (insert_block ∅ ex_clash) = Some s ∧ all_finished s = true ∧
    gpu_find ex_w (bl_table s) (Selem 8 5) = 80 ∧ gpu_find ex_w (bl_table s) (Selem 16 5) = 160.
Proof.
  assert (∃ s, run_block ex_sched (insert_block ∅ ex_clash) = Some s ∧ all_finished s = true)
    as (s & Hs & Hfin) by (eexists; split; vm_compute; reflexivity).
  exists s. do 2 (split; [done|]).
  destruct (insert_block_refines_map ex_w HASH_CUCKOO 0 (λ _, 5) ∅ ∅ ex_clash) with (n := length ex_sched) (s := s)
    as (_ & _ & Hr).
  - split; [exact empty_table_wf|]. intros x Hx. simpl. rewrite gpu_find_view by (exact empty_table_wf || done).
    reflexivity.
  - repeat constructor; done.
  - refine (bool_decide_unpack _ _). vm_compute. exact I.
  - intros k. change (length (free_slots ∅ k)) with 8%nat. unfold needed.
    etrans; [apply length_filter | simpl; lia].
  - by apply run_block_steps.
  - destruct (Hr Hfin) as [_ Hf]. split; [apply (Hf 8); done | apply (Hf 16); done].
Defined.

(** Two elements with the same signature in one buffer, as two SETs of one key
    within an insertion interval put there, can both be stored: unit 1 has looked for
    the signature before unit 0 writes it, and for an empty slot after that. *)
Lemma same_signature_stored_twice :
  ∃ s, run_block ((Some <$> [1; 0; 0; 0; 1; 1]%nat) ++ [None] ++ (Some <$> [0; 0; 1; 1]%nat))
         (insert_block ∅ [Ielem 8 5 80; Ielem 8 5 81]) = Some s ∧ all_finished s = true ∧
    matching_locs (ht_get (bl_table s) 5) 8 = [80; 81].
Proof. eexists. split_and!; vm_compute; reflexivity. Qed.
