(* ===== verification/Config.v ===== *)
(** * Configuration (src/src/macros.h, include/mega_config.h, mega.c)

    The compile-time constants of the active build and the record
    [mega_config_t] with the values [mega_init_config] gives it. *)

From S2P Require Import Prelude GpuHash.

(** ** macros.h, as src/src/Makefile builds it: [KVSIZE] is 0 *)

Definition MEM_LIMIT : Z := Z.shiftl 1 34.
Definition EVICT_BATCH_SIZE : Z := 512.
Definition NUM_QUEUE_PER_PORT : Z := 7.
Definition MAX_WORKER_NUM : Z := 12.
Definition PREFETCH_BATCH_DISTANCE : Z := 5.

(** The four settings of [KVSIZE]: key and value length. *)
Definition KEY_LEN (KVSIZE : Z) : Z :=
  if KVSIZE =? 0 then 8 else if KVSIZE =? 1 then 16 else if KVSIZE =? 2 then 32 else 128.
Definition VALUE_LEN (KVSIZE : Z) : Z :=
  if KVSIZE =? 0 then 8 else if KVSIZE =? 1 then 64 else if KVSIZE =? 2 then 512 else 1024.
Definition GET_LEN (KVSIZE : Z) : Z := KEY_LEN KVSIZE + 4.
Definition SET_LEN (KVSIZE : Z) : Z := KEY_LEN KVSIZE + VALUE_LEN KVSIZE + 8.

Record mega_config_t := Config {
  cpu_worker_num : Z;
  scheduler_num : Z;
  num_queue_per_port : Z;
  eiu_hdr_len : Z;
  ethernet_hdr_len : Z;
  interval : Z;               (** [I], microseconds between two scheduling cycles *)
  io_batch_num : Z;
  ifindex0 : Z;
  ifindex1 : Z;
  num_insert_buf : Z;
  bits_insert_buf : Z;
  batch_max_search_job : Z;
  batch_max_insert_job : Z;
  batch_max_delete_job : Z;
  cfg_perslab_bits : Z;       (** [perslab_bits] *)
  slabclass_max_elem_num : Z;
  loc_bits : Z;
  slab_id_bits : Z;
  GPU_search_thread_num : Z;
  GPU_delete_thread_num : Z;
  GPU_threads_per_blk : Z;
  item_max_size : Z;
  cfg_mem_limit : Z;          (** [mem_limit] *)
  factor : double;
  prealloc : bool;
  evict : bool;
  evict_batch_size : Z;
  local_ip_addr : Z;
  local_udp_port : Z;
}.

(** [TWO_PORTS] is not defined in the active build; [sizeof(struct ether_hdr)]
    is 14; the IP address constant of the source is written in octal. *)
Definition mega_init_config : mega_config_t := {|
  interval := 200;
  num_queue_per_port := NUM_QUEUE_PER_PORT;
  cpu_worker_num := NUM_QUEUE_PER_PORT;
  eiu_hdr_len := 42;
  ethernet_hdr_len := 14;
  io_batch_num := 2;
  ifindex0 := 0;
  ifindex1 := 1;
  bits_insert_buf := IBLOCK_P;
  num_insert_buf := INSERT_BLOCK;
  batch_max_search_job := 32768;
  batch_max_insert_job := Z.shiftr 32768 IBLOCK_P;
  batch_max_delete_job := Z.shiftr 32768 IBLOCK_P;
  cfg_perslab_bits := 15;
  slabclass_max_elem_num := Z.shiftl 1 28;
  loc_bits := 32;
  slab_id_bits := 3;
  evict := true;
  evict_batch_size := EVICT_BATCH_SIZE;
  GPU_search_thread_num := 24576;
  GPU_delete_thread_num := 16384;
  GPU_threads_per_blk := 256;
  scheduler_num := 1;
  item_max_size := 1024;
  cfg_mem_limit := MEM_LIMIT;
  factor := double_of_Z 2;
  prealloc := false;
  local_ip_addr := 668;
  local_udp_port := 567;
|}.

(** The configuration with other slab sizes. *)
Definition with_slab_sizes (c : mega_config_t) (perslab_bits max_elem_num : Z) : mega_config_t := {|
  interval := interval c;
  num_queue_per_port := num_queue_per_port c;
  cpu_worker_num := cpu_worker_num c;
  eiu_hdr_len := eiu_hdr_len c;
  ethernet_hdr_len := ethernet_hdr_len c;
  io_batch_num := io_batch_num c;
  ifindex0 := ifindex0 c;
  ifindex1 := ifindex1 c;
  bits_insert_buf := bits_insert_buf c;
  num_insert_buf := num_insert_buf c;
  batch_max_search_job := batch_max_search_job c;
  batch_max_insert_job := batch_max_insert_job c;
  batch_max_delete_job := batch_max_delete_job c;
  cfg_perslab_bits := perslab_bits;
  slabclass_max_elem_num := max_elem_num;
  loc_bits := loc_bits c;
  slab_id_bits := slab_id_bits c;
  evict := evict c;
  evict_batch_size := evict_batch_size c;
  GPU_search_thread_num := GPU_search_thread_num c;
  GPU_delete_thread_num := GPU_delete_thread_num c;
  GPU_threads_per_blk := GPU_threads_per_blk c;
  scheduler_num := scheduler_num c;
  item_max_size := item_max_size c;
  cfg_mem_limit := cfg_mem_limit c;
  factor := factor c;
  prealloc := prealloc c;
  local_ip_addr := local_ip_addr c;
  local_udp_port := local_udp_port c;
|}.

(** ** Core affinity

    [unsigned long mask = 1 << context->core_id], which the threads pass to
    [sched_setaffinity]; [CPU_AFFINITY] says whether they do. *)
Definition affinity_mask (core_id : Z) : result Z :=
  if (core_id <? 0) || (32 <=? core_id) then Err UndefinedShift
  else if core_id =? 31 then Err SignedOverflow
  else Ok (Z.shiftl 1 core_id).

Definition set_affinity (CPU_AFFINITY : bool) (sched_setaffinity : Z → Z) (core_id : Z) : result () :=
  if CPU_AFFINITY then
    mask ← affinity_mask core_id;
    assert_ (0 <=? sched_setaffinity mask)
  else Ok ().
