(* ===== verification/Slabs.v ===== *)
(** * The slab allocator (src/src/slabs.c, include/slabs.h, include/items.h)

    Eight classes of fixed-size items.  A slab is an array of [perslab] items
    of one class; a 32-bit location names an item by its class (3 bits) and its
    number in the class (29 bits), and [slab_loc_to_ptr] finds the item again.
    Slabs are never given back.

    A pointer is a block of memory and an offset in it.  [malloc] is the C
    library's: call number [n] succeeds when [malloc_ok n] holds, and returns
    the start of a block nothing else uses, whose content is [garbage]. *)

From S2P Require Import Prelude GpuHash Config Bitmap.

(** ** slabs.h, items.h *)

Definition SLAB_ID_BITS : Z := 3.
Definition SLAB_ID_MASK : Z := Z.shiftl 1 SLAB_ID_BITS - 1.
Definition POWER_SMALLEST : Z := 0.
Definition POWER_LARGEST : Z := Z.shiftl 1 SLAB_ID_BITS - 1.
Definition MAX_NUMBER_OF_SLAB_CLASSES : Z := POWER_LARGEST - POWER_SMALLEST + 1.
Definition ITEM_ALIGN_BYTES : Z := 8.
Definition ITEM_FREE : Z := 1.
Definition ITEM_WRITING : Z := 2.
Definition ITEM_USING : Z := 3.

Abbreviation ptr := (Z * Z)%type.
Definition ptr_add (p : ptr) (n : Z) : ptr := (p.1, p.2 + n).

(** [struct _stritem] followed by its slot's bytes for key and value. *)
Record item := Item {
  it_next : option ptr;
  it_flags : Z;
  it_slabs_clsid : Z;
  it_nkey : Z;
  it_nbytes : Z;
  it_loc : Z;
  it_data : list Z;
}.
Definition sizeof_item : Z := 24.
Abbreviation heap_t := (gmap ptr item).

Definition set_next (it : item) (n : option ptr) : item :=
  Item n (it_flags it) (it_slabs_clsid it) (it_nkey it) (it_nbytes it) (it_loc it) (it_data it).
Definition set_flags (it : item) (f : Z) : item :=
  Item (it_next it) f (it_slabs_clsid it) (it_nkey it) (it_nbytes it) (it_loc it) (it_data it).

Record slabclass_t := Slabclass {
  sc_size : Z;
  sc_perslab_bits : Z;
  sc_perslab : Z;
  sc_slots : option ptr;
  sc_sl_curr : Z;
  sc_slabs : Z;
  sc_slab_list : list (option ptr);  (** [None]: not written since [realloc] *)
  sc_list_size : Z;
  sc_available : Z;
  sc_bitmap : bitmap_t;
}.

Definition set_slots (p : slabclass_t) (s : option ptr) (n : Z) : slabclass_t :=
  Slabclass (sc_size p) (sc_perslab_bits p) (sc_perslab p) s n (sc_slabs p)
    (sc_slab_list p) (sc_list_size p) (sc_available p) (sc_bitmap p).
Definition set_slab_list (p : slabclass_t) (n : Z) (l : list (option ptr)) (sz : Z) : slabclass_t :=
  Slabclass (sc_size p) (sc_perslab_bits p) (sc_perslab p) (sc_slots p) (sc_sl_curr p) n
    l sz (sc_available p) (sc_bitmap p).
Definition set_bitmap (p : slabclass_t) (bm : bitmap_t) : slabclass_t :=
  Slabclass (sc_size p) (sc_perslab_bits p) (sc_perslab p) (sc_slots p) (sc_sl_curr p) (sc_slabs p)
    (sc_slab_list p) (sc_list_size p) (sc_available p) bm.

(** The static variables of slabs.c and the memory its pointers lead to;
    [mallocs] counts the calls of [malloc] and [realloc]. *)
Record slabs_t := Slabs {
  slabclass : list slabclass_t;
  mem_limit : Z;
  mem_malloced : Z;
  mem_base : option ptr;
  mem_current : ptr;
  mem_avail : Z;
  memory_full : bool;
  heap : heap_t;
  mallocs : Z;
}.

Definition with_classes (s : slabs_t) (cs : list slabclass_t) : slabs_t :=
  Slabs cs (mem_limit s) (mem_malloced s) (mem_base s) (mem_current s) (mem_avail s)
    (memory_full s) (heap s) (mallocs s).
Definition with_heap (s : slabs_t) (h : heap_t) : slabs_t :=
  Slabs (slabclass s) (mem_limit s) (mem_malloced s) (mem_base s) (mem_current s) (mem_avail s)
    (memory_full s) h (mallocs s).
Definition with_malloced (s : slabs_t) (n : Z) : slabs_t :=
  Slabs (slabclass s) (mem_limit s) n (mem_base s) (mem_current s) (mem_avail s)
    (memory_full s) (heap s) (mallocs s).
Definition with_mallocs (s : slabs_t) (n : Z) : slabs_t :=
  Slabs (slabclass s) (mem_limit s) (mem_malloced s) (mem_base s) (mem_current s) (mem_avail s)
    (memory_full s) (heap s) n.
Definition with_pool (s : slabs_t) (cur : ptr) (avail : Z) : slabs_t :=
  Slabs (slabclass s) (mem_limit s) (mem_malloced s) (mem_base s) cur avail
    (memory_full s) (heap s) (mallocs s).
Definition with_full (s : slabs_t) : slabs_t :=
  Slabs (slabclass s) (mem_limit s) (mem_malloced s) (mem_base s) (mem_current s) (mem_avail s)
    true (heap s) (mallocs s).

(** Little-endian loads. *)
Fixpoint load_le (n : nat) (bytes : list Z) : Z :=
  match n with
  | O => 0
  | S n => match bytes with [] => 0 | b :: bytes => b + 256 * load_le n bytes end
  end.

(** ** Locations *)

Definition make_loc (cfg : mega_config_t) (id perslab slabs x : Z) : Z :=
  u32 (u32 (Z.shiftl id (loc_bits cfg - SLAB_ID_BITS)) + u32 (perslab * slabs) + x).
Definition loc_id (cfg : mega_config_t) (loc : Z) : Z :=
  Z.shiftr loc (loc_bits cfg - SLAB_ID_BITS).
Definition loc_offset (loc : Z) : Z := Z.shiftr (u32 (Z.shiftl loc SLAB_ID_BITS)) SLAB_ID_BITS.

(** [slab_list[offset >> perslab_bits] + size * (offset & ((1 << perslab_bits) - 1))] *)
Definition item_at (p : slabclass_t) (offset : Z) : result ptr :=
  slab ← arr_get (sc_slab_list p) (Z.shiftr offset (sc_perslab_bits p));
  match slab with
  | Some slab =>
      Ok (ptr_add slab
            (u32 (sc_size p * Z.land offset (Z.shiftl 1 (sc_perslab_bits p) - 1))))
  | None => Err NullDeref
  end.

Definition slab_loc_to_ptr (cfg : mega_config_t) (cs : list slabclass_t) (loc : Z) : result ptr :=
  let id := loc_id cfg loc in
  let offset := loc_offset loc in
  _ ← assert_ (id <=? POWER_LARGEST);
  p ← arr_get cs id;
  _ ← assert_ (offset <? u32 (sc_perslab p * sc_slabs p));
  item_at p offset.

(** ** Size classes *)

(** One unit of fuel per class. *)
Fixpoint clsid_loop (fuel : nat) (cs : list slabclass_t) (res size : Z) : result Z :=
  match fuel with
  | O => Err OutOfFuel
  | S fuel =>
      p ← arr_get cs res;
      if sc_size p <? size then
        if res =? POWER_LARGEST then Err Exit
        else
          p ← arr_get cs (res + 1);
          if negb (sc_available p =? 1) then Err Exit
          else clsid_loop fuel cs (res + 1) size
      else Ok res
  end.

Definition slabs_clsid (cs : list slabclass_t) (size : Z) : result Z :=
  if size =? 0 then Ok (-1) else clsid_loop 8 cs POWER_SMALLEST size.

Definition slabs_assign_size (cs : list slabclass_t) : list Z := sc_size <$> cs.

Definition align (size : Z) : Z :=
  if Z.rem size ITEM_ALIGN_BYTES =? 0 then size
  else u32 (size + (ITEM_ALIGN_BYTES - Z.rem size ITEM_ALIGN_BYTES)).

(** [size *= factor] on an [unsigned int] and a [double]. *)
Definition scale (factor : double) (size : Z) : result Z :=
  u32_of_double (dmul (double_of_Z size) factor).

(** ** Allocation *)

Section allocation.
Context (malloc_ok : Z → bool) (garbage : ptr → Z) (cfg : mega_config_t).

(** [malloc] and [realloc]: the block of the call, or null. *)
Definition malloc (s : slabs_t) : slabs_t * option ptr :=
  let n := mallocs s in
  (with_mallocs s (n + 1), if malloc_ok n then Some (n, 0) else None).

Definition memory_allocate (s : slabs_t) (size : Z) : slabs_t * option ptr :=
  match mem_base s with
  | None => malloc s
  | Some _ =>
      if mem_avail s <? size then (s, None)
      else
        let size := align size in
        let avail := if size <? mem_avail s then mem_avail s - size else 0 in
        (with_pool s (ptr_add (mem_current s) size) avail, Some (mem_current s))
  end.

Definition grow_slab_list (s : slabs_t) (id : Z) : result (slabs_t * Z) :=
  p ← arr_get (slabclass s) id;
  if sc_slabs p =? sc_list_size p then
    let new_size := if negb (sc_list_size p =? 0) then u32 (sc_list_size p * 2) else 16 in
    let '(s, new_list) := malloc s in
    match new_list with
    | None => Ok (s, 0)
    | Some _ =>
        let l := take (Z.to_nat new_size) (sc_slab_list p) ++
                 replicate (Z.to_nat new_size - length (sc_slab_list p)) None in
        cs ← arr_set (slabclass s) id (set_slab_list p (sc_slabs p) l new_size);
        Ok (with_classes s cs, 1)
    end
  else Ok (s, 1).

(** The bytes of the slot at [p] as [malloc] leaves them. *)
Definition raw (p : ptr) (from to : Z) : list Z :=
  (λ i, garbage (ptr_add p i)) <$> seqZ from (to - from).

Definition fresh_item (p : ptr) (size loc flags id : Z) (next : option ptr) : item :=
  Item next flags id (load_le 2 (raw p 10 12)) (load_le 4 (raw p 12 16)) loc
    (raw p sizeof_item size).

(** The loop of [do_slabs_alloc_batch] from item [x] on, at [p]; a header that
    does not fit into the [len] bytes of the slab is out of bounds. *)
Fixpoint carve (fuel : nat) (c : slabclass_t) (id len x : Z) (p : ptr) (h : heap_t)
    : result heap_t :=
  match fuel with
  | O => Err OutOfFuel
  | S fuel =>
      if x <? sc_perslab c then
        if len <? sc_size c * x + sizeof_item then Err OutOfBounds
        else
          let it := fresh_item p (sc_size c)
                      (make_loc cfg id (sc_perslab c) (sc_slabs c) x) ITEM_FREE id in
          if x =? sc_perslab c - 1 then Ok (<[p := it None]> h)
          else
            let next := ptr_add p (sc_size c) in
            carve fuel c id len (x + 1) next (<[p := it (Some next)]> h)
      else Ok h
  end.

(** The four conditions joined by [||] before a slab is made; [Some head] when
    all of them are false. *)
Definition reserve_slab (s : slabs_t) (id len : Z) : result (slabs_t * option ptr) :=
  p ← arr_get (slabclass s) id;
  if negb (mem_limit s =? 0) && (mem_limit s <? u64 (mem_malloced s + len)) && (0 <? sc_slabs p)
  then Ok (s, None)
  else
    '(bm, r) ← bitmap_update (sc_bitmap p) (sc_perslab p);
    cs ← arr_set (slabclass s) id (set_bitmap p bm);
    let s := with_classes s cs in
    if r =? -1 then Ok (s, None)
    else
      '(s, r) ← grow_slab_list s id;
      if r =? 0 then Ok (s, None)
      else Ok (memory_allocate s len).

(** [p->slab_list[p->slabs++] = head; mem_malloced += len] *)
Definition add_slab (s : slabs_t) (id len : Z) (head : ptr) : result slabs_t :=
  p ← arr_get (slabclass s) id;
  l ← arr_set (sc_slab_list p) (sc_slabs p) (Some head);
  cs ← arr_set (slabclass s) id (set_slab_list p (u32 (sc_slabs p + 1)) l (sc_list_size p));
  Ok (with_malloced (with_classes s cs) (u64 (mem_malloced s + len))).

Definition do_slabs_alloc_batch (s : slabs_t) (id : Z) : result (slabs_t * option ptr) :=
  p ← arr_get (slabclass s) id;
  let len := u32 (sc_size p * sc_perslab p) in
  _ ← assert_ ((sc_sl_curr p =? 0) || negb (bool_decide (sc_slots p = None)));
  '(s, head) ← reserve_slab s id len;
  match head with
  | None => Ok (with_full s, None)
  | Some head =>
      p ← arr_get (slabclass s) id;
      h ← carve (S (Z.to_nat (sc_perslab p))) p id len 0 head (heap s);
      s ← add_slab (with_heap s h) id len head;
      Ok (s, Some head)
  end.

(** Location 0 is not used: the Sender takes it for "not found". *)
Definition slabs_alloc_batch (s : slabs_t) (size : Z) : result (slabs_t * option ptr) :=
  if memory_full s then Ok (s, None)
  else
    id ← slabs_clsid (slabclass s) size;
    if (id =? -1) || (id <? POWER_SMALLEST) || (POWER_LARGEST <? id) then Ok (s, None)
    else
      '(s, it) ← do_slabs_alloc_batch s id;
      match it with
      | None => Ok (s, None)
      | Some p =>
          match heap s !! p with
          | None => Err NullDeref
          | Some it => Ok (s, if it_loc it =? 0 then it_next it else Some p)
          end
      end.

(** ** Preallocation *)

Definition do_slabs_free (s : slabs_t) (p : ptr) (id : Z) : result slabs_t :=
  _ ← assert_ ((POWER_SMALLEST <=? id) && (id <=? POWER_LARGEST));
  c ← arr_get (slabclass s) id;
  match heap s !! p with
  | None => Err NullDeref
  | Some it =>
      cs ← arr_set (slabclass s) id (set_slots c (Some p) (u32 (sc_sl_curr c + 1)));
      Ok (with_heap (with_classes s cs)
            (<[p := Item (sc_slots c) ITEM_FREE id (it_nkey it) (it_nbytes it) (it_loc it)
                      (it_data it)]> (heap s)))
  end.

(** [memset(ptr, 0, len)] has made all other fields zero. *)
Definition zero_item (size loc : Z) : item :=
  Item None 0 0 0 0 loc (replicate (Z.to_nat (size - sizeof_item)) 0).

Fixpoint split_slab_page_into_freelist (fuel : nat) (s : slabs_t) (id len x : Z) (p : ptr)
    : result slabs_t :=
  match fuel with
  | O => Err OutOfFuel
  | S fuel =>
      c ← arr_get (slabclass s) id;
      if x <? sc_perslab c then
        if len <? sc_size c * x + sizeof_item then Err OutOfBounds
        else
          let it := zero_item (sc_size c) (make_loc cfg id (sc_perslab c) (sc_slabs c) x) in
          s ← do_slabs_free (with_heap s (<[p := it]> (heap s))) p id;
          split_slab_page_into_freelist fuel s id len (x + 1) (ptr_add p (sc_size c))
      else Ok s
  end.

Definition do_slabs_newslab (s : slabs_t) (id : Z) : result (slabs_t * Z) :=
  p ← arr_get (slabclass s) id;
  let len := u32 (sc_size p * sc_perslab p) in
  if negb (mem_limit s =? 0) && (mem_limit s <? u64 (mem_malloced s + len)) && (0 <? sc_slabs p)
  then Ok (s, 0)
  else
    '(s, r) ← grow_slab_list s id;
    if r =? 0 then Ok (s, 0)
    else
      let '(s, head) := memory_allocate s len in
      match head with
      | None => Ok (s, 0)
      | Some head =>
          s ← split_slab_page_into_freelist (S (Z.to_nat (sc_perslab p))) s id len 0 head;
          s ← add_slab s id len head;
          Ok (s, 1)
      end.

(** The classes from [i] on; [prealloc] counts them. *)
Fixpoint slabs_preallocate (fuel : nat) (s : slabs_t) (i prealloc maxslabs : Z) : result slabs_t :=
  match fuel with
  | O => Ok s
  | S fuel =>
      if maxslabs <? prealloc + 1 then Ok s
      else
        '(s, r) ← do_slabs_newslab s i;
        if r =? 0 then Err Exit else slabs_preallocate fuel s (i + 1) (prealloc + 1) maxslabs
  end.

Definition init_class (size : Z) (bm : bitmap_t) : slabclass_t :=
  Slabclass size (cfg_perslab_bits cfg) (u32 (Z.shiftl 1 (cfg_perslab_bits cfg))) None 0 0 [] 0 1 bm.

(** The loop of [slabs_init] over the classes. *)
Fixpoint init_classes (n : nat) (s : slabs_t) (factor : double) (size : Z)
    : result (slabs_t * list slabclass_t) :=
  match n with
  | O => Ok (s, [])
  | S n =>
      let size := align size in
      let '(s, map) := malloc s in
      bm ← bitmap_init (negb (bool_decide (map = None))) (slabclass_max_elem_num cfg);
      next ← scale factor size;
      '(s, cs) ← init_classes n s factor next;
      Ok (s, init_class size bm :: cs)
  end.

Definition slabs_init (s : slabs_t) (limit : Z) (factor : double) (prealloc : bool)
    : result slabs_t :=
  let s := Slabs (slabclass s) limit (mem_malloced s) (mem_base s) (mem_current s) (mem_avail s)
             (memory_full s) (heap s) (mallocs s) in
  s ← (if prealloc then
         let '(s, base) := malloc s in
         match base with
         | Some b => Ok (Slabs (slabclass s) limit (mem_malloced s) (Some b) b limit
                          (memory_full s) (heap s) (mallocs s))
         | None => Err Exit
         end
       else Ok s);
  '(s, cs) ← init_classes (Z.to_nat MAX_NUMBER_OF_SLAB_CLASSES) s factor (sizeof_item + 16);
  let s := with_classes s cs in
  if prealloc then
    slabs_preallocate (Z.to_nat MAX_NUMBER_OF_SLAB_CLASSES) s POWER_SMALLEST 0 POWER_LARGEST
  else Ok s.

End allocation.

(** The static variables before [slabs_init]. *)
Definition slabs0 : slabs_t := Slabs [] 0 0 None (0, 0) 0 false ∅ 0.

(** ** Specification *)

(** The configurations the allocator is made for. *)
Record cfg_ok (cfg : mega_config_t) : Prop := {
  ok_loc_bits : loc_bits cfg = 32;
  ok_perslab : 6 ≤ cfg_perslab_bits cfg ≤ 26;
  ok_elems : 0 < slabclass_max_elem_num cfg ≤ 2 ^ 29;
  ok_elems_64 : slabclass_max_elem_num cfg mod 64 = 0;
}.

(** Slab [k] of class [p] starts at offset 0 of block [b]; it holds the items
    with the consecutive locations from [k * perslab] on. *)
Definition slab_at (p : slabclass_t) (k b : Z) : Prop :=
  sc_slab_list p !! Z.to_nat k = Some (Some (b, 0)).

Definition slab_items (cfg : mega_config_t) (h : heap_t) (id : Z) (p : slabclass_t) (k b : Z)
    : Prop :=
  ∀ x, 0 ≤ x < sc_perslab p → ∃ it, h !! (b, sc_size p * x) = Some it ∧
    it_loc it = id * 2 ^ 29 + (sc_perslab p * k + x) ∧ it_slabs_clsid it = id ∧
    Z.of_nat (length (it_data it)) = sc_size p - sizeof_item.

Record class_wf (cfg : mega_config_t) (mallocs : Z) (h : heap_t) (id : Z) (p : slabclass_t)
    : Prop := {
  cw_size : sizeof_item ≤ sc_size p;
  cw_align : sc_size p mod 8 = 0;
  cw_bits : sc_perslab_bits p = cfg_perslab_bits cfg;
  cw_perslab : sc_perslab p = 2 ^ cfg_perslab_bits cfg;
  cw_len : sc_size p * sc_perslab p < 2 ^ 32;
  cw_free : sc_slots p = None ∧ sc_sl_curr p = 0;
  cw_list : Z.of_nat (length (sc_slab_list p)) = sc_list_size p;
  cw_list_max : sc_list_size p ≤ 2 ^ 24;
  cw_slabs : 0 ≤ sc_slabs p ≤ sc_list_size p;
  cw_available : sc_available p = 1;
  cw_bitmap : bitmap_wf (sc_bitmap p) ∧ bm_offset_mask (sc_bitmap p) = all_ones64;
  cw_elems : 64 * bm_size (sc_bitmap p) ≤ 2 ^ 29;
  cw_count : sc_perslab p * sc_slabs p ≤ 64 * bm_current_size (sc_bitmap p);
  cw_items : ∀ k, 0 ≤ k < sc_slabs p →
    ∃ b, slab_at p k b ∧ 0 ≤ b < mallocs ∧ slab_items cfg h id p k b;
}.

Arguments cw_size {_ _ _ _ _}.
Arguments cw_len {_ _ _ _ _}.
Arguments cw_bits {_ _ _ _ _}.
Arguments cw_perslab {_ _ _ _ _}.
Arguments cw_slabs {_ _ _ _ _}.
Arguments cw_list {_ _ _ _ _}.
Arguments cw_list_max {_ _ _ _ _}.
Arguments cw_bitmap {_ _ _ _ _}.
Arguments cw_elems {_ _ _ _ _}.
Arguments cw_count {_ _ _ _ _}.
Arguments cw_items {_ _ _ _ _}.
Arguments cw_free {_ _ _ _ _}.
Arguments cw_align {_ _ _ _ _}.
Arguments cw_available {_ _ _ _ _}.

(** Bytes held by the slabs of a class. *)
Definition class_bytes (p : slabclass_t) : Z := sc_size p * sc_perslab p * sc_slabs p.

(** The invariant of the allocator without preallocation. *)
Record slabs_wf (cfg : mega_config_t) (s : slabs_t) : Prop := {
  sw_num : length (slabclass s) = 8%nat;
  sw_base : mem_base s = None;
  sw_mallocs : 0 ≤ mallocs s;
  sw_class : ∀ id p, 0 ≤ id → slabclass s !! Z.to_nat id = Some p →
    class_wf cfg (mallocs s) (heap s) id p;
  sw_disjoint : ∀ id id' p p' k k' b, 0 ≤ id → 0 ≤ id' →
    slabclass s !! Z.to_nat id = Some p → slabclass s !! Z.to_nat id' = Some p' →
    0 ≤ k < sc_slabs p → 0 ≤ k' < sc_slabs p' →
    slab_at p k b → slab_at p' k' b → id = id' ∧ k = k';
  sw_heap : ∀ b o, is_Some (heap s !! (b, o)) → b < mallocs s;
  sw_malloced : mem_malloced s = zsum class_bytes (slabclass s);
}.
Arguments sw_num {_ _}.
Arguments sw_base {_ _}.
Arguments sw_mallocs {_ _}.
Arguments sw_class {_ _}.
Arguments sw_disjoint {_ _}.
Arguments sw_heap {_ _}.
Arguments sw_malloced {_ _}.

(** The items of a linked list. *)
Fixpoint chain (h : heap_t) (p : option ptr) (l : list ptr) : Prop :=
  match l with
  | [] => p = None
  | q :: l => p = Some q ∧ ∃ it, h !! q = Some it ∧ chain h (it_next it) l
  end.

(** ** Locations: lemmas *)

Lemma make_loc_eq cfg id perslab k x :
  cfg_ok cfg → 0 ≤ id < 8 → 0 ≤ x → 0 ≤ perslab * k → perslab * k + x < 2 ^ 29 →
  make_loc cfg id perslab k x = id * 2 ^ 29 + (perslab * k + x).
Proof.
  intros Hcfg Hid Hx Hk Hlt. unfold make_loc, SLAB_ID_BITS. rewrite (ok_loc_bits _ Hcfg).
  rewrite Z.shiftl_mul_pow2 by lia. change (32 - 3) with 29.
  rewrite !wrap_id; unfold in_range; rewrite ?wrap_id; unfold in_range; lia.
Qed.

Lemma loc_id_eq cfg id off : cfg_ok cfg → 0 ≤ off < 2 ^ 29 → loc_id cfg (id * 2 ^ 29 + off) = id.
Proof.
  intros Hcfg Hoff. unfold loc_id, SLAB_ID_BITS. rewrite (ok_loc_bits _ Hcfg).
  rewrite Z.shiftr_div_pow2 by lia. change (32 - 3) with 29.
  rewrite Z.div_add_l by lia. rewrite Z.div_small by lia. lia.
Qed.

Lemma loc_offset_eq id off : 0 ≤ off < 2 ^ 29 → loc_offset (id * 2 ^ 29 + off) = off.
Proof.
  intros Hoff. unfold loc_offset, SLAB_ID_BITS, wrap.
  rewrite Z.shiftl_mul_pow2, Z.shiftr_div_pow2 by lia.
  replace ((id * 2 ^ 29 + off) * 2 ^ 3) with (off * 2 ^ 3 + id * 2 ^ 32) by lia.
  rewrite Z.mod_add by lia. rewrite Z.mod_small by lia. by rewrite Z.div_mul.
Qed.

Lemma split_offset perslab k x :
  0 ≤ x < perslab → (perslab * k + x) / perslab = k ∧ (perslab * k + x) mod perslab = x.
Proof.
  intros Hx. rewrite Z.mul_comm. split.
  - rewrite Z.div_add_l by lia. rewrite Z.div_small by lia. lia.
  - rewrite Z.add_comm, Z.mod_add by lia. by rewrite Z.mod_small.
Qed.

Lemma class_offset_lt cfg m h id p k x :
  cfg_ok cfg → class_wf cfg m h id p → 0 ≤ k < sc_slabs p → 0 ≤ x < sc_perslab p →
  0 ≤ sc_perslab p * k ∧ sc_perslab p * k + x < sc_perslab p * sc_slabs p ∧
  sc_perslab p * sc_slabs p ≤ 2 ^ 29.
Proof.
  intros Hcfg Hwf Hk Hx. pose proof (wf_current _ (proj1 (cw_bitmap Hwf))).
  pose proof (cw_elems Hwf). pose proof (cw_count Hwf). nia.
Qed.

Lemma item_at_eq cfg m h id p k x b :
  cfg_ok cfg → class_wf cfg m h id p → 0 ≤ k < sc_slabs p → 0 ≤ x < sc_perslab p →
  slab_at p k b → item_at p (sc_perslab p * k + x) = Ok (b, sc_size p * x).
Proof.
  intros Hcfg Hwf Hk Hx Hb. unfold item_at.
  pose proof (ok_perslab _ Hcfg) as Hbits. pose proof (cw_size Hwf).
  pose proof (cw_len Hwf).
  destruct (split_offset (sc_perslab p) k x Hx) as [Hd Hm].
  rewrite (cw_bits Hwf).
  rewrite Z.shiftr_div_pow2 by lia. rewrite <-(cw_perslab Hwf), Hd.
  rewrite (arr_get_lookup _ _ _ (proj1 Hk) Hb), bind_Ok. unfold ptr_add. simpl.
  rewrite land_low_mask, <-(cw_perslab Hwf), Hm by lia.
  rewrite wrap_id; [done|]. unfold in_range, sizeof_item in *. nia.
Qed.

Lemma class_perslab cfg m h id p :
  cfg_ok cfg → class_wf cfg m h id p → 2 ^ 6 ≤ sc_perslab p ≤ 2 ^ 26 ∧ sc_perslab p mod 64 = 0.
Proof.
  intros Hcfg Hwf. pose proof (ok_perslab _ Hcfg). rewrite (cw_perslab Hwf). split.
  - split; apply Z.pow_le_mono_r; lia.
  - replace (cfg_perslab_bits cfg) with ((cfg_perslab_bits cfg - 6) + 6) by lia.
    rewrite Z.pow_add_r by lia. by apply Z.mod_mul.
Qed.

(** ** Making a slab: lemmas *)

Section alloc_lemmas.
Context (malloc_ok : Z → bool) (garbage : ptr → Z) (cfg : mega_config_t) (Hcfg : cfg_ok cfg).

Definition new_item (c : slabclass_t) (id b k : Z) : item :=
  fresh_item garbage (b, sc_size c * k) (sc_size c) (make_loc cfg id (sc_perslab c) (sc_slabs c) k)
    ITEM_FREE id (if k =? sc_perslab c - 1 then None else Some (b, sc_size c * (k + 1))).

Lemma carve_spec c id b fuel x h :
  sizeof_item ≤ sc_size c → 0 ≤ x < sc_perslab c → sc_perslab c - x < Z.of_nat fuel →
  ∃ h', carve garbage cfg fuel c id (sc_size c * sc_perslab c) x (b, sc_size c * x) h = Ok h' ∧
    (∀ k, x ≤ k < sc_perslab c → h' !! (b, sc_size c * k) = Some (new_item c id b k)) ∧
    ∀ q, q.1 ≠ b ∨ q.2 < sc_size c * x → h' !! q = h !! q.
Proof.
  intros Hsz. revert x h. induction fuel as [|fuel IH]; intros x h Hx Hfuel; [lia|].
  cbn [carve]. unfold sizeof_item in *.
  destruct (Z.ltb_spec x (sc_perslab c)); [|lia].
  destruct (Z.ltb_spec (sc_size c * sc_perslab c) (sc_size c * x + 24)); [nia|]. cbv zeta.
  destruct (Z.eqb_spec x (sc_perslab c - 1)) as [->|Hne].
  - eexists. split; [done|]. split.
    + intros k Hk. assert (k = sc_perslab c - 1) as -> by lia.
      rewrite lookup_insert_eq. unfold new_item. by rewrite Z.eqb_refl.
    + intros q Hq. apply lookup_insert_ne. intros <-. simpl in Hq. lia.
  - unfold ptr_add. simpl.
    replace (sc_size c * x + sc_size c) with (sc_size c * (x + 1)) by lia.
    edestruct (IH (x + 1)) as (h' & -> & Hnew & Hold); [lia|lia|].
    exists h'. split; [done|]. split.
    + intros k Hk. destruct (decide (k = x)) as [->|]; [|by apply Hnew; lia].
      rewrite Hold by (right; simpl; nia). rewrite lookup_insert_eq. unfold new_item.
      by rewrite (proj2 (Z.eqb_neq _ _) Hne).
    + intros q Hq. rewrite Hold by (destruct Hq; [by left|right; nia]).
      apply lookup_insert_ne. intros <-. simpl in Hq. lia.
Qed.

Lemma new_items_chain c id b h n :
  (∀ k, 0 ≤ k < sc_perslab c → h !! (b, sc_size c * k) = Some (new_item c id b k)) →
  ∀ x, 0 ≤ x → x + Z.of_nat n = sc_perslab c → (0 < n)%nat →
  chain h (Some (b, sc_size c * x)) ((λ k, (b, sc_size c * k)) <$> seqZ x (Z.of_nat n)).
Proof.
  intros H. induction n as [|n IH]; intros x Hx Hsum Hn; [lia|].
  rewrite seqZ_cons by lia. cbn [fmap list_fmap chain]. split; [done|].
  exists (new_item c id b x). split; [apply H; lia|].
  replace (Z.pred (Z.of_nat (S n))) with (Z.of_nat n) by lia.
  unfold new_item. cbn [it_next fresh_item].
  destruct (Z.eqb_spec x (sc_perslab c - 1)).
  - assert (n = 0%nat) as -> by lia. done.
  - apply IH; lia.
Qed.

(** What [reserve_slab] may change: the bitmap grows and the array of slabs is
    reallocated. *)
Record reserved (s : slabs_t) (id : Z) (p : slabclass_t) (s' : slabs_t) (p' : slabclass_t)
    : Prop := {
  rs_class : slabclass s' = <[Z.to_nat id := p']> (slabclass s);
  rs_same : (mem_limit s', mem_malloced s', mem_base s', memory_full s', heap s') =
            (mem_limit s, mem_malloced s, mem_base s, memory_full s, heap s);
  rs_mallocs : mallocs s ≤ mallocs s';
  rs_shape : ∃ bm l, p' = set_slab_list (set_bitmap p bm) (sc_slabs p) l (Z.of_nat (length l)) ∧
    (∀ k, 0 ≤ k < sc_slabs p → l !! Z.to_nat k = sc_slab_list p !! Z.to_nat k) ∧
    sc_slabs p ≤ Z.of_nat (length l) ≤ 2 ^ 24 ∧
    bitmap_wf bm ∧ bm_offset_mask bm = all_ones64 ∧ bm_size bm = bm_size (sc_bitmap p) ∧
    bm_current_size (sc_bitmap p) ≤ bm_current_size bm;
}.

Lemma reserved_class_wf s id p s' p' h m m' :
  class_wf cfg m h id p → reserved s id p s' p' → m ≤ m' → class_wf cfg m' h id p'.
Proof.
  intros Hwf [_ _ _ (bm & l & -> & Hpre & Hlen & Hbm & Hmask & Hbs & Hbc)] Hm.
  pose proof (cw_count Hwf). pose proof (cw_slabs Hwf). pose proof (cw_items Hwf) as Hitems.
  destruct Hwf. split; try done; simpl; try lia.
  intros k Hk. destruct (Hitems k Hk) as (b & Hb & Hlt & Hit). exists b. split_and!; [|lia..|done].
  unfold slab_at in *. simpl. by rewrite Hpre.
Qed.

Lemma reserved_refl s id p :
  class_wf cfg (mallocs s) (heap s) id p → slabclass s !! Z.to_nat id = Some p →
  reserved s id p s p.
Proof.
  intros Hwf Hid. split; try done; [by rewrite list_insert_id |].
  exists (sc_bitmap p), (sc_slab_list p). destruct (cw_bitmap Hwf).
  pose proof (cw_list Hwf). pose proof (cw_list_max Hwf). pose proof (cw_slabs Hwf).
  split_and!; try done; try lia. destruct p; unfold set_slab_list; simpl in *. congruence.
Qed.

Lemma reserved_trans s1 s2 s3 id p1 p2 p3 :
  reserved s1 id p1 s2 p2 → reserved s2 id p2 s3 p3 → reserved s1 id p1 s3 p3.
Proof.
  intros [Hc Hs Hm (bm & l & -> & Hpre & Hlen & Hbm & Hmask & Hbs & Hbc)]
    [Hc' Hs' Hm' (bm' & l' & -> & Hpre' & Hlen' & Hbm' & Hmask' & Hbs' & Hbc')].
  simpl in *. split; [by rewrite Hc', Hc, list_insert_insert_eq | congruence | lia |].
  exists bm', l'. split_and!; try done; try lia; try congruence.
  intros k Hk. by rewrite Hpre', Hpre.
Qed.

Lemma grow_slab_list_spec s id p :
  class_wf cfg (mallocs s) (heap s) id p → 0 ≤ id → slabclass s !! Z.to_nat id = Some p →
  sc_slabs p ≤ 2 ^ 23 →
  ∃ s' r p', grow_slab_list malloc_ok s id = Ok (s', r) ∧ reserved s id p s' p' ∧
    (r = 0 ∨ r = 1 ∧ sc_slabs p' < sc_list_size p') ∧
    sc_bitmap p' = sc_bitmap p ∧ ((∀ n, malloc_ok n = true) → r = 1).
Proof.
  intros Hwf Hid0 Hid Hmax. unfold grow_slab_list.
  rewrite (arr_get_lookup _ _ _ Hid0 Hid), bind_Ok.
  pose proof (cw_slabs Hwf) as Hsl. pose proof (cw_list Hwf) as Hlist.
  destruct (Z.eqb_spec (sc_slabs p) (sc_list_size p)) as [Heq|Hne]; simpl.
  2:{ exists s, 1, p. split_and!; try done; [by apply reserved_refl | right; lia]. }
  unfold malloc. destruct (cw_bitmap Hwf) as [Hbm Hmask].
  destruct (malloc_ok (mallocs s)) eqn:Hok; simpl.
  - set (new_size := if negb (sc_list_size p =? 0) then _ else _).
    assert (Hnew : sc_slabs p < new_size ≤ 2 ^ 24 ∧ 0 ≤ sc_slabs p).
    { subst new_size. destruct (Z.eqb_spec (sc_list_size p) 0); simpl; [lia|].
      rewrite wrap_id by (unfold in_range; lia). lia. }
    destruct Hnew as [Hnew Hge].
    set (l := take _ _ ++ _).
    assert (Hl : Z.of_nat (length l) = new_size).
    { subst l. rewrite length_app, length_take, length_replicate. lia. }
    rewrite arr_set_in_bounds by (pose proof (lookup_lt_Some _ _ _ Hid); lia).
    rewrite bind_Ok. eexists _, 1, (set_slab_list p (sc_slabs p) l new_size). split_and!; try done; [|right; split; [done | simpl; lia]].
    split; try done; simpl; try lia.
    exists (sc_bitmap p), l. split_and!; try done; try lia; [by rewrite Hl|].
    intros k Hk. subst l. rewrite lookup_app_l by (rewrite length_take; lia).
    rewrite lookup_take_lt by lia. done.
  - eexists _, 0, p. split_and!; [done | | by left | done |].
    + pose proof (reserved_refl s id p Hwf Hid) as [? ? ? ?]. split; try done. simpl. lia.
    + intros Hall. by rewrite Hall in Hok.
Qed.

(** Both outcomes of [reserve_slab] with what has changed; it only refuses when
    the limit or the bitmap is exhausted, or [malloc] fails. *)
Lemma reserve_slab_spec s id p len :
  slabs_wf cfg s → 0 ≤ id → slabclass s !! Z.to_nat id = Some p →
  ∃ s' p' r, reserve_slab malloc_ok s id len = Ok (s', r) ∧ reserved s id p s' p' ∧
    match r with
    | None => True
    | Some b =>
        b.2 = 0 ∧ mallocs s ≤ b.1 < mallocs s' ∧ sc_slabs p' < sc_list_size p' ∧
        sc_perslab p * (sc_slabs p + 1) ≤ 64 * bm_current_size (sc_bitmap p') ∧
        (mem_limit s = 0 ∨ u64 (mem_malloced s + len) ≤ mem_limit s ∨ sc_slabs p = 0)
    end.
Proof.
  intros Hs Hid0 Hid. pose proof (sw_class Hs _ _ Hid0 Hid) as Hwf.
  pose proof (class_perslab _ _ _ _ _ Hcfg Hwf) as [Hps Hps64].
  pose proof (cw_bitmap Hwf) as [Hbm Hmask]. pose proof (cw_count Hwf) as Hcount.
  pose proof (cw_elems Hwf) as Hel. pose proof (wf_current _ Hbm) as Hcur.
  pose proof (cw_slabs Hwf) as Hsl.
  unfold reserve_slab. rewrite (arr_get_lookup _ _ _ Hid0 Hid), bind_Ok.
  destruct (negb (mem_limit s =? 0) && _ && _) eqn:Hlim.
  { exists s, p, None. split_and!; try done. by apply reserved_refl. }
  destruct (bitmap_update_Ok (sc_bitmap p) (sc_perslab p)) as (bm & r & -> & Hbm' & Hr & Hsame);
    [done|lia|done|].
  rewrite bind_Ok. cbv beta iota.
  rewrite arr_set_in_bounds by (pose proof (lookup_lt_Some _ _ _ Hid); lia). rewrite bind_Ok.
  set (p1 := set_bitmap p bm). set (s1 := with_classes s _).
  assert (Hid1 : slabclass s1 !! Z.to_nat id = Some p1).
  { simpl. apply list_lookup_insert_eq. by eapply lookup_lt_Some. }
  assert (Hres : reserved s id p s1 p1).
  { split; try done. exists bm, (sc_slab_list p). destruct Hsame as (? & ? & ?).
    pose proof (cw_list Hwf). pose proof (cw_list_max Hwf).
    split_and!; try done; try congruence; try lia.
    unfold p1, set_slab_list, set_bitmap. simpl. f_equal. congruence. }
  cbv zeta. destruct (Z.eqb_spec r (-1)); [exists s1, p1, None; by split_and!|].
  destruct Hr as [|[-> Hgrown]]; [done|].
  assert (Hwf1 : class_wf cfg (mallocs s1) (heap s1) id p1) by (eapply reserved_class_wf; [exact Hwf | exact Hres | apply Hres]).
  destruct (grow_slab_list_spec s1 id p1) as (s2 & r & p2 & -> & Hres2 & Hr2 & Hbm2 & _);
    try done.
  { simpl. pose proof (wf_current _ Hbm'). destruct Hsame as (Hsz & _). nia. }
  pose proof (reserved_trans _ _ _ _ _ _ _ Hres Hres2) as Hres3.
  rewrite bind_Ok. cbv beta iota. destruct Hr2 as [->|[-> Hroom]]; simpl Z.eqb; cbv iota.
  { by exists s2, p2, None. }
  assert (Hbase : mem_base s2 = None).
  { pose proof (rs_same _ _ _ _ _ Hres3) as Heq. injection Heq as _ _ -> _ _. apply Hs. }
  unfold memory_allocate. rewrite Hbase. unfold malloc.
  assert (Hres4 : reserved s id p (with_mallocs s2 (mallocs s2 + 1)) p2).
  { destruct Hres3. split; try done. simpl. lia. }
  pose proof (rs_mallocs _ _ _ _ _ Hres3).
  destruct (malloc_ok (mallocs s2)); eexists _, p2, _; (split; [done|]); (split; [done|]); simpl;
    [|done].
  split_and!; try done; try lia.
  rewrite Hbm2. unfold p1. simpl. rewrite Hgrown.
  pose proof (Z.div_mod (sc_perslab p) 64). nia.
Qed.

(** One class changes, and fresh memory may get items and become its next slab. *)
Lemma slabs_wf_step s id p s' p' :
  slabs_wf cfg s → 0 ≤ id → slabclass s !! Z.to_nat id = Some p →
  slabclass s' = <[Z.to_nat id := p']> (slabclass s) →
  mem_base s' = None → mallocs s ≤ mallocs s' →
  (∀ q, q.1 < mallocs s → heap s' !! q = heap s !! q) →
  (∀ b o, is_Some (heap s' !! (b, o)) → b < mallocs s') →
  class_wf cfg (mallocs s') (heap s') id p' →
  (∀ k b, 0 ≤ k < sc_slabs p' → slab_at p' k b →
     (k < sc_slabs p ∧ slab_at p k b) ∨ (k = sc_slabs p ∧ mallocs s ≤ b)) →
  mem_malloced s' = mem_malloced s - class_bytes p + class_bytes p' →
  slabs_wf cfg s'.
Proof.
  intros Hs Hid0 Hid Hcls Hbase Hm Hold Hheap Hp' Hslab Hbytes.
  assert (Hother : ∀ i q, 0 ≤ i → slabclass s' !! Z.to_nat i = Some q →
    (i = id ∧ q = p') ∨ (i ≠ id ∧ slabclass s !! Z.to_nat i = Some q)).
  { intros i q Hi Hq. rewrite Hcls in Hq. destruct (decide (i = id)) as [->|Hne].
    - rewrite list_lookup_insert_eq in Hq by (by eapply lookup_lt_Some). left. naive_solver.
    - rewrite list_lookup_insert_ne in Hq by lia. by right. }
  assert (Hin : ∀ i q k b, 0 ≤ i → slabclass s !! Z.to_nat i = Some q → 0 ≤ k < sc_slabs q →
    slab_at q k b → b < mallocs s).
  { intros i q k b Hi Hq Hk Hb. destruct (cw_items (sw_class Hs i q Hi Hq) k Hk)
      as (b' & Hb' & ? & _). unfold slab_at in *. rewrite Hb in Hb'. injection Hb' as ->. lia. }
  pose proof (sw_mallocs Hs). split; try done; try lia.
  - rewrite Hcls, length_insert. apply Hs.
  - intros i q Hi Hq. destruct (Hother i q Hi Hq) as [[-> ->]|[Hne Hq']]; [done|].
    pose proof (sw_class Hs i q Hi Hq') as Hwf. pose proof (cw_items Hwf) as Hitems.
    destruct Hwf. split; try done. intros k Hk. destruct (Hitems k Hk) as (b & Hb & Hlt & Hit).
    exists b. split_and!; [done|lia..|]. intros x Hx. rewrite Hold by (simpl; lia). by apply Hit.
  - intros i i' q q' k k' b Hi Hi' Hq Hq' Hk Hk' Hb Hb'.
    destruct (Hother i q Hi Hq) as [[-> ->]|[Hne Hq0]];
      destruct (Hother i' q' Hi' Hq') as [[-> ->]|[Hne' Hq0']].
    + split; [done|]. destruct (Hslab k b Hk Hb) as [[Hlt Hat]|[-> Hge]];
        destruct (Hslab k' b Hk' Hb') as [[Hlt' Hat']|[-> Hge']]; try done.
      * apply (sw_disjoint Hs id id p p k k' b); done || lia.
      * assert (b < mallocs s) by (apply (Hin id p k b); done || lia). lia.
      * assert (b < mallocs s) by (apply (Hin id p k' b); done || lia). lia.
    + destruct (Hslab k b Hk Hb) as [[Hlt Hat]|[-> Hge]].
      * apply (sw_disjoint Hs id i' p q' k k' b); done || lia.
      * assert (b < mallocs s) by (apply (Hin i' q' k' b); done || lia). lia.
    + destruct (Hslab k' b Hk' Hb') as [[Hlt Hat]|[-> Hge]].
      * apply (sw_disjoint Hs i id q p k k' b); done || lia.
      * assert (b < mallocs s) by (apply (Hin i q k b); done || lia). lia.
    + by apply (sw_disjoint Hs i i' q q' k k' b).
  - rewrite Hbytes, Hcls, (zsum_insert _ _ _ p) by done. by rewrite (sw_malloced Hs).
Qed.

Lemma reserved_wf s id p s' p' :
  slabs_wf cfg s → 0 ≤ id → slabclass s !! Z.to_nat id = Some p → reserved s id p s' p' →
  slabs_wf cfg s'.
Proof.
  intros Hs Hid0 Hid Hres. pose proof (reserved_class_wf s id p s' p' (heap s) _ _
    (sw_class Hs _ _ Hid0 Hid) Hres (rs_mallocs _ _ _ _ _ Hres)) as Hp'.
  destruct Hres as [Hcls Hsame Hm (bm & l & -> & Hpre & _)].
  injection Hsame as Hl Hmm Hb Hf Hh.
  apply (slabs_wf_step s id p s' _ Hs Hid0 Hid Hcls); rewrite ?Hb, ?Hh, ?Hmm; try done.
  - apply Hs.
  - intros b o Hin. pose proof (sw_heap Hs b o Hin). lia.
  - simpl. intros k b Hk Hat. left. split; [lia|]. unfold slab_at in *. simpl in Hat.
    by rewrite <-Hpre.
  - unfold class_bytes. simpl. lia.
Qed.

Lemma class_bytes_bound m h id p : class_wf cfg m h id p → 0 ≤ class_bytes p ≤ 2 ^ 56.
Proof.
  intros Hwf. pose proof (cw_size Hwf). pose proof (cw_len Hwf). pose proof (cw_slabs Hwf).
  pose proof (cw_list_max Hwf). pose proof (class_perslab _ _ _ _ _ Hcfg Hwf).
  unfold class_bytes, sizeof_item in *. nia.
Qed.

Lemma malloced_bound s : slabs_wf cfg s → 0 ≤ mem_malloced s ≤ 2 ^ 59.
Proof.
  intros Hs. rewrite (sw_malloced Hs).
  pose proof (zsum_bound class_bytes (slabclass s) (2 ^ 56)) as H. rewrite (sw_num Hs) in H.
  assert (0 ≤ zsum class_bytes (slabclass s) ≤ Z.of_nat 8 * 2 ^ 56); [|lia].
  apply H. intros i a Hi.
  apply (class_bytes_bound (mallocs s) (heap s) (Z.of_nat i)).
  apply (sw_class Hs); [lia|]. by rewrite Nat2Z.id.
Qed.

(** The items of a slab of [n] items from number [x] on. *)
Definition slab_ptrs (c : slabclass_t) (b x : Z) : list ptr :=
  (λ k, (b, sc_size c * k)) <$> seqZ x (sc_perslab c - x).

Definition fresh_slab (s s' : slabs_t) (id : Z) (p : slabclass_t) (b : Z) : Prop :=
  mallocs s ≤ b < mallocs s' ∧
  (∀ k, 0 ≤ k < sc_perslab p → heap s' !! (b, sc_size p * k) = Some (new_item p id b k)) ∧
  (∀ q, q.1 < mallocs s → heap s' !! q = heap s !! q) ∧
  (∃ p', slabclass s' !! Z.to_nat id = Some p' ∧ sc_size p' = sc_size p ∧
     sc_perslab p' = sc_perslab p ∧ sc_slabs p' = sc_slabs p + 1 ∧ slab_at p' (sc_slabs p) b) ∧
  mem_malloced s' = mem_malloced s + sc_size p * sc_perslab p ∧
  (mem_limit s = 0 ∨ mem_malloced s' ≤ mem_limit s ∨ sc_slabs p = 0).

(** Taking a new slab into the array of its class. *)
Lemma fresh_slab_class_wf m h m' h' id p b :
  class_wf cfg m h id p → 0 ≤ id < 8 → m ≤ m' → 0 ≤ b < m' →
  sc_slabs p < sc_list_size p →
  sc_perslab p * (sc_slabs p + 1) ≤ 64 * bm_current_size (sc_bitmap p) →
  (∀ k, 0 ≤ k < sc_perslab p → h' !! (b, sc_size p * k) = Some (new_item p id b k)) →
  (∀ q, q.1 < m → h' !! q = h !! q) →
  class_wf cfg m' h' id (set_slab_list p (sc_slabs p + 1)
    (<[Z.to_nat (sc_slabs p) := Some (b, 0)]> (sc_slab_list p)) (sc_list_size p)).
Proof.
  intros Hwf Hid Hm Hb Hroom Hcount Hnew Hold. pose proof (cw_items Hwf) as Hitems.
  pose proof (cw_slabs Hwf). pose proof (class_perslab _ _ _ _ _ Hcfg Hwf).
  pose proof (cw_elems Hwf). pose proof (wf_current _ (proj1 (cw_bitmap Hwf))).
  pose proof (cw_size Hwf). pose proof (cw_list Hwf).
  destruct Hwf. split; simpl; try done; try lia; [by rewrite length_insert|].
  intros k Hk. unfold slab_at, slab_items. simpl.
  destruct (decide (k = sc_slabs p)) as [->|Hne].
  - exists b. rewrite list_lookup_insert_eq by lia. split_and!; [done|lia..|].
    intros x Hx. exists (new_item p id b x). split; [by apply Hnew|]. unfold new_item. simpl.
    rewrite make_loc_eq by (done || nia). split_and!; [done..|].
    unfold raw. rewrite length_fmap, length_seqZ. lia.
  - destruct (Hitems k) as (b' & Hat & Hlt & Hit); [lia|]. exists b'.
    rewrite list_lookup_insert_ne by lia. split_and!; [done|lia..|].
    intros x Hx. rewrite Hold by (simpl; lia). by apply Hit.
Qed.

Lemma do_slabs_alloc_batch_spec s id p :
  slabs_wf cfg s → 0 ≤ id → slabclass s !! Z.to_nat id = Some p →
  ∃ s' r, do_slabs_alloc_batch malloc_ok garbage cfg s id = Ok (s', r) ∧ slabs_wf cfg s' ∧
    match r with
    | None => memory_full s' = true ∧ heap s' = heap s ∧ mem_malloced s' = mem_malloced s
    | Some q => ∃ b, q = (b, 0) ∧ fresh_slab s s' id p b ∧ memory_full s' = memory_full s
    end.
Proof.
  intros Hs Hid0 Hid. pose proof (sw_class Hs _ _ Hid0 Hid) as Hwf.
  pose proof (class_perslab _ _ _ _ _ Hcfg Hwf) as [Hps Hps64].
  pose proof (cw_size Hwf) as Hsz. pose proof (cw_len Hwf) as Hlen.
  pose proof (lookup_lt_Some _ _ _ Hid) as Hlt. rewrite (sw_num Hs) in Hlt.
  unfold do_slabs_alloc_batch. rewrite (arr_get_lookup _ _ _ Hid0 Hid), bind_Ok.
  destruct (cw_free Hwf) as [_ Hfree]. rewrite Hfree. cbn [Z.eqb orb].
  rewrite assert_true, bind_Ok by done.
  rewrite wrap_id by (unfold in_range, sizeof_item in *; nia).
  destruct (reserve_slab_spec s id p (sc_size p * sc_perslab p) Hs Hid0 Hid)
    as (s1 & p1 & r & -> & Hres & Hr).
  pose proof (reserved_wf _ _ _ _ _ Hs Hid0 Hid Hres) as Hs1.
  pose proof Hres as [Hcls Hsame Hm (bm & l & Hp1 & Hpre & Hll & _)].
  injection Hsame as Hl Hmm Hb Hf Hh.
  rewrite bind_Ok. destruct r as [[b o]|]; [|eexists _, None; split; [done|]; split; [|by split_and!]].
  2:{ destruct Hs1. split; try done. }
  simpl in Hr. destruct Hr as (-> & Hbm & Hroom & Hcount & Hlimit).
  assert (Hid1 : slabclass s1 !! Z.to_nat id = Some p1)
    by (rewrite Hcls; apply list_lookup_insert_eq; by eapply lookup_lt_Some).
  rewrite (arr_get_lookup _ _ _ Hid0 Hid1), bind_Ok.
  assert (Hshape : sc_size p1 = sc_size p ∧ sc_perslab p1 = sc_perslab p ∧
    sc_slabs p1 = sc_slabs p) by (by rewrite Hp1).
  destruct Hshape as (Hz1 & Hz2 & Hz3). rewrite <-Hz1, <-Hz2.
  destruct (carve_spec p1 id b (S (Z.to_nat (sc_perslab p1))) 0 (heap s1))
    as (h & Hcarve & Hnew & Hold); [lia|lia|lia|].
  rewrite Z.mul_0_r in Hcarve. rewrite Hcarve, bind_Ok.
  unfold add_slab. cbn [slabclass with_heap]. rewrite (arr_get_lookup _ _ _ Hid0 Hid1), bind_Ok.
  pose proof (sw_class Hs1 _ _ Hid0 Hid1) as Hwf1. pose proof (cw_slabs Hwf1).
  pose proof (cw_list Hwf1). pose proof (cw_list_max Hwf1).
  rewrite arr_set_in_bounds, bind_Ok by lia.
  rewrite arr_set_in_bounds, bind_Ok by (pose proof (lookup_lt_Some _ _ _ Hid1); lia).
  rewrite bind_Ok. pose proof (malloced_bound s Hs). cbn [mem_malloced with_heap]. rewrite Hmm.
  rewrite Hz1, Hz2 in *.
  assert (Hu : u64 (mem_malloced s + sc_size p * sc_perslab p) =
    mem_malloced s + sc_size p * sc_perslab p) by (apply wrap_id; unfold in_range, sizeof_item in *; nia).
  rewrite Hu in Hlimit |- *. rewrite (wrap_id 32) by (unfold in_range; lia).
  assert (Hnew' : ∀ k, 0 ≤ k < sc_perslab p → h !! (b, sc_size p * k) = Some (new_item p id b k)).
  { intros k Hk. rewrite (Hnew k Hk). unfold new_item. by rewrite Hz1, Hz2, Hz3. }
  assert (Hold' : ∀ q, q.1 < mallocs s → h !! q = heap s !! q).
  { intros q Hq. rewrite Hold by (left; lia). by rewrite Hh. }
  eexists _, (Some (b, 0)). split; [done|]. split.
  - eapply (slabs_wf_step s id p); cbn [slabclass with_malloced with_classes with_heap mem_base
      mallocs heap mem_malloced]; try done.
    + by rewrite Hcls, list_insert_insert_eq.
    + by rewrite Hb, (sw_base Hs).
    + intros b' o Hin. destruct (decide (b' = b)) as [->|Hne]; [lia|].
      rewrite Hold in Hin by (by left). by apply (sw_heap Hs1 b' o).
    + apply (fresh_slab_class_wf (mallocs s) (heap s)); try done; try lia.
      * by apply (reserved_class_wf s id p s1 p1 (heap s) (mallocs s)).
      * pose proof (sw_mallocs Hs). lia.
      * intros k Hk. rewrite Hz2 in Hk. rewrite Hz1, (Hnew' k Hk). unfold new_item.
        by rewrite Hz1, Hz2, Hz3.
    + simpl. intros k b' Hk Hat. unfold slab_at in *. simpl in Hat.
      destruct (decide (k = sc_slabs p1)) as [->|Hne].
      * rewrite list_lookup_insert_eq in Hat by lia. injection Hat as <-. right. lia.
      * rewrite list_lookup_insert_ne in Hat by lia. left. split; [lia|].
        rewrite Hp1 in Hat. simpl in Hat. rewrite <-Hpre by lia. done.
    + unfold class_bytes. simpl. rewrite Hz1, Hz2, Hz3. lia.
  - exists b. split; [done|]. split; [|done]. split_and!; simpl; try done; try lia.
    eexists. rewrite list_lookup_insert_eq by (by eapply lookup_lt_Some). split; [done|].
    simpl. split_and!; try done; [lia|]. unfold slab_at. simpl. rewrite Hz3.
    apply list_lookup_insert_eq. lia.
Qed.
End alloc_lemmas.

(** *** Size classes and locations: lemmas *)

Lemma clsid_loop_find cs size l pre :
  cs = pre ++ l → length cs = 8%nat → l ≠ [] → Forall (λ p, sc_available p = 1) cs →
  clsid_loop (length l) cs (Z.of_nat (length pre)) size =
    match list_find (λ p, size ≤ sc_size p) l with
    | Some (j, _) => Ok (Z.of_nat (length pre + j))
    | None => Err Exit
    end.
Proof.
  revert pre. induction l as [|p l IH]; intros pre -> Hlen Hne Hav; [done|].
  cbn [clsid_loop length list_find].
  assert (Hp : (pre ++ p :: l) !! Z.to_nat (Z.of_nat (length pre)) = Some p)
    by (rewrite Nat2Z.id; by apply list_lookup_middle).
  rewrite (arr_get_lookup _ (Z.of_nat (length pre)) p), bind_Ok by (done || lia).
  destruct (Z.ltb_spec (sc_size p) size).
  2:{ rewrite decide_True by done. f_equal. lia. }
  rewrite decide_False by lia. rewrite length_app in Hlen. simpl in Hlen.
  change POWER_LARGEST with 7.
  destruct l as [|q l]; simpl length in *.
  { destruct (Z.eqb_spec (Z.of_nat (length pre)) 7); [done|lia]. }
  destruct (Z.eqb_spec (Z.of_nat (length pre)) 7); [lia|].
  assert (Hq : (pre ++ p :: q :: l) !! Z.to_nat (Z.of_nat (length pre) + 1) = Some q).
  { rewrite lookup_app_r by lia. by replace (_ - _)%nat with 1%nat by lia. }
  rewrite (arr_get_lookup _ _ q), bind_Ok by (done || lia).
  rewrite (Forall_lookup_1 _ _ _ _ Hav Hq). cbn [Z.eqb Pos.eqb negb].
  specialize (IH (pre ++ [p])). rewrite !(length_app pre [p]) in IH. simpl length in IH.
  replace (Z.of_nat (length pre) + 1) with (Z.of_nat (length pre + 1)) by lia.
  rewrite IH; [| by rewrite <-app_assoc | by rewrite length_app | done | done].
  destruct (list_find _ (q :: l)) as [[j r]|]; simpl; [f_equal; lia | done].
Qed.

Lemma slabs_wf_available cfg s :
  slabs_wf cfg s → Forall (λ p, sc_available p = 1) (slabclass s).
Proof.
  intros Hs. apply Forall_lookup_2. intros i p Hi.
  eapply cw_available, (sw_class Hs (Z.of_nat i)); [lia|]. by rewrite Nat2Z.id.
Qed.

Lemma slabs_clsid_find cs size :
  length cs = 8%nat → Forall (λ p, sc_available p = 1) cs →
  slabs_clsid cs size =
    if decide (size = 0) then Ok (-1)
    else match list_find (λ p, size ≤ sc_size p) cs with
         | Some (i, _) => Ok (Z.of_nat i)
         | None => Err Exit
         end.
Proof.
  intros Hlen Hav. unfold slabs_clsid. destruct (Z.eqb_spec size 0) as [->|]; [by rewrite decide_True|].
  rewrite decide_False by done.
  pose proof (clsid_loop_find cs size cs [] eq_refl Hlen) as H. rewrite Hlen in H. apply H; [|done].
  by destruct cs.
Qed.

Lemma slab_loc_to_ptr_eq cfg s id p k x b :
  cfg_ok cfg → slabs_wf cfg s → 0 ≤ id → slabclass s !! Z.to_nat id = Some p →
  0 ≤ k < sc_slabs p → 0 ≤ x < sc_perslab p → slab_at p k b →
  slab_loc_to_ptr cfg (slabclass s) (id * 2 ^ 29 + (sc_perslab p * k + x)) =
    Ok (b, sc_size p * x).
Proof.
  intros Hcfg Hs Hid0 Hid Hk Hx Hb. pose proof (sw_class Hs _ _ Hid0 Hid) as Hwf.
  destruct (class_offset_lt _ _ _ _ _ _ _ Hcfg Hwf Hk Hx) as (? & ? & ?).
  pose proof (lookup_lt_Some _ _ _ Hid) as Hlt. rewrite (sw_num Hs) in Hlt.
  unfold slab_loc_to_ptr. rewrite loc_id_eq, loc_offset_eq by (done || lia).
  rewrite assert_true, bind_Ok by (apply Z.leb_le; change POWER_LARGEST with 7; lia).
  rewrite (arr_get_lookup _ _ _ Hid0 Hid), bind_Ok.
  rewrite assert_true, bind_Ok
    by (apply Z.ltb_lt; rewrite wrap_id; unfold in_range; lia).
  by apply (item_at_eq cfg (mallocs s) (heap s) id).
Qed.

Lemma item_loc_to_ptr cfg s id p k x b it :
  cfg_ok cfg → slabs_wf cfg s → 0 ≤ id → slabclass s !! Z.to_nat id = Some p →
  0 ≤ k < sc_slabs p → 0 ≤ x < sc_perslab p → slab_at p k b →
  heap s !! (b, sc_size p * x) = Some it →
  slab_loc_to_ptr cfg (slabclass s) (it_loc it) = Ok (b, sc_size p * x).
Proof.
  intros Hcfg Hs Hid0 Hid Hk Hx Hb Hit.
  destruct (cw_items (sw_class Hs _ _ Hid0 Hid) k Hk) as (b' & Hb' & _ & Hits).
  unfold slab_at in *. rewrite Hb in Hb'. injection Hb' as <-.
  destruct (Hits x Hx) as (it' & Hit' & Hl & _). rewrite Hit in Hit'. injection Hit' as <-.
  rewrite Hl. by apply slab_loc_to_ptr_eq.
Qed.

(** Handing out a new slab from item number [x] on. *)
Lemma fresh_slab_list garbage cfg s s' id p b x :
  cfg_ok cfg → slabs_wf cfg s → slabs_wf cfg s' → 0 ≤ id → slabclass s !! Z.to_nat id = Some p →
  fresh_slab garbage cfg s s' id p b → 0 ≤ x < sc_perslab p → 0 < id * 2 ^ 29 + sc_perslab p * sc_slabs p + x →
  let l := slab_ptrs p b x in
  chain (heap s') (Some (b, sc_size p * x)) l ∧ NoDup l ∧ Z.of_nat (length l) = sc_perslab p - x ∧
  ∀ q, q ∈ l → heap s !! q = None ∧ ∃ it, heap s' !! q = Some it ∧
    it_flags it = ITEM_FREE ∧ it_slabs_clsid it = id ∧ it_loc it ≠ 0 ∧
    slab_loc_to_ptr cfg (slabclass s') (it_loc it) = Ok q.
Proof.
  intros Hcfg Hs Hs' Hid0 Hid (Hb & Hnew & Hold & (p' & Hp' & Hz1 & Hz2 & Hz3 & Hat) & _) Hx Hpos l.
  pose proof (sw_class Hs _ _ Hid0 Hid) as Hwf. pose proof (cw_size Hwf). pose proof (cw_slabs Hwf).
  pose proof (sw_class Hs' _ _ Hid0 Hp') as Hwf'. unfold sizeof_item in *.
  pose proof (lookup_lt_Some _ _ _ Hid) as Hlt. rewrite (sw_num Hs) in Hlt.
  assert (Hl : l = (λ k, (b, sc_size p * k)) <$> seqZ x (Z.of_nat (Z.to_nat (sc_perslab p - x))))
    by (unfold l, slab_ptrs; by rewrite Z2Nat.id by lia).
  split_and!.
  - rewrite Hl. apply (new_items_chain garbage cfg p id); try done; lia.
  - apply NoDup_fmap_2; [|apply NoDup_seqZ]. intros k k' [=]. nia.
  - unfold l, slab_ptrs. rewrite length_fmap, length_seqZ. lia.
  - intros q (k & -> & Hk%elem_of_seqZ)%list_elem_of_fmap. split.
    + apply eq_None_not_Some. intros Hin. pose proof (sw_heap Hs _ _ Hin). lia.
    + assert (Hk' : 0 ≤ k < sc_perslab p) by lia. pose proof (Hnew k Hk') as Hit.
      eexists. split; [exact Hit|]. split; [done|]. split; [done|].
      destruct (class_offset_lt cfg _ _ _ p' (sc_slabs p) k Hcfg Hwf') as (? & ? & ?); [lia..|].
      rewrite Hz2 in *. split.
      * unfold new_item. simpl. rewrite make_loc_eq by (done || lia). lia.
      * rewrite <-Hz1 in Hit |- *. apply (item_loc_to_ptr cfg s' id p' (sc_slabs p)); try done; lia.
Qed.

(** Writing to items keeps the invariant when it keeps their location, class and
    size. *)
Definition same_item (it it' : item) : Prop :=
  it_loc it' = it_loc it ∧ it_slabs_clsid it' = it_slabs_clsid it ∧
  length (it_data it') = length (it_data it).

Definition same_items (h h' : heap_t) : Prop :=
  ∀ q, match h !! q, h' !! q with
       | Some it, Some it' => same_item it it'
       | None, None => True
       | _, _ => False
       end.

Lemma same_items_insert h q it it' :
  h !! q = Some it → same_item it it' → same_items h (<[q := it']> h).
Proof.
  intros Hq Hsame q'. destruct (decide (q = q')) as [<-|Hne].
  - by rewrite Hq, lookup_insert_eq.
  - rewrite lookup_insert_ne by done. destruct (h !! q'); by split_and?.
Qed.

Lemma same_items_refl h : same_items h h.
Proof. intros q. destruct (h !! q); by split_and?. Qed.

Lemma same_items_trans h1 h2 h3 : same_items h1 h2 → same_items h2 h3 → same_items h1 h3.
Proof.
  intros H1 H2 q. specialize (H1 q). specialize (H2 q).
  destruct (h1 !! q), (h2 !! q), (h3 !! q); try done. destruct H1 as (? & ? & ?), H2 as (? & ? & ?).
  split_and!; congruence.
Qed.

Lemma slabs_wf_items cfg s h' : slabs_wf cfg s → same_items (heap s) h' → slabs_wf cfg (with_heap s h').
Proof.
  intros Hs Hsame. split; try apply Hs.
  - intros id p Hid Hp. pose proof (sw_class Hs id p Hid Hp) as Hwf.
    pose proof (cw_items Hwf) as Hitems. destruct Hwf. split; try done.
    intros k Hk. destruct (Hitems k Hk) as (b & Hb & Hlt & Hit). exists b.
    split; [done|]. split; [done|].
    intros x Hx. destruct (Hit x Hx) as (it & Hin & Hl & Hc & Hd). specialize (Hsame (b, sc_size p * x)).
    rewrite Hin in Hsame. simpl. destruct (h' !! _) as [it'|]; [|done].
    destruct Hsame as (? & ? & ?). exists it'. split_and!; congruence.
  - intros b o [it Hin]. simpl in Hin. apply (sw_heap Hs b o). specialize (Hsame (b, o)).
    rewrite Hin in Hsame. destruct (heap s !! (b, o)); [by eexists|done].
Qed.

Lemma slabs_wf_bitmap cfg s id p bm :
  cfg_ok cfg → slabs_wf cfg s → 0 ≤ id → slabclass s !! Z.to_nat id = Some p →
  bitmap_wf bm → bm_offset_mask bm = all_ones64 → bm_size bm = bm_size (sc_bitmap p) →
  bm_current_size bm = bm_current_size (sc_bitmap p) →
  slabs_wf cfg (with_classes s (<[Z.to_nat id := set_bitmap p bm]> (slabclass s))).
Proof.
  intros Hcfg Hs Hid0 Hid Hbm Hmask Hsz Hcur. pose proof (sw_class Hs _ _ Hid0 Hid) as Hwf.
  eapply (slabs_wf_step (λ _, true) cfg s id p); try done; simpl.
  - apply Hs.
  - intros b o Hin. by apply (sw_heap Hs b o).
  - pose proof (cw_items Hwf) as Hitems. pose proof (cw_elems Hwf). pose proof (cw_count Hwf).
    destruct Hwf. split; try done; simpl; lia.
  - intros k b Hk Hat. left. split; [lia|done].
  - unfold class_bytes. simpl. lia.
Qed.

Lemma slabs_wf_full cfg s : slabs_wf cfg s → slabs_wf cfg (with_full s).
Proof. intros [? ? ? ? ? ? ?]. by split. Qed.

(** *** Properties *)

(** Size classes.  [slabs_clsid] returns the first class whose items are
    large enough, [-1] for size 0, and ends the program for a size larger than
    the largest class. *)
Theorem slabs_clsid_first_fit cfg s size :
  slabs_wf cfg s →
  slabs_clsid (slabclass s) size =
    if decide (size = 0) then Ok (-1)
    else match list_find (λ p, size ≤ sc_size p) (slabclass s) with
         | Some (i, _) => Ok (Z.of_nat i)
         | None => Err Exit
         end.
Proof. intros Hs. apply slabs_clsid_find; [apply Hs | by eapply slabs_wf_available]. Qed.

(** C19: locations.  Every item of every slab carries the location from which
    [slab_loc_to_ptr] computes its address, without failing an assertion, and no
    two items of the allocator have the same location. *)
Theorem slab_loc_roundtrip cfg s id p k x b :
  cfg_ok cfg → slabs_wf cfg s → 0 ≤ id → slabclass s !! Z.to_nat id = Some p →
  0 ≤ k < sc_slabs p → 0 ≤ x < sc_perslab p → slab_at p k b →
  ∃ it, heap s !! (b, sc_size p * x) = Some it ∧
    slab_loc_to_ptr cfg (slabclass s) (it_loc it) = Ok (b, sc_size p * x) ∧
    ∀ id' p' k' x' b' it', 0 ≤ id' → slabclass s !! Z.to_nat id' = Some p' →
      0 ≤ k' < sc_slabs p' → 0 ≤ x' < sc_perslab p' → slab_at p' k' b' →
      heap s !! (b', sc_size p' * x') = Some it' → it_loc it' = it_loc it →
      (b', sc_size p' * x') = (b, sc_size p * x).
Proof.
  intros Hcfg Hs Hid0 Hid Hk Hx Hb.
  destruct (cw_items (sw_class Hs _ _ Hid0 Hid) k Hk) as (b' & Hb' & _ & Hits).
  unfold slab_at in Hb'. rewrite Hb in Hb'. injection Hb' as <-.
  destruct (Hits x Hx) as (it & Hit & _). exists it. split_and!; [done | by eapply item_loc_to_ptr |].
  intros id' p' k' x' b' it' ? ? ? ? ? Hit' Heq. apply (inj Ok).
  rewrite <-(item_loc_to_ptr cfg s id p k x b it), <-Heq by done. symmetry.
  by eapply item_loc_to_ptr.
Qed.

Lemma slabs_alloc_batch_spec malloc_ok garbage cfg s size :
  cfg_ok cfg → slabs_wf cfg s → memory_full s = false → size ≠ 0 →
  match list_find (λ p, size ≤ sc_size p) (slabclass s) with
  | None => slabs_alloc_batch malloc_ok garbage cfg s size = Err Exit
  | Some (id, p) =>
      ∃ s' r, slabs_alloc_batch malloc_ok garbage cfg s size = Ok (s', r) ∧ slabs_wf cfg s' ∧
        (∀ q it, heap s !! q = Some it → heap s' !! q = Some it) ∧
        match r with
        | None => memory_full s' = true ∧ heap s' = heap s
        | Some _ => ∃ l, chain (heap s') r l ∧ NoDup l ∧
            Z.of_nat (length l) =
              sc_perslab p - (if decide (id = 0%nat ∧ sc_slabs p = 0) then 1 else 0) ∧
            (mem_limit s = 0 ∨ mem_malloced s' ≤ mem_limit s ∨ sc_slabs p = 0) ∧
            ∀ q, q ∈ l → heap s !! q = None ∧ ∃ it, heap s' !! q = Some it ∧
              it_flags it = ITEM_FREE ∧ it_slabs_clsid it = Z.of_nat id ∧ it_loc it ≠ 0 ∧
              slab_loc_to_ptr cfg (slabclass s') (it_loc it) = Ok q
        end
  end.
Proof.
  intros Hcfg Hs Hfull Hsize. unfold slabs_alloc_batch. rewrite Hfull.
  rewrite slabs_clsid_find by (apply Hs || by eapply slabs_wf_available).
  rewrite decide_False by done.
  destruct (list_find _ _) as [[id p]|] eqn:Hfind; [|done]. rewrite bind_Ok.
  apply list_find_Some in Hfind as (Hid & Hfit & _).
  pose proof (lookup_lt_Some _ _ _ Hid) as Hlt. rewrite (sw_num Hs) in Hlt.
  destruct (_ || _ || _) eqn:Hchk; [change POWER_LARGEST with 7 in Hchk;
    change POWER_SMALLEST with 0 in Hchk; lia|]. clear Hchk.
  destruct (do_slabs_alloc_batch_spec malloc_ok garbage cfg Hcfg s (Z.of_nat id) p Hs)
    as (s' & r & -> & Hs' & Hr); [lia|by rewrite Nat2Z.id|].
  rewrite bind_Ok. destruct r as [q|].
  2:{ eexists s', None. destruct Hr as (? & Hh & ?). rewrite Hh. by split_and!. }
  destruct Hr as (b & -> & Hfresh & _).
  pose proof (class_perslab _ _ _ _ _ Hcfg (sw_class Hs (Z.of_nat id) p ltac:(lia)
    ltac:(by rewrite Nat2Z.id))) as [Hps _].
  pose proof (cw_slabs (sw_class Hs (Z.of_nat id) p ltac:(lia) ltac:(by rewrite Nat2Z.id))).
  pose proof (λ x, fresh_slab_list garbage cfg s s' (Z.of_nat id) p b x Hcfg Hs Hs') as Hlist.
  destruct (Hfresh) as (Hb & Hnew & Hold & (p' & Hp' & Hz1 & Hz2 & Hz3 & Hat) & Hmm & Hlim).
  rewrite Nat2Z.id in Hlist, Hp'.
  assert (Hkeep : ∀ q it, heap s !! q = Some it → heap s' !! q = Some it).
  { intros [b' o] it Hq. rewrite Hold; [done|]. apply (sw_heap Hs b' o). by exists it. }
  specialize (Hnew 0 ltac:(lia)). rewrite Z.mul_0_r in Hnew. rewrite Hnew.
  assert (Hloc : it_loc (new_item garbage cfg p (Z.of_nat id) b 0) =
    Z.of_nat id * 2 ^ 29 + sc_perslab p * sc_slabs p).
  { pose proof (sw_class Hs' (Z.of_nat id) p' ltac:(lia) ltac:(by rewrite Nat2Z.id)) as Hwf'.
    destruct (class_offset_lt cfg _ _ _ p' (sc_slabs p) 0 Hcfg Hwf') as (? & ? & ?); [lia..|].
    unfold new_item. simpl. rewrite Hz2 in *. rewrite make_loc_eq by (done || lia). lia. }
  rewrite Hloc. eexists s', _. split; [done|]. split; [done|]. split; [done|].
  destruct (Z.eqb_spec (Z.of_nat id * 2 ^ 29 + sc_perslab p * sc_slabs p) 0) as [H0|H0].
  - assert (id = 0%nat ∧ sc_slabs p = 0) as Hzero by nia. rewrite decide_True by done.
    unfold new_item. cbn [it_next fresh_item].
    destruct (Z.eqb_spec 0 (sc_perslab p - 1)); [lia|].
    destruct (Hlist 1) as (Hch & Hnd & Hlen & Hall); [lia|done|done|lia|lia|].
    exists (slab_ptrs p b 1). by split_and!.
  - destruct (decide (id = 0%nat ∧ sc_slabs p = 0)) as [[-> Heq]|_]; [rewrite Heq in H0; lia|].
    destruct (Hlist 0) as (Hch & Hnd & Hlen & Hall); [lia|done|done|lia|nia|].
    rewrite Z.mul_0_r in Hch. exists (slab_ptrs p b 0). by split_and!.
Qed.

(** C31: a batch.  With the memory not full, [slabs_alloc_batch] serves a size that
    fits some class from the first such class and keeps the allocator's
    invariant and every existing item.  It either refuses, sets [memory_full] and
    changes no item, or returns a linked list of new free items of that class: all
    of a new slab, except the item with location 0.  Their locations lead back to
    them, and the memory limit is respected except for the first slab of a class.
    A size that fits no class ends the program. *)
Theorem slabs_alloc_batch_new_slab malloc_ok garbage cfg s size :
  cfg_ok cfg → slabs_wf cfg s → memory_full s = false → size ≠ 0 →
  match list_find (λ p, size ≤ sc_size p) (slabclass s) with
  | None => slabs_alloc_batch malloc_ok garbage cfg s size = Err Exit
  | Some (id, p) =>
      ∃ s' r, slabs_alloc_batch malloc_ok garbage cfg s size = Ok (s', r) ∧ slabs_wf cfg s' ∧
        (∀ q it, heap s !! q = Some it → heap s' !! q = Some it) ∧
        match r with
        | None => memory_full s' = true ∧ heap s' = heap s
        | Some _ => ∃ l, chain (heap s') r l ∧ NoDup l ∧
            Z.of_nat (length l) =
              sc_perslab p - (if decide (id = 0%nat ∧ sc_slabs p = 0) then 1 else 0) ∧
            (mem_limit s = 0 ∨ mem_malloced s' ≤ mem_limit s ∨ sc_slabs p = 0) ∧
            ∀ q, q ∈ l → heap s !! q = None ∧ ∃ it, heap s' !! q = Some it ∧
              it_flags it = ITEM_FREE ∧ it_slabs_clsid it = Z.of_nat id ∧ it_loc it ≠ 0 ∧
              slab_loc_to_ptr cfg (slabclass s') (it_loc it) = Ok q
        end
  end.
Proof. apply slabs_alloc_batch_spec. Qed.

(** *** Initialisation *)

Fixpoint class_sizes (n : nat) (factor : double) (size : Z) : result (list Z) :=
  match n with
  | O => Ok []
  | S n => next ← scale factor (align size); l ← class_sizes n factor next; Ok (align size :: l)
  end.

Lemma init_classes_sizes malloc_ok cfg n s factor size l bm :
  class_sizes n factor size = Ok l →
  (∀ k, mallocs s ≤ k < mallocs s + Z.of_nat n → malloc_ok k = true) →
  bitmap_init true (slabclass_max_elem_num cfg) = Ok bm →
  init_classes malloc_ok cfg n s factor size =
    Ok (with_mallocs s (mallocs s + Z.of_nat n), (λ z, init_class cfg z bm) <$> l).
Proof.
  intros Hl Hok Hbm. revert s size l Hl Hok. induction n as [|n IH]; intros s size l Hl Hok.
  - injection Hl as <-. simpl. unfold with_mallocs. rewrite Z.add_0_r. by destruct s.
  - cbn [class_sizes] in Hl. inv_ok. cbn [init_classes]. unfold malloc.
    rewrite Hok by lia. rewrite Hb, bool_decide_eq_false_2 by done. simpl negb.
    rewrite Hbm, !bind_Ok. rewrite (IH (with_mallocs s (mallocs s + 1)) _ a0 Hb0).
    + rewrite bind_Ok. unfold with_mallocs. cbn [mallocs slabclass mem_limit mem_malloced mem_base
        mem_current mem_avail memory_full heap].
      by replace (mallocs s + 1 + Z.of_nat n) with (mallocs s + Z.of_nat (S n)) by lia.
    + simpl. intros k Hk. apply Hok. lia.
Qed.

Lemma init_class_wf cfg z bm h m id :
  cfg_ok cfg → sizeof_item ≤ z → z mod 8 = 0 → z * 2 ^ cfg_perslab_bits cfg < 2 ^ 32 →
  bitmap_wf bm → bm_offset_mask bm = all_ones64 →
  bm_size bm = slabclass_max_elem_num cfg / 64 → bm_current_size bm = 0 →
  class_wf cfg m h id (init_class cfg z bm).
Proof.
  intros Hcfg Hz Hmod Hlen Hbm Hmask Hsz Hcur.
  pose proof (ok_perslab _ Hcfg). pose proof (ok_elems _ Hcfg).
  assert (Hp : u32 (Z.shiftl 1 (cfg_perslab_bits cfg)) = 2 ^ cfg_perslab_bits cfg).
  { rewrite shiftl1_pow2 by lia. apply wrap_id. unfold in_range. split; [lia|].
    apply Z.pow_lt_mono_r; lia. }
  split; simpl; rewrite ?Hp; try done; try lia.
  rewrite Hsz. pose proof (Z.mul_div_le (slabclass_max_elem_num cfg) 64). lia.
Qed.

Lemma slabs_init_spec malloc_ok cfg limit :
  cfg_ok cfg → cfg_perslab_bits cfg ≤ 19 → (∀ k, 0 ≤ k < 8 → malloc_ok k = true) →
  ∃ s, slabs_init malloc_ok cfg slabs0 limit (double_of_Z 2) false = Ok s ∧
    slabs_wf cfg s ∧ mem_limit s = limit ∧ memory_full s = false ∧ heap s = ∅ ∧
    slabs_assign_size (slabclass s) = [40; 80; 160; 320; 640; 1280; 2560; 5120].
Proof.
  intros Hcfg Hbits Hok. pose proof (ok_elems _ Hcfg).
  destruct (bitmap_init_eq true (slabclass_max_elem_num cfg)) as
    (bm & Hbm & Hwf & Hmask & Hsz & Hcur & _); [lia | apply Hcfg |].
  assert (Hsizes : class_sizes 8 (double_of_Z 2) 40 = Ok [40; 80; 160; 320; 640; 1280; 2560; 5120])
    by (vm_compute; reflexivity).
  unfold slabs_init. cbn [slabs0 slabclass mem_malloced mem_base mem_current mem_avail memory_full
    heap mallocs]. rewrite bind_Ok. change (sizeof_item + 16) with 40.
  change (Z.to_nat MAX_NUMBER_OF_SLAB_CLASSES) with 8%nat.
  rewrite (init_classes_sizes _ _ _ _ _ _ _ bm Hsizes) by done.
  rewrite bind_Ok. eexists. split; [reflexivity|]. split; [|split_and!; reflexivity].
  assert (Hcls : ∀ id p, 0 ≤ id →
    ((λ z, init_class cfg z bm) <$> [40; 80; 160; 320; 640; 1280; 2560; 5120]) !! Z.to_nat id = Some p →
    sc_slabs p = 0 ∧ class_wf cfg 8 ∅ id p).
  { intros id p Hid Hp. rewrite list_lookup_fmap, fmap_Some in Hp. destruct Hp as (z & Hz & ->).
    split; [done|]. assert (sizeof_item ≤ z ≤ 5120 ∧ z mod 8 = 0) as [Hz1 Hz2].
    { revert Hz. apply (Forall_lookup_1 (λ z, sizeof_item ≤ z ≤ 5120 ∧ z mod 8 = 0)).
      repeat constructor; done. }
    apply init_class_wf; try done; try lia. pose proof (ok_perslab _ Hcfg).
    assert (2 ^ cfg_perslab_bits cfg ≤ 2 ^ 19) by (apply Z.pow_le_mono_r; lia).
    unfold sizeof_item in *. nia. }
  split.
  - reflexivity.
  - reflexivity.
  - simpl. lia.
  - intros id p Hid Hp. by apply Hcls.
  - intros id id' p p' k k' b Hid Hid' Hp _ Hk. apply Hcls in Hp as [H0 _]; [|done]. lia.
  - intros b o [? Hin]. simpl in Hin. by rewrite lookup_empty in Hin.
  - cbn [mem_malloced slabclass with_classes with_mallocs fmap list_fmap zsum foldr].
    unfold class_bytes, init_class. cbn [sc_slabs]. lia.
Qed.

(** Start-up.  Without preallocation and with the growth factor 2 of the
    configuration, [slabs_init] makes the eight classes of 40, 80, ..., 5120 bytes
    when the bitmaps can be allocated, all of them empty, and establishes the
    allocator's invariant. *)
Theorem slabs_init_classes malloc_ok cfg limit :
  cfg_ok cfg → cfg_perslab_bits cfg ≤ 19 → (∀ k, 0 ≤ k < 8 → malloc_ok k = true) →
  ∃ s, slabs_init malloc_ok cfg slabs0 limit (double_of_Z 2) false = Ok s ∧
    slabs_wf cfg s ∧ mem_limit s = limit ∧ memory_full s = false ∧ heap s = ∅ ∧
    slabs_assign_size (slabclass s) = [40; 80; 160; 320; 640; 1280; 2560; 5120].
Proof. apply slabs_init_spec. Qed.

(** ** The properties at a small allocator

    Slabs of 64 items, at most 256 items per class, one mebibyte. *)
Definition ex_cfg : mega_config_t := with_slab_sizes mega_init_config 6 256.
Definition ok_state (r : result slabs_t) : slabs_t :=
  match r with Ok s => s | Err _ => slabs0 end.
Definition ex_slabs : slabs_t :=
  ok_state (slabs_init (λ _, true) ex_cfg slabs0 (2 ^ 20) (double_of_Z 2) false).
Definition ex_slabs1 : slabs_t :=
  ok_state ('(s, _) ← slabs_alloc_batch (λ _, true) (λ _, 0) ex_cfg ex_slabs 40; Ok s).

Lemma ex_cfg_ok : cfg_ok ex_cfg.
Proof. by split. Qed.

Lemma ex_slabs_wf : slabs_wf ex_cfg ex_slabs.
Proof.
  destruct (slabs_init_spec (λ _, true) ex_cfg (2 ^ 20) ex_cfg_ok) as (s & Hs & Hwf & _); [done..|].
  unfold ex_slabs. by rewrite Hs.
Qed.

Definition ex_class : slabclass_t :=
  default (init_class ex_cfg 0 (Bitmap [] 0 0 0 0)) (head (slabclass ex_slabs)).
#[local] Opaque ex_slabs ex_slabs1.

Lemma ex_slabs_find :
  list_find (λ p, 40 ≤ sc_size p) (slabclass ex_slabs) = Some (0%nat, ex_class).
Proof. vm_compute. reflexivity. Qed.

Lemma ex_slabs_full : memory_full ex_slabs = false.
Proof. vm_compute. reflexivity. Qed.

Lemma ex_alloc_eq :
  slabs_alloc_batch (λ _, true) (λ _, 0) ex_cfg ex_slabs 40 = Ok (ex_slabs1, Some (9, 40)).
Proof. vm_compute. reflexivity. Qed.

Lemma ex_slabs1_wf : slabs_wf ex_cfg ex_slabs1.
Proof.
  pose proof (slabs_alloc_batch_spec (λ _, true) (λ _, 0) ex_cfg ex_slabs 40 ex_cfg_ok
    ex_slabs_wf ex_slabs_full ltac:(done)) as H.
  rewrite ex_slabs_find, ex_alloc_eq in H. destruct H as (s' & r & Heq & Hwf & _).
  apply (inj Ok) in Heq. apply pair_equal_spec in Heq as [<- _]. exact Hwf.
Qed.

Lemma slabs_init_classes_witness :
  ∃ s, slabs_init (λ _, true) mega_init_config slabs0 MEM_LIMIT (double_of_Z 2) false = Ok s ∧
    slabs_assign_size (slabclass s) = [40; 80; 160; 320; 640; 1280; 2560; 5120].
Proof.
  destruct (slabs_init_classes (λ _, true) mega_init_config MEM_LIMIT) as (s & H & _ & _ & _ & _ & Hz);
    [split; done || by vm_compute | by vm_compute | done |].
  by exists s.
Defined.

Lemma slabs_clsid_first_fit_witness :
  slabs_clsid (slabclass ex_slabs) 100 = Ok 2 ∧ slabs_clsid (slabclass ex_slabs) 5121 = Err Exit.
Proof. split; rewrite (slabs_clsid_first_fit ex_cfg) by apply ex_slabs_wf; vm_compute; reflexivity. Defined.

Lemma slabs_alloc_batch_new_slab_witness :
  ∃ s' r l, slabs_alloc_batch (λ _, true) (λ _, 0) ex_cfg ex_slabs 40 = Ok (s', r) ∧
    slabs_wf ex_cfg s' ∧ chain (heap s') r l ∧ length l = 63%nat.
Proof.
  pose proof (slabs_alloc_batch_new_slab (λ _, true) (λ _, 0) ex_cfg ex_slabs 40 ex_cfg_ok
    ex_slabs_wf ex_slabs_full ltac:(done)) as H.
  rewrite ex_slabs_find, ex_alloc_eq in H.
  destruct H as (s' & r & Heq & Hwf & _ & H). apply (inj Ok) in Heq. apply pair_equal_spec in Heq as [<- <-].
  destruct H as (l & Hch & _ & Hlen & _).
  exists ex_slabs1, (Some (9, 40)), l. split; [exact ex_alloc_eq|]. split; [exact Hwf|].
  split; [exact Hch|].
  assert (sc_perslab ex_class = 64 ∧ sc_slabs ex_class = 0) as [Hp Hz] by (by vm_compute).
  rewrite Hp, Hz in Hlen. rewrite decide_True in Hlen by done. lia.
Defined.

Lemma slab_loc_roundtrip_witness :
  ∃ it, heap ex_slabs1 !! (9, 40 * 63) = Some it ∧
    slab_loc_to_ptr ex_cfg (slabclass ex_slabs1) (it_loc it) = Ok (9, 40 * 63).
Proof.
  assert (∃ p, slabclass ex_slabs1 !! Z.to_nat 0 = Some p ∧ sc_slabs p = 1 ∧ sc_perslab p = 64 ∧
    sc_size p = 40 ∧ slab_at p 0 9) as (p & Hp & Hn & Hps & Hsz & Hat).
  { eexists. split; [vm_compute; reflexivity | split_and!; vm_compute; reflexivity]. }
  destruct (slab_loc_roundtrip ex_cfg ex_slabs1 0 p 0 63 9 ex_cfg_ok ex_slabs1_wf) as
    (it & Hit & Hloc & _); [lia | done | lia | lia | done |].
  rewrite Hsz in Hit, Hloc. exists it. split; [exact Hit | exact Hloc].
Defined.
