(* ===== verification/Batch.v ===== *)
(** * Batches (src/src/include/mega_batch.h, mega_job.h)

    Each CPU worker owns a [mega_batch_t] with three buffers of jobs.  At any
    time one buffer collects jobs from the Receiver, one is processed by the
    Scheduler on the GPU, one is turned into replies by the Sender; the numbers
    of the buffers rotate through the fields [receiver_buf_id], [gpu_buf_id],
    [sender_buf_id] and [available_buf_id].  This file has the data, its
    initialisation and the functions that hand buffers on; [Rotation] proves the
    protocol. *)

From S2P Require Import Prelude GpuHash Config Slabs.

(** ** mega_job.h, mega_common.h *)

Definition MEGA_JOB_GET : Z := 0x2.
Definition MEGA_JOB_SET : Z := 0x3.
Definition MEGA_MAGIC_NUM_LEN : Z := 2.
Definition MEGA_JOB_TYPE_LEN : Z := 2.
Definition MEGA_KEY_SIZE_LEN : Z := 2.
Definition MEGA_VALUE_SIZE_LEN : Z := 4.

Record mega_job_search_t := JobSearch {
  js_eth_addr : Z;
  js_ip : Z;
  js_port : Z;
  js_num : Z;     (** consecutive searches of this client; 16 bits *)
  js_index : Z;   (** the number of the first of them in the batch *)
}.

(** ** mega_batch.h *)

(** One insert buffer: where its part of [insert_in] starts, and its length. *)
Record mega_batch_insert_t := BatchInsert { bi_insert_in : Z; bi_num_insert_job : Z }.

Record mega_batch_buf_t := BatchBuf {
  search_in : list selem_t;
  search_out : list Z;
  delete_in : list ielem_t;
  insert_in : list ielem_t;
  search_job_list : list mega_job_search_t;
  insert_job_list : list (option ptr);
  num_search_job : Z;
  num_insert_job : Z;
  num_delete_job : Z;
  num_compact_search_job : Z;
  insert_buf : list mega_batch_insert_t;
}.

Record mega_batch_t := Batch {
  buf : list mega_batch_buf_t;
  receiver_buf_id : Z;
  sender_buf_id : Z;
  available_buf_id : Z * Z;
  gpu_buf_id : Z;
  delay : Z;
  local_slab : list (option ptr);
  local_slab_size : list Z;
}.

Definition set_buf (b : mega_batch_t) (l : list mega_batch_buf_t) : mega_batch_t :=
  Batch l (receiver_buf_id b) (sender_buf_id b) (available_buf_id b) (gpu_buf_id b) (delay b)
    (local_slab b) (local_slab_size b).
Definition set_receiver (b : mega_batch_t) (id : Z) : mega_batch_t :=
  Batch (buf b) id (sender_buf_id b) (available_buf_id b) (gpu_buf_id b) (delay b)
    (local_slab b) (local_slab_size b).
Definition set_sender (b : mega_batch_t) (id : Z) : mega_batch_t :=
  Batch (buf b) (receiver_buf_id b) id (available_buf_id b) (gpu_buf_id b) (delay b)
    (local_slab b) (local_slab_size b).
Definition set_available (b : mega_batch_t) (ids : Z * Z) : mega_batch_t :=
  Batch (buf b) (receiver_buf_id b) (sender_buf_id b) ids (gpu_buf_id b) (delay b)
    (local_slab b) (local_slab_size b).
Definition set_gpu (b : mega_batch_t) (id : Z) : mega_batch_t :=
  Batch (buf b) (receiver_buf_id b) (sender_buf_id b) (available_buf_id b) id (delay b)
    (local_slab b) (local_slab_size b).
Definition set_delay (b : mega_batch_t) (d : Z) : mega_batch_t :=
  Batch (buf b) (receiver_buf_id b) (sender_buf_id b) (available_buf_id b) (gpu_buf_id b) d
    (local_slab b) (local_slab_size b).
Definition set_local_slab (b : mega_batch_t) (l : list (option ptr)) : mega_batch_t :=
  Batch (buf b) (receiver_buf_id b) (sender_buf_id b) (available_buf_id b) (gpu_buf_id b) (delay b)
    l (local_slab_size b).

(** ** Initialisation (mega_recv.c)

    The memory of the arrays comes from [cudaHostAlloc] and [malloc]; what they
    hold at first is the parameter [uninit]. *)
Record uninit_t := Uninit {
  u_out : Z → Z;
  u_elem : Z → ielem_t;
  u_search : Z → mega_job_search_t;
}.

Section init.
Context (uninit : uninit_t) (cfg : mega_config_t).

Definition init_buf : mega_batch_buf_t := {|
  search_in := replicate (Z.to_nat (batch_max_search_job cfg)) (Selem 0 0);
  search_out := u_out uninit <$> seqZ 0 (batch_max_search_job cfg * 2);
  delete_in := u_elem uninit <$> seqZ 0 (batch_max_delete_job cfg);
  insert_in := u_elem uninit <$> seqZ 0 (batch_max_insert_job cfg * num_insert_buf cfg);
  search_job_list := u_search uninit <$> seqZ 0 (batch_max_search_job cfg);
  insert_job_list :=
    replicate (Z.to_nat (batch_max_insert_job cfg * num_insert_buf cfg)) None;
  num_search_job := 0;
  num_insert_job := 0;
  num_delete_job := 0;
  num_compact_search_job := 0;
  insert_buf :=
    (λ j, BatchInsert (batch_max_insert_job cfg * j) 0) <$> seqZ 0 (num_insert_buf cfg);
|}.

(** [mega_receiver_batch_init] *)
Definition mega_receiver_batch_init (cs : list slabclass_t) : mega_batch_t := {|
  buf := replicate 3 init_buf;
  sender_buf_id := -1;
  gpu_buf_id := -1;
  delay := -1;
  receiver_buf_id := 0;
  available_buf_id := (1, 2);
  local_slab := replicate (Z.to_nat MAX_NUMBER_OF_SLAB_CLASSES) None;
  local_slab_size := slabs_assign_size cs;
|}.
End init.

(** ** Handing buffers on (mega_send.c, mega_scheduler.c) *)

Definition clear_insert (b : mega_batch_insert_t) : mega_batch_insert_t :=
  BatchInsert (bi_insert_in b) 0.

(** [mega_sender_refresh_buffer] *)
Definition mega_sender_refresh_buffer (b : mega_batch_buf_t) (delay : Z) : mega_batch_buf_t :=
  let now := delay =? 0 in
  {| search_in := search_in b;
     search_out := search_out b;
     delete_in := delete_in b;
     insert_in := insert_in b;
     search_job_list := search_job_list b;
     insert_job_list := insert_job_list b;
     num_search_job := 0;
     num_insert_job := if now then 0 else num_insert_job b;
     num_delete_job := if now then 0 else num_delete_job b;
     num_compact_search_job := 0;
     insert_buf := if now then clear_insert <$> insert_buf b else insert_buf b |}.

(** [mega_sender_give_available_buffer], up to the release of
    [mutex_available_buf_id]; the assignment [sender_buf_id = -1] that follows is
    a step of its own. *)
Definition give_available (b : mega_batch_t) : result mega_batch_t :=
  let id := sender_buf_id b in
  bf ← arr_get (buf b) id;
  bufs ← arr_set (buf b) id (mega_sender_refresh_buffer bf (delay b));
  let b := set_buf b bufs in
  let '(a0, a1) := available_buf_id b in
  if a0 =? -1 then Ok (set_available b (id, a1))
  else if a1 =? -1 then Ok (set_available b (a0, id))
  else Err AssertFail.

(** [mega_gpu_get_available_buf_id] with [USE_LOCK]: the critical section. *)
Definition mega_gpu_get_available_buf_id (b : mega_batch_t) : mega_batch_t * Z :=
  let '(a0, a1) := available_buf_id b in (set_available b (a1, -1), a0).
