(* ===== verification/Rotation.v ===== *)
(** * The rotation of the buffers (src/src/mega_scheduler.c, mega_send.c)

    One Scheduler thread and one Sender thread per worker move the three
    buffers of every batch round, while the Receivers only read
    [receiver_buf_id].  The threads run concurrently: a step is one access to the
    shared fields, or one critical section of [mutex_available_buf_id], and any
    interleaving of steps may happen.  A step that waits leaves the state as it
    is. *)

From S2P Require Import Prelude GpuHash Config Slabs Batch.

(** Where the Scheduler is: in [mega_gpu_get_batch] for worker [i], holding the
    batches, or in [mega_gpu_give_to_sender] for worker [i]. *)
Inductive sched_pc :=
  | SGet (i : Z)             (** about to take an available buffer *)
  | STaken (i id : Z)        (** has taken buffer [id] *)
  | SSwitch (i id : Z)       (** has written [gpu_buf_id] *)
  | SRun                     (** all batches taken *)
  | SWait (i : Z)            (** [while (batch->sender_buf_id != -1)] *)
  | SGive (i : Z)            (** has seen -1 *)
  | SGiven (i : Z).          (** has written [sender_buf_id] *)

(** Where a Sender is. *)
Inductive sender_pc :=
  | TWait      (** in [mega_sender_get_buffer] *)
  | TWork      (** has seen a buffer *)
  | TGiven.    (** has made it available again *)

#[export] Instance sched_pc_eq_dec : EqDecision sched_pc.
Proof. solve_decision. Defined.
#[export] Instance sender_pc_eq_dec : EqDecision sender_pc.
Proof. solve_decision. Defined.

Record system := System {
  batch_set : list mega_batch_t;
  senders : list sender_pc;
  sched : sched_pc;
}.

Definition set_batch (s : system) (i : Z) (b : mega_batch_t) (pc : sched_pc) : result system :=
  l ← arr_set (batch_set s) i b; Ok (System l (senders s) pc).

(** [delay_of] is the value [mega_gpu_give_to_sender] writes to [delay], from
    [sched_ins_del == NUM_SCHED_INS_DEL]. *)
Definition delay_of (sched_ins_del NUM_SCHED_INS_DEL : Z) : Z :=
  if sched_ins_del =? NUM_SCHED_INS_DEL then 0 else 1.

Definition sched_step (d : Z) (s : system) : result system :=
  let n := Z.of_nat (length (batch_set s)) in
  match sched s with
  | SGet i =>
      if i <? n then
        b ← arr_get (batch_set s) i;
        _ ← assert_ (gpu_buf_id b =? -1);
        let '(b, id) := mega_gpu_get_available_buf_id b in
        set_batch s i b (STaken i id)
      else Ok (System (batch_set s) (senders s) SRun)
  | STaken i id =>
      b ← arr_get (batch_set s) i;
      set_batch s i (set_gpu b (receiver_buf_id b)) (SSwitch i id)
  | SSwitch i id =>
      b ← arr_get (batch_set s) i;
      set_batch s i (set_receiver b id) (SGet (i + 1))
  | SRun => Ok (System (batch_set s) (senders s) (SWait 0))
  | SWait i =>
      if i <? n then
        b ← arr_get (batch_set s) i;
        if negb (sender_buf_id b =? -1) then Ok s
        else set_batch s i (set_delay b d) (SGive i)
      else Ok (System (batch_set s) (senders s) (SGet 0))
  | SGive i =>
      b ← arr_get (batch_set s) i;
      set_batch s i (set_sender b (gpu_buf_id b)) (SGiven i)
  | SGiven i =>
      b ← arr_get (batch_set s) i;
      set_batch s i (set_gpu b (-1)) (SWait (i + 1))
  end.

(** [mega_gpu_get_batch] returns the [gpu_buf_id] of the last worker, and the
    Scheduler takes buffer [g.bufs[gpu_buf_id][id]] for every worker [id]. *)
Definition mega_gpu_get_batch_result (s : system) : result Z :=
  b ← arr_get (batch_set s) (Z.of_nat (length (batch_set s)) - 1); Ok (gpu_buf_id b).
Definition scheduled_buf (s : system) (id : Z) : result mega_batch_buf_t :=
  g ← mega_gpu_get_batch_result s;
  b ← arr_get (batch_set s) id;
  arr_get (buf b) g.

(** A Sender; sending the replies does not touch the fields. *)
Definition sender_worker (b : mega_batch_t) (t : sender_pc) : result (mega_batch_t * sender_pc) :=
  match t with
  | TWait => Ok (b, if negb (sender_buf_id b =? -1) then TWork else TWait)
  | TWork => b ← give_available b; Ok (b, TGiven)
  | TGiven => Ok (set_sender b (-1), TWait)
  end.

Definition sender_step (i : Z) (s : system) : result system :=
  b ← arr_get (batch_set s) i;
  t ← arr_get (senders s) i;
  '(b, t) ← sender_worker b t;
  l ← arr_set (batch_set s) i b;
  ts ← arr_set (senders s) i t;
  Ok (System l ts (sched s)).

(** [batch->sender_buf_id = -1] in [mega_sender_init]. *)
Definition sender_init_step (i : Z) (s : system) : result system :=
  b ← arr_get (batch_set s) i;
  l ← arr_set (batch_set s) i (set_sender b (-1));
  Ok (System l (senders s) (sched s)).

(** All batches initialised by their Receivers, all Senders waiting. *)
Definition system0 (bs : list mega_batch_t) : system :=
  System bs (replicate (length bs) TWait) (SGet 0).

Definition batch_ready (b : mega_batch_t) : Prop :=
  length (buf b) = 3%nat ∧ receiver_buf_id b = 0 ∧ sender_buf_id b = -1 ∧
  available_buf_id b = (1, 2) ∧ gpu_buf_id b = -1.

Inductive step (s s' : system) : Prop :=
  | step_sched d : sched_step d s = Ok s' → step s s'
  | step_sender i : 0 ≤ i < Z.of_nat (length (batch_set s)) → sender_step i s = Ok s' → step s s'.

Inductive reachable (bs : list mega_batch_t) : system → Prop :=
  | reach_init : reachable bs (system0 bs)
  | reach_step s s' : reachable bs s → step s s' → reachable bs s'.

(** ** The invariant

    [r] counts the rounds; the buffers come round in the order 0, 1, 2. *)
Definition cur (r : Z) : Z := r mod 3.

(** What the two slots of [available_buf_id] hold for a queue. *)
Definition slots (q : list Z) : Z * Z :=
  match q with [] => (-1, -1) | [a] => (a, -1) | a :: b :: _ => (a, b) end.

(** Buffer [d] is on the Sender's side, behind the queue [q] of available ones:
    still with the Sender, or back in the queue. *)
Inductive sender_side (q : list Z) (d : Z) (b : mega_batch_t) : sender_pc → Prop :=
  | side_wait : sender_buf_id b = d → available_buf_id b = slots q → sender_side q d b TWait
  | side_work : sender_buf_id b = d → available_buf_id b = slots q → sender_side q d b TWork
  | side_given : sender_buf_id b = d → available_buf_id b = slots (q ++ [d]) → sender_side q d b TGiven
  | side_back : sender_buf_id b = -1 → available_buf_id b = slots (q ++ [d]) → sender_side q d b TWait.

(** What the Scheduler has done with a worker in this round. *)
Inductive phase := Before | Taken (id : Z) | Switch (id : Z) | Held | Ready | Given | After.

Definition phase_of (pc : sched_pc) (j : Z) : phase :=
  match pc with
  | SGet i => if j <? i then Held else Before
  | STaken i id => if j <? i then Held else if j =? i then Taken id else Before
  | SSwitch i id => if j <? i then Held else if j =? i then Switch id else Before
  | SRun => Held
  | SWait i => if j <? i then After else Held
  | SGive i => if j <? i then After else if j =? i then Ready else Held
  | SGiven i => if j <? i then After else if j =? i then Given else Held
  end.

Inductive worker_inv (r : Z) (b : mega_batch_t) (t : sender_pc) : phase → Prop :=
  | inv_before : receiver_buf_id b = cur r → gpu_buf_id b = -1 →
      sender_side [cur (r + 1)] (cur (r + 2)) b t → worker_inv r b t Before
  | inv_taken : receiver_buf_id b = cur r → gpu_buf_id b = -1 →
      sender_side [] (cur (r + 2)) b t → worker_inv r b t (Taken (cur (r + 1)))
  | inv_switch : receiver_buf_id b = cur r → gpu_buf_id b = cur r →
      sender_side [] (cur (r + 2)) b t → worker_inv r b t (Switch (cur (r + 1)))
  | inv_held : receiver_buf_id b = cur (r + 1) → gpu_buf_id b = cur r →
      sender_side [] (cur (r + 2)) b t → worker_inv r b t Held
  | inv_ready : receiver_buf_id b = cur (r + 1) → gpu_buf_id b = cur r →
      sender_buf_id b = -1 → available_buf_id b = (cur (r + 2), -1) → t = TWait →
      worker_inv r b t Ready
  | inv_given : receiver_buf_id b = cur (r + 1) → gpu_buf_id b = cur r →
      sender_side [cur (r + 2)] (cur r) b t → worker_inv r b t Given
  | inv_after : receiver_buf_id b = cur (r + 1) → gpu_buf_id b = -1 →
      sender_side [cur (r + 2)] (cur r) b t → worker_inv r b t After.

Definition pc_index (pc : sched_pc) : Z :=
  match pc with
  | SGet i | STaken i _ | SSwitch i _ | SWait i | SGive i | SGiven i => i
  | SRun => 0
  end.
Definition pc_inside (pc : sched_pc) : bool :=
  match pc with SGet _ | SRun | SWait _ => false | _ => true end.

Record system_inv (n r : Z) (s : system) : Prop := {
  si_batches : Z.of_nat (length (batch_set s)) = n;
  si_senders : length (senders s) = length (batch_set s);
  si_index : 0 ≤ pc_index (sched s) ≤ n;
  si_inside : pc_inside (sched s) = true → pc_index (sched s) < n;
  si_worker : ∀ j b t, 0 ≤ j → batch_set s !! Z.to_nat j = Some b →
    senders s !! Z.to_nat j = Some t →
    length (buf b) = 3%nat ∧ worker_inv r b t (phase_of (sched s) j);
}.

Lemma cur_range r : 0 ≤ cur r < 3.
Proof. apply Z.mod_pos_bound. lia. Qed.

Lemma cur_3 r : cur (r + 3) = cur r.
Proof. unfold cur. replace (r + 3) with (r + 1 * 3) by lia. by rewrite Z.mod_add. Qed.

Lemma cur_distinct r :
  cur r ≠ cur (r + 1) ∧ cur r ≠ cur (r + 2) ∧ cur (r + 1) ≠ cur (r + 2).
Proof.
  unfold cur. pose proof (Z.div_mod r 3). pose proof (Z.div_mod (r + 1) 3).
  pose proof (Z.div_mod (r + 2) 3). pose proof (cur_range r). pose proof (cur_range (r + 1)).
  pose proof (cur_range (r + 2)). unfold cur in *. lia.
Qed.

(** ** Preservation: lemmas *)

Lemma sender_side_worker q d b t :
  sender_side q d b t → 0 ≤ d < 3 → length (buf b) = 3%nat →
  (q = [] ∨ ∃ a, q = [a] ∧ 0 ≤ a) →
  ∃ b' t', sender_worker b t = Ok (b', t') ∧ sender_side q d b' t' ∧
    length (buf b') = 3%nat ∧ receiver_buf_id b' = receiver_buf_id b ∧ gpu_buf_id b' = gpu_buf_id b.
Proof.
  intros Hside Hd Hlen Hq. destruct Hside as [Hs Ha|Hs Ha|Hs Ha|Hs Ha]; simpl.
  - rewrite Hs, (proj2 (Z.eqb_neq d (-1))) by lia. eexists b, TWork. by split_and!; [|constructor|..].
  - unfold give_available. rewrite Hs.
    destruct (arr_get_in_bounds (buf b) d) as (bf & -> & _); [lia|].
    rewrite bind_Ok, arr_set_in_bounds, bind_Ok by lia. simpl. rewrite Ha.
    destruct Hq as [->|(a & -> & Hpos)]; simpl.
    + eexists _, TGiven. split; [done|]. split; [by constructor|]. simpl.
      by rewrite length_insert.
    + rewrite (proj2 (Z.eqb_neq a (-1))) by lia. simpl.
      eexists _, TGiven. split; [done|]. split; [by constructor|]. simpl.
      by rewrite length_insert.
  - eexists _, TWait. split; [done|]. split; [by apply side_back|]. done.
  - rewrite Hs. eexists b, TWait. split; [done|]. split; [by apply side_back|]. done.
Qed.

(** The queue and the buffer on the Sender's side, by phase. *)
Lemma worker_inv_sender r b t ph b' t' :
  worker_inv r b t ph → sender_worker b t = Ok (b', t') → length (buf b) = 3%nat →
  worker_inv r b' t' ph ∧ length (buf b') = 3%nat.
Proof.
  intros Hinv Hstep Hlen.
  assert (Hgo : ∀ q d, sender_side q d b t → 0 ≤ d < 3 → (q = [] ∨ ∃ a, q = [a] ∧ 0 ≤ a) →
    sender_side q d b' t' ∧ length (buf b') = 3%nat ∧ receiver_buf_id b' = receiver_buf_id b ∧
    gpu_buf_id b' = gpu_buf_id b).
  { intros q d Hside Hd Hq.
    destruct (sender_side_worker q d b t Hside Hd Hlen Hq) as (b1 & t1 & Heq & H).
    rewrite Heq in Hstep. by injection Hstep as <- <-. }
  pose proof (cur_range r). pose proof (cur_range (r + 1)). pose proof (cur_range (r + 2)).
  destruct Hinv as [Hr Hg Hside|Hr Hg Hside|Hr Hg Hside|Hr Hg Hside|Hr Hg Hs Ha ->|Hr Hg Hside|Hr Hg Hside].
  5:{ simpl in Hstep. rewrite Hs in Hstep. injection Hstep as <- <-. split; [by constructor|done]. }
  all: edestruct Hgo as (? & ? & Hr' & Hg'); [exact Hside | done | by (left; done) || by (right; eauto with lia) |];
    (split; [constructor; by rewrite ?Hr', ?Hg' | done]).
Qed.

Lemma worker_inv_total r b t ph :
  worker_inv r b t ph → length (buf b) = 3%nat → ∃ b' t', sender_worker b t = Ok (b', t').
Proof.
  intros Hinv Hlen.
  assert (Hgo : ∀ q d, sender_side q d b t → 0 ≤ d < 3 → (q = [] ∨ ∃ a, q = [a] ∧ 0 ≤ a) →
    ∃ b' t', sender_worker b t = Ok (b', t')).
  { intros q d Hside Hd Hq. destruct (sender_side_worker q d b t) as (b' & t' & H & _); eauto. }
  pose proof (cur_range r). pose proof (cur_range (r + 1)). pose proof (cur_range (r + 2)).
  destruct Hinv as [Hr Hg Hside|Hr Hg Hside|Hr Hg Hside|Hr Hg Hside|Hr Hg Hs Ha ->|Hr Hg Hside|Hr Hg Hside].
  5:{ simpl. eauto. }
  all: eapply Hgo; [exact Hside | done | by (left; done) || by (right; eauto with lia)].
Qed.

Lemma worker_at n r s i :
  system_inv n r s → 0 ≤ i < n →
  ∃ b t, arr_get (batch_set s) i = Ok b ∧ batch_set s !! Z.to_nat i = Some b ∧
    arr_get (senders s) i = Ok t ∧ senders s !! Z.to_nat i = Some t ∧
    length (buf b) = 3%nat ∧ worker_inv r b t (phase_of (sched s) i).
Proof.
  intros [Hn Hs Hi Hin Hw] Hlt.
  destruct (arr_get_in_bounds (batch_set s) i) as (b & Hb & Hb'); [lia|].
  destruct (arr_get_in_bounds (senders s) i) as (t & Ht & Ht'); [lia|].
  exists b, t. destruct (Hw i b t) as [? ?]; [lia|done|done|]. by split_and!.
Qed.

Lemma sender_side_ext q d b b' t :
  sender_side q d b t → sender_buf_id b' = sender_buf_id b →
  available_buf_id b' = available_buf_id b → sender_side q d b' t.
Proof.
  intros [Hs Ha|Hs Ha|Hs Ha|Hs Ha] Hs' Ha'; rewrite <-Hs' in Hs; rewrite <-Ha' in Ha;
    [by apply side_wait|by apply side_work|by apply side_given|by apply side_back].
Qed.

(** The invariant after a step, in this round or the next. *)
Definition sched_ok (n r : Z) (res : result system) : Prop :=
  ∃ s' r', res = Ok s' ∧ system_inv n r' s' ∧ r ≤ r' ≤ r + 1.

Lemma set_batch_ok n r s i b' t pc' :
  system_inv n r s → 0 ≤ i < n → senders s !! Z.to_nat i = Some t →
  length (buf b') = 3%nat → worker_inv r b' t (phase_of pc' i) →
  (∀ j, j ≠ i → phase_of pc' j = phase_of (sched s) j) →
  0 ≤ pc_index pc' ≤ n → (pc_inside pc' = true → pc_index pc' < n) →
  sched_ok n r (set_batch s i b' pc').
Proof.
  intros [Hn Hs Hi Hin Hw] Hlt Ht Hlen Hinv Hsame Hidx Hins.
  unfold set_batch. rewrite arr_set_in_bounds, bind_Ok by lia.
  eexists _, r. split; [done|]. split; [|lia].
  split; simpl; rewrite ?length_insert; try done.
  intros j b t' Hj Hb Ht'. destruct (decide (j = i)) as [->|Hne].
  - rewrite list_lookup_insert_eq in Hb by lia. injection Hb as <-.
    rewrite Ht in Ht'. by injection Ht' as <-.
  - rewrite list_lookup_insert_ne in Hb by lia. rewrite Hsame by done. by apply Hw.
Qed.

(** The Scheduler between two workers: only its own place changes. *)
Lemma move_pc_ok n r r' s pc' :
  system_inv n r s → r ≤ r' ≤ r + 1 →
  (∀ j b t, 0 ≤ j < n → worker_inv r b t (phase_of (sched s) j) → worker_inv r' b t (phase_of pc' j)) →
  0 ≤ pc_index pc' ≤ n → pc_inside pc' = false →
  sched_ok n r (Ok (System (batch_set s) (senders s) pc')).
Proof.
  intros [Hn Hs Hi Hin Hw] Hr Hph Hidx Hins. eexists _, r'. split; [done|]. split; [|done].
  split; simpl; try done; [by rewrite Hins|].
  intros j b t Hj Hb Ht. pose proof (lookup_lt_Some _ _ _ Hb).
  destruct (Hw j b t Hj Hb Ht). split; [done|]. apply Hph; [lia|done].
Qed.

(** A worker's round is over: the next one begins. *)
Lemma worker_inv_next r b t : worker_inv r b t After → worker_inv (r + 1) b t Before.
Proof.
  intros H. inversion H as [| | | | | |Hr Hg Hside]; subst. constructor; [done|done|].
  replace (r + 1 + 1) with (r + 2) by lia. replace (r + 1 + 2) with (r + 3) by lia.
  by rewrite cur_3.
Qed.

Ltac phase_cases := intros; unfold phase_of; cmp_cases; try done.

(** The worker the Scheduler is at, with its invariant. *)
Ltac at_worker i :=
  match goal with
  | Hinv : system_inv ?n ?r ?s, Hpc : sched ?s = _ |- _ =>
      destruct (worker_at n r s i Hinv) as (b & t & -> & _ & _ & Ht & Hl & Hw); [lia|];
      rewrite bind_Ok; rewrite Hpc in Hw; simpl in Hw; rewrite ?Z.ltb_irrefl, ?Z.eqb_refl in Hw;
      inversion Hw; subst; clear Hw
  end.

Lemma sched_get_ok n r d s i :
  system_inv n r s → sched s = SGet i → 0 ≤ i ≤ n → sched_ok n r (sched_step d s).
Proof.
  intros Hinv Hpc Hi. unfold sched_step. rewrite (si_batches _ _ _ Hinv), Hpc.
  destruct (Z.ltb_spec i n).
  - at_worker i. rewrite assert_true, bind_Ok by (by apply Z.eqb_eq).
    unfold mega_gpu_get_available_buf_id. destruct (available_buf_id b) as [a0 a1] eqn:Ha.
    assert (a0 = cur (r + 1) ∧ sender_side [] (cur (r + 2)) (set_available b (a1, -1)) t)
      as [-> Hside'].
    { match goal with Hside : sender_side _ _ b t |- _ =>
        destruct Hside as [Hs Hav|Hs Hav|Hs Hav|Hs Hav] end;
        rewrite Ha in Hav; injection Hav as -> ->; (split; [done|]); by constructor. }
    apply (set_batch_ok n r s i _ t); try done; try (simpl; lia); [|rewrite Hpc; phase_cases].
    simpl. rewrite Z.ltb_irrefl, Z.eqb_refl. by constructor.
  - apply (move_pc_ok n r r); try done; try (simpl; lia).
    intros j b t Hj. rewrite Hpc. simpl. by cmp_cases.
Qed.

Lemma sched_taken_ok n r d s i id :
  system_inv n r s → sched s = STaken i id → 0 ≤ i < n → sched_ok n r (sched_step d s).
Proof.
  intros Hinv Hpc Hi. unfold sched_step. rewrite Hpc. at_worker i.
  apply (set_batch_ok n r s i _ t); try done; try (simpl; lia); [|rewrite Hpc; phase_cases].
  simpl. rewrite Z.ltb_irrefl, Z.eqb_refl. constructor; [done|done|].
  by eapply sender_side_ext.
Qed.

Lemma sched_switch_ok n r d s i id :
  system_inv n r s → sched s = SSwitch i id → 0 ≤ i < n → sched_ok n r (sched_step d s).
Proof.
  intros Hinv Hpc Hi. unfold sched_step. rewrite Hpc. at_worker i.
  apply (set_batch_ok n r s i _ t); try done; try (simpl; lia); [|rewrite Hpc; phase_cases].
  simpl. cmp_cases. constructor; [done|done|].
  by eapply sender_side_ext.
Qed.

Lemma sched_wait_ok n r d s i :
  system_inv n r s → sched s = SWait i → 0 ≤ i ≤ n → sched_ok n r (sched_step d s).
Proof.
  intros Hinv Hpc Hi. unfold sched_step. rewrite (si_batches _ _ _ Hinv), Hpc.
  destruct (Z.ltb_spec i n).
  - at_worker i. destruct (Z.eqb_spec (sender_buf_id b) (-1)) as [Hsnd|Hsnd]; simpl.
    2:{ exists s, r. split_and!; try done; lia. }
    pose proof (cur_range (r + 2)).
    match goal with Hside : sender_side _ _ b t |- _ =>
      destruct Hside as [Hs Hav|Hs Hav|Hs Hav|Hs Hav] end; try (rewrite Hs in Hsnd; lia).
    apply (set_batch_ok n r s i _ TWait); try done; try (simpl; lia); [|rewrite Hpc; phase_cases].
    simpl. rewrite Z.ltb_irrefl, Z.eqb_refl. by constructor.
  - apply (move_pc_ok n r (r + 1)); try done; try (simpl; lia).
    intros j b t Hj. rewrite Hpc. simpl. cmp_cases. apply worker_inv_next.
Qed.

Lemma sched_give_ok n r d s i :
  system_inv n r s → sched s = SGive i → 0 ≤ i < n → sched_ok n r (sched_step d s).
Proof.
  intros Hinv Hpc Hi. unfold sched_step. rewrite Hpc. at_worker i.
  apply (set_batch_ok n r s i _ TWait); try done; try (simpl; lia); [|rewrite Hpc; phase_cases].
  simpl. rewrite Z.ltb_irrefl, Z.eqb_refl. constructor; [done|done|]. by constructor.
Qed.

Lemma sched_given_ok n r d s i :
  system_inv n r s → sched s = SGiven i → 0 ≤ i < n → sched_ok n r (sched_step d s).
Proof.
  intros Hinv Hpc Hi. unfold sched_step. rewrite Hpc. at_worker i.
  apply (set_batch_ok n r s i _ t); try done; try (simpl; lia); [|rewrite Hpc; phase_cases].
  simpl. cmp_cases. constructor; [done|done|].
  by eapply sender_side_ext.
Qed.

Lemma sched_step_ok n r d s : system_inv n r s → 0 ≤ n → sched_ok n r (sched_step d s).
Proof.
  intros Hinv Hn. pose proof (si_index _ _ _ Hinv) as Hi. pose proof (si_inside _ _ _ Hinv) as Hin.
  destruct (sched s) as [i|i id|i id| |i|i|i] eqn:Hpc; simpl in Hi, Hin.
  - by eapply sched_get_ok.
  - eapply sched_taken_ok; [done..|]. naive_solver lia.
  - eapply sched_switch_ok; [done..|]. naive_solver lia.
  - unfold sched_step. rewrite Hpc. apply (move_pc_ok n r r); try done; try (simpl; lia).
    intros j b t Hj. rewrite Hpc. simpl. by cmp_cases.
  - by eapply sched_wait_ok.
  - eapply sched_give_ok; [done..|]. naive_solver lia.
  - eapply sched_given_ok; [done..|]. naive_solver lia.
Qed.

Lemma sender_step_ok n r i s :
  system_inv n r s → 0 ≤ i < n →
  ∃ s', sender_step i s = Ok s' ∧ system_inv n r s' ∧ sched s' = sched s.
Proof.
  intros Hinv Hi. destruct (worker_at n r s i Hinv Hi) as (b & t & Eb & Hb & Et & Ht & Hl & Hw).
  destruct (worker_inv_total _ _ _ _ Hw Hl) as (b' & t' & Hstep).
  destruct (worker_inv_sender _ _ _ _ _ _ Hw Hstep Hl) as [Hw' Hl'].
  destruct Hinv as [Hn Hs Hidx Hin Hall].
  unfold sender_step. rewrite Eb, bind_Ok, Et, bind_Ok, Hstep, bind_Ok. cbv beta iota.
  rewrite (arr_set_in_bounds (batch_set s)), bind_Ok by lia.
  rewrite (arr_set_in_bounds (senders s)), bind_Ok by lia.
  eexists. split; [done|]. split; [|done].
  split; simpl; rewrite ?length_insert; try done.
  intros j bj tj Hj Hbj Htj. destruct (decide (j = i)) as [->|Hne].
  - rewrite list_lookup_insert_eq in Hbj by lia. rewrite list_lookup_insert_eq in Htj by lia.
    injection Hbj as <-. by injection Htj as <-.
  - rewrite list_lookup_insert_ne in Hbj by lia. rewrite list_lookup_insert_ne in Htj by lia.
    by apply Hall.
Qed.

Lemma system0_inv bs : Forall batch_ready bs → system_inv (Z.of_nat (length bs)) 0 (system0 bs).
Proof.
  intros Hready. split; simpl; try done; [by rewrite length_replicate | lia |].
  intros j b t Hj Hb Ht. apply lookup_replicate in Ht as [-> _].
  destruct (Forall_lookup_1 _ _ _ _ Hready Hb) as (Hl & Hr & Hsnd & Ha & Hg).
  split; [done|]. cmp_cases. constructor; [done|done|]. by apply side_back.
Qed.

Lemma reachable_inv bs s :
  Forall batch_ready bs → reachable bs s → ∃ r, system_inv (Z.of_nat (length bs)) r s.
Proof.
  intros Hready. induction 1 as [|s s' Hs [r IH] Hstep].
  - exists 0. by apply system0_inv.
  - destruct Hstep as [d Hstep|i Hi Hstep].
    + destruct (sched_step_ok _ _ d _ IH) as (s1 & r' & Heq & Hinv & _); [lia|].
      rewrite Heq in Hstep. injection Hstep as <-. by exists r'.
    + rewrite (si_batches _ _ _ IH) in Hi.
      destruct (sender_step_ok _ _ i _ IH Hi) as (s1 & Heq & Hinv & _).
      rewrite Heq in Hstep. injection Hstep as <-. by exists r.
Qed.

Lemma sender_side_not_gpu q d b t g :
  sender_side q d b t → 0 ≤ g → d ≠ g → sender_buf_id b ≠ g.
Proof. intros [Hs ?|Hs ?|Hs ?|Hs ?] Hg Hne; rewrite Hs; lia. Qed.

(** The steps the Sender of worker [i] takes on its own. *)
Fixpoint sender_steps (k : nat) (i : Z) (s : system) : result system :=
  match k with
  | O => Ok s
  | S k => s ← sender_step i s; sender_steps k i s
  end.

Definition rank (b : mega_batch_t) (t : sender_pc) : nat :=
  if sender_buf_id b =? -1 then 0 else match t with TGiven => 1 | TWork => 2 | TWait => 3 end.

Lemma give_available_sender b b' : give_available b = Ok b' → sender_buf_id b' = sender_buf_id b.
Proof.
  unfold give_available. intros H. inv_ok. destruct (available_buf_id _).
  repeat case_match; by inv_ok.
Qed.

Lemma sender_worker_rank b t b' t' :
  sender_worker b t = Ok (b', t') → (rank b' t' ≤ pred (rank b t))%nat.
Proof.
  unfold rank. destruct t; simpl.
  - intros [= <- <-]. destruct (Z.eqb_spec (sender_buf_id b) (-1)); simpl; lia.
  - intros H. inv_ok. rewrite (give_available_sender _ _ Hb). by destruct (_ =? _).
  - intros [= <- <-]. simpl. lia.
Qed.

(** A Sender that holds a buffer gives it back within three steps. *)
Lemma sender_gives_back n r i s k :
  system_inv n r s → 0 ≤ i < n →
  (∀ b t, batch_set s !! Z.to_nat i = Some b → senders s !! Z.to_nat i = Some t → (rank b t ≤ k)%nat) →
  ∃ s' b, sender_steps k i s = Ok s' ∧ system_inv n r s' ∧ sched s' = sched s ∧
    arr_get (batch_set s') i = Ok b ∧ sender_buf_id b = -1.
Proof.
  revert s. induction k as [|k IH]; intros s Hinv Hi Hrank;
    destruct (worker_at n r s i Hinv Hi) as (b & t & Eb & Hb & Et & Ht & Hl & Hw);
    specialize (Hrank b t Hb Ht).
  - exists s, b. split_and!; try done. unfold rank in Hrank.
    destruct (Z.eqb_spec (sender_buf_id b) (-1)); [done|]. destruct t; lia.
  - destruct (sender_step_ok n r i s Hinv Hi) as (s1 & Hs1 & Hinv1 & Hpc).
    destruct (IH s1 Hinv1 Hi) as (s' & b' & Hs' & Hinv' & Hpc' & Hb' & Hsnd).
    { intros b1 t1 Hb1 Ht1. unfold sender_step in Hs1.
      rewrite Eb, bind_Ok, Et, bind_Ok in Hs1. apply bind_Ok_inv in Hs1 as ([b2 t2] & Hwk & Hs1).
      apply sender_worker_rank in Hwk. inv_ok.
      apply arr_set_Ok in Hb0 as [? ->]. apply arr_set_Ok in Hb2 as [? ->]. simpl in Hb1, Ht1.
      rewrite list_lookup_insert_eq in Hb1 by lia. rewrite list_lookup_insert_eq in Ht1 by lia.
      injection Hb1 as <-. injection Ht1 as <-. lia. }
    exists s', b'. simpl. rewrite Hs1, bind_Ok. split_and!; try done. by rewrite Hpc'.
Qed.

(** *** Steps on whole batches *)

(** Writing to the buffers leaves the protocol alone. *)
Lemma worker_inv_set_buf r b bufs t ph : worker_inv r b t ph → worker_inv r (set_buf b bufs) t ph.
Proof. intros []; constructor; simpl; try done; by eapply sender_side_ext. Qed.

Definition same_control (b b' : mega_batch_t) : Prop :=
  ∃ bufs, b' = set_buf b bufs ∧ length bufs = length (buf b).

Lemma system_inv_bufs n r s l :
  system_inv n r s → Forall2 same_control (batch_set s) l →
  system_inv n r (System l (senders s) (sched s)).
Proof.
  intros [Hn Hs Hi Hin Hw] Hl. pose proof (Forall2_length _ _ _ Hl) as Hlen.
  split; simpl; rewrite <-?Hlen; try done. intros j b' t Hj Hb' Ht.
  destruct (Forall2_lookup_r _ _ _ _ _ Hl Hb') as (b & Hb & bufs & -> & Hbufs).
  destruct (Hw j b t Hj Hb Ht) as [H1 H2]. split; [simpl; congruence|]. by apply worker_inv_set_buf.
Qed.

Lemma worker_inv_range r b t ph :
  worker_inv r b t ph →
  (gpu_buf_id b = -1 ∨ 0 ≤ gpu_buf_id b < 3) ∧ (sender_buf_id b = -1 ∨ 0 ≤ sender_buf_id b < 3) ∧
  0 ≤ receiver_buf_id b < 3 ∧ sender_buf_id b ≠ receiver_buf_id b.
Proof.
  intros H. pose proof (cur_range r). pose proof (cur_range (r + 1)). pose proof (cur_range (r + 2)).
  destruct (cur_distinct r) as (? & ? & ?).
  assert (Hside : ∀ q a, sender_side q a b t → sender_buf_id b = -1 ∨ sender_buf_id b = a).
  { intros q a []; auto. }
  destruct H as [Hr Hg Hs|Hr Hg Hs|Hr Hg Hs|Hr Hg Hs|Hr Hg Hs _ _|Hr Hg Hs|Hr Hg Hs];
    rewrite Hr, Hg; try (apply Hside in Hs); lia.
Qed.

(** Has the Scheduler run the kernels of this round? *)
Definition cycle_done (pc : sched_pc) : bool :=
  match pc with SWait _ | SGive _ | SGiven _ => true | _ => false end.

Lemma worker_inv_done r b t pc j :
  worker_inv r b t (phase_of pc j) → cycle_done pc = true → gpu_buf_id b ≠ receiver_buf_id b.
Proof.
  intros H Hpc. pose proof (cur_range r). pose proof (cur_range (r + 1)).
  destruct (cur_distinct r) as (? & ? & ?).
  destruct pc; try done; simpl in H; repeat case_match; inversion H; congruence || lia.
Qed.

(** All workers have handed over the same buffer. *)
Lemma run_gpu n r s :
  system_inv n r s → sched s = SRun → 0 < n →
  mega_gpu_get_batch_result s = Ok (cur r) ∧
  ∀ j b t, batch_set s !! j = Some b → senders s !! j = Some t →
    length (buf b) = 3%nat ∧ gpu_buf_id b = cur r ∧ sender_buf_id b ≠ cur r.
Proof.
  intros Hinv Hpc Hn.
  assert (Hall : ∀ j b t, 0 ≤ j → batch_set s !! Z.to_nat j = Some b → senders s !! Z.to_nat j = Some t →
    length (buf b) = 3%nat ∧ gpu_buf_id b = cur r ∧ sender_buf_id b ≠ cur r).
  { intros j b t Hj Hb Ht. destruct (si_worker _ _ _ Hinv j b t Hj Hb Ht) as [Hl Hw].
    rewrite Hpc in Hw. inversion Hw as [| | |Hr Hg Hside| | |]; subst.
    destruct (cur_distinct r) as (? & ? & ?). pose proof (cur_range r).
    split_and!; [done|done|]. eapply sender_side_not_gpu; [exact Hside|lia|congruence]. }
  split.
  - unfold mega_gpu_get_batch_result. rewrite (si_batches _ _ _ Hinv).
    destruct (worker_at _ _ s (n - 1) Hinv) as (b & t & -> & Hb & _ & Ht & _ & _); [lia|].
    rewrite bind_Ok. by destruct (Hall (n - 1) b t) as (_ & -> & _); [lia|..].
  - intros j b t Hb Ht. apply (Hall (Z.of_nat j) b t); rewrite ?Nat2Z.id; done || lia.
Qed.

(** The worker a step of the Scheduler changes, and how. *)
Definition sched_change (d : Z) (pc : sched_pc) (b : mega_batch_t) : mega_batch_t :=
  match pc with
  | SGet _ => (mega_gpu_get_available_buf_id b).1
  | STaken _ _ => set_gpu b (receiver_buf_id b)
  | SSwitch _ id => set_receiver b id
  | SRun => b
  | SWait _ => set_delay b d
  | SGive _ => set_sender b (gpu_buf_id b)
  | SGiven _ => set_gpu b (-1)
  end.

Inductive sched_effect (n r d : Z) (s s' : system) : Prop :=
  | effect_none : s' = s → sched_effect n r d s s'
  | effect_move : batch_set s' = batch_set s → senders s' = senders s →
      sched s = SGet n ∧ sched s' = SRun ∨ sched s = SWait n ∧ sched s' = SGet 0 →
      sched_effect n r d s s'
  | effect_worker i b : 0 ≤ i < n → pc_index (sched s) = i →
      batch_set s !! Z.to_nat i = Some b →
      batch_set s' = <[Z.to_nat i := sched_change d (sched s) b]> (batch_set s) →
      senders s' = senders s → cycle_done (sched s') = cycle_done (sched s) →
      sched_effect n r d s s'.

Lemma set_batch_effect n r d s s' i b b' pc' :
  set_batch s i b' pc' = Ok s' → 0 ≤ i < n → pc_index (sched s) = i →
  arr_get (batch_set s) i = Ok b → b' = sched_change d (sched s) b →
  cycle_done pc' = cycle_done (sched s) → sched_effect n r d s s'.
Proof.
  intros H Hi Hidx [_ Hb]%arr_get_Ok -> Hpc. unfold set_batch in H. inv_ok.
  apply arr_set_Ok in Hb0 as [_ ->]. by eapply effect_worker.
Qed.

Lemma sched_step_effect n r d s s' :
  system_inv n r s → sched s ≠ SRun → sched_step d s = Ok s' → sched_effect n r d s s'.
Proof.
  intros Hinv Hrun H. pose proof (si_index _ _ _ Hinv) as Hi. pose proof (si_inside _ _ _ Hinv) as Hin.
  unfold sched_step in H. rewrite (si_batches _ _ _ Hinv) in H.
  destruct (sched s) as [i|i id|i id| |i|i|i] eqn:Hpc; simpl in Hi, Hin; try done.
  1: destruct (Z.ltb_spec i n);
    [|injection H as <-; apply effect_move; try done; left; split; [rewrite Hpc; f_equal; lia|done]].
  4: destruct (Z.ltb_spec i n);
    [|injection H as <-; apply effect_move; try done; right; split; [rewrite Hpc; f_equal; lia|done]].
  all: apply bind_Ok_inv in H as (b & Hb & H); try specialize (Hin eq_refl).
  1: apply bind_Ok_inv in H as (u & _ & H); destruct (mega_gpu_get_available_buf_id b) as [b' id] eqn:E.
  4: destruct (negb _); [by injection H as <-; apply effect_none|].
  all: eapply set_batch_effect; [exact H|lia|by rewrite Hpc|exact Hb| |by rewrite Hpc];
    rewrite Hpc; simpl; by rewrite ?E.
Qed.

(** One event of a run: a step of the Scheduler, of a Sender, or the assignment
    of [mega_sender_init]. *)
Inductive event := ESched | ESender (i : Z) | ESenderInit (i : Z).
Definition do_event (d : Z) (e : event) (s : system) : result system :=
  match e with
  | ESched => sched_step d s
  | ESender i => sender_step i s
  | ESenderInit i => sender_init_step i s
  end.
Fixpoint run (d : Z) (es : list event) (s : system) : result system :=
  match es with [] => Ok s | e :: es => s ← do_event d e s; run d es s end.

(** A whole round of the Scheduler with one worker. *)
Definition sched_round : list event := replicate 9 ESched.

(** *** Properties *)

(** C12: safety of the rotation.  In any interleaving of the Scheduler and the
    Senders, neither the assertion that the last batch was given away nor "Three
    buffers available" can fail, no step accesses a buffer that does not exist,
    and the number the Receiver reads in [receiver_buf_id] is always a buffer. *)
Theorem rotation_safe bs s d :
  Forall batch_ready bs → reachable bs s →
  (∃ s', sched_step d s = Ok s') ∧
  (∀ i, 0 ≤ i < Z.of_nat (length bs) → ∃ s', sender_step i s = Ok s') ∧
  ∀ i b, batch_set s !! i = Some b → 0 ≤ receiver_buf_id b < Z.of_nat (length (buf b)).
Proof.
  intros Hready Hs. destruct (reachable_inv bs s Hready Hs) as [r Hinv]. split_and!.
  - destruct (sched_step_ok _ _ d _ Hinv) as (s' & _ & H & _); [lia|by exists s'].
  - intros i Hi. destruct (sender_step_ok _ _ i _ Hinv Hi) as (s' & H & _). by exists s'.
  - intros i b Hb. destruct (worker_at _ _ s (Z.of_nat i) Hinv) as (b' & t & _ & Hb' & _ & _ & Hl & Hw).
    { pose proof (lookup_lt_Some _ _ _ Hb). pose proof (si_batches _ _ _ Hinv). lia. }
    rewrite Nat2Z.id, Hb in Hb'. injection Hb' as <-. rewrite Hl.
    pose proof (cur_range r). pose proof (cur_range (r + 1)). inversion Hw; lia.
Qed.

(** C26: the workers rotate in lockstep.  Whenever the Scheduler has collected the
    batches, the buffer number it got from the last worker is the one every worker
    handed over - so that taking [bufs[gpu_buf_id][id]] for all of them is right -
    and neither the worker's Receiver nor its Sender has that buffer. *)
Theorem rotation_lockstep bs s :
  Forall batch_ready bs → reachable bs s → sched s = SRun → bs ≠ [] →
  ∃ g, mega_gpu_get_batch_result s = Ok g ∧
    ∀ id b, 0 ≤ id → batch_set s !! Z.to_nat id = Some b →
      gpu_buf_id b = g ∧ receiver_buf_id b ≠ g ∧ sender_buf_id b ≠ g ∧
      sender_buf_id b ≠ receiver_buf_id b ∧ scheduled_buf s id = arr_get (buf b) (gpu_buf_id b).
Proof.
  intros Hready Hs Hpc Hne. destruct (reachable_inv bs s Hready Hs) as [r Hinv].
  assert (Hall : ∀ id b, 0 ≤ id → batch_set s !! Z.to_nat id = Some b →
    gpu_buf_id b = cur r ∧ receiver_buf_id b ≠ cur r ∧ sender_buf_id b ≠ cur r ∧
    sender_buf_id b ≠ receiver_buf_id b).
  { intros id b Hid Hb. destruct (worker_at _ _ s id Hinv) as (b' & t & _ & Hb' & _ & _ & _ & Hw).
    { pose proof (lookup_lt_Some _ _ _ Hb). pose proof (si_batches _ _ _ Hinv). lia. }
    rewrite Hb in Hb'. injection Hb' as <-. rewrite Hpc in Hw.
    inversion Hw as [| | |Hr Hg Hside| | |]; subst. rewrite Hr.
    destruct (cur_distinct r) as (? & ? & ?). pose proof (cur_range r). pose proof (cur_range (r + 1)).
    split_and!; try done;
      (eapply sender_side_not_gpu; [exact Hside | lia | congruence]). }
  pose proof (si_batches _ _ _ Hinv) as Hn.
  assert (0 < Z.of_nat (length bs)) by (destruct bs; [done|simpl; lia]).
  destruct (arr_get_in_bounds (batch_set s) (Z.of_nat (length (batch_set s)) - 1)) as (l & Hl & Hl');
    [lia|].
  assert (Hg : mega_gpu_get_batch_result s = Ok (cur r)).
  { unfold mega_gpu_get_batch_result. rewrite Hl, bind_Ok.
    destruct (Hall (Z.of_nat (length (batch_set s)) - 1) l) as [-> _]; [lia|done|done]. }
  exists (cur r). split; [done|]. intros id b Hid Hb. destruct (Hall id b Hid Hb) as (Hgb & ? & ? & ?).
  split_and!; try done. unfold scheduled_buf. rewrite Hg, bind_Ok.
  by rewrite (arr_get_lookup _ _ _ Hid Hb), bind_Ok, Hgb.
Qed.

(** C32: no deadlock.  When the Scheduler waits for the Sender of worker [i], three
    steps of that Sender end the wait, whatever the others have done. *)
Theorem rotation_progress bs s i d :
  Forall batch_ready bs → reachable bs s → sched s = SWait i → 0 ≤ i < Z.of_nat (length bs) →
  ∃ s1 s2, sender_steps 3 i s = Ok s1 ∧ sched_step d s1 = Ok s2 ∧ sched s2 = SGive i.
Proof.
  intros Hready Hs Hpc Hi. destruct (reachable_inv bs s Hready Hs) as [r Hinv].
  destruct (sender_gives_back _ r i s 3 Hinv Hi) as (s1 & b & Hs1 & Hinv1 & Hpc1 & Hb & Hsnd).
  { intros b t _ _. unfold rank. destruct (_ =? _), t; lia. }
  exists s1. unfold sched_step. rewrite Hpc1, Hpc, (si_batches _ _ _ Hinv1).
  destruct (Z.ltb_spec i (Z.of_nat (length bs))); [|lia]. rewrite Hb, bind_Ok, Hsnd. simpl.
  unfold set_batch. rewrite arr_set_in_bounds by (rewrite (si_batches _ _ _ Hinv1); lia).
  eexists. split; [done|]. rewrite bind_Ok. by split.
Qed.

(** The Senders' initialisation races with the first round.  [main] waits for
    the Receivers only; when [mega_sender_init] resets [sender_buf_id] after the
    first batch was given to the Sender, that buffer is lost, and two rounds later
    the Receiver is sent to buffer -1. *)
Theorem late_sender_init_loses_buffer b d :
  batch_ready b →
  ∃ s b', run d (sched_round ++ ESenderInit 0 :: sched_round ++ replicate 3 ESched)
    (system0 [b]) = Ok s ∧ batch_set s = [b'] ∧ receiver_buf_id b' = -1.
Proof.
  intros (Hl & Hr & Hs & Ha & Hg). destruct b as [l r snd av g dl ls lsz]. simpl in *. subst.
  eexists _, _. split; [vm_compute; reflexivity|]. by split.
Qed.

(** ** The properties at two workers *)

Definition ex_uninit : uninit_t :=
  Uninit (λ _, 0) (λ _, Ielem 0 0 0) (λ _, JobSearch 0 0 0 0 0).
Definition ex_batch : mega_batch_t :=
  Batch (replicate 3 (BatchBuf [] [] [] [] [] [] 0 0 0 0 [])) 0 (-1) (1, 2) (-1) (-1) [] [].

Lemma ex_batch_ready : batch_ready ex_batch.
Proof. by split_and!. Qed.

(** Steps of the Scheduler only. *)
Lemma reachable_sched bs k s s' :
  reachable bs s → run 0 (replicate k ESched) s = Ok s' → reachable bs s'.
Proof.
  revert s. induction k as [|k IH]; intros s Hs Hrun; simpl in Hrun; [by injection Hrun as <-|].
  inv_ok. eapply IH; [|done]. eapply reach_step; [done|]. by eapply step_sched.
Qed.

Definition ex_system (k : nat) : system :=
  match run 0 (replicate k ESched) (system0 [ex_batch; ex_batch]) with
  | Ok s => s
  | Err _ => system0 []
  end.

Lemma ex_reachable k s :
  run 0 (replicate k ESched) (system0 [ex_batch; ex_batch]) = Ok s →
  reachable [ex_batch; ex_batch] s.
Proof. apply reachable_sched, reach_init. Qed.

Lemma rotation_safe_witness : ∃ s', sched_step 0 (ex_system 5) = Ok s'.
Proof.
  apply (rotation_safe [ex_batch; ex_batch]); [by repeat constructor|].
  by apply (ex_reachable 5).
Defined.

Lemma rotation_lockstep_witness : ∃ g, mega_gpu_get_batch_result (ex_system 7) = Ok g.
Proof.
  destruct (rotation_lockstep [ex_batch; ex_batch] (ex_system 7)) as (g & Hg & _);
    [by repeat constructor | by apply (ex_reachable 7) | done | done |].
  by exists g.
Defined.

Lemma rotation_progress_witness :
  ∃ s1 s2, sender_steps 3 0 (ex_system 23) = Ok s1 ∧ sched_step 0 s1 = Ok s2 ∧ sched s2 = SGive 0.
Proof.
  apply (rotation_progress [ex_batch; ex_batch]); [by repeat constructor | | done | done].
  by apply (ex_reachable 23).
Defined.

Lemma late_sender_init_loses_buffer_witness :
  ∃ s b', run 0 (sched_round ++ ESenderInit 0 :: sched_round ++ replicate 3 ESched)
    (system0 [ex_batch]) = Ok s ∧ batch_set s = [b'] ∧ receiver_buf_id b' = -1.
Proof. apply (late_sender_init_loses_buffer ex_batch 0 ex_batch_ready). Defined.
