(* ===== verification/Items.v ===== *)
(** * Items and eviction (src/src/items.c)

    [item_alloc_batch] gives a Receiver a linked list of items of one class: a
    new slab while there is memory, and otherwise a batch of victims of the clock
    algorithm.  For each victim it adds a job to the delete buffer of the
    Receiver's current batch buffer, so that the GPU index forgets the item.

    The Scheduler may switch [receiver_buf_id], and the Sender may reset buffers,
    between any two reads of the volatile field: before the [n]th read the batch
    becomes [env n] of what it was. *)

From S2P Require Import Prelude GpuHash Config Bitmap Slabs Batch.

Definition set_deletes (b : mega_batch_buf_t) (l : list ielem_t) (n : Z) : mega_batch_buf_t :=
  {| search_in := search_in b;
     search_out := search_out b;
     delete_in := l;
     insert_in := insert_in b;
     search_job_list := search_job_list b;
     insert_job_list := insert_job_list b;
     num_search_job := num_search_job b;
     num_insert_job := num_insert_job b;
     num_delete_job := n;
     num_compact_search_job := num_compact_search_job b;
     insert_buf := insert_buf b |}.

(** The first and the second 32 bits of the key. *)
Definition item_sig (it : item) : Z := load_le 4 (it_data it).
Definition item_hash (it : item) : Z := load_le 4 (drop 4 (it_data it)).

Section items.
Context (malloc_ok : Z → bool) (garbage : ptr → Z) (cfg : mega_config_t).
Context (env : nat → mega_batch_t → mega_batch_t).

(** From label [again] on; [true] when the loop over the victims is left by
    [break]. *)
Fixpoint add_delete_job (fuel n : nat) (batch : mega_batch_t) (offset : Z) (it : item)
    : result (nat * mega_batch_t * bool) :=
  match fuel with
  | O => Err OutOfFuel
  | S fuel =>
      let batch := env n batch in
      let id := receiver_buf_id batch in
      bf ← arr_get (buf batch) id;
      if batch_max_delete_job cfg <=? u32 (num_delete_job bf) then Ok (S n, batch, true)
      else
        l ← arr_set (delete_in bf) (num_delete_job bf)
              (Ielem (item_sig it) (item_hash it) (it_loc it));
        _ ← assert_ (offset =? loc_offset (it_loc it));
        if batch_max_delete_job cfg <=? u32 (num_delete_job bf + 1) then
          bufs ← arr_set (buf batch) id (set_deletes bf l (num_delete_job bf));
          Ok (S n, set_buf batch bufs, true)
        else
          bufs ← arr_set (buf batch) id (set_deletes bf l (num_delete_job bf + 1));
          _ ← assert_ (num_delete_job bf + 1 <? batch_max_delete_job cfg);
          let batch := env (S n) (set_buf batch bufs) in
          if negb (id =? receiver_buf_id batch)
          then add_delete_job fuel (S (S n)) batch offset it
          else Ok (S (S n), batch, false)
  end.

(** The loop over the victims: the heap, the batch, [it_list] and [evict_cnt]. *)
Fixpoint evict_items (fuel : nat) (p : slabclass_t) (offsets : list Z) (n : nat) (h : heap_t)
    (batch : mega_batch_t) (it_list : option ptr) (evict_cnt : Z)
    : result (nat * heap_t * mega_batch_t * option ptr * Z) :=
  match offsets with
  | [] => Ok (n, h, batch, it_list, evict_cnt)
  | offset :: offsets =>
      _ ← assert_ (offset <? u32 (sc_perslab p * sc_slabs p));
      q ← item_at p offset;
      match h !! q with
      | None => Err NullDeref
      | Some it =>
          if negb (it_flags it =? 0)
          then evict_items fuel p offsets n h batch it_list evict_cnt
          else
            let h := <[q := set_next (set_flags it ITEM_FREE) it_list]> h in
            '(n, batch, stop) ← add_delete_job fuel n batch offset it;
            if (stop : bool) then Ok (n, h, batch, Some q, u32 (evict_cnt + 1))
            else evict_items fuel p offsets n h batch (Some q) (u32 (evict_cnt + 1))
      end
  end.

(** One pass from label [re]; [None] means [goto re]. *)
Definition item_alloc_once (fuel : nat) (ntotal id : Z) (n : nat) (s : slabs_t)
    (batch : mega_batch_t) : result (nat * slabs_t * mega_batch_t * option ptr) :=
  if memory_full s then
    if negb (evict cfg) then Err AssertFail
    else
      p ← arr_get (slabclass s) id;
      '(bm, offset_array, evict_num) ←
        bitmap_evict_batch fuel (sc_bitmap p)
          (replicate (Z.to_nat (EVICT_BATCH_SIZE + 63)) 0) (evict_batch_size cfg);
      _ ← assert_ (negb (evict_num =? 0));
      cs ← arr_set (slabclass s) id (set_bitmap p bm);
      '(n, h, batch, it_list, evict_cnt) ←
        evict_items fuel p (take (Z.to_nat evict_num) offset_array) n (heap s) batch None 0;
      if evict_cnt =? 0 then Err Exit
      else Ok (n, with_heap (with_classes s cs) h, batch, it_list)
  else
    '(s, it_list) ← slabs_alloc_batch malloc_ok garbage cfg s ntotal;
    Ok (n, s, batch, it_list).

Fixpoint item_alloc_loop (tries fuel : nat) (ntotal id : Z) (n : nat) (s : slabs_t)
    (batch : mega_batch_t) : result (nat * slabs_t * mega_batch_t * option ptr) :=
  match tries with
  | O => Err OutOfFuel
  | S tries =>
      '(n, s, batch, it_list) ← item_alloc_once fuel ntotal id n s batch;
      match it_list with
      | None => item_alloc_loop tries fuel ntotal id n s batch
      | Some q => Ok (n, s, batch, Some q)
      end
  end.

(** A first pass may set [memory_full], so that a second one is needed; a pass
    that evicts never goes back to [re], so two passes are always enough. *)
Definition item_alloc_batch (fuel : nat) (kvsize : Z) (n : nat) (s : slabs_t)
    (batch : mega_batch_t) : result (nat * slabs_t * mega_batch_t * option ptr) :=
  let ntotal := sizeof_item + kvsize in
  id ← slabs_clsid (slabclass s) (u32 ntotal);
  if (id =? -1) || (id <? POWER_SMALLEST) || (POWER_LARGEST <? id) then Ok (n, s, batch, None)
  else item_alloc_loop 2 fuel (u32 ntotal) id n s batch.
End items.

(** ** Lemmas *)

Definition job_of (h : heap_t) (q : ptr) : ielem_t :=
  match h !! q with
  | Some it => Ielem (item_sig it) (item_hash it) (it_loc it)
  | None => Ielem 0 0 0
  end.

(** Every item number of the class leads to an item that knows its number. *)
Definition numbered (p : slabclass_t) (h : heap_t) : Prop :=
  ∀ o, 0 ≤ o < sc_perslab p * sc_slabs p → ∃ q it,
    item_at p o = Ok q ∧ h !! q = Some it ∧ loc_offset (it_loc it) = o.

Definition evicted (it : item) (next : option ptr) : item := set_next (set_flags it ITEM_FREE) next.

Lemma numbered_insert p h q it next :
  numbered p h → h !! q = Some it → numbered p (<[q := evicted it next]> h).
Proof.
  intros Hn Hq o Ho. destruct (Hn o Ho) as (q' & it' & Hat & Hit & Hloc).
  destruct (decide (q = q')) as [<-|Hne].
  - rewrite Hq in Hit. injection Hit as <-. exists q, (evicted it next).
    by rewrite lookup_insert_eq.
  - exists q', it'. by rewrite lookup_insert_ne.
Qed.

Lemma chain_insert h p l q it : chain h p l → q ∉ l → chain (<[q := it]> h) p l.
Proof.
  revert p. induction l as [|a l IH]; intros p; [done|].
  intros (-> & it' & Ha & Hch) Hq. apply not_elem_of_cons in Hq as [Hne Hq]. split; [done|].
  exists it'. rewrite lookup_insert_ne by done. split; [done|]. by apply IH.
Qed.

Section evict_lemmas.
Context (cfg : mega_config_t).
Abbreviation quiet := (λ (_ : nat) (b : mega_batch_t), b).

(** The batch with [jobs] appended to the delete buffer of buffer [id]. *)
Definition append_deletes (batch : mega_batch_t) (id : Z) (bf : mega_batch_buf_t)
    (jobs : list ielem_t) : mega_batch_t :=
  set_buf batch (<[Z.to_nat id := set_deletes bf
    (write_run (delete_in bf) (Z.to_nat (num_delete_job bf)) jobs)
    (num_delete_job bf + Z.of_nat (length jobs))]> (buf batch)).

Definition delete_room (bf : mega_batch_buf_t) (n : Z) : Prop :=
  0 ≤ num_delete_job bf ∧ num_delete_job bf + n < batch_max_delete_job cfg ∧
  batch_max_delete_job cfg < 2 ^ 32 ∧
  Z.of_nat (length (delete_in bf)) = batch_max_delete_job cfg.

Lemma append_deletes_nil batch id bf :
  buf batch !! Z.to_nat id = Some bf → append_deletes batch id bf [] = batch.
Proof.
  intros Hb. unfold append_deletes. rewrite write_run_nil. simpl. rewrite Z.add_0_r.
  destruct batch, bf. unfold set_deletes, set_buf. simpl in *. by rewrite list_insert_id.
Qed.

Lemma append_deletes_app batch id bf jobs1 m :
  buf batch !! Z.to_nat id = Some bf → delete_room bf (Z.of_nat (length jobs1) + m) → 0 ≤ m →
  let batch1 := append_deletes batch id bf jobs1 in
  ∃ bf1, buf batch1 !! Z.to_nat id = Some bf1 ∧ delete_room bf1 m ∧
    ∀ jobs2, Z.of_nat (length jobs2) ≤ m →
      append_deletes batch1 id bf1 jobs2 = append_deletes batch id bf (jobs1 ++ jobs2).
Proof.
  intros Hb (Hnum & Hroom & Hmax & Hlen) Hm batch1. eexists. split.
  { unfold batch1, append_deletes. simpl. apply list_lookup_insert_eq. by eapply lookup_lt_Some. }
  split.
  { unfold delete_room. simpl. rewrite write_run_length by lia. lia. }
  intros jobs2 Hj2. unfold append_deletes, batch1, set_buf. simpl.
  rewrite list_insert_insert_eq. do 2 f_equal. unfold set_deletes. simpl. f_equal.
  - replace (Z.to_nat (num_delete_job bf + Z.of_nat (length jobs1)))
      with (Z.to_nat (num_delete_job bf) + length jobs1)%nat by lia.
    apply write_run_app. lia.
  - rewrite length_app. lia.
Qed.

Lemma add_delete_job_quiet fuel n batch id bf o it :
  receiver_buf_id batch = id → 0 ≤ id → buf batch !! Z.to_nat id = Some bf → delete_room bf 1 →
  loc_offset (it_loc it) = o →
  add_delete_job cfg quiet (S fuel) n batch o it =
    Ok (S (S n), append_deletes batch id bf [Ielem (item_sig it) (item_hash it) (it_loc it)], false).
Proof.
  intros Hid Hid0 Hb (Hnum & Hroom & Hmax & Hlen) Ho. cbn [add_delete_job]. rewrite Hid.
  rewrite (arr_get_lookup _ _ _ Hid0 Hb), bind_Ok.
  rewrite (wrap_id 32 (num_delete_job bf)) by (unfold in_range; lia).
  destruct (Z.leb_spec (batch_max_delete_job cfg) (num_delete_job bf)); [lia|].
  rewrite (arr_set_in_bounds (delete_in bf)), bind_Ok by lia.
  rewrite (assert_true (o =? _)), bind_Ok by (by apply Z.eqb_eq).
  rewrite wrap_id by (unfold in_range; lia).
  destruct (Z.leb_spec (batch_max_delete_job cfg) (num_delete_job bf + 1)); [lia|].
  rewrite arr_set_in_bounds, bind_Ok by (pose proof (lookup_lt_Some _ _ _ Hb); lia).
  rewrite assert_true, bind_Ok by (apply Z.ltb_lt; lia). simpl receiver_buf_id.
  rewrite Hid, Z.eqb_refl. cbn [negb]. do 3 f_equal. unfold append_deletes. do 2 f_equal.
  unfold set_deletes. simpl. f_equal.
  rewrite <-write_run_cons by (simpl; lia). by rewrite write_run_nil.
Qed.

(** What [evict_items] has done: the items it took, in order. *)
Record evicts (p : slabclass_t) (offsets : list Z) (h h' : heap_t) (l used : list ptr)
    (head : option ptr) : Prop := {
  ev_chain : chain h' head (reverse used ++ l);
  ev_nodup : NoDup (reverse used ++ l);
  ev_len : (length used ≤ length offsets)%nat;
  ev_used : ∀ q, q ∈ used → ∃ it next o, h !! q = Some it ∧ it_flags it = 0 ∧
    h' !! q = Some (evicted it next) ∧ o ∈ offsets ∧ item_at p o = Ok q;
  ev_other : ∀ q, q ∉ used → h' !! q = h !! q;
  ev_all : ∀ o q it, o ∈ offsets → item_at p o = Ok q → h !! q = Some it → it_flags it = 0 → q ∈ used;
}.

Lemma evicts_skip p o offsets h h' l used head q it :
  evicts p offsets h h' l used head → item_at p o = Ok q → h !! q = Some it → it_flags it ≠ 0 →
  evicts p (o :: offsets) h h' l used head.
Proof.
  intros [Hc Hnd Hlen Hu Ho Ha] Hat Hit Hf. split; try done; [simpl; lia|..].
  - intros q' Hq'. destruct (Hu q' Hq') as (it' & nx & o' & ? & ? & ? & ? & ?).
    exists it', nx, o'. split_and!; try done. by right.
  - intros o' q' it' [->|Hin]%elem_of_cons Hat' Hit' Hf'; [|by eapply Ha].
    rewrite Hat in Hat'. injection Hat' as <-. rewrite Hit in Hit'. by injection Hit' as <-.
Qed.

Lemma evicts_take p o offsets h h' l used head q it it_list :
  item_at p o = Ok q → h !! q = Some it → it_flags it = 0 →
  evicts p offsets (<[q := evicted it it_list]> h) h' (q :: l) used head →
  evicts p (o :: offsets) h h' l (q :: used) head.
Proof.
  intros Hat Hit Hf [Hc Hnd Hlen Hu Ho Ha].
  assert (Hq : q ∉ used).
  { intros (it' & ? & ? & Hit' & Hf' & _)%Hu. rewrite lookup_insert_eq in Hit'.
    by injection Hit' as <-. }
  split; try (rewrite reverse_cons, <-app_assoc; done); [simpl; lia|..].
  - intros q' [->|Hin]%elem_of_cons.
    + exists it, it_list, o. split_and!; try done; [|by left].
      by rewrite Ho, lookup_insert_eq.
    + destruct (Hu q' Hin) as (it' & nx & o' & Hit' & ? & ? & ? & ?).
      rewrite lookup_insert_ne in Hit' by (by intros ->).
      exists it', nx, o'. split_and!; try done. by right.
  - intros q' [Hne Hin]%not_elem_of_cons. by rewrite Ho, lookup_insert_ne.
  - intros o' q' it' [->|Hin]%elem_of_cons Hat' Hit' Hf'.
    + rewrite Hat in Hat'. injection Hat' as <-. by left.
    + destruct (decide (q = q')) as [<-|Hne]; [by left|]. right.
      eapply Ha; [done..| |done]. by rewrite lookup_insert_ne.
Qed.

Lemma evict_items_quiet fuel p id : ∀ offsets n h batch it_list l cnt bf,
  receiver_buf_id batch = id → 0 ≤ id → buf batch !! Z.to_nat id = Some bf →
  delete_room bf (Z.of_nat (length offsets)) → 0 ≤ cnt → cnt + Z.of_nat (length offsets) < 2 ^ 32 →
  sc_perslab p * sc_slabs p < 2 ^ 32 →
  Forall (λ o, 0 ≤ o < sc_perslab p * sc_slabs p) offsets → numbered p h →
  chain h it_list l → NoDup l → (∀ q, q ∈ l → ∃ it, h !! q = Some it ∧ it_flags it = ITEM_FREE) →
  ∃ n' h' used head,
    evict_items cfg quiet (S fuel) p offsets n h batch it_list cnt =
      Ok (n', h', append_deletes batch id bf (job_of h <$> used), head,
          cnt + Z.of_nat (length used)) ∧
    evicts p offsets h h' l used head.
Proof.
  induction offsets as [|o offsets IH];
    intros n h batch it_list l cnt bf Hid Hid0 Hb Hroom Hcnt Hmax Hp Hoff Hnum Hch Hnd Hl.
  { exists n, h, [], it_list. simpl. rewrite append_deletes_nil, Z.add_0_r by done.
    split; [done|]. split; simpl; try done; by intros ? ?%elem_of_nil || by intros ? ? ? ?%elem_of_nil. }
  apply Forall_cons in Hoff as [Ho Hoff]. destruct (Hnum o Ho) as (q & it & Hat & Hq & Hloc).
  cbn [length] in Hroom, Hmax. pose proof Hroom as (? & ? & ? & ?).
  cbn [evict_items]. rewrite (wrap_id 32 (sc_perslab p * sc_slabs p)) by (unfold in_range; lia).
  rewrite assert_true, bind_Ok by (apply Z.ltb_lt; lia). rewrite Hat, bind_Ok, Hq.
  destruct (Z.eqb_spec (it_flags it) 0) as [Hf|Hf]; cbn [negb].
  2:{ destruct (IH n h batch it_list l cnt bf) as (n' & h' & used & head & -> & Hev); try done;
        [unfold delete_room; lia | lia |].
      exists n', h', used, head. split; [done|]. by eapply evicts_skip. }
  rewrite (add_delete_job_quiet _ _ _ id bf) by (try done; unfold delete_room; lia).
  rewrite bind_Ok. cbv beta iota. rewrite (wrap_id 32 (cnt + 1)) by (unfold in_range; lia).
  set (job := Ielem _ _ _).
  fold (evicted it it_list). set (h1 := <[q := _]> h).
  set (batch1 := append_deletes batch id bf [job]).
  destruct (append_deletes_app batch id bf [job] (Z.of_nat (length offsets)) Hb)
    as (bf1 & Hb1 & Hroom' & Happ); [unfold delete_room; simpl; lia | lia |].
  assert (Hql : q ∉ l).
  { intros (it' & Hq' & Hf')%Hl. rewrite Hq in Hq'. injection Hq' as <-. by rewrite Hf in Hf'. }
  destruct (IH (S (S n)) h1 batch1 (Some q) (q :: l) (cnt + 1) bf1)
    as (n' & h' & used & head & -> & Hev); try done; try lia.
  - by apply numbered_insert.
  - simpl. split; [done|]. eexists. split; [apply lookup_insert_eq|]. by apply chain_insert.
  - by constructor.
  - intros q' [->|Hin]%elem_of_cons; [eexists; split; [apply lookup_insert_eq|done]|].
    destruct (Hl q' Hin) as (it' & ? & ?). exists it'. unfold h1.
    by rewrite lookup_insert_ne by (by intros ->).
  - pose proof (evicts_take p o offsets h h' l used head q it it_list Hat Hq Hf Hev) as Hev'.
    exists n', h', (q :: used), head. split; [|done].
    assert (Hjobs : job_of h1 <$> used = job_of h <$> used).
    { apply list_fmap_ext. intros i q' Hin. unfold job_of, h1.
      rewrite lookup_insert_ne; [done|]. intros <-.
      assert (q ∈ used) as Hin' by (by eapply list_elem_of_lookup_2).
      destruct (ev_used _ _ _ _ _ _ _ Hev q Hin') as (it' & ? & ? & Hq' & Hf' & _).
      unfold h1 in Hq'. rewrite lookup_insert_eq in Hq'. injection Hq' as <-. done. }
    rewrite Hjobs, Happ by (rewrite length_fmap; pose proof (ev_len _ _ _ _ _ _ _ Hev); lia).
    cbn [fmap list_fmap app length]. unfold job, job_of at 2. rewrite Hq. do 2 f_equal. lia.
Qed.
End evict_lemmas.

Lemma class_numbered cfg m h id p :
  cfg_ok cfg → class_wf cfg m h id p → 0 ≤ id < 8 → numbered p h.
Proof.
  intros Hcfg Hwf Hid o Ho. pose proof (class_perslab _ _ _ _ _ Hcfg Hwf) as [Hps _].
  pose proof (Z.div_mod o (sc_perslab p) ltac:(lia)) as Heq.
  pose proof (Z.mod_pos_bound o (sc_perslab p) ltac:(lia)) as Hx.
  assert (Hk : 0 ≤ o / sc_perslab p < sc_slabs p)
    by (split; [apply Z.div_pos | apply Z.div_lt_upper_bound]; lia).
  destruct (cw_items Hwf _ Hk) as (b & Hb & _ & Hit).
  destruct (Hit _ Hx) as (it & Hin & Hloc & _).
  exists (b, sc_size p * (o mod sc_perslab p)), it. split_and!; [|done|].
  - rewrite Heq at 1. by eapply item_at_eq.
  - destruct (class_offset_lt _ _ _ _ _ _ _ Hcfg Hwf Hk Hx) as (? & ? & ?).
    rewrite Hloc, loc_offset_eq by lia. lia.
Qed.

Lemma evicts_same_items p offsets h h' l used head :
  evicts p offsets h h' l used head → same_items h h'.
Proof.
  intros Hev q. destruct (decide (q ∈ used)) as [Hin|Hin].
  - destruct (ev_used _ _ _ _ _ _ _ Hev q Hin) as (it & nx & o & -> & _ & -> & _). by split_and!.
  - rewrite (ev_other _ _ _ _ _ _ _ Hev q Hin). destruct (h !! q); by split_and?.
Qed.

Lemma find_class cfg s size i p :
  slabs_wf cfg s → list_find (λ p, size ≤ sc_size p) (slabclass s) = Some (i, p) → size ≠ 0 →
  slabs_clsid (slabclass s) size = Ok (Z.of_nat i) ∧ (i < 8)%nat ∧ slabclass s !! i = Some p ∧
  (Z.of_nat i =? -1) || (Z.of_nat i <? POWER_SMALLEST) || (POWER_LARGEST <? Z.of_nat i) = false.
Proof.
  intros Hs Hf H0. rewrite slabs_clsid_find by (apply Hs || by eapply slabs_wf_available).
  rewrite Hf, decide_False by done. apply list_find_Some in Hf as (Hi & _).
  pose proof (lookup_lt_Some _ _ _ Hi) as Hlt. rewrite (sw_num Hs) in Hlt.
  split_and!; try done. change POWER_LARGEST with 7. change POWER_SMALLEST with 0. lia.
Qed.

(** The situation in which a Receiver evicts: the memory is full, class [i] has
    slabs and the bitmap covers exactly their items, and the delete buffer of the
    Receiver's current buffer [bf] has room for a batch of victims. *)
Record evict_ready (cfg : mega_config_t) (fuel : nat) (s : slabs_t) (batch : mega_batch_t)
    (i : nat) (p : slabclass_t) (bf : mega_batch_buf_t) : Prop := {
  er_cfg : cfg_ok cfg;
  er_evict : evict cfg = true;
  er_batch_size : 0 < evict_batch_size cfg ≤ 512;
  er_slabs : slabs_wf cfg s;
  er_full : memory_full s = true;
  er_class : slabclass s !! i = Some p;
  er_some : 0 < sc_slabs p;
  er_exact : 64 * bm_current_size (sc_bitmap p) = sc_perslab p * sc_slabs p;
  er_fuel : 2 * evict_batch_size cfg + Z.of_nat (zero_words (bm_map (sc_bitmap p))) ≤ Z.of_nat fuel;
  er_receiver : 0 ≤ receiver_buf_id batch;
  er_buf : buf batch !! Z.to_nat (receiver_buf_id batch) = Some bf;
  er_room : delete_room cfg bf (evict_batch_size cfg + 63);
}.

Definition swept (cfg : mega_config_t) (fuel : nat) (p : slabclass_t) (victims : list Z)
    (bm' : bitmap_t) : Prop :=
  sweep fuel (bm_current_size (sc_bitmap p)) (bm_walker (sc_bitmap p)) (evict_batch_size cfg)
    (bm_map (sc_bitmap p)) [] = Some (bm_map bm', victims, bm_walker bm').

Lemma item_alloc_once_evicts malloc_ok garbage cfg fuel s batch i p bf ntotal n :
  evict_ready cfg (S fuel) s batch i p bf → (i < 8)%nat →
  ∃ victims bm' n' h' used head,
    swept cfg (S fuel) p victims bm' ∧
    evicts p victims (heap s) h' [] used head ∧ Forall (λ o, 0 ≤ o < sc_perslab p * sc_slabs p) victims ∧
    slabs_wf cfg (with_heap (with_classes s (<[i := set_bitmap p bm']> (slabclass s))) h') ∧
    item_alloc_once malloc_ok garbage cfg (λ _ b, b) (S fuel) ntotal (Z.of_nat i) n s batch =
      if Z.of_nat (length used) =? 0 then Err Exit
      else Ok (n', with_heap (with_classes s (<[i := set_bitmap p bm']> (slabclass s))) h',
               append_deletes batch (receiver_buf_id batch) bf (job_of (heap s) <$> used), head).
Proof.
  intros [Hcfg Hev Hbs Hs Hfull Hp Hsl Hexact Hfuel Hrid0 Hbf Hroom] Hi.
  pose proof (sw_class Hs (Z.of_nat i) p ltac:(lia) ltac:(by rewrite Nat2Z.id)) as Hwf.
  destruct (cw_bitmap Hwf) as [Hbm Hmask]. pose proof (cw_elems Hwf). pose proof (wf_current _ Hbm).
  pose proof (class_perslab _ _ _ _ _ Hcfg Hwf) as [Hps _].
  destruct (bitmap_evict_batch_eq (S fuel) (sc_bitmap p) (replicate 575 0) (evict_batch_size cfg))
    as (m & out & w & Hsw & Hevict & Hlen & Hout & Hbm'); try done; [nia|lia|rewrite length_replicate; lia|].
  pose proof Hroom as (? & ? & ? & ?).
  assert (Hrange : Forall (λ o, 0 ≤ o < sc_perslab p * sc_slabs p) out)
    by (eapply Forall_impl; [exact Hout|]; simpl; lia).
  destruct (evict_items_quiet cfg fuel p _ out n (heap s) batch None [] 0 bf eq_refl Hrid0)
    as (n' & h' & used & head & Hitems & Hevs); try done; try (unfold delete_room; lia); try lia.
  { apply (class_numbered cfg (mallocs s) _ (Z.of_nat i)); [done..|lia]. }
  { constructor. }
  { by intros q ?%elem_of_nil. }
  pose proof (ev_len _ _ _ _ _ _ _ Hevs). set (bm' := Bitmap m _ _ w _) in *.
  exists out, bm', n', h', used, head. split; [done|]. split; [done|]. split; [done|]. split.
  - apply slabs_wf_items; [|simpl; by eapply evicts_same_items].
    rewrite <-(Nat2Z.id i). apply slabs_wf_bitmap; rewrite ?Nat2Z.id; done || lia.
  - unfold item_alloc_once. rewrite Hfull, Hev. cbn [negb].
    rewrite (arr_get_lookup _ (Z.of_nat i) p), bind_Ok by (lia || by rewrite Nat2Z.id).
    change (Z.to_nat (EVICT_BATCH_SIZE + 63)) with 575%nat. rewrite Hevict, bind_Ok. cbv beta iota.
    rewrite (assert_true (negb (_ =? 0))), bind_Ok by (apply negb_true_iff, Z.eqb_neq; lia).
    rewrite arr_set_in_bounds, bind_Ok by (rewrite (sw_num Hs); lia).
    rewrite Nat2Z.id, Nat2Z.id. unfold write_run. simpl take. cbn [app].
    rewrite take_app_length, Hitems, bind_Ok. by rewrite Z.add_0_l.
Qed.

Lemma item_alloc_evicts_spec malloc_ok garbage cfg fuel kvsize n s batch i p bf :
  evict_ready cfg (S fuel) s batch i p bf → 0 ≤ kvsize < 2 ^ 31 →
  list_find (λ p, sizeof_item + kvsize ≤ sc_size p) (slabclass s) = Some (i, p) →
  let res := item_alloc_batch malloc_ok garbage cfg (λ _ b, b) (S fuel) kvsize n s batch in
  ∃ victims bm',
    swept cfg (S fuel) p victims bm' ∧
    ((res = Err Exit ∧ ∀ o q it, o ∈ victims → item_at p o = Ok q → heap s !! q = Some it →
        it_flags it ≠ 0) ∨
     ∃ n' h' used q,
       let s' := with_heap (with_classes s (<[i := set_bitmap p bm']> (slabclass s))) h' in
       res = Ok (n', s', append_deletes batch (receiver_buf_id batch) bf (job_of (heap s) <$> used),
                 Some q) ∧
       slabs_wf cfg s' ∧ evicts p victims (heap s) h' [] used (Some q) ∧
       Forall (λ o, 0 ≤ o < sc_perslab p * sc_slabs p) victims).
Proof.
  intros Hready Hkv Hfind res. unfold sizeof_item in *.
  destruct (find_class cfg s (24 + kvsize) i p (er_slabs _ _ _ _ _ _ _ Hready) Hfind ltac:(lia))
    as (Hcls & Hi & Hp & Hchk).
  destruct (item_alloc_once_evicts malloc_ok garbage cfg fuel s batch i p bf (24 + kvsize) n Hready Hi)
    as (out & bm' & n' & h' & used & head & Hsw & Hevs & Hrange & Hwf & Honce).
  exists out, bm'. split; [done|].
  unfold res, item_alloc_batch, sizeof_item. rewrite wrap_id by (unfold in_range; lia).
  rewrite Hcls, bind_Ok, Hchk. cbn [item_alloc_loop]. rewrite Honce.
  destruct used as [|u used]; simpl.
  - left. split; [done|]. intros o q it Ho Hat Hq Hf.
    pose proof (ev_all _ _ _ _ _ _ _ Hevs o q it Ho Hat Hq Hf) as Hin. by apply elem_of_nil in Hin.
  - right. pose proof (ev_chain _ _ _ _ _ _ _ Hevs) as Hch.
    rewrite reverse_cons, app_nil_r in Hch. destruct (reverse used ++ [u]) as [|q l] eqn:Hl.
    { by destruct (reverse used). }
    destruct Hch as (-> & _). by exists n', h', (u :: used), q.
Qed.

Lemma swept_length cfg fuel s batch i p bf victims bm' :
  evict_ready cfg fuel s batch i p bf → (i < 8)%nat → swept cfg fuel p victims bm' →
  Z.of_nat (length victims) ≤ evict_batch_size cfg + 63.
Proof.
  intros [Hcfg _ Hbs Hs _ Hp Hsl Hexact Hfuel _ _ _] Hi Hsw.
  pose proof (sw_class Hs (Z.of_nat i) p ltac:(lia) ltac:(by rewrite Nat2Z.id)) as Hwf.
  destruct (cw_bitmap Hwf) as [Hbm Hmask]. pose proof (class_perslab _ _ _ _ _ Hcfg Hwf) as [Hps _].
  destruct (bitmap_evict_batch_eq fuel (sc_bitmap p) (replicate 575 0) (evict_batch_size cfg))
    as (m & out & w & Hsw' & _ & Hlen & _); try done; [nia|lia|rewrite length_replicate; lia|].
  unfold swept in Hsw. rewrite Hsw in Hsw'. injection Hsw' as _ <- _. lia.
Qed.

(** ** Properties *)

(** C20: eviction.  With the memory full, no other thread interfering and room in
    the delete buffer, [item_alloc_batch] takes the victims of the clock sweep.
    It ends the program if all of them are in local lists of free items; otherwise
    it returns the victims that were in use, linked, marked free and without
    duplicates, changes no other item, keeps the allocator's invariant, and appends
    for each of them a delete job with its signature, hash and location to the
    Receiver's buffer. *)
Theorem item_alloc_evicts malloc_ok garbage cfg fuel kvsize n s batch i p bf :
  evict_ready cfg (S fuel) s batch i p bf → 0 ≤ kvsize < 2 ^ 31 →
  list_find (λ p, sizeof_item + kvsize ≤ sc_size p) (slabclass s) = Some (i, p) →
  let res := item_alloc_batch malloc_ok garbage cfg (λ _ b, b) (S fuel) kvsize n s batch in
  ∃ victims bm',
    swept cfg (S fuel) p victims bm' ∧
    ((res = Err Exit ∧ ∀ o q it, o ∈ victims → item_at p o = Ok q → heap s !! q = Some it →
        it_flags it ≠ 0) ∨
     ∃ n' h' used q,
       let s' := with_heap (with_classes s (<[i := set_bitmap p bm']> (slabclass s))) h' in
       res = Ok (n', s', append_deletes batch (receiver_buf_id batch) bf (job_of (heap s) <$> used),
                 Some q) ∧
       slabs_wf cfg s' ∧ evicts p victims (heap s) h' [] used (Some q) ∧
       Forall (λ o, 0 ≤ o < sc_perslab p * sc_slabs p) victims).
Proof. apply item_alloc_evicts_spec. Qed.

(** A full delete buffer loses the index entry.  When the delete buffer of the
    Receiver's batch has at most one place left, the next victim in use is taken
    for the new item all the same, but the number of delete jobs stays what it is:
    the GPU index keeps pointing at an item that will hold another key. *)
Theorem evict_without_delete_job cfg fuel p o offsets n h batch it_list cnt q it bf :
  let id := receiver_buf_id batch in
  0 ≤ id → buf batch !! Z.to_nat id = Some bf → 0 ≤ num_delete_job bf < 2 ^ 31 →
  num_delete_job bf < Z.of_nat (length (delete_in bf)) →
  batch_max_delete_job cfg ≤ num_delete_job bf + 1 →
  0 ≤ o < sc_perslab p * sc_slabs p → sc_perslab p * sc_slabs p < 2 ^ 32 →
  item_at p o = Ok q → h !! q = Some it → it_flags it = 0 → loc_offset (it_loc it) = o →
  ∃ n' batch',
    evict_items cfg (λ _ b, b) (S fuel) p (o :: offsets) n h batch it_list cnt =
      Ok (n', <[q := evicted it it_list]> h, batch', Some q, u32 (cnt + 1)) ∧
    num_delete_job <$> buf batch' = num_delete_job <$> buf batch.
Proof.
  intros id Hid Hbf Hnum Hlen Hfull Ho Hp Hat Hq Hf Hloc. cbn [evict_items].
  rewrite (wrap_id 32 (sc_perslab p * sc_slabs p)) by (unfold in_range; lia).
  rewrite assert_true, bind_Ok by (apply Z.ltb_lt; lia). rewrite Hat, bind_Ok, Hq, Hf.
  cbn [Z.eqb negb add_delete_job]. fold id. rewrite (arr_get_lookup _ _ _ Hid Hbf), bind_Ok.
  rewrite (wrap_id 32 (num_delete_job bf)) by (unfold in_range; lia).
  destruct (Z.leb_spec (batch_max_delete_job cfg) (num_delete_job bf)).
  { rewrite bind_Ok. by eexists _, batch. }
  rewrite (arr_set_in_bounds (delete_in bf)), bind_Ok by lia.
  rewrite (assert_true (o =? _)), bind_Ok by (by apply Z.eqb_eq).
  rewrite (wrap_id 32 (num_delete_job bf + 1)) by (unfold in_range; lia).
  destruct (Z.leb_spec (batch_max_delete_job cfg) (num_delete_job bf + 1)); [|lia].
  rewrite (arr_set_in_bounds (buf batch)), !bind_Ok by (pose proof (lookup_lt_Some _ _ _ Hbf); lia).
  eexists _, _. split; [done|]. simpl. rewrite list_fmap_insert. simpl. apply list_insert_id.
  by rewrite list_lookup_fmap, Hbf.
Qed.

(** [memory_full] is one flag for all classes.  Once any class has failed to
    grow, a request for a class that has no slab yet fails the assertion at the
    start of [bitmap_evict_batch] and ends the server. *)
Theorem full_memory_aborts_new_class malloc_ok garbage cfg env fuel kvsize n s batch i p :
  slabs_wf cfg s → memory_full s = true → evict cfg = true → 0 ≤ kvsize < 2 ^ 31 →
  list_find (λ p, sizeof_item + kvsize ≤ sc_size p) (slabclass s) = Some (i, p) →
  bm_current_size (sc_bitmap p) = 0 →
  item_alloc_batch malloc_ok garbage cfg env fuel kvsize n s batch = Err AssertFail.
Proof.
  intros Hs Hfull Hev Hkv Hfind Hcur. unfold sizeof_item in *.
  destruct (find_class cfg s (24 + kvsize) i p Hs Hfind ltac:(lia)) as (Hcls & Hi & Hp & Hchk).
  unfold item_alloc_batch, sizeof_item. rewrite wrap_id by (unfold in_range; lia).
  rewrite Hcls, bind_Ok, Hchk. cbn [item_alloc_loop]. unfold item_alloc_once. rewrite Hfull, Hev.
  cbn [negb]. rewrite (arr_get_lookup _ (Z.of_nat i) p), bind_Ok by (lia || by rewrite Nat2Z.id).
  unfold bitmap_evict_batch. by rewrite Hcur.
Qed.

(** ** The properties at a small allocator

    The allocator with one slab, all of whose items but the one with location 0
    are in use, and no memory left. *)
Definition use (it : item) : item := if it_loc it =? 0 then it else set_flags it 0.
Definition ex_used : slabs_t := with_full (with_heap ex_slabs1 (use <$> heap ex_slabs1)).
#[local] Opaque ex_slabs1.

Lemma ex_used_wf : slabs_wf ex_cfg ex_used.
Proof.
  apply slabs_wf_full, slabs_wf_items; [apply ex_slabs1_wf|].
  intros q. rewrite lookup_fmap. destruct (heap ex_slabs1 !! q) as [it|]; simpl; [|done].
  unfold use. by destruct (_ =? _); split_and!.
Qed.

#[local] Opaque ex_used.
Definition ex_used_class : slabclass_t := default ex_class (head (slabclass ex_used)).
Definition ex_buf : mega_batch_buf_t :=
  BatchBuf [] [] (replicate 4096 (Ielem 0 0 0)) [] [] [] 0 0 0 0 [].
Definition ex_receiver : mega_batch_t :=
  Batch (replicate 3 ex_buf) 0 (-1) (1, 2) (-1) (-1) [] [].

Lemma ex_used_find :
  list_find (λ p, sizeof_item + 16 ≤ sc_size p) (slabclass ex_used) = Some (0%nat, ex_used_class).
Proof. vm_compute. reflexivity. Qed.

Lemma ex_evict_ready : evict_ready ex_cfg 1024 ex_used ex_receiver 0 ex_used_class ex_buf.
Proof.
  refine (Build_evict_ready _ _ _ _ _ _ _ ex_cfg_ok _ _ ex_used_wf _ _ _ _ _ _ _ _);
    try (vm_compute; reflexivity).
  - by vm_compute.
  - vm_compute. discriminate.
  - by vm_compute.
  - unfold delete_room. split_and!; vm_compute; done.
Qed.

Lemma item_alloc_evicts_witness :
  let res := item_alloc_batch (λ _, true) (λ _, 0) ex_cfg (λ _ b, b) 1024 16 0 ex_used ex_receiver in
  res = Err Exit ∨ ∃ n' s' b' q, res = Ok (n', s', b', Some q) ∧ slabs_wf ex_cfg s'.
Proof.
  destruct (item_alloc_evicts (λ _, true) (λ _, 0) ex_cfg 1023 16 0 ex_used ex_receiver 0
    ex_used_class ex_buf ex_evict_ready ltac:(done) ex_used_find) as (v & bm & _ & [[H _]|H]);
    [by left|right].
  destruct H as (n' & h' & used & q & H & Hwf & _). eexists n', _, _, q. split; [exact H | exact Hwf].
Defined.

(** One item in use, and a delete buffer of two places of which one is taken. *)
Definition ex_item : item := Item None 0 0 8 8 1 [1; 2; 3; 4; 5; 6; 7; 8].
Definition ex_full_buf : mega_batch_buf_t :=
  BatchBuf [] [] (replicate 4096 (Ielem 0 0 0)) [] [] [] 0 0 4095 0 [].
Definition ex_full_receiver : mega_batch_t :=
  Batch (replicate 3 ex_full_buf) 1 (-1) (2, 0) (-1) (-1) [] [].

Lemma evict_without_delete_job_witness :
  ∃ n' batch', evict_items ex_cfg (λ _ b, b) 1 ex_used_class [1] 0 {[ (9, 40) := ex_item ]}
      ex_full_receiver None 0 =
    Ok (n', <[(9, 40) := evicted ex_item None]> {[ (9, 40) := ex_item ]}, batch', Some (9, 40), 1) ∧
    num_delete_job <$> buf batch' = num_delete_job <$> buf ex_full_receiver.
Proof.
  refine (evict_without_delete_job ex_cfg 0 ex_used_class 1 [] 0 _ ex_full_receiver None 0 (9, 40)
    ex_item ex_full_buf _ _ _ _ _ _ _ _ _ _ _); vm_compute; done.
Defined.

Lemma full_memory_aborts_new_class_witness :
  item_alloc_batch (λ _, true) (λ _, 0) ex_cfg (λ _ b, b) 1024 100 0 ex_used ex_receiver =
    Err AssertFail.
Proof.
  refine (full_memory_aborts_new_class (λ _, true) (λ _, 0) ex_cfg (λ _ b, b) 1024 100 0 ex_used
    ex_receiver 2 (default ex_class (slabclass ex_used !! 2%nat)) ex_used_wf _ _ _ _ _);
    vm_compute; done.
Defined.
