(* ===== verification/Packet.v ===== *)
(** * Packets

    A packet is the list of the bytes of its memory buffer.  Multi-byte loads and
    stores are little-endian, as on the machines the program is written for; one
    outside of the buffer is out of bounds.  The constants are those of
    src/src/include/mega_common.h, the offsets those of DPDK's packed headers. *)

From Stdlib Require Import Sorting.Sorted.
From S2P Require Import Prelude Slabs.

(** ** mega_common.h *)

Definition PROTOCOL_MAGIC : Z := 0x1234.
Definition PROTOCOL_VALUE : Z := 0x0001.
Definition PROTOCOL_GET_NOT_FOUND : Z := 0x0002.
Definition ETHERNET_MAX_FRAME_LEN : Z := 1514.

(** ** Loads *)

Definition bytes_at (pkt : list Z) (off len : Z) : result (list Z) :=
  if (0 <=? off) && (0 <=? len) && (off + len <=? Z.of_nat (length pkt))
  then Ok (take (Z.to_nat len) (drop (Z.to_nat off) pkt))
  else Err OutOfBounds.

Definition load (pkt : list Z) (off : Z) (n : nat) : result Z :=
  bs ← bytes_at pkt off (Z.of_nat n); Ok (load_le n bs).

(** Offsets in the headers: [ether_hdr] (14 bytes), [ipv4_hdr] (20), [udp_hdr] (8). *)
Definition off_s_addr : Z := 6.
Definition off_src_addr : Z := 14 + 12.
Definition off_src_port : Z := 14 + 20.
Definition off_payload : Z := 14 + 20 + 8.

(** ** Stores *)

Fixpoint store_le (n : nat) (x : Z) : list Z :=
  match n with O => [] | S n => x mod 256 :: store_le n (x / 256) end.

Definition store (pkt : list Z) (off : Z) (n : nat) (x : Z) : result (list Z) :=
  if (0 <=? off) && (off + Z.of_nat n <=? Z.of_nat (length pkt))
  then Ok (write_run pkt (Z.to_nat off) (store_le n x)) else Err OutOfBounds.

(** A sequence of stores: offset, number of bytes, value. *)
Fixpoint stores (pkt : list Z) (l : list (Z * nat * Z)) : result (list Z) :=
  match l with
  | [] => Ok pkt
  | (off, n, x) :: l => pkt ← store pkt off n x; stores pkt l
  end.

(** [rte_cpu_to_be_16] *)
Definition be16 (x : Z) : Z := Z.lor (Z.shiftl (Z.land x 0xff) 8) (Z.land (Z.shiftr x 8) 0xff).

(** ** Lemmas *)

Lemma length_store_le n x : length (store_le n x) = n.
Proof. revert x. induction n as [|n IH]; intros x; simpl; [done|]. by rewrite IH. Qed.

Lemma load_store_le n x : 0 ≤ x < 256 ^ Z.of_nat n → load_le n (store_le n x) = x.
Proof.
  revert x. induction n as [|n IH]; intros x Hx; simpl; [simpl in Hx; lia|].
  rewrite Nat2Z.inj_succ, Z.pow_succ_r in Hx by lia. rewrite IH.
  - pose proof (Z.div_mod x 256). lia.
  - split; [apply Z.div_pos; lia | apply Z.div_lt_upper_bound; lia].
Qed.

Definition byte (b : Z) : Prop := 0 ≤ b < 256.

Lemma load_le_range n bs : Forall byte bs → 0 ≤ load_le n bs < 256 ^ Z.of_nat n.
Proof.
  revert bs. induction n as [|n IH]; intros bs Hbs; [simpl; lia|].
  rewrite Nat2Z.inj_succ, Z.pow_succ_r by lia. destruct bs as [|b bs]; cbn [load_le].
  - split; [lia|]. assert (0 < 256 ^ Z.of_nat n) by (apply Z.pow_pos_nonneg; lia). lia.
  - apply Forall_cons in Hbs as [Hb Hbs]. specialize (IH bs Hbs). unfold byte in Hb. lia.
Qed.

Lemma bytes_at_app pre bs post off len :
  off = Z.of_nat (length pre) → len = Z.of_nat (length bs) →
  bytes_at (pre ++ bs ++ post) off len = Ok bs.
Proof.
  intros -> ->. unfold bytes_at. rewrite !length_app.
  cmp_cases. f_equal.
  rewrite !Nat2Z.id, drop_app_length. apply take_app_length.
Qed.

Lemma load_app pre bs post off n :
  off = Z.of_nat (length pre) → length bs = n →
  load (pre ++ bs ++ post) off n = Ok (load_le n bs).
Proof. intros -> <-. unfold load. by rewrite (bytes_at_app pre bs post). Qed.

Lemma load_le_app n bs post : length bs = n → load_le n (bs ++ post) = load_le n bs.
Proof.
  intros <-. induction bs as [|b bs IH]; simpl; [by destruct post|]. by rewrite IH.
Qed.

Lemma load_le_app_more n m a b :
  length a = n → load_le (n + m) (a ++ b) = load_le n a + 256 ^ Z.of_nat n * load_le m b.
Proof.
  intros <-. induction a as [|x a IH]; [simpl; lia|]. cbn [length app load_le Nat.add].
  rewrite IH, Nat2Z.inj_succ, Z.pow_succ_r by lia. lia.
Qed.

Lemma load_le_split n m bs :
  (n ≤ length bs)%nat → load_le (n + m) bs = load_le n bs + 256 ^ Z.of_nat n * load_le m (drop n bs).
Proof.
  intros Hn. rewrite <-(take_drop n bs) at 1 2. rewrite load_le_app_more, load_le_app by (rewrite length_take; lia). done.
Qed.

Lemma load_prefix pre bs post off n :
  off = Z.of_nat (length pre) → (n ≤ length bs)%nat →
  load (pre ++ bs ++ post) off n = Ok (load_le n bs).
Proof.
  intros Hoff Hn. rewrite <-(take_drop n bs) at 1. rewrite <-app_assoc.
  rewrite (load_app pre (take n bs)) by (done || rewrite length_take; lia).
  f_equal. rewrite <-(take_drop n bs) at 2. rewrite load_le_app; [done|]. rewrite length_take. lia.
Qed.

Lemma load_Ok_range pkt off n x : Forall byte pkt → load pkt off n = Ok x → 0 ≤ x.
Proof.
  intros Hp H. unfold load, bytes_at in H. destruct (_ && _ && _); [|done].
  injection H as <-. by apply load_le_range, Forall_take, Forall_drop.
Qed.

Lemma store_Ok pkt off n x pkt' :
  store pkt off n x = Ok pkt' →
  0 ≤ off ∧ off + Z.of_nat n ≤ Z.of_nat (length pkt) ∧
  pkt' = write_run pkt (Z.to_nat off) (store_le n x).
Proof. unfold store. cmp_cases; intros [= <-]; auto. Qed.

Lemma store_in_bounds pkt off n x :
  0 ≤ off → off + Z.of_nat n ≤ Z.of_nat (length pkt) →
  ∃ pkt', store pkt off n x = Ok pkt' ∧ length pkt' = length pkt.
Proof.
  intros. unfold store. cmp_cases. eexists. split; [done|].
  apply write_run_length. rewrite length_store_le. lia.
Qed.

Lemma write_run_lookup {A} (arr l : list A) i j :
  (i + length l ≤ length arr)%nat →
  write_run arr i l !! j = if decide (i ≤ j < i + length l)%nat then l !! (j - i)%nat else arr !! j.
Proof.
  intros. unfold write_run. destruct (decide (j < i)%nat).
  - rewrite lookup_app_l by (rewrite length_take; lia). rewrite lookup_take_lt by lia.
    by rewrite decide_False by lia.
  - rewrite lookup_app_r by (rewrite length_take; lia). rewrite length_take, Nat.min_l by lia.
    case_decide; [by rewrite lookup_app_l by lia|].
    rewrite lookup_app_r, lookup_drop by lia. f_equal. lia.
Qed.

Lemma bytes_at_lookup (pkt : list Z) (off : Z) (len k : nat) :
  (k < len)%nat →
  take len (drop (Z.to_nat off) pkt) !! k = pkt !! (Z.to_nat off + k)%nat.
Proof. intros. by rewrite lookup_take_lt, lookup_drop by lia. Qed.

Lemma load_store_same pkt off n x pkt' :
  store pkt off n x = Ok pkt' → 0 ≤ x < 256 ^ Z.of_nat n → load pkt' off n = Ok x.
Proof.
  intros (Ho & Hl & ->)%store_Ok Hx. unfold load, bytes_at.
  rewrite write_run_length by (rewrite length_store_le; lia). cmp_cases.
  rewrite <-(load_store_le n x Hx) at 2. do 2 f_equal. apply list_eq. intros k.
  rewrite Nat2Z.id. destruct (decide (k < n)%nat).
  - rewrite bytes_at_lookup by lia.
    rewrite write_run_lookup by (rewrite length_store_le; lia).
    rewrite length_store_le, decide_True by lia. f_equal. lia.
  - rewrite !lookup_ge_None_2; [done|rewrite length_store_le; lia|rewrite length_take; lia].
Qed.

Lemma load_write_run_other pkt i (l : list Z) off n :
  (i + length l ≤ length pkt)%nat →
  off + Z.of_nat n ≤ Z.of_nat i ∨ Z.of_nat i + Z.of_nat (length l) ≤ off →
  load (write_run pkt i l) off n = load pkt off n.
Proof.
  intros Hl Hd. unfold load, bytes_at.
  rewrite write_run_length by done. cmp_cases; rewrite ?Nat2Z.id; [|done..].
  do 2 f_equal. apply list_eq. intros k. destruct (decide (k < n)%nat).
  - rewrite !bytes_at_lookup by lia. rewrite write_run_lookup by done. by rewrite decide_False by lia.
  - rewrite !lookup_ge_None_2; [done|rewrite length_take; lia..].
Qed.

Lemma load_store_other pkt off n x pkt' off' m :
  store pkt off n x = Ok pkt' → off' + Z.of_nat m ≤ off ∨ off + Z.of_nat n ≤ off' →
  load pkt' off' m = load pkt off' m.
Proof.
  intros (Ho & Hl & ->)%store_Ok Hd. apply load_write_run_other; rewrite length_store_le; lia.
Qed.

(** ** Sequences of stores *)

Lemma stores_in_bounds l pkt :
  Forall (λ '(off, n, _), 0 ≤ off ∧ off + Z.of_nat n ≤ Z.of_nat (length pkt)) l →
  ∃ pkt', stores pkt l = Ok pkt' ∧ length pkt' = length pkt.
Proof.
  revert pkt. induction l as [|[[off n] x] l IH]; intros pkt Hl; [by exists pkt|].
  apply Forall_cons in Hl as [[H0 H1] Hl]. cbn [stores].
  destruct (store_in_bounds pkt off n x H0 H1) as (p1 & -> & L1). rewrite bind_Ok.
  destruct (IH p1) as (p2 & -> & L2).
  - eapply Forall_impl; [exact Hl|]. intros [[off' n'] x']. by rewrite L1.
  - exists p2. split; [done|]. congruence.
Qed.

(** What no store of the sequence touches. *)
Lemma load_stores_other l pkt pkt' off n :
  stores pkt l = Ok pkt' →
  Forall (λ '(off', n', _), off + Z.of_nat n ≤ off' ∨ off' + Z.of_nat n' ≤ off) l →
  load pkt' off n = load pkt off n.
Proof.
  revert pkt. induction l as [|[[off' n'] x] l IH]; intros pkt Hs Hl; [by injection Hs as ->|].
  apply Forall_cons in Hl as [H0 Hl]. cbn [stores] in Hs. apply bind_Ok_inv in Hs as (p1 & Hp1 & Hs).
  rewrite (IH p1 Hs Hl). eapply load_store_other; [exact Hp1|]. lia.
Qed.

(** Fields in ascending order that do not overlap: each holds what was stored. *)
Definition before (p q : Z * nat * Z) : Prop := p.1.1 + Z.of_nat p.1.2 ≤ q.1.1.

Lemma load_stores_field l pkt pkt' off n x :
  StronglySorted before l → stores pkt l = Ok pkt' → (off, n, x) ∈ l → 0 ≤ x < 256 ^ Z.of_nat n →
  load pkt' off n = Ok x.
Proof.
  intros Hl. revert pkt. induction Hl as [|[[off' n'] x'] l _ IH Hb]; intros pkt Hs Hin Hx; [by apply elem_of_nil in Hin|].
  cbn [stores] in Hs. apply bind_Ok_inv in Hs as (p1 & Hp1 & Hs).
  apply elem_of_cons in Hin as [[= -> -> ->]|Hin]; [|by eapply IH].
  rewrite (load_stores_other l p1 pkt' off' n' Hs); [by eapply load_store_same|].
  eapply Forall_impl; [exact Hb|]. intros [[? ?] ?] H. left. exact H.
Qed.

Lemma bytes_at_take pkt k off len :
  0 ≤ off → 0 ≤ len → off + len ≤ Z.of_nat k → (k ≤ length pkt)%nat →
  bytes_at (take k pkt) off len = bytes_at pkt off len.
Proof.
  intros. unfold bytes_at. rewrite length_take. cmp_cases. f_equal.
  rewrite skipn_firstn_comm, take_take. f_equal. lia.
Qed.

Lemma load_take pkt k off n :
  0 ≤ off → off + Z.of_nat n ≤ Z.of_nat k → (k ≤ length pkt)%nat → load (take k pkt) off n = load pkt off n.
Proof. intros. unfold load. by rewrite bytes_at_take by lia. Qed.
