(* ===== verification/Receiver.v ===== *)
(** * The Receiver (src/src/mega_recv.c)

    [process_packet] parses one UDP packet and adds its jobs to the Receiver's
    current batch buffer.  The packet is the list of the bytes of its memory
    buffer, of which the first [pkt_len] were received; a load outside of the
    buffer is out of bounds.  Multi-byte loads are little-endian.

    The active build defines [COMPACT_JOB] (consecutive searches of one client
    share a job) and not [SIGNATURE]; the parameter [compact] selects between the
    two versions of the search branch.  Other threads act as in [Items]: before
    the [n]th read of [receiver_buf_id] the batch becomes [env n] of what it was. *)

From S2P Require Import Prelude GpuHash Config Bitmap Slabs Batch Items Packet.

Record client_t := Client { c_eth : Z; c_ip : Z; c_port : Z }.

(** What the Receiver thread works on: the number of reads of [receiver_buf_id],
    the allocator, its batch, and its own counters [receivers[unique_id]]. *)
Record rstate := RState {
  r_reads : nat;
  r_slabs : slabs_t;
  r_batch : mega_batch_t;
  r_search_jobs : Z;
  r_insert_jobs : Z;
}.

Definition with_batch (st : rstate) (n : nat) (b : mega_batch_t) : rstate :=
  RState n (r_slabs st) b (r_search_jobs st) (r_insert_jobs st).
Definition with_r_slabs (st : rstate) (s : slabs_t) : rstate :=
  RState (r_reads st) s (r_batch st) (r_search_jobs st) (r_insert_jobs st).

(** Buffer [id] of the batch, by reference. *)
Definition upd_buf (b : mega_batch_t) (id : Z) (f : mega_batch_buf_t → result mega_batch_buf_t)
    : result mega_batch_t :=
  bf ← arr_get (buf b) id;
  bf ← f bf;
  bufs ← arr_set (buf b) id bf;
  Ok (set_buf b bufs).

Definition set_search (b : mega_batch_buf_t) (l : list selem_t) (n : Z)
    (jobs : list mega_job_search_t) (c : Z) : mega_batch_buf_t :=
  {| search_in := l;
     search_out := search_out b;
     delete_in := delete_in b;
     insert_in := insert_in b;
     search_job_list := jobs;
     insert_job_list := insert_job_list b;
     num_search_job := n;
     num_insert_job := num_insert_job b;
     num_delete_job := num_delete_job b;
     num_compact_search_job := c;
     insert_buf := insert_buf b |}.

Definition set_insert (b : mega_batch_buf_t) (l : list ielem_t) (jobs : list (option ptr)) (n : Z)
    (ib : list mega_batch_insert_t) : mega_batch_buf_t :=
  {| search_in := search_in b;
     search_out := search_out b;
     delete_in := delete_in b;
     insert_in := l;
     search_job_list := search_job_list b;
     insert_job_list := jobs;
     num_search_job := num_search_job b;
     num_insert_job := n;
     num_delete_job := num_delete_job b;
     num_compact_search_job := num_compact_search_job b;
     insert_buf := ib |}.

Definition set_num (j : mega_job_search_t) (n : Z) : mega_job_search_t :=
  JobSearch (js_eth_addr j) (js_ip j) (js_port j) n (js_index j).

(** [if (x < 0) x = 0] after a decrement. *)
Definition dec_clip (x : Z) : Z := if x - 1 <? 0 then 0 else x - 1.

(** The hash and the signature of a key: its two first words. *)
Definition key_elem (sig : Z) : selem_t :=
  Selem (u64 (Z.shiftl sig 32) / 2 ^ 32) (u32 (Z.shiftr sig 32)).

Section receiver.
Context (malloc_ok : Z → bool) (garbage : ptr → Z) (cfg : mega_config_t) (KVSIZE : Z).
Context (env : nat → mega_batch_t → mega_batch_t).

(** *** GET *)

(** The body between the two reads, [COMPACT_JOB] defined: the buffer and the
    index of the job the outer variable [job] points to. *)
Definition search_compact (cl : client_t) (sig : Z) (bf : mega_batch_buf_t)
    : result mega_batch_buf_t :=
  let c := num_compact_search_job bf in
  job ← arr_get (search_job_list bf) c;
  '(jobs, c) ← (if (js_ip job =? c_ip cl) && (js_port job =? c_port cl) then
      jobs ← arr_set (search_job_list bf) c (set_num job (u16 (js_num job + 1)));
      Ok (jobs, c)
    else
      jobs ← arr_set (search_job_list bf) (c + 1)
               (JobSearch (c_eth cl) (c_ip cl) (c_port cl) 1 (num_search_job bf));
      Ok (jobs, c + 1));
  l ← arr_set (search_in bf) (num_search_job bf) (key_elem sig);
  Ok (set_search bf l (num_search_job bf + 1) jobs c).

(** After a swap; [job] is the job at index [c0], the value of
    [num_compact_search_job] before. *)
Definition undo_compact (c0 : Z) (bf : mega_batch_buf_t) : result mega_batch_buf_t :=
  job ← arr_get (search_job_list bf) c0;
  let job := set_num job (u16 (js_num job - 1)) in
  jobs ← arr_set (search_job_list bf) c0 job;
  let c := num_compact_search_job bf in
  let c := if js_num job =? 0 then c - 1 else c in
  let c := if c <? 0 then 0 else c in
  Ok (set_search bf (search_in bf) (dec_clip (num_search_job bf)) jobs c).

(** [COMPACT_JOB] not defined: one job per search. *)
Definition search_plain (cl : client_t) (sig : Z) (bf : mega_batch_buf_t)
    : result mega_batch_buf_t :=
  let c := num_compact_search_job bf in
  jobs ← arr_set (search_job_list bf) c
           (JobSearch (c_eth cl) (c_ip cl) (c_port cl) 1 (num_search_job bf));
  l ← arr_set (search_in bf) (num_search_job bf) (key_elem sig);
  Ok (set_search bf l (num_search_job bf + 1) jobs (c + 1)).

Definition undo_plain (bf : mega_batch_buf_t) : result mega_batch_buf_t :=
  Ok (set_search bf (search_in bf) (dec_clip (num_search_job bf)) (search_job_list bf)
        (dec_clip (num_compact_search_job bf))).

Definition count_search (st : rstate) : rstate :=
  RState (r_reads st) (r_slabs st) (r_batch st) (r_search_jobs st + 1) (r_insert_jobs st).

(** From label [again] on; [None] is [return -1]. *)
Fixpoint add_search (fuel : nat) (compact : bool) (st : rstate) (kk : Z) (cl : client_t) (sig : Z)
    : result (rstate * option Z) :=
  match fuel with
  | O => Err OutOfFuel
  | S fuel =>
      let b := env (r_reads st) (r_batch st) in
      let st := with_batch st (S (r_reads st)) b in
      let id := receiver_buf_id b in
      bf ← arr_get (buf b) id;
      if u32 (batch_max_search_job cfg - 1) <=? u32 (num_search_job bf) then Ok (st, None)
      else
        let st := count_search st in
        let kk := kk + 1 in
        b ← upd_buf b id (if compact then search_compact cl sig else search_plain cl sig);
        let b := env (r_reads st) b in
        if negb (id =? receiver_buf_id b) then
          b ← upd_buf b id
                (if compact then undo_compact (num_compact_search_job bf) else undo_plain);
          add_search fuel compact (with_batch st (S (r_reads st)) b) kk cl sig
        else Ok (with_batch st (S (r_reads st)) b, Some kk)
  end.

(** [case MEGA_JOB_GET], with [ptr] behind the job type: the new [ptr]. *)
Definition process_get (fuel : nat) (compact : bool) (pkt : list Z) (st : rstate) (kk ptr : Z)
    (cl : client_t) : result (rstate * option (Z * Z)) :=
  nkey ← load pkt ptr 2;
  let ptr := ptr + MEGA_KEY_SIZE_LEN in
  if negb (nkey =? KEY_LEN KVSIZE) then Ok (st, Some (kk, ptr + nkey))
  else
    sig ← load pkt ptr 8;
    '(st, r) ← add_search fuel compact st kk cl sig;
    Ok (st, match r with Some kk => Some (kk, ptr + nkey) | None => None end).

(** *** SET *)

(** The index [i] of [BATCH_ALLOC]. *)
Fixpoint slab_index (n : nat) (sizes : list Z) (i size : Z) : result Z :=
  match n with
  | O => Ok i
  | S n =>
      z ← arr_get sizes i;
      if size <=? z then Ok i else slab_index n sizes (i + 1) size
  end.

Definition write_item (s : slabs_t) (p : ptr) (f : item → result item) : result slabs_t :=
  match heap s !! p with
  | None => Err NullDeref
  | Some it => it ← f it; Ok (with_heap s (<[p := it]> (heap s)))
  end.

(** [BATCH_ALLOC]; [None] is the [break] for a size that is too large. *)
Definition batch_alloc (fuel : nat) (st : rstate) (size : Z) : result (rstate * option ptr) :=
  i ← slab_index (Z.to_nat (POWER_LARGEST - POWER_SMALLEST)) (local_slab_size (r_batch st))
        POWER_SMALLEST size;
  if i =? MAX_NUMBER_OF_SLAB_CLASSES then Ok (st, None)
  else
    slot ← arr_get (local_slab (r_batch st)) i;
    st ← (match slot with
          | Some _ => Ok st
          | None =>
              '(n, s, b, l) ← item_alloc_batch malloc_ok garbage cfg env fuel size (r_reads st)
                                (r_slabs st) (r_batch st);
              slabs ← arr_set (local_slab b) i l;
              Ok (RState n s (set_local_slab b slabs) (r_search_jobs st) (r_insert_jobs st))
          end);
    slot ← arr_get (local_slab (r_batch st)) i;
    match slot with
    | None => Err AssertFail
    | Some p =>
        match heap (r_slabs st) !! p with
        | None => Err NullDeref
        | Some it =>
            slabs ← arr_set (local_slab (r_batch st)) i (it_next it);
            s ← write_item (r_slabs st) p (λ it, Ok (set_flags it 0));
            Ok (with_r_slabs (with_batch st (r_reads st) (set_local_slab (r_batch st) slabs)) s,
                Some p)
        end
    end.

(** [it->nkey = nkey; it->nbytes = nbyte; rte_memcpy(ITEM_key(it), key, nkey + nbyte)];
    a copy that does not fit into the slot overwrites the next item. *)
Definition store_item (nkey nbyte : Z) (bytes : list Z) (it : item) : result item :=
  if (length (it_data it) <? length bytes)%nat then Err OutOfBounds
  else Ok (Item (it_next it) (it_flags it) (it_slabs_clsid it) nkey nbyte (it_loc it)
             (write_run (it_data it) 0 bytes)).

Definition insert_block_id (hash : Z) : Z :=
  if bits_insert_buf cfg =? 0 then 0 else u32 (Z.shiftr hash (32 - bits_insert_buf cfg)).

Definition set_num_insert (ib : mega_batch_insert_t) (n : Z) : mega_batch_insert_t :=
  BatchInsert (bi_insert_in ib) n.

(** The body between the two reads of an insertion. *)
Definition insert_job (blk : Z) (p : ptr) (it : item) (sig hash : Z) (bf : mega_batch_buf_t)
    : result mega_batch_buf_t :=
  ib ← arr_get (insert_buf bf) blk;
  jobs ← arr_set (insert_job_list bf) (num_insert_job bf) (Some p);
  l ← arr_set (insert_in bf) (bi_insert_in ib + bi_num_insert_job ib) (Ielem sig hash (it_loc it));
  ibs ← arr_set (insert_buf bf) blk (set_num_insert ib (bi_num_insert_job ib + 1));
  _ ← assert_ (u32 (bi_num_insert_job ib + 1) <=? batch_max_insert_job cfg);
  _ ← assert_ (u32 (num_insert_job bf + 1) <=? u32 (batch_max_insert_job cfg * INSERT_BLOCK));
  Ok (set_insert bf l jobs (num_insert_job bf + 1) ibs).

Definition undo_insert (blk : Z) (bf : mega_batch_buf_t) : result mega_batch_buf_t :=
  ib ← arr_get (insert_buf bf) blk;
  ibs ← arr_set (insert_buf bf) blk (set_num_insert ib (dec_clip (bi_num_insert_job ib)));
  Ok (set_insert bf (insert_in bf) (insert_job_list bf) (dec_clip (num_insert_job bf)) ibs).

Definition clear_flags (st : rstate) (p : ptr) : result rstate :=
  s ← write_item (r_slabs st) p (λ it, Ok (set_flags it 0)); Ok (with_r_slabs st s).

(** From label [reinsert] on; [false] is [return -1]. *)
Fixpoint add_insert (fuel : nat) (st : rstate) (blk : Z) (p : ptr) (it : item) (sig hash : Z)
    : result (rstate * bool) :=
  match fuel with
  | O => Err OutOfFuel
  | S fuel =>
      let b := env (r_reads st) (r_batch st) in
      let st := with_batch st (S (r_reads st)) b in
      let id := receiver_buf_id b in
      bf ← arr_get (buf b) id;
      if u32 (Z.shiftl (batch_max_insert_job cfg - 1) (bits_insert_buf cfg)) <=?
         u32 (num_insert_job bf)
      then st ← clear_flags st p; Ok (st, false)
      else
        ib ← arr_get (insert_buf bf) blk;
        if batch_max_insert_job cfg <=? u32 (bi_num_insert_job ib + 1)
        then st ← clear_flags st p; Ok (st, false)
        else
          b ← upd_buf b id (insert_job blk p it sig hash);
          let b := env (r_reads st) b in
          if negb (id =? receiver_buf_id b) then
            b ← upd_buf b id (undo_insert blk);
            add_insert fuel (with_batch st (S (r_reads st)) b) blk p it sig hash
          else Ok (with_batch st (S (r_reads st)) b, true)
  end.

Definition count_insert (st : rstate) : rstate :=
  RState (r_reads st) (r_slabs st) (r_batch st) (r_search_jobs st) (r_insert_jobs st + 1).

(** [case MEGA_JOB_SET], with [ptr] behind the job type. *)
Definition process_set (fuel : nat) (pkt : list Z) (st : rstate) (kk ptr : Z)
    : result (rstate * option (Z * Z)) :=
  nkey ← load pkt ptr 2;
  let ptr := ptr + MEGA_KEY_SIZE_LEN in
  nbyte ← load pkt ptr 4;
  let ptr := ptr + MEGA_VALUE_SIZE_LEN in
  let size := u32 (nkey + nbyte) in
  '(st, it) ← batch_alloc fuel st size;
  match it with
  | None => Ok (st, Some (kk, ptr + size))
  | Some p =>
      bytes ← bytes_at pkt ptr size;
      s ← write_item (r_slabs st) p (store_item nkey nbyte bytes);
      let st := with_r_slabs st s in
      if negb (nkey =? KEY_LEN KVSIZE) || negb (nbyte =? VALUE_LEN KVSIZE)
      then st ← clear_flags st p; Ok (st, Some (kk, ptr + size))
      else
        sig ← load pkt ptr 8;
        match heap (r_slabs st) !! p with
        | None => Err NullDeref
        | Some it =>
            let e := key_elem sig in
            '(st, ok) ← add_insert fuel (count_insert st) (insert_block_id (s_hash e)) p it
                          (s_sig e) (s_hash e);
            Ok (st, if (ok : bool) then Some (kk + 1, ptr + size) else None)
        end
  end.

(** *** Packets *)

(** The loop over the jobs; one unit of fuel per job. *)
Fixpoint process_jobs (jobs fuel : nat) (compact : bool) (pkt : list Z) (pkt_len : Z) (st : rstate)
    (kk ptr : Z) (cl : client_t) : result (rstate * Z) :=
  match jobs with
  | O => Err OutOfFuel
  | S jobs =>
      job_type ← load pkt ptr 2;
      let ptr := ptr + MEGA_JOB_TYPE_LEN in
      if job_type =? 0xFFFF then Ok (st, kk)
      else if (job_type =? MEGA_JOB_GET) || (job_type =? MEGA_JOB_SET) then
        '(st, r) ← (if job_type =? MEGA_JOB_GET then process_get fuel compact pkt st kk ptr cl
                    else process_set fuel pkt st kk ptr);
        match r with
        | None => Ok (st, -1)
        | Some (kk, ptr) =>
            if pkt_len <=? ptr then Ok (st, -1)
            else process_jobs jobs fuel compact pkt pkt_len st kk ptr cl
        end
      else Ok (st, -1)
  end.

Definition process_packet (jobs fuel : nat) (compact : bool) (pkt : list Z) (pkt_len : Z)
    (st : rstate) : result (rstate * Z) :=
  eth ← load pkt off_s_addr 6;
  ip ← load pkt off_src_addr 4;
  port ← load pkt off_src_port 2;
  magic ← load pkt off_payload 2;
  if negb (magic =? PROTOCOL_MAGIC) then Ok (st, -1)
  else process_jobs jobs fuel compact pkt pkt_len st 0 (off_payload + MEGA_MAGIC_NUM_LEN)
         (Client eth ip port).
End receiver.

(** ** The wire format *)

Definition encode_get (key : list Z) : list Z :=
  store_le 2 MEGA_JOB_GET ++ store_le 2 (Z.of_nat (length key)) ++ key.
Definition encode_set (key value : list Z) : list Z :=
  store_le 2 MEGA_JOB_SET ++ store_le 2 (Z.of_nat (length key)) ++
  store_le 4 (Z.of_nat (length value)) ++ key ++ value.
Definition end_mark : list Z := store_le 2 0xFFFF.

(** ** Lemmas: searches without interference *)

Abbreviation quiet := (λ (_ : nat) (b : mega_batch_t), b).

(** The jobs of a buffer after [n] searches of one client, at most [2^16] in a
    row. *)
Definition compact_jobs (cl : client_t) (n : Z) (bf : mega_batch_buf_t)
    : list mega_job_search_t * Z :=
  let c := num_compact_search_job bf in
  match search_job_list bf !! Z.to_nat c with
  | Some job =>
      if (js_ip job =? c_ip cl) && (js_port job =? c_port cl)
      then (<[Z.to_nat c := set_num job (js_num job + n)]> (search_job_list bf), c)
      else (<[Z.to_nat (c + 1) :=
              JobSearch (c_eth cl) (c_ip cl) (c_port cl) n (num_search_job bf)]>
              (search_job_list bf), c + 1)
  | None => (search_job_list bf, c)
  end.

Definition add_keys (cl : client_t) (elems : list selem_t) (bf : mega_batch_buf_t)
    : mega_batch_buf_t :=
  match elems with
  | [] => bf
  | _ =>
      let '(jobs, c) := compact_jobs cl (Z.of_nat (length elems)) bf in
      set_search bf (write_run (search_in bf) (Z.to_nat (num_search_job bf)) elems)
        (num_search_job bf + Z.of_nat (length elems)) jobs c
  end.

(** Room for [n] searches of client [cl]. *)
Record search_room (cfg : mega_config_t) (cl : client_t) (n : Z) (bf : mega_batch_buf_t) : Prop := {
  sr_num : 0 ≤ num_search_job bf;
  sr_max : num_search_job bf + n < batch_max_search_job cfg;
  sr_cfg : batch_max_search_job cfg < 2 ^ 31;
  sr_len : Z.of_nat (length (search_in bf)) = batch_max_search_job cfg;
  sr_compact : 0 ≤ num_compact_search_job bf < Z.of_nat (length (search_job_list bf));
  sr_new : ∀ job, search_job_list bf !! Z.to_nat (num_compact_search_job bf) = Some job →
    (js_ip job =? c_ip cl) && (js_port job =? c_port cl) = true ∨ n = 0 ∨
    num_compact_search_job bf + 1 < Z.of_nat (length (search_job_list bf));
  sr_count : ∀ job, search_job_list bf !! Z.to_nat (num_compact_search_job bf) = Some job →
    0 ≤ js_num job ∧ js_num job + n < 2 ^ 16;
  sr_small : 0 ≤ n < 2 ^ 16;
}.

Lemma search_compact_keys cfg cl sig bf :
  search_room cfg cl 1 bf → search_compact cl sig bf = Ok (add_keys cl [key_elem sig] bf).
Proof.
  intros [Hn Hmax Hcfg Hlen Hc Hnew Hcount _]. unfold search_compact, add_keys, compact_jobs.
  destruct (arr_get_in_bounds (search_job_list bf) (num_compact_search_job bf)) as (job & -> & Hj);
    [lia|]. rewrite bind_Ok, Hj. destruct (Hcount job Hj). specialize (Hnew job Hj).
  destruct (_ && _).
  - rewrite (arr_set_in_bounds (search_job_list bf)), !bind_Ok by lia. cbv beta iota.
    rewrite arr_set_in_bounds, bind_Ok by lia. rewrite wrap_id by (unfold in_range; lia).
    rewrite <-write_run_cons, write_run_nil by (simpl; lia). done.
  - destruct Hnew as [|[|]]; [done|lia|].
    rewrite (arr_set_in_bounds (search_job_list bf)), !bind_Ok by lia. cbv beta iota.
    rewrite arr_set_in_bounds, bind_Ok by lia.
    rewrite <-write_run_cons, write_run_nil by (simpl; lia). done.
Qed.

Lemma add_keys_cons cfg cl e es bf :
  search_room cfg cl (Z.of_nat (length (e :: es))) bf →
  search_room cfg cl (Z.of_nat (length es)) (add_keys cl [e] bf) ∧
  add_keys cl es (add_keys cl [e] bf) = add_keys cl (e :: es) bf.
Proof.
  intros [Hn Hmax Hcfg Hlen Hc Hnew Hcount Hsmall]. cbn [length] in *.
  destruct (search_job_list bf !! Z.to_nat (num_compact_search_job bf)) as [job|] eqn:Hj.
  2:{ apply lookup_ge_None in Hj. lia. }
  destruct (Hcount job eq_refl) as [Hnum1 Hnum2]. specialize (Hnew job eq_refl).
  assert (Hw : length (write_run (search_in bf) (Z.to_nat (num_search_job bf)) [e]) =
    length (search_in bf)) by (apply write_run_length; simpl; lia).
  assert (Hwr : write_run (write_run (search_in bf) (Z.to_nat (num_search_job bf)) [e])
      (Z.to_nat (num_search_job bf + 1)) es =
    write_run (search_in bf) (Z.to_nat (num_search_job bf)) (e :: es)).
  { replace (Z.to_nat (num_search_job bf + 1)) with (Z.to_nat (num_search_job bf) + length [e])%nat
      by (simpl; lia). apply (write_run_app _ _ [e]). simpl. lia. }
  unfold add_keys at 1 3, compact_jobs. rewrite Hj. change (Z.of_nat (length [e])) with 1.
  destruct ((js_ip job =? c_ip cl) && (js_port job =? c_port cl)) eqn:Hm.
  - assert (Hj' : <[Z.to_nat (num_compact_search_job bf) := set_num job (js_num job + 1)]>
        (search_job_list bf) !! Z.to_nat (num_compact_search_job bf) =
      Some (set_num job (js_num job + 1))) by (apply list_lookup_insert_eq; lia).
    split.
    + split; simpl; rewrite ?length_insert, ?Hw; try lia;
        intros job' Hj2; rewrite Hj' in Hj2; injection Hj2 as <-; simpl; [by left|lia].
    + unfold add_keys. destruct es as [|e' es]; [unfold compact_jobs; by rewrite Hj, Hm|].
      unfold compact_jobs. cbn [num_compact_search_job search_job_list set_search num_search_job search_in].
      rewrite Hj', Hj, Hm. cbn [js_ip js_port set_num js_num]. rewrite Hm, list_insert_insert_eq.
      unfold set_search. simpl. f_equal; [done|f_equal|lia].
      unfold set_num. simpl. f_equal. lia.
  - destruct Hnew as [|[|Hnew]]; [done|lia|]. set (new := JobSearch _ _ _ 1 _).
    assert (Hj' : <[Z.to_nat (num_compact_search_job bf + 1) := new]>
        (search_job_list bf) !! Z.to_nat (num_compact_search_job bf + 1) = Some new)
      by (apply list_lookup_insert_eq; lia).
    split.
    + split; simpl; rewrite ?length_insert, ?Hw; try lia;
        intros job' Hj2; rewrite Hj' in Hj2; injection Hj2 as <-; simpl; [|lia].
      left. by rewrite !Z.eqb_refl.
    + unfold add_keys. destruct es as [|e' es]; [unfold compact_jobs; by rewrite Hj, Hm|].
      unfold compact_jobs. cbn [num_compact_search_job search_job_list set_search num_search_job search_in].
      rewrite Hj', Hj, Hm. cbn [js_ip js_port new]. rewrite !Z.eqb_refl. cbn [andb].
      rewrite list_insert_insert_eq. unfold set_search. simpl. f_equal; [done|f_equal|lia].
      unfold set_num. simpl. f_equal. lia.
Qed.

(** The state after [n] searches have turned the Receiver's buffer into [bf]. *)
Definition searched (st : rstate) (bf : mega_batch_buf_t) (n : nat) : rstate :=
  RState (r_reads st + 2 * n) (r_slabs st)
    (set_buf (r_batch st) (<[Z.to_nat (receiver_buf_id (r_batch st)) := bf]> (buf (r_batch st))))
    (r_search_jobs st + Z.of_nat n) (r_insert_jobs st).

(** The Receiver's current buffer. *)
Definition current_buf (st : rstate) (bf : mega_batch_buf_t) : Prop :=
  0 ≤ receiver_buf_id (r_batch st) ∧
  buf (r_batch st) !! Z.to_nat (receiver_buf_id (r_batch st)) = Some bf.

Lemma searched_0 st bf : current_buf st bf → searched st bf 0 = st.
Proof.
  intros [_ Hb]. unfold searched. rewrite list_insert_id by done.
  destruct st as [? ? [] ? ?]. unfold set_buf. simpl. f_equal; lia.
Qed.

Lemma searched_searched st bf n bf' m :
  searched (searched st bf n) bf' m = searched st bf' (n + m).
Proof.
  unfold searched. simpl. unfold set_buf. simpl. rewrite list_insert_insert_eq. f_equal; lia.
Qed.

Lemma searched_current st bf bf' n : current_buf st bf → current_buf (searched st bf' n) bf'.
Proof.
  intros [H0 Hb]. split; [done|]. simpl. apply list_lookup_insert_eq. by eapply lookup_lt_Some.
Qed.

Lemma upd_buf_eq b id bf f bf' :
  0 ≤ id → buf b !! Z.to_nat id = Some bf → f bf = Ok bf' →
  upd_buf b id f = Ok (set_buf b (<[Z.to_nat id := bf']> (buf b))).
Proof.
  intros Hid Hb Hf. unfold upd_buf. rewrite (arr_get_lookup _ _ _ Hid Hb), bind_Ok, Hf, bind_Ok.
  by rewrite arr_set_in_bounds, bind_Ok by (pose proof (lookup_lt_Some _ _ _ Hb); lia).
Qed.

Lemma add_search_quiet cfg fuel st kk cl sig bf :
  current_buf st bf → search_room cfg cl 1 bf →
  add_search cfg quiet (S fuel) true st kk cl sig =
    Ok (searched st (add_keys cl [key_elem sig] bf) 1, Some (kk + 1)).
Proof.
  intros [Hid Hb] Hroom. pose proof Hroom as [Hn Hmax Hcfg Hlen _ _ _ _].
  cbn [add_search]. cbv zeta. cbn [r_batch r_reads with_batch count_search].
  rewrite (arr_get_lookup _ _ _ Hid Hb), bind_Ok.
  rewrite !wrap_id by (unfold in_range; lia).
  destruct (Z.leb_spec (batch_max_search_job cfg - 1) (num_search_job bf)); [lia|].
  rewrite (upd_buf_eq _ _ bf _ _ Hid Hb (search_compact_keys cfg cl sig bf Hroom)), bind_Ok.
  cbn [receiver_buf_id set_buf]. rewrite Z.eqb_refl. cbn [negb]. unfold searched, with_batch. simpl.
  do 2 f_equal. f_equal. lia.
Qed.

Definition key_ok (KVSIZE : Z) (key : list Z) : Prop :=
  Z.of_nat (length key) = KEY_LEN KVSIZE ∧ Forall byte key.

(** The hash and signature of a key given as bytes. *)
Definition elem_of_key (key : list Z) : selem_t := key_elem (load_le 8 key).

Lemma KEY_LEN_range KVSIZE : 8 ≤ KEY_LEN KVSIZE < 256.
Proof. unfold KEY_LEN. repeat case_match; lia. Qed.

Lemma length_encode_get key : length (encode_get key) = (4 + length key)%nat.
Proof. unfold encode_get. by rewrite !length_app, !length_store_le. Qed.

Lemma process_get_quiet cfg KVSIZE fuel pkt pre key post st kk cl bf :
  pkt = pre ++ store_le 2 (Z.of_nat (length key)) ++ key ++ post →
  key_ok KVSIZE key → current_buf st bf → search_room cfg cl 1 bf →
  process_get cfg KVSIZE quiet (S fuel) true pkt st kk (Z.of_nat (length pre)) cl =
    Ok (searched st (add_keys cl [elem_of_key key] bf) 1,
        Some (kk + 1, Z.of_nat (length pre) + 2 + Z.of_nat (length key))).
Proof.
  intros -> [Hlen Hkey] Hb Hroom. pose proof (KEY_LEN_range KVSIZE) as Hk. unfold process_get.
  rewrite (load_app pre _ _ _ 2), bind_Ok by (done || apply length_store_le).
  rewrite load_store_le by (change (256 ^ Z.of_nat 2) with 65536; lia).
  rewrite Hlen, Z.eqb_refl. cbn [negb]. unfold MEGA_KEY_SIZE_LEN.
  rewrite app_assoc, (load_prefix _ key post _ 8), bind_Ok
    by (rewrite ?length_app, ?length_store_le; lia).
  by rewrite (add_search_quiet _ _ _ _ _ _ bf Hb Hroom), bind_Ok.
Qed.

Definition gets (keys : list (list Z)) : list Z := concat (encode_get <$> keys).

(** One search at the front of the rest of a packet. *)
Lemma process_jobs_get cfg malloc_ok garbage KVSIZE cl jobs fuel pre key post pkt_len st kk bf :
  key_ok KVSIZE key → current_buf st bf → search_room cfg cl 1 bf →
  Z.of_nat (length (pre ++ encode_get key)) < pkt_len →
  process_jobs malloc_ok garbage cfg KVSIZE quiet (S jobs) (S fuel) true
    (pre ++ encode_get key ++ post) pkt_len st kk (Z.of_nat (length pre)) cl =
  process_jobs malloc_ok garbage cfg KVSIZE quiet jobs (S fuel) true
    ((pre ++ encode_get key) ++ post) pkt_len (searched st (add_keys cl [elem_of_key key] bf) 1)
    (kk + 1) (Z.of_nat (length (pre ++ encode_get key))) cl.
Proof.
  intros Hkey Hb Hroom Hlen. rewrite length_app, length_encode_get in *.
  rewrite <-app_assoc. cbn [process_jobs].
  rewrite (load_prefix pre (encode_get key) post _ 2), bind_Ok by (done || rewrite length_encode_get; lia).
  change (load_le 2 (encode_get key)) with 2. cbv zeta. cbn [Z.eqb MEGA_JOB_GET Pos.eqb orb].
  replace (Z.of_nat (length pre) + MEGA_JOB_TYPE_LEN)
    with (Z.of_nat (length (pre ++ store_le 2 MEGA_JOB_GET)))
    by (rewrite length_app, length_store_le; unfold MEGA_JOB_TYPE_LEN; lia).
  rewrite (process_get_quiet cfg KVSIZE fuel _ (pre ++ store_le 2 MEGA_JOB_GET) key post _ _ _ bf);
    [|unfold encode_get; by rewrite <-!app_assoc | done..].
  rewrite bind_Ok. cbv beta iota. rewrite length_app, length_store_le.
  destruct (Z.leb_spec pkt_len (Z.of_nat (length pre + 2) + 2 + Z.of_nat (length key))); [lia|].
  f_equal. lia.
Qed.

Lemma search_room_le cfg cl n m bf :
  search_room cfg cl n bf → 0 ≤ m ≤ n → m = 0 ∨ 0 < n → search_room cfg cl m bf.
Proof.
  intros [? ? ? ? ? Hnew Hcount ?] Hm Hn. split; try done; try lia; intros job Hj.
  - destruct (Hnew job Hj) as [|[|]]; [by left|right; left; lia|by right; right].
  - destruct (Hcount job Hj). lia.
Qed.

Lemma process_jobs_gets cfg malloc_ok garbage KVSIZE cl rest pkt_len fuel :
  ∀ keys jobs pre st kk bf,
  Forall (key_ok KVSIZE) keys → current_buf st bf →
  search_room cfg cl (Z.of_nat (length keys)) bf →
  Z.of_nat (length pre + length (gets keys)) < pkt_len → (length keys < jobs)%nat →
  process_jobs malloc_ok garbage cfg KVSIZE quiet jobs (S fuel) true
    (pre ++ gets keys ++ end_mark ++ rest) pkt_len st kk (Z.of_nat (length pre)) cl =
  Ok (searched st (add_keys cl (elem_of_key <$> keys) bf) (length keys),
      kk + Z.of_nat (length keys)).
Proof.
  induction keys as [|key keys IH]; intros jobs pre st kk bf Hkeys Hb Hroom Hlen Hjobs;
    (destruct jobs as [|jobs]; [simpl in Hjobs; lia|]).
  - cbn [process_jobs]. simpl gets. cbn [app].
    rewrite (load_app pre end_mark rest _ 2), bind_Ok by done.
    change (load_le 2 end_mark) with 0xFFFF. simpl. by rewrite searched_0, Z.add_0_r.
  - apply Forall_cons in Hkeys as [Hkey Hkeys]. unfold gets in *. cbn [fmap list_fmap concat] in *.
    rewrite length_app in Hlen. rewrite <-app_assoc.
    rewrite (process_jobs_get cfg malloc_ok garbage KVSIZE cl jobs fuel pre key _ pkt_len st kk bf);
      [|done|done| |rewrite length_app; lia].
    2:{ eapply search_room_le; [exact Hroom|cbn [length]; lia..]. }
    destruct (add_keys_cons cfg cl (elem_of_key key) (elem_of_key <$> keys) bf) as [Hroom' Hadd].
    { cbn [length]. by rewrite length_fmap. }
    rewrite length_fmap in Hroom'. rewrite <-Hadd.
    rewrite (IH jobs _ _ _ (add_keys cl [elem_of_key key] bf)); try done.
    + rewrite searched_searched. cbn [length]. f_equal. f_equal. lia.
    + by eapply searched_current.
    + rewrite length_app. lia.
    + simpl in Hjobs. lia.
Qed.

(** The headers of a packet, and the client they name. *)
Definition header_client (hdr : list Z) : client_t :=
  Client (load_le 6 (drop 6 hdr)) (load_le 4 (drop 26 hdr)) (load_le 2 (drop 34 hdr)).

Definition packet (hdr jobs rest : list Z) : list Z :=
  hdr ++ store_le 2 PROTOCOL_MAGIC ++ jobs ++ end_mark ++ rest.

Lemma load_header hdr post off n :
  (off + n ≤ length hdr)%nat → load (hdr ++ post) (Z.of_nat off) n = Ok (load_le n (drop off hdr)).
Proof.
  intros H. rewrite <-(take_drop off hdr) at 1. rewrite <-app_assoc.
  apply load_prefix; rewrite ?length_take, ?length_drop; lia.
Qed.

(** What a packet's headers and its magic number are read as. *)
Lemma load_headers hdr payload :
  length hdr = 42%nat →
  let pkt := hdr ++ store_le 2 PROTOCOL_MAGIC ++ payload in
  load pkt off_s_addr 6 = Ok (c_eth (header_client hdr)) ∧
  load pkt off_src_addr 4 = Ok (c_ip (header_client hdr)) ∧
  load pkt off_src_port 2 = Ok (c_port (header_client hdr)) ∧
  load pkt off_payload 2 = Ok PROTOCOL_MAGIC ∧
  off_payload + MEGA_MAGIC_NUM_LEN = Z.of_nat (length (hdr ++ store_le 2 PROTOCOL_MAGIC)).
Proof.
  intros Hh pkt. unfold pkt.
  change off_s_addr with (Z.of_nat 6). change off_src_addr with (Z.of_nat 26).
  change off_src_port with (Z.of_nat 34). change off_payload with (Z.of_nat 42).
  rewrite (load_header hdr _ 6), (load_header hdr _ 26), (load_header hdr _ 34) by lia.
  rewrite (load_app hdr _ payload _ 2) by (done || by rewrite Hh).
  rewrite length_app, Hh. done.
Qed.

(** Past the headers and the magic number of a packet. *)
Lemma process_packet_header malloc_ok garbage cfg KVSIZE env jobs fuel compact hdr payload pkt_len st :
  length hdr = 42%nat →
  process_packet malloc_ok garbage cfg KVSIZE env jobs fuel compact
    (hdr ++ store_le 2 PROTOCOL_MAGIC ++ payload) pkt_len st =
  process_jobs malloc_ok garbage cfg KVSIZE env jobs fuel compact
    ((hdr ++ store_le 2 PROTOCOL_MAGIC) ++ payload) pkt_len st 0
    (Z.of_nat (length (hdr ++ store_le 2 PROTOCOL_MAGIC))) (header_client hdr).
Proof.
  intros Hh. destruct (load_headers hdr payload Hh) as (H1 & H2 & H3 & H4 & H5). unfold process_packet.
  rewrite H1, bind_Ok, H2, bind_Ok, H3, bind_Ok, H4, bind_Ok, Z.eqb_refl, H5. by rewrite <-app_assoc.
Qed.

(** ** Lemmas: the position in the packet *)

Lemma process_get_ptr cfg KVSIZE env fuel compact pkt st kk ptr cl st' kk' ptr' :
  Forall byte pkt →
  process_get cfg KVSIZE env fuel compact pkt st kk ptr cl = Ok (st', Some (kk', ptr')) →
  ptr + 2 ≤ ptr'.
Proof.
  intros Hpkt H. unfold process_get in H. apply bind_Ok_inv in H as (nkey & Hn & H).
  apply (load_Ok_range _ _ _ _ Hpkt) in Hn. unfold MEGA_KEY_SIZE_LEN in H.
  destruct (negb _); [injection H as _ _ <-; lia|].
  apply bind_Ok_inv in H as (sig & _ & H). apply bind_Ok_inv in H as ([st1 r] & _ & H).
  destruct r; [|done]. injection H as _ _ <-. lia.
Qed.

Lemma process_set_ptr malloc_ok garbage cfg KVSIZE env fuel pkt st kk ptr st' kk' ptr' :
  process_set malloc_ok garbage cfg KVSIZE env fuel pkt st kk ptr = Ok (st', Some (kk', ptr')) →
  ptr + 6 ≤ ptr'.
Proof.
  intros H. unfold process_set in H. apply bind_Ok_inv in H as (nkey & _ & H).
  apply bind_Ok_inv in H as (nbyte & _ & H). cbv zeta in H.
  unfold MEGA_KEY_SIZE_LEN, MEGA_VALUE_SIZE_LEN in H.
  pose proof (wrap_range 32 (nkey + nbyte) ltac:(lia)) as [Hw _].
  apply bind_Ok_inv in H as ([st1 [p|]] & _ & H); [|injection H as _ _ <-; lia].
  apply bind_Ok_inv in H as (bs & _ & H). apply bind_Ok_inv in H as (s & _ & H).
  destruct (_ || _).
  { apply bind_Ok_inv in H as (st2 & _ & H). injection H as _ _ <-. lia. }
  apply bind_Ok_inv in H as (sig & _ & H). destruct (heap _ !! p); [|done].
  apply bind_Ok_inv in H as ([st2 ok] & _ & H). destruct ok; [|done]. injection H as _ _ <-. lia.
Qed.

(** ** Lemmas: compact jobs *)

(** The jobs divide the searches from [start] to [total] into runs. *)
Fixpoint runs (js : list mega_job_search_t) (start total : Z) : Prop :=
  match js with
  | [] => start = total
  | j :: js => js_index j = start ∧ 0 < js_num j ∧ runs js (start + js_num j) total
  end.

(** Job 0 is a sentinel that is never filled; jobs [1 .. num_compact_search_job]
    are in use. *)
Definition compact_wf (bf : mega_batch_buf_t) : Prop :=
  0 ≤ num_compact_search_job bf < Z.of_nat (length (search_job_list bf)) ∧
  runs (take (Z.to_nat (num_compact_search_job bf)) (drop 1 (search_job_list bf))) 0
    (num_search_job bf).

Lemma runs_snoc js j start total :
  runs (js ++ [j]) start total ↔ runs js start (total - js_num j) ∧
    js_index j = total - js_num j ∧ 0 < js_num j.
Proof.
  revert start. induction js as [|j' js IH]; intros start; simpl; [|rewrite IH; naive_solver].
  split; [intros (? & ? & ?)|intros (? & ? & ?)]; split_and!; lia.
Qed.

Lemma compact_take (l : list mega_job_search_t) (c : Z) j :
  1 ≤ c → l !! Z.to_nat c = Some j →
  take (Z.to_nat c) (drop 1 l) = take (Z.to_nat (c - 1)) (drop 1 l) ++ [j].
Proof.
  intros Hc Hj. replace (Z.to_nat c) with (S (Z.to_nat (c - 1))) by lia.
  apply take_S_r. rewrite lookup_drop. by replace (1 + Z.to_nat (c - 1))%nat with (Z.to_nat c) by lia.
Qed.

Lemma compact_take_insert (l : list mega_job_search_t) (c d : Z) j :
  0 ≤ d < c → take (Z.to_nat d) (drop 1 (<[Z.to_nat c := j]> l)) = take (Z.to_nat d) (drop 1 l).
Proof.
  intros Hd. rewrite !take_drop_commute. rewrite take_insert_ge by lia. done.
Qed.

(** ** Lemmas: insertions *)

(** The local list [BATCH_ALLOC] takes an item from when it is not empty. *)
Record local_item (st : rstate) (size i : Z) (p : ptr) (it : item) : Prop := {
  li_index : slab_index 7 (local_slab_size (r_batch st)) 0 size = Ok i;
  li_range : 0 ≤ i < 8;
  li_slot : local_slab (r_batch st) !! Z.to_nat i = Some (Some p);
  li_item : heap (r_slabs st) !! p = Some it;
}.

(** The state after [BATCH_ALLOC] and after [f] has been applied to the item. *)
Definition took (st : rstate) (i : Z) (p : ptr) (it it' : item) : rstate :=
  RState (r_reads st)
    (with_heap (r_slabs st) (<[p := it']> (heap (r_slabs st))))
    (set_local_slab (r_batch st) (<[Z.to_nat i := it_next it]> (local_slab (r_batch st))))
    (r_search_jobs st) (r_insert_jobs st).

Lemma batch_alloc_local malloc_ok garbage cfg env fuel st size i p it :
  local_item st size i p it →
  batch_alloc malloc_ok garbage cfg env fuel st size =
    Ok (took st i p it (set_flags it 0), Some p).
Proof.
  intros [Hidx Hi Hslot Hit]. unfold batch_alloc.
  change (Z.to_nat (POWER_LARGEST - POWER_SMALLEST)) with 7%nat. change POWER_SMALLEST with 0.
  rewrite Hidx, bind_Ok. change MAX_NUMBER_OF_SLAB_CLASSES with 8.
  destruct (Z.eqb_spec i 8); [lia|].
  rewrite (arr_get_lookup _ i (Some p)), !bind_Ok by (done || lia).
  rewrite (arr_get_lookup _ i (Some p)), !bind_Ok by (done || lia). rewrite Hit.
  rewrite arr_set_in_bounds, bind_Ok by (pose proof (lookup_lt_Some _ _ _ Hslot); lia).
  unfold write_item. by rewrite Hit, !bind_Ok.
Qed.

Lemma write_item_took st i p it it1 it2 f :
  f it1 = Ok it2 →
  write_item (r_slabs (took st i p it it1)) p f = Ok (r_slabs (took st i p it it2)).
Proof.
  intros Hf. unfold write_item, took. simpl. rewrite lookup_insert_eq, Hf, bind_Ok.
  unfold with_heap. simpl. by rewrite insert_insert_eq.
Qed.

(** Room for one insertion into insert buffer [blk]. *)
Record insert_room (cfg : mega_config_t) (blk : Z) (ib : mega_batch_insert_t) (bf : mega_batch_buf_t)
    : Prop := {
  ir_bits : bits_insert_buf cfg = 3;
  ir_max : batch_max_insert_job cfg < 2 ^ 24;
  ir_num : 0 ≤ num_insert_job bf < (batch_max_insert_job cfg - 1) * 8;
  ir_jobs : Z.of_nat (length (insert_job_list bf)) = batch_max_insert_job cfg * 8;
  ir_blk : 0 ≤ blk ∧ insert_buf bf !! Z.to_nat blk = Some ib;
  ir_count : 0 ≤ bi_num_insert_job ib ∧ bi_num_insert_job ib + 1 < batch_max_insert_job cfg;
  ir_part : 0 ≤ bi_insert_in ib ∧
    bi_insert_in ib + batch_max_insert_job cfg ≤ Z.of_nat (length (insert_in bf));
}.

(** The buffer with one more insertion. *)
Definition add_elem (blk : Z) (ib : mega_batch_insert_t) (p : ptr) (e : ielem_t)
    (bf : mega_batch_buf_t) : mega_batch_buf_t :=
  set_insert bf (<[Z.to_nat (bi_insert_in ib + bi_num_insert_job ib) := e]> (insert_in bf))
    (<[Z.to_nat (num_insert_job bf) := Some p]> (insert_job_list bf)) (num_insert_job bf + 1)
    (<[Z.to_nat blk := set_num_insert ib (bi_num_insert_job ib + 1)]> (insert_buf bf)).

Lemma insert_job_eq cfg blk ib p it sig hash bf :
  insert_room cfg blk ib bf →
  insert_job cfg blk p it sig hash bf = Ok (add_elem blk ib p (Ielem sig hash (it_loc it)) bf).
Proof.
  intros [Hbits Hmax Hnum Hjobs [Hblk Hib] Hcount Hpart]. unfold insert_job.
  rewrite (arr_get_lookup _ _ _ Hblk Hib), bind_Ok.
  rewrite (arr_set_in_bounds (insert_job_list bf)), bind_Ok by lia.
  rewrite (arr_set_in_bounds (insert_in bf)), bind_Ok by lia.
  rewrite (arr_set_in_bounds (insert_buf bf)), bind_Ok
    by (pose proof (lookup_lt_Some _ _ _ Hib); lia).
  change INSERT_BLOCK with 8.
  rewrite !wrap_id by (unfold in_range; lia).
  rewrite (assert_true (bi_num_insert_job ib + 1 <=? _)), bind_Ok by (apply Z.leb_le; lia).
  by rewrite assert_true, bind_Ok by (apply Z.leb_le; lia).
Qed.

Definition inserted (st : rstate) (bf : mega_batch_buf_t) : rstate :=
  RState (r_reads st + 2) (r_slabs st)
    (set_buf (r_batch st) (<[Z.to_nat (receiver_buf_id (r_batch st)) := bf]> (buf (r_batch st))))
    (r_search_jobs st) (r_insert_jobs st).

Lemma add_insert_quiet cfg fuel st blk ib p it sig hash bf :
  current_buf st bf → insert_room cfg blk ib bf →
  add_insert cfg quiet (S fuel) st blk p it sig hash =
    Ok (inserted st (add_elem blk ib p (Ielem sig hash (it_loc it)) bf), true).
Proof.
  intros [Hid Hb] Hroom. pose proof Hroom as [Hbits Hmax Hnum Hjobs [Hblk Hib] Hcount Hpart].
  cbn [add_insert]. cbv zeta. cbn [r_batch r_reads with_batch].
  rewrite (arr_get_lookup _ _ _ Hid Hb), bind_Ok.
  rewrite Hbits, Z.shiftl_mul_pow2 by lia. change (2 ^ 3) with 8.
  rewrite !(wrap_id 32 ((_ - 1) * 8)), (wrap_id 32 (num_insert_job bf)) by (unfold in_range; lia).
  destruct (Z.leb_spec ((batch_max_insert_job cfg - 1) * 8) (num_insert_job bf)); [lia|].
  rewrite (arr_get_lookup _ _ _ Hblk Hib), bind_Ok.
  rewrite (wrap_id 32 (bi_num_insert_job ib + 1)) by (unfold in_range; lia).
  destruct (Z.leb_spec (batch_max_insert_job cfg) (bi_num_insert_job ib + 1)); [lia|].
  rewrite (upd_buf_eq _ _ bf _ _ Hid Hb (insert_job_eq cfg blk ib p it sig hash bf Hroom)), bind_Ok.
  cbn [receiver_buf_id set_buf]. rewrite Z.eqb_refl. cbn [negb]. unfold inserted, with_batch. simpl.
  do 2 f_equal. f_equal. lia.
Qed.

(** The fields of a SET job behind its type. *)
Definition set_fields (key value : list Z) : list Z :=
  store_le 2 (Z.of_nat (length key)) ++ store_le 4 (Z.of_nat (length value)) ++ key ++ value.

Lemma load_set_fields pre key value post :
  Z.of_nat (length key) < 2 ^ 16 → Z.of_nat (length value) < 2 ^ 31 →
  let pkt := pre ++ set_fields key value ++ post in
  load pkt (Z.of_nat (length pre)) 2 = Ok (Z.of_nat (length key)) ∧
  load pkt (Z.of_nat (length pre) + 2) 4 = Ok (Z.of_nat (length value)) ∧
  bytes_at pkt (Z.of_nat (length pre) + 6) (Z.of_nat (length (key ++ value))) = Ok (key ++ value).
Proof.
  intros Hk Hv pkt. unfold pkt, set_fields. rewrite <-!app_assoc. split_and!.
  - rewrite (load_app pre _ _ _ 2) by (done || apply length_store_le).
    rewrite load_store_le; [done|]. change (256 ^ Z.of_nat 2) with (2 ^ 16). lia.
  - rewrite (app_assoc pre).
    rewrite (load_app (pre ++ _) _ _ _ 4) by (rewrite ?length_app, ?length_store_le; done || lia).
    rewrite load_store_le; [done|]. change (256 ^ Z.of_nat 4) with (2 ^ 32). lia.
  - rewrite (app_assoc pre), (app_assoc (pre ++ _)), (app_assoc key).
    apply bytes_at_app; [rewrite !length_app, !length_store_le; lia | done].
Qed.

(** The item that holds [key] and [value]. *)
Definition stored_item (it : item) (key value : list Z) : item :=
  Item (it_next it) 0 (it_slabs_clsid it) (Z.of_nat (length key)) (Z.of_nat (length value)) (it_loc it)
    (write_run (it_data it) 0 (key ++ value)).

(** A SET up to the copy into the item. *)
Lemma process_set_alloc malloc_ok garbage cfg KVSIZE env fuel pre key value post st kk i p it :
  Z.of_nat (length key) < 2 ^ 16 → Z.of_nat (length value) < 2 ^ 31 →
  local_item st (Z.of_nat (length (key ++ value))) i p it →
  process_set malloc_ok garbage cfg KVSIZE env fuel (pre ++ set_fields key value ++ post) st kk
    (Z.of_nat (length pre)) =
  (s ← write_item (r_slabs (took st i p it (set_flags it 0))) p
         (store_item (Z.of_nat (length key)) (Z.of_nat (length value)) (key ++ value));
   let st := with_r_slabs (took st i p it (set_flags it 0)) s in
   let next := Z.of_nat (length pre) + 6 + Z.of_nat (length (key ++ value)) in
   if negb (Z.of_nat (length key) =? KEY_LEN KVSIZE) || negb (Z.of_nat (length value) =? VALUE_LEN KVSIZE)
   then st ← clear_flags st p; Ok (st, Some (kk, next))
   else
     sig ← load (pre ++ set_fields key value ++ post) (Z.of_nat (length pre) + 6) 8;
     match heap (r_slabs st) !! p with
     | None => Err NullDeref
     | Some it =>
         let e := key_elem sig in
         '(st, ok) ← add_insert cfg env fuel (count_insert st) (insert_block_id cfg (s_hash e)) p it
                       (s_sig e) (s_hash e);
         Ok (st, if (ok : bool) then Some (kk + 1, next) else None)
     end).
Proof.
  intros Hk Hv Hlocal.
  assert (Hsize : u32 (Z.of_nat (length key) + Z.of_nat (length value)) = Z.of_nat (length (key ++ value)))
    by (rewrite length_app, Nat2Z.inj_add; apply wrap_id; unfold in_range; lia).
  destruct (load_set_fields pre key value post Hk Hv) as (Hl1 & Hl2 & Hl3).
  set (pkt := pre ++ _) in *. unfold process_set, MEGA_KEY_SIZE_LEN, MEGA_VALUE_SIZE_LEN.
  rewrite Hl1, bind_Ok. cbv zeta. rewrite Hl2, bind_Ok.
  rewrite Hsize, (batch_alloc_local _ _ _ _ _ _ _ _ _ _ Hlocal), bind_Ok. cbv beta iota.
  replace (Z.of_nat (length pre) + 2 + 4) with (Z.of_nat (length pre) + 6) by lia.
  by rewrite Hl3, bind_Ok.
Qed.

(** A SET whose local list is empty is a SET after [item_alloc_batch] has filled the list. *)
Definition refilled (st : rstate) (i : Z) (n : nat) (s : slabs_t) (b : mega_batch_t) (l : option ptr) : rstate :=
  RState n s (set_local_slab b (<[Z.to_nat i := l]> (local_slab b))) (r_search_jobs st) (r_insert_jobs st).

Lemma process_set_refill malloc_ok garbage cfg KVSIZE env fuel pre key value post st kk i n s b q :
  Z.of_nat (length key) < 2 ^ 16 → Z.of_nat (length value) < 2 ^ 31 →
  let size := Z.of_nat (length (key ++ value)) in
  let pkt := pre ++ set_fields key value ++ post in
  slab_index 7 (local_slab_size (r_batch st)) 0 size = Ok i → 0 ≤ i < 8 →
  local_slab (r_batch st) !! Z.to_nat i = Some None →
  item_alloc_batch malloc_ok garbage cfg env fuel size (r_reads st) (r_slabs st) (r_batch st) = Ok (n, s, b, Some q) →
  local_slab_size b = local_slab_size (r_batch st) → length (local_slab b) = length (local_slab (r_batch st)) →
  process_set malloc_ok garbage cfg KVSIZE env fuel pkt st kk (Z.of_nat (length pre)) =
  process_set malloc_ok garbage cfg KVSIZE env fuel pkt (refilled st i n s b (Some q)) kk (Z.of_nat (length pre)).
Proof.
  intros Hk Hv size pkt Hidx Hi Hslot Halloc Hsizes Hlen.
  assert (Hsize : u32 (Z.of_nat (length key) + Z.of_nat (length value)) = size)
    by (unfold size; rewrite length_app, Nat2Z.inj_add; apply wrap_id; unfold in_range; lia).
  destruct (load_set_fields pre key value post Hk Hv) as (Hl1 & Hl2 & _).
  unfold process_set, MEGA_KEY_SIZE_LEN, MEGA_VALUE_SIZE_LEN. unfold pkt.
  rewrite Hl1, !bind_Ok. cbv zeta. rewrite Hl2, !bind_Ok, Hsize.
  assert (Hba : batch_alloc malloc_ok garbage cfg env fuel st size =
    batch_alloc malloc_ok garbage cfg env fuel (refilled st i n s b (Some q)) size); [|by rewrite Hba].
  unfold batch_alloc. change (Z.to_nat (POWER_LARGEST - POWER_SMALLEST)) with 7%nat. change POWER_SMALLEST with 0.
  cbn [refilled r_batch set_local_slab local_slab_size local_slab]. rewrite Hsizes, Hidx, !bind_Ok.
  change MAX_NUMBER_OF_SLAB_CLASSES with 8. destruct (Z.eqb_spec i 8); [lia|].
  pose proof (lookup_lt_Some _ _ _ Hslot).
  assert (Hget : arr_get (<[Z.to_nat i := Some q]> (local_slab b)) i = Ok (Some q))
    by (apply arr_get_lookup; [lia|]; apply list_lookup_insert_eq; lia).
  rewrite (arr_get_lookup _ i None), !bind_Ok by (done || lia). rewrite Hget, !bind_Ok.
  rewrite Halloc, bind_Ok. cbv beta iota. rewrite arr_set_in_bounds, !bind_Ok by lia. done.
Qed.

(** The program ends in [item_alloc_batch]. *)
Lemma process_set_alloc_error malloc_ok garbage cfg KVSIZE env fuel pre key value post st kk i e :
  Z.of_nat (length key) < 2 ^ 16 → Z.of_nat (length value) < 2 ^ 31 →
  let size := Z.of_nat (length (key ++ value)) in
  slab_index 7 (local_slab_size (r_batch st)) 0 size = Ok i → 0 ≤ i < 8 →
  local_slab (r_batch st) !! Z.to_nat i = Some None →
  item_alloc_batch malloc_ok garbage cfg env fuel size (r_reads st) (r_slabs st) (r_batch st) = Err e →
  process_set malloc_ok garbage cfg KVSIZE env fuel (pre ++ set_fields key value ++ post) st kk (Z.of_nat (length pre)) =
  Err e.
Proof.
  intros Hk Hv size Hidx Hi Hslot Halloc.
  assert (Hsize : u32 (Z.of_nat (length key) + Z.of_nat (length value)) = size)
    by (unfold size; rewrite length_app, Nat2Z.inj_add; apply wrap_id; unfold in_range; lia).
  destruct (load_set_fields pre key value post Hk Hv) as (Hl1 & Hl2 & _).
  unfold process_set, MEGA_KEY_SIZE_LEN, MEGA_VALUE_SIZE_LEN.
  rewrite Hl1, !bind_Ok. cbv zeta. rewrite Hl2, !bind_Ok, Hsize. unfold batch_alloc.
  change (Z.to_nat (POWER_LARGEST - POWER_SMALLEST)) with 7%nat. change POWER_SMALLEST with 0.
  rewrite Hidx, !bind_Ok. change MAX_NUMBER_OF_SLAB_CLASSES with 8. destruct (Z.eqb_spec i 8); [lia|].
  by rewrite (arr_get_lookup _ i None), bind_Ok, Halloc by (done || lia).
Qed.

Lemma process_set_spec malloc_ok garbage cfg KVSIZE fuel pre key value post st kk i p it bf ib :
  let e := elem_of_key key in
  let blk := insert_block_id cfg (s_hash e) in
  key_ok KVSIZE key → Z.of_nat (length value) = VALUE_LEN KVSIZE →
  local_item st (Z.of_nat (length (key ++ value))) i p it →
  (length (key ++ value) ≤ length (it_data it))%nat →
  current_buf st bf → insert_room cfg blk ib bf →
  ∃ st',
    process_set malloc_ok garbage cfg KVSIZE quiet (S fuel) (pre ++ set_fields key value ++ post) st kk
      (Z.of_nat (length pre)) =
      Ok (st', Some (kk + 1, Z.of_nat (length pre) + 6 + Z.of_nat (length (key ++ value)))) ∧
    heap (r_slabs st') = <[p := stored_item it key value]> (heap (r_slabs st)) ∧
    (slabs_wf cfg (r_slabs st) → slabs_wf cfg (r_slabs st')) ∧
    local_slab (r_batch st') = <[Z.to_nat i := it_next it]> (local_slab (r_batch st)) ∧
    current_buf st' (add_elem blk ib p (Ielem (s_sig e) (s_hash e) (it_loc it)) bf) ∧
    r_insert_jobs st' = r_insert_jobs st + 1 ∧
    slabclass (r_slabs st') = slabclass (r_slabs st).
Proof.
  intros e blk [Hk Hbytes] Hv Hlocal Hfit [Hid Hb] Hroom. pose proof (KEY_LEN_range KVSIZE).
  assert (VALUE_LEN KVSIZE < 2 ^ 31) by (unfold VALUE_LEN; repeat case_match; lia).
  assert (Hk16 : Z.of_nat (length key) < 2 ^ 16) by lia.
  assert (Hv31 : Z.of_nat (length value) < 2 ^ 31) by lia.
  rewrite (process_set_alloc _ _ _ _ _ _ _ _ _ _ _ _ _ _ _ Hk16 Hv31 Hlocal).
  rewrite (write_item_took _ _ _ _ _ (stored_item it key value)), bind_Ok.
  2:{ unfold store_item. cbn [it_data set_flags]. destruct (Nat.ltb_spec (length (it_data it))
        (length (key ++ value))); [lia|done]. }
  rewrite Hk, Hv, !Z.eqb_refl. cbn [negb orb].
  assert (Hload : load (pre ++ set_fields key value ++ post) (Z.of_nat (length pre) + 6) 8 =
    Ok (load_le 8 key)).
  { unfold set_fields. rewrite <-!app_assoc, (app_assoc pre), (app_assoc (pre ++ _)).
    apply load_prefix; rewrite ?length_app, ?length_store_le; lia. }
  rewrite Hload, bind_Ok. cbn [r_slabs with_r_slabs took heap with_heap]. rewrite lookup_insert_eq.
  fold (elem_of_key key). fold e. fold blk. cbv zeta.
  rewrite (add_insert_quiet cfg fuel _ blk ib p _ _ _ bf), bind_Ok; [|split; done|done].
  eexists. split; [done|]. split_and!; try done.
  - intros Hs. apply slabs_wf_items; [done|]. apply (same_items_insert _ p it); [apply Hlocal|].
    split_and!; try done. apply write_run_length. lia.
  - split; [done|]. simpl. apply list_lookup_insert_eq. by eapply lookup_lt_Some.
Qed.

Lemma process_packet_gets_spec malloc_ok garbage cfg KVSIZE hdr keys rest pkt_len jobs fuel st bf :
  length hdr = 42%nat → Forall (key_ok KVSIZE) keys → current_buf st bf →
  search_room cfg (header_client hdr) (Z.of_nat (length keys)) bf →
  44 + Z.of_nat (length (gets keys)) < pkt_len → (length keys < jobs)%nat →
  process_packet malloc_ok garbage cfg KVSIZE quiet jobs (S fuel) true
    (packet hdr (gets keys) rest) pkt_len st =
  Ok (searched st (add_keys (header_client hdr) (elem_of_key <$> keys) bf) (length keys),
      Z.of_nat (length keys)).
Proof.
  intros Hh Hkeys Hb Hroom Hlen Hjobs. unfold packet. rewrite process_packet_header by done.
  rewrite (process_jobs_gets cfg malloc_ok garbage KVSIZE _ rest pkt_len fuel keys jobs _ st 0 bf);
    try done. rewrite length_app, length_store_le, Hh. lia.
Qed.

(** *** Properties *)

(** C22: a packet of searches.  Without a buffer switch and with room in the buffer,
    [process_packet] returns the number of keys of a well-formed packet of GET
    jobs, appends the hash and signature of every key to the search buffer in
    order, and counts them all to one compact job of the sending client; whatever
    follows the end mark does not matter. *)
Theorem process_packet_gets malloc_ok garbage cfg KVSIZE hdr keys rest pkt_len jobs fuel st bf :
  length hdr = 42%nat → Forall (key_ok KVSIZE) keys → current_buf st bf →
  search_room cfg (header_client hdr) (Z.of_nat (length keys)) bf →
  44 + Z.of_nat (length (gets keys)) < pkt_len → (length keys < jobs)%nat →
  process_packet malloc_ok garbage cfg KVSIZE quiet jobs (S fuel) true
    (packet hdr (gets keys) rest) pkt_len st =
  Ok (searched st (add_keys (header_client hdr) (elem_of_key <$> keys) bf) (length keys),
      Z.of_nat (length keys)).
Proof. apply process_packet_gets_spec. Qed.

(** C34: compact jobs.  Adding a search keeps the jobs of a buffer a partition of
    its searches into consecutive non-empty runs, each with the number of its
    first search, unless the sentinel job 0 happens to carry the client's address
    or a run reaches the 16 bits of its counter. *)
Theorem search_compact_partition cl sig bf bf' :
  compact_wf bf → search_compact cl sig bf = Ok bf' →
  (∀ j, search_job_list bf !! Z.to_nat (num_compact_search_job bf) = Some j →
    js_num j < 2 ^ 16 - 1) →
  (num_compact_search_job bf = 0 → ∀ j, head (search_job_list bf) = Some j →
    js_ip j ≠ c_ip cl ∨ js_port j ≠ c_port cl) →
  compact_wf bf' ∧ num_search_job bf' = num_search_job bf + 1.
Proof.
  intros [Hc Hruns] H Hnum Hsent. unfold search_compact in H.
  apply bind_Ok_inv in H as (job & Hj & H). apply arr_get_Ok in Hj as [_ Hj].
  apply bind_Ok_inv in H as ([jobs c] & Hjobs & H). apply bind_Ok_inv in H as (l & _ & H).
  injection H as <-. specialize (Hnum job Hj).
  destruct ((js_ip job =? c_ip cl) && (js_port job =? c_port cl)) eqn:Hm.
  - apply andb_true_iff in Hm as [Hip%Z.eqb_eq Hport%Z.eqb_eq]. inv_ok.
    apply arr_set_Ok in Hb as [_ ->].
    destruct (decide (num_compact_search_job bf = 0)) as [H0|H0].
    { rewrite H0 in Hj. destruct (Hsent H0 job); [|done..]. by destruct (search_job_list bf). }
    rewrite (compact_take _ _ job), runs_snoc in Hruns by (done || lia).
    destruct Hruns as (Hruns & Hidx & Hpos). split; [|done]. split; [simpl; rewrite length_insert; lia|].
    simpl. rewrite (compact_take _ _ (set_num job (u16 (js_num job + 1))))
      by (lia || apply list_lookup_insert_eq; lia).
    rewrite compact_take_insert by lia. apply runs_snoc. simpl.
    rewrite wrap_id by (unfold in_range; lia).
    replace (num_search_job bf + 1 - (js_num job + 1)) with (num_search_job bf - js_num job) by lia.
    split_and!; [done|lia|lia].
  - inv_ok. apply arr_set_Ok in Hb as [Hlt ->]. split; [|done].
    split; [simpl; rewrite length_insert; lia|]. simpl.
    set (new := JobSearch _ _ _ _ _).
    rewrite (compact_take _ _ new) by (lia || apply list_lookup_insert_eq; lia).
    rewrite compact_take_insert by lia. apply runs_snoc. simpl.
    replace (num_compact_search_job bf + 1 - 1) with (num_compact_search_job bf) by lia.
    replace (num_search_job bf + 1 - 1) with (num_search_job bf) by lia.
    split_and!; [done|lia|lia].
Qed.

(** The buffer switch hits the wrong job.  When the buffer is switched while a
    search of a new client is added behind a run of another client, the shadowed
    variable [job] makes the Receiver take the search off the other client's run:
    the old buffer ends with as many searches as before, but the other client's
    last reply is missing and the new client has a job of its own there. *)
Theorem buffer_switch_undoes_other_client cfg cl sig bf bf1 job :
  let c := num_compact_search_job bf in
  search_room cfg cl 1 bf → 1 ≤ c →
  search_job_list bf !! Z.to_nat c = Some job → 1 < js_num job < 2 ^ 16 →
  js_ip job ≠ c_ip cl → search_compact cl sig bf = Ok bf1 →
  ∃ bf2, undo_compact c bf1 = Ok bf2 ∧
    num_search_job bf2 = num_search_job bf ∧ num_compact_search_job bf2 = c + 1 ∧
    search_job_list bf2 !! Z.to_nat c = Some (set_num job (js_num job - 1)) ∧
    search_job_list bf2 !! Z.to_nat (c + 1) =
      Some (JobSearch (c_eth cl) (c_ip cl) (c_port cl) 1 (num_search_job bf)).
Proof.
  intros c Hroom Hc Hj Hnum Hip. rewrite (search_compact_keys cfg cl sig bf Hroom).
  intros [= <-]. pose proof Hroom as [Hn Hmax _ _ Hcr Hnew _ _].
  unfold add_keys, compact_jobs. fold c in Hcr, Hnew |- *. rewrite Hj.
  assert (Hm : (js_ip job =? c_ip cl) && (js_port job =? c_port cl) = false)
    by (by rewrite (proj2 (Z.eqb_neq _ _) Hip)).
  destruct (Hnew job Hj) as [|[|Hlt]]; [by rewrite Hm in *|lia|]. rewrite Hm.
  unfold undo_compact. cbn [set_search search_job_list num_compact_search_job num_search_job search_in].
  rewrite (arr_get_lookup _ c job), bind_Ok by (lia || by rewrite list_lookup_insert_ne by lia).
  rewrite arr_set_in_bounds, bind_Ok by (rewrite length_insert; lia).
  rewrite wrap_id by (unfold in_range; lia). cbn [js_num set_num].
  destruct (Z.eqb_spec (js_num job - 1) 0); [lia|]. destruct (Z.ltb_spec (c + 1) 0); [lia|].
  eexists. split; [done|]. simpl. unfold dec_clip.
  change (Z.of_nat 1) with 1.
  destruct (Z.ltb_spec (num_search_job bf + 1 - 1) 0); [lia|]. split_and!; [lia|done| |].
  - apply list_lookup_insert_eq. rewrite length_insert. lia.
  - rewrite list_lookup_insert_ne by lia. apply list_lookup_insert_eq. lia.
Qed.

(** Insert buffers do not partition the table.  The Receiver chooses the
    insert buffer by the top bits of the hash, the bucket is given by the low
    bits: for every hash there is one with the same first bucket that goes to a
    different insert buffer, so that two thread blocks of one kernel write to it. *)
Theorem insert_blocks_share_buckets cfg hash :
  bits_insert_buf cfg = 3 → in_range 32 hash →
  ∃ hash', in_range 32 hash' ∧ bucket_index hash' = bucket_index hash ∧
    insert_block_id cfg hash' ≠ insert_block_id cfg hash.
Proof.
  intros Hbits Hr. exists (Z.lxor hash (2 ^ 31)).
  assert (Hx : ∀ j, 0 ≤ j → Z.testbit (Z.lxor hash (2 ^ 31)) j = xorb (Z.testbit hash j) (31 =? j)).
  { intros j Hj. by rewrite Z.lxor_spec, pow2_testbit by lia. }
  assert (Hr' : in_range 32 (Z.lxor hash (2 ^ 31))).
  { apply testbit_range; [lia|apply Z.lxor_nonneg; destruct Hr; lia|].
    intros j Hj. rewrite Hx, (in_range_testbit 32) by (done || lia). by cmp_cases. }
  split; [done|]. split.
  - apply Z.bits_inj'. intros j Hj. rewrite !bucket_index_testbit, Hx by lia.
    cmp_cases; by destruct (Z.testbit hash j).
  - unfold insert_block_id. rewrite Hbits. cbn [Z.eqb].
    intros Heq%(f_equal (λ x, Z.testbit x 2)). rewrite !wrap_testbit, !Z.shiftr_spec, Hx in Heq by lia.
    change (31 =? 2 + (32 - 3)) with true in Heq. change (2 <? 32) with true in Heq.
    by destruct (Z.testbit hash (2 + (32 - 3))).
Qed.

(** A SET.  With an item in the local list, room in the insert buffer and no
    buffer switch, a SET of the configured lengths stores key and value in the item
    without touching another one, keeps the allocator's invariant, takes the item
    off the local list, and adds the index element with the key's hash and
    signature and the item's location to the insert buffer the hash selects. *)
Theorem process_set_stores malloc_ok garbage cfg KVSIZE fuel pre key value post st kk i p it bf ib :
  let e := elem_of_key key in
  let blk := insert_block_id cfg (s_hash e) in
  key_ok KVSIZE key → Z.of_nat (length value) = VALUE_LEN KVSIZE →
  local_item st (Z.of_nat (length (key ++ value))) i p it →
  (length (key ++ value) ≤ length (it_data it))%nat →
  current_buf st bf → insert_room cfg blk ib bf →
  ∃ st',
    process_set malloc_ok garbage cfg KVSIZE quiet (S fuel) (pre ++ set_fields key value ++ post) st kk
      (Z.of_nat (length pre)) =
      Ok (st', Some (kk + 1, Z.of_nat (length pre) + 6 + Z.of_nat (length (key ++ value)))) ∧
    heap (r_slabs st') = <[p := stored_item it key value]> (heap (r_slabs st)) ∧
    (slabs_wf cfg (r_slabs st) → slabs_wf cfg (r_slabs st')) ∧
    local_slab (r_batch st') = <[Z.to_nat i := it_next it]> (local_slab (r_batch st)) ∧
    current_buf st' (add_elem blk ib p (Ielem (s_sig e) (s_hash e) (it_loc it)) bf) ∧
    r_insert_jobs st' = r_insert_jobs st + 1 ∧
    slabclass (r_slabs st') = slabclass (r_slabs st).
Proof. apply process_set_spec. Qed.

(** C40: the copy comes before the check.  A local list may hold items that are
    smaller than the sizes it serves, because [BATCH_ALLOC] compares the size of
    key and value with the size of the whole slot: a SET whose key and value do not
    fit into the bytes behind the item header is written over the following item,
    and only afterwards its lengths are found to be wrong. *)
Theorem set_overruns_item malloc_ok garbage cfg KVSIZE env fuel pre key value post st kk i p it :
  Z.of_nat (length key) < 2 ^ 16 → Z.of_nat (length value) < 2 ^ 31 →
  local_item st (Z.of_nat (length (key ++ value))) i p it →
  (length (it_data it) < length (key ++ value))%nat →
  process_set malloc_ok garbage cfg KVSIZE env fuel (pre ++ set_fields key value ++ post) st kk
    (Z.of_nat (length pre)) = Err OutOfBounds.
Proof.
  intros Hk Hv Hlocal Hbig. rewrite (process_set_alloc _ _ _ _ _ _ _ _ _ _ _ _ _ _ _ Hk Hv Hlocal).
  unfold write_item, took. simpl. rewrite lookup_insert_eq. unfold store_item. cbn [it_data set_flags].
  by rewrite (proj2 (Nat.ltb_lt _ _)).
Qed.

(** ** The properties at a small Receiver

    One client, a local list with an item of the smallest class. *)
Definition ex_hdr : list Z := seqZ 1 42.
Definition ex_key : list Z := [1; 2; 3; 4; 5; 6; 7; 8].
Definition ex_value : list Z := [11; 12; 13; 14; 15; 16; 17; 18].
Definition ex_job : mega_job_search_t := JobSearch 0 0 0 5 0.
Definition ex_small_item : item := Item None 1 0 0 0 77 (replicate 16 0).
Definition ex_rbuf : mega_batch_buf_t :=
  BatchBuf (replicate (Z.to_nat 32768) (Selem 0 0)) [] [] (replicate (Z.to_nat 32768) (Ielem 0 0 0))
    (replicate 100 ex_job) (replicate (Z.to_nat 32768) None) 5 0 0 1
    ((λ j, BatchInsert (4096 * j) 0) <$> seqZ 0 8).
Definition ex_rstate : rstate :=
  RState 0 (with_heap slabs0 {[ (0, 0) := ex_small_item ]})
    (Batch (replicate 3 ex_rbuf) 0 (-1) (1, 2) (-1) (-1) (Some (0, 0) :: replicate 7 None)
       [40; 80; 160; 320; 640; 1280; 2560; 5120]) 0 0.

Lemma ex_current : current_buf ex_rstate ex_rbuf.
Proof. by split. Qed.

Lemma ex_search_room cl n :
  (js_ip ex_job =? c_ip cl) && (js_port ex_job =? c_port cl) = false → 0 ≤ n < 1000 →
  search_room mega_init_config cl n ex_rbuf.
Proof.
  intros Hcl Hn. split; unfold ex_rbuf, mega_init_config; cbn [num_search_job batch_max_search_job
    search_in search_job_list num_compact_search_job]; rewrite ?length_replicate; try lia;
    intros job Hj; apply lookup_replicate in Hj as [-> _].
  unfold ex_job. simpl. lia.
Qed.

Lemma ex_key_ok : key_ok 0 ex_key.
Proof. split; [done|]. unfold ex_key, byte. repeat constructor; lia. Qed.

Lemma process_packet_gets_witness :
  process_packet (λ _, true) (λ _, 0) mega_init_config 0 quiet 10 1 true
    (packet ex_hdr (gets [ex_key; ex_key]) [0; 0]) 72 ex_rstate =
  Ok (searched ex_rstate (add_keys (header_client ex_hdr) [elem_of_key ex_key; elem_of_key ex_key]
        ex_rbuf) 2, 2).
Proof.
  apply (process_packet_gets (λ _, true) (λ _, 0) mega_init_config 0 ex_hdr [ex_key; ex_key] [0; 0]
    72 10 0 ex_rstate ex_rbuf); try done.
  - repeat constructor; apply ex_key_ok || (unfold byte; lia).
  - apply ex_search_room; [done | simpl; lia].
  - simpl. lia.
Defined.

Definition ex_cbuf : mega_batch_buf_t :=
  BatchBuf (replicate 100 (Selem 0 0)) [] [] [] [JobSearch 0 0 0 0 0; ex_job; ex_job] [] 5 0 0 1 [].

Lemma search_compact_partition_witness :
  ∃ bf', search_compact (Client 1 2 3) 9 ex_cbuf = Ok bf' ∧ compact_wf bf' ∧ num_search_job bf' = 6.
Proof.
  eexists. split; [vm_compute; reflexivity|].
  refine (search_compact_partition (Client 1 2 3) 9 ex_cbuf _ _ _ _ _).
  - split; [simpl; lia|]. simpl. repeat split; lia.
  - reflexivity.
  - intros j [= <-]. done.
  - done.
Defined.

Lemma buffer_switch_undoes_other_client_witness :
  ∃ bf1 bf2, search_compact (Client 1 2 3) 9 ex_rbuf = Ok bf1 ∧ undo_compact 1 bf1 = Ok bf2 ∧
    num_search_job bf2 = 5 ∧ search_job_list bf2 !! 1%nat = Some (JobSearch 0 0 0 4 0).
Proof.
  pose proof (ex_search_room (Client 1 2 3) 1 eq_refl ltac:(lia)) as Hroom.
  pose proof (search_compact_keys _ _ 9 _ Hroom) as Heq.
  destruct (buffer_switch_undoes_other_client mega_init_config (Client 1 2 3) 9 ex_rbuf
      (add_keys (Client 1 2 3) [key_elem 9] ex_rbuf) ex_job Hroom) as (bf2 & H & Hn & _ & Hj & _);
    [cbn; lia | reflexivity | cbn; lia | cbn; lia | exact Heq |].
  exists (add_keys (Client 1 2 3) [key_elem 9] ex_rbuf), bf2.
  split; [exact Heq|]. split; [exact H|]. split; [exact Hn | exact Hj].
Defined.

Lemma insert_blocks_share_buckets_witness :
  ∃ hash', bucket_index hash' = bucket_index 5 ∧
    insert_block_id mega_init_config hash' ≠ insert_block_id mega_init_config 5.
Proof.
  destruct (insert_blocks_share_buckets mega_init_config 5) as (h & _ & H1 & H2); [done|by split|].
  by exists h.
Defined.

Lemma ex_local n : 0 ≤ n ≤ 40 → local_item ex_rstate n 0 (0, 0) ex_small_item.
Proof.
  intros Hn. split; [|lia|done|done]. simpl. by rewrite (proj2 (Z.leb_le n 40)) by lia.
Qed.

Lemma ex_insert_room : insert_room mega_init_config 0 (BatchInsert 0 0) ex_rbuf.
Proof.
  split; unfold ex_rbuf, mega_init_config; cbn [insert_job_list insert_in bits_insert_buf
    batch_max_insert_job num_insert_job insert_buf bi_num_insert_job bi_insert_in];
    rewrite ?length_replicate; change (32768 ≫ IBLOCK_P) with 4096;
    [done | lia | lia | lia | split; [lia | reflexivity] | lia | lia].
Qed.

Lemma process_set_stores_witness :
  ∃ st', process_set (λ _, true) (λ _, 0) mega_init_config 0 quiet 1
      ([0; 0] ++ set_fields ex_key ex_value ++ end_mark) ex_rstate 0 2 = Ok (st', Some (1, 24)) ∧
    heap (r_slabs st') = <[(0, 0) := stored_item ex_small_item ex_key ex_value]> (heap (r_slabs ex_rstate)).
Proof.
  destruct (process_set_stores (λ _, true) (λ _, 0) mega_init_config 0 0 [0; 0] ex_key ex_value end_mark
    ex_rstate 0 0 (0, 0) ex_small_item ex_rbuf (BatchInsert 0 0) ex_key_ok eq_refl
    (ex_local 16 ltac:(lia)) ltac:(simpl; lia) ex_current ex_insert_room) as (st' & H & Hh & _).
  exists st'. split; [exact H | exact Hh].
Defined.

Lemma set_overruns_item_witness :
  process_set (λ _, true) (λ _, 0) mega_init_config 0 quiet 1
    ([0; 0] ++ set_fields ex_key (ex_value ++ ex_value) ++ end_mark) ex_rstate 0 2 = Err OutOfBounds.
Proof.
  apply (set_overruns_item (λ _, true) (λ _, 0) mega_init_config 0 quiet 1 [0; 0] ex_key
    (ex_value ++ ex_value) end_mark ex_rstate 0 0 (0, 0) ex_small_item); try (simpl; lia).
  by apply ex_local.
Defined.
