(* ===== verification/Receive.v ===== *)
(** * The Receiver thread (src/src/mega_recv.c)

    [mega_receiver_init] and the loop of [mega_receiver_read], which takes bursts of
    packets from the network card and hands each to [process_packet] ([Receiver]);
    [receiver_handle_signal] of src/src/mega.c, which reports what was received.  What
    [rte_eth_rx_burst] returns is a parameter: a list of at most [io_batch_num] packets,
    each with its memory and its length. *)

From S2P Require Import Prelude GpuHash Config Slabs Batch Items Packet Receiver.

(** The fields of [mega_receiver_t] that the reception writes; the two counts of jobs are
    in [rstate]. *)
Record mega_receiver_t := ReceiverStat { recv_packets : Z; recv_bytes : Z }.

(** ** mega_receiver_init *)

(** The statistics of all Receivers, with their counts of searches and insertions, and
    the batch of this one. *)
Definition mega_receiver_init (CPU_AFFINITY : bool) (sched_setaffinity : Z → Z) (core_id : Z)
    (uninit : uninit_t) (cfg : mega_config_t) (cs : list slabclass_t)
    (receivers : list (mega_receiver_t * (Z * Z))) : result (list (mega_receiver_t * (Z * Z)) * mega_batch_t) :=
  if cpu_worker_num cfg <=? Z.of_nat (length receivers) then
    let receivers := replicate (Z.to_nat (cpu_worker_num cfg)) (ReceiverStat 0 0, (0, 0)) ++
                     drop (Z.to_nat (cpu_worker_num cfg)) receivers in
    let batch := mega_receiver_batch_init uninit cfg cs in
    _ ← set_affinity CPU_AFFINITY sched_setaffinity core_id;
    Ok (receivers, batch)
  else Err OutOfBounds.

(** ** mega_receiver_read *)

Section receive.
Context (malloc_ok : Z → bool) (garbage : ptr → Z) (cfg : mega_config_t) (KVSIZE : Z).
Context (env : nat → mega_batch_t → mega_batch_t) (compact NOT_COLLECT : bool).
(** Fuel for the jobs of a packet, and for repeated searches. *)
Context (jobs fuel : nat).

Definition count_bytes (c : mega_receiver_t) (n : Z) : mega_receiver_t :=
  ReceiverStat (recv_packets c) (u64 (recv_bytes c + n)).
Definition count_packets (c : mega_receiver_t) (n : Z) : mega_receiver_t :=
  ReceiverStat (u64 (recv_packets c + n)) (recv_bytes c).

(** One packet; the value of [process_packet] is not used. *)
Definition receive_packet (cs : mega_receiver_t * rstate) (m : list Z * Z) : result (mega_receiver_t * rstate) :=
  let c := count_bytes cs.1 m.2 in
  if NOT_COLLECT then Ok (c, cs.2)
  else
    '(st, _) ← process_packet malloc_ok garbage cfg KVSIZE env jobs fuel compact m.1 m.2 cs.2;
    Ok (c, st).

Fixpoint receive_packets (cs : mega_receiver_t * rstate) (ms : list (list Z * Z)) : result (mega_receiver_t * rstate) :=
  match ms with
  | [] => Ok cs
  | m :: ms => cs ← receive_packet cs m; receive_packets cs ms
  end.

(** One iteration of the endless loop, for the burst [ms]. *)
Definition receive_burst (cs : mega_receiver_t * rstate) (ms : list (list Z * Z)) : result (mega_receiver_t * rstate) :=
  receive_packets (count_packets cs.1 (Z.of_nat (length ms)), cs.2) ms.

Fixpoint mega_receiver_read (bursts : list (list (list Z * Z))) (cs : mega_receiver_t * rstate)
    : result (mega_receiver_t * rstate) :=
  match bursts with
  | [] => Ok cs
  | ms :: bursts => cs ← receive_burst cs ms; mega_receiver_read bursts cs
  end.
End receive.

(** ** receiver_handle_signal (src/src/mega.c) *)

(** With [RECEIVER_PERFORMANCE_TEST]: what is printed for a Receiver, before it is divided
    by the time since the last report. *)
Record receiver_report := ReceiverReport {
  rr_packets : Z;   (** one more than there were, against a division by 0 *)
  rr_bytes : Z;
  rr_average : Z;
  rr_insert_jobs : Z;
  rr_search_jobs : Z;
}.

(** The second component holds [num_search_job] and [num_insert_job]. *)
Definition report_receiver (c : mega_receiver_t * (Z * Z)) : result receiver_report :=
  let total_rx_packets := u64 (1 + recv_packets c.1) in
  if total_rx_packets =? 0 then Err DivByZero
  else Ok (ReceiverReport total_rx_packets (recv_bytes c.1) (recv_bytes c.1 / total_rx_packets) c.2.2 c.2.1).

Fixpoint receiver_handle_signal (receivers : list (mega_receiver_t * (Z * Z)))
    : result (list receiver_report * list (mega_receiver_t * (Z * Z))) :=
  match receivers with
  | [] => Ok ([], [])
  | c :: receivers =>
      r ← report_receiver c;
      '(rs, receivers) ← receiver_handle_signal receivers;
      Ok (r :: rs, (ReceiverStat 0 0, (0, 0)) :: receivers)
  end.

(** Adding 1 to the packets avoids the division by 0, up to the largest counter. *)
Lemma receiver_handle_signal_total receivers :
  Forall (λ c, 0 ≤ recv_packets c.1 < 2 ^ 64 - 1) receivers →
  ∃ rs, receiver_handle_signal receivers =
      Ok (rs, replicate (length receivers) (ReceiverStat 0 0, (0, 0))) ∧
    Forall2 (λ c r, rr_packets r = recv_packets c.1 + 1 ∧ 0 ≤ rr_average r * rr_packets r ≤ recv_bytes c.1 ∨
                    recv_bytes c.1 < 0) receivers rs.
Proof.
  induction 1 as [|c l Hc _ IH]; [by exists []|]. destruct IH as (rs & IH & Hrs).
  cbn [receiver_handle_signal]. unfold report_receiver. rewrite (wrap_id 64) by (unfold in_range; lia).
  destruct (Z.eqb_spec (1 + recv_packets c.1) 0); [lia|]. rewrite bind_Ok, IH, bind_Ok.
  eexists. split; [done|]. constructor; [|done]. cbn [rr_packets rr_average].
  destruct (decide (recv_bytes c.1 < 0)); [by right|]. left. split; [lia|].
  pose proof (Z.div_mod (recv_bytes c.1) (1 + recv_packets c.1)).
  pose proof (Z.mod_pos_bound (recv_bytes c.1) (1 + recv_packets c.1)).
  pose proof (Z.div_pos (recv_bytes c.1) (1 + recv_packets c.1)). nia.
Qed.

(** ** Bursts of searches *)

(** A packet of GETs: its headers, keys, what follows the end mark, and its length. *)
Record get_packet := GetPacket { gp_hdr : list Z; gp_keys : list (list Z); gp_rest : list Z; gp_len : Z }.

Definition gp_memory (g : get_packet) : list Z * Z := (packet (gp_hdr g) (gets (gp_keys g)) (gp_rest g), gp_len g).

Definition gp_ok (KVSIZE : Z) (g : get_packet) : Prop :=
  length (gp_hdr g) = 42%nat ∧ Forall (key_ok KVSIZE) (gp_keys g) ∧
  44 + Z.of_nat (length (gets (gp_keys g))) < gp_len g.

(** The buffer after a packet. *)
Definition gp_add (bf : mega_batch_buf_t) (g : get_packet) : mega_batch_buf_t :=
  add_keys (header_client (gp_hdr g)) (elem_of_key <$> gp_keys g) bf.

Definition total_keys (gs : list get_packet) : nat := sum_list ((λ g, length (gp_keys g)) <$> gs).

(** Room for [n] searches in [p] packets, whoever sent them. *)
Record packet_room (cfg : mega_config_t) (n p : Z) (bf : mega_batch_buf_t) : Prop := {
  pr_num : 0 ≤ num_search_job bf;
  pr_max : num_search_job bf + n < batch_max_search_job cfg;
  pr_cfg : batch_max_search_job cfg < 2 ^ 31;
  pr_len : Z.of_nat (length (search_in bf)) = batch_max_search_job cfg;
  pr_compact : 0 ≤ num_compact_search_job bf;
  pr_jobs : num_compact_search_job bf + p < Z.of_nat (length (search_job_list bf));
  pr_count : ∀ job, search_job_list bf !! Z.to_nat (num_compact_search_job bf) = Some job →
    0 ≤ js_num job ∧ js_num job + n < 2 ^ 16;
  pr_small : 0 ≤ n < 2 ^ 16;
}.

Lemma packet_room_search cfg n p bf cl m :
  packet_room cfg n p bf → 0 ≤ m ≤ n → 0 < p → search_room cfg cl m bf.
Proof.
  intros [H1 H2 H3 H4 H5 H6 H7 H8] Hm Hp. split; try done; try lia.
  intros job Hj. destruct (H7 job Hj). lia.
Qed.

Lemma packet_room_next cfg n p bf cl es :
  packet_room cfg n p bf → Z.of_nat (length es) ≤ n → 0 < p →
  packet_room cfg (n - Z.of_nat (length es)) (p - 1) (add_keys cl es bf).
Proof.
  intros [H1 H2 H3 H4 H5 H6 H7 H8] Hm Hp. unfold add_keys. destruct es as [|e es].
  { rewrite Z.sub_0_r. split; try done; lia. }
  set (m := Z.of_nat (length (e :: es))) in *.
  destruct (lookup_lt_is_Some_2 (search_job_list bf) (Z.to_nat (num_compact_search_job bf))) as [job Hj]; [lia|].
  destruct (H7 job Hj) as [Hn0 Hn1].
  assert (Hw : length (write_run (search_in bf) (Z.to_nat (num_search_job bf)) (e :: es)) = length (search_in bf))
    by (apply write_run_length; lia).
  unfold compact_jobs. rewrite Hj. destruct (_ && _).
  - split; simpl; rewrite ?length_insert, ?Hw; try done; try lia.
    intros job' Hj'. rewrite list_lookup_insert_eq in Hj' by (by eapply lookup_lt_Some).
    injection Hj' as <-. simpl. lia.
  - split; simpl; rewrite ?length_insert, ?Hw; try done; try lia.
    intros job' Hj'. rewrite list_lookup_insert_eq in Hj' by lia. injection Hj' as <-. simpl. lia.
Qed.

Lemma packet_room_eq cfg n p n' p' bf : packet_room cfg n p bf → n = n' → p = p' → packet_room cfg n' p' bf.
Proof. by intros ? <- <-. Qed.

(** What [add_keys] does to the searches of a buffer. *)
Lemma add_keys_searches cl es bf :
  0 ≤ num_search_job bf → num_search_job bf + Z.of_nat (length es) ≤ Z.of_nat (length (search_in bf)) →
  num_search_job (add_keys cl es bf) = num_search_job bf + Z.of_nat (length es) ∧
  take (Z.to_nat (num_search_job (add_keys cl es bf))) (search_in (add_keys cl es bf)) =
    take (Z.to_nat (num_search_job bf)) (search_in bf) ++ es.
Proof.
  intros H0 Hlen. destruct es as [|e es]; [simpl; by rewrite Z.add_0_r, app_nil_r|].
  unfold add_keys. destruct (compact_jobs _ _ _) as [jobs c]. cbn [set_search num_search_job search_in].
  split; [done|]. rewrite Z2Nat.inj_add, Nat2Z.id by lia. apply take_write_run. lia.
Qed.

Lemma receive_packets_gets malloc_ok garbage cfg KVSIZE jobs fuel gs :
  ∀ c st bf, Forall (gp_ok KVSIZE) gs → current_buf st bf →
  packet_room cfg (Z.of_nat (total_keys gs)) (Z.of_nat (length gs)) bf → (total_keys gs < jobs)%nat →
  receive_packets malloc_ok garbage cfg KVSIZE quiet true false jobs (S fuel) (c, st) (gp_memory <$> gs) =
    Ok (foldl count_bytes c (gp_len <$> gs), searched st (foldl gp_add bf gs) (total_keys gs)).
Proof.
  induction gs as [|g gs IH]; intros c st bf Hgs Hb Hroom Hjobs.
  { simpl. by rewrite searched_0. }
  apply Forall_cons in Hgs as [(Hh & Hkeys & Hlen) Hgs].
  change (total_keys (g :: gs)) with (length (gp_keys g) + total_keys gs)%nat in *. rewrite length_cons in Hroom.
  rewrite !fmap_cons. cbn [receive_packets foldl]. unfold receive_packet at 1. cbn [fst snd].
  change ((gp_memory g).1) with (packet (gp_hdr g) (gets (gp_keys g)) (gp_rest g)).
  change ((gp_memory g).2) with (gp_len g).
  rewrite (process_packet_gets_spec malloc_ok garbage cfg KVSIZE (gp_hdr g) (gp_keys g) (gp_rest g) (gp_len g) jobs fuel st bf),
    !bind_Ok; try done; [|by eapply packet_room_search; [exact Hroom|lia..]|lia].
  cbv beta iota zeta. rewrite ?bind_Ok.
  fold (gp_add bf g).
  pose proof (packet_room_next cfg _ _ bf (header_client (gp_hdr g)) (elem_of_key <$> gp_keys g) Hroom) as Hnext.
  rewrite length_fmap in Hnext. fold (gp_add bf g) in Hnext.
  rewrite (IH (count_bytes c (gp_len g)) (searched st (gp_add bf g) (length (gp_keys g))) (gp_add bf g)); try done.
  - by rewrite searched_searched.
  - by eapply searched_current.
  - replace (Z.of_nat (total_keys gs)) with (Z.of_nat (length (gp_keys g) + total_keys gs) - Z.of_nat (length (gp_keys g))) by lia.
    replace (Z.of_nat (length gs)) with (Z.of_nat (S (length gs)) - 1) by lia. apply Hnext; lia.
  - lia.
Qed.

Lemma count_bytes_sum c ls :
  in_range 64 (recv_bytes c) →
  foldl count_bytes c ls = ReceiverStat (recv_packets c) (u64 (recv_bytes c + zsum id ls)).
Proof.
  revert c. induction ls as [|l ls IH]; intros c Hc; simpl.
  { rewrite Z.add_0_r, (wrap_id 64) by done. by destruct c. }
  rewrite IH by (apply (wrap_range 64); lia). unfold count_bytes. simpl. f_equal.
  unfold wrap. rewrite Z.add_mod_idemp_l by lia. f_equal. unfold id. lia.
Qed.

(** ** Properties *)

(** C23: a burst of searches.  Without a buffer switch and with room for them, the
    packets of a burst, of any number of clients, add all their keys to the Receiver's
    current buffer, packet by packet and in order, each packet's to a job of its client;
    the statistics grow by the packets and their bytes. *)
Theorem receive_burst_gets malloc_ok garbage cfg KVSIZE jobs fuel gs c st bf :
  Forall (gp_ok KVSIZE) gs → current_buf st bf → in_range 64 (recv_bytes c) →
  packet_room cfg (Z.of_nat (total_keys gs)) (Z.of_nat (length gs)) bf → (total_keys gs < jobs)%nat →
  receive_burst malloc_ok garbage cfg KVSIZE quiet true false jobs (S fuel) (c, st) (gp_memory <$> gs) =
    Ok (ReceiverStat (u64 (recv_packets c + Z.of_nat (length gs))) (u64 (recv_bytes c + zsum id (gp_len <$> gs))),
        searched st (foldl gp_add bf gs) (total_keys gs)) ∧
  num_search_job (foldl gp_add bf gs) = num_search_job bf + Z.of_nat (total_keys gs) ∧
  take (Z.to_nat (num_search_job (foldl gp_add bf gs))) (search_in (foldl gp_add bf gs)) =
    take (Z.to_nat (num_search_job bf)) (search_in bf) ++ concat ((λ g, elem_of_key <$> gp_keys g) <$> gs).
Proof.
  intros Hgs Hb Hc Hroom Hjobs. split.
  { unfold receive_burst. cbn [fst snd]. rewrite length_fmap.
    rewrite (receive_packets_gets malloc_ok garbage cfg KVSIZE jobs fuel gs _ st bf) by done.
    by rewrite count_bytes_sum. }
  clear Hb Hc Hjobs st c. revert bf Hgs Hroom. induction gs as [|g gs IH]; intros bf Hgs Hroom.
  { change (total_keys []) with 0%nat. simpl. rewrite Z.add_0_r, app_nil_r. done. }
  apply Forall_cons in Hgs as [_ Hgs]. change (total_keys (g :: gs)) with (length (gp_keys g) + total_keys gs)%nat in *.
  rewrite length_cons in Hroom. cbn [foldl]. rewrite fmap_cons, concat_cons.
  pose proof (packet_room_next cfg _ _ bf (header_client (gp_hdr g)) (elem_of_key <$> gp_keys g) Hroom) as Hnext.
  rewrite length_fmap in Hnext. fold (gp_add bf g) in Hnext.
  destruct (IH (gp_add bf g) Hgs) as [Hnum Htake].
  { eapply packet_room_eq; [apply Hnext| |]; lia. }
  pose proof Hroom as [H1 H2 H3 H4 _ _ _ _].
  destruct (add_keys_searches (header_client (gp_hdr g)) (elem_of_key <$> gp_keys g) bf) as [Hn Ht];
    [lia|rewrite length_fmap; lia|].
  fold (gp_add bf g) in Hn, Ht. rewrite length_fmap in Hn. split; [lia|].
  by rewrite Htake, Ht, app_assoc.
Qed.

(** A Receiver that starts late clears the statistics of the ones already running:
    [mega_receiver_init] sets the counters of every worker to 0. *)
Theorem late_receiver_clears_counters CPU_AFFINITY sched_setaffinity core_id uninit cfg cs receivers receivers' batch i c :
  mega_receiver_init CPU_AFFINITY sched_setaffinity core_id uninit cfg cs receivers = Ok (receivers', batch) →
  receivers' !! i = Some c → Z.of_nat i < cpu_worker_num cfg → c = (ReceiverStat 0 0, (0, 0)).
Proof.
  unfold mega_receiver_init. destruct (_ <=? _); [|done].
  destruct (set_affinity _ _ _); [|done]. intros [= <- _] Hi Hlt.
  rewrite lookup_app_l in Hi by (rewrite length_replicate; lia).
  by apply lookup_replicate in Hi as [-> _].
Qed.

(** ** The properties at a small Receiver

    Two clients send three searches in two packets. *)
Definition ex_hdr2 : list Z := seqZ 100 42.
Definition ex_gets : list get_packet :=
  [GetPacket ex_hdr [ex_key; ex_key] [0; 0] 72; GetPacket ex_hdr2 [ex_key] [0; 0] 60].

Lemma receive_burst_gets_witness :
  receive_burst (λ _, true) (λ _, 0) mega_init_config 0 quiet true false 10 1
    (ReceiverStat 7 700, ex_rstate) (gp_memory <$> ex_gets) =
  Ok (ReceiverStat 9 832, searched ex_rstate (foldl gp_add ex_rbuf ex_gets) 3) ∧
  num_search_job (foldl gp_add ex_rbuf ex_gets) = 8.
Proof.
  destruct (receive_burst_gets (λ _, true) (λ _, 0) mega_init_config 0 10 0 ex_gets (ReceiverStat 7 700)
    ex_rstate ex_rbuf) as (H & Hn & _); [| apply ex_current | by split | | vm_compute; lia |].
  - unfold ex_gets, gp_ok. repeat constructor; simpl; try lia; try apply ex_key_ok.
  - change (Z.of_nat (total_keys ex_gets)) with 3. change (Z.of_nat (length ex_gets)) with 2.
    split; unfold ex_rbuf, mega_init_config; cbn [num_search_job batch_max_search_job
      search_in search_job_list num_compact_search_job]; rewrite ?length_replicate; try lia.
    intros job Hj. apply lookup_replicate in Hj as [-> _]. unfold ex_job. cbn [js_num]. lia.
  - split; [exact H | exact Hn].
Defined.
