(* ===== verification/Common.v ===== *)
(** * Signatures and memory (src/src/mega_common.c, mega_memory.c)

    [calc_signature] computes the 64 bits from which a key's hash and signature are
    meant to be taken, and makes sure that they are not all 0, because a signature
    of 0 marks an empty slot of the index.  The Receiver reads the key by itself,
    without the check; [zero_word_key_finds_deleted] shows what that leads to.  With
    [SIGNATURE] the Receiver makes the 64 bits from the whole key ([signature]), which for
    keys of eight bytes is the same.  [panic] is output only; the print buffer is in
    [Logging]. *)

From S2P Require Import Prelude GpuHash Slabs Packet Receiver.

(** ** mega_common.c *)

(** The first eight bytes, and 1 to break the tie; [key_length] is not used. *)
Definition calc_signature (key : list Z) : result Z :=
  r ← load key 0 8;
  Ok (if r =? 0 then 1 else r).

(** ** mega_recv.c with SIGNATURE

    The loop over the words behind the first one, at [key + i], and the bytes that are
    left, which are loaded as a word and masked. *)
Fixpoint xor_words (fuel : nat) (pkt : list Z) (key i nkey sig : Z) : result Z :=
  match fuel with
  | O => Err OutOfFuel
  | S fuel =>
      if i <=? nkey - 8 then w ← load pkt (key + i) 8; xor_words fuel pkt key (i + 8) nkey (Z.lxor sig w)
      else if i <? nkey then
        let mask64 := u64 (u64 (Z.shiftl 1 ((nkey - i) * 8)) - 1) in
        w ← load pkt (key + i) 8; Ok (Z.lxor sig (Z.land w mask64))
      else Ok sig
  end.

Definition signature (fuel : nat) (pkt : list Z) (key nkey : Z) : result Z :=
  sig ← load pkt key 8;
  xor_words fuel pkt key 8 nkey sig.

(** ** mega_memory.c

    [aux] is what the C library returned: a block or null. *)
Definition mega_mem_malloc (aux : option ptr) (size : Z) : option ptr :=
  match aux with
  | None => if negb (size =? 0) then None else aux
  | Some _ => aux
  end.
Definition mega_mem_calloc (buf : option ptr) : option ptr :=
  match buf with None => None | Some _ => buf end.
Definition mega_mem_realloc (aux : option ptr) (size : Z) : option ptr :=
  match aux with
  | None => if negb (size =? 0) then None else aux
  | Some _ => aux
  end.

(** ** Lemmas *)

Lemma calc_signature_load key :
  (8 ≤ length key)%nat → ∃ r, calc_signature key = Ok r ∧ r ≠ 0.
Proof.
  intros Hl. assert (∃ r, load key 0 8 = Ok r) as [r Hr].
  { unfold load, bytes_at. cmp_cases. by eexists. }
  unfold calc_signature. rewrite Hr, bind_Ok. eexists. split; [done|].
  by destruct (Z.eqb_spec r 0).
Qed.

Lemma key_elem_sig_low x : s_sig (key_elem x) = x mod 2 ^ 32.
Proof.
  unfold key_elem. cbn [s_sig]. unfold wrap. rewrite Z.shiftl_mul_pow2 by lia.
  change (2 ^ 64) with (2 ^ 32 * 2 ^ 32). rewrite Z.mul_mod_distr_r by lia. by rewrite Z.div_mul by lia.
Qed.

Lemma zero_word_sig key : take 4 key = [0; 0; 0; 0] → s_sig (elem_of_key key) = 0.
Proof.
  destruct key as [|b0 [|b1 [|b2 [|b3 key]]]]; try done. intros [= -> -> -> ->].
  unfold elem_of_key. rewrite key_elem_sig_low. cbn [load_le].
  match goal with |- (0 + 256 * (0 + 256 * (0 + 256 * (0 + 256 * ?n)))) mod _ = 0 =>
    replace (0 + 256 * (0 + 256 * (0 + 256 * (0 + 256 * n)))) with (n * 2 ^ 32) by lia end.
  by rewrite Z.mod_mul by lia.
Qed.

Lemma matching_locs_lane b sig l :
  0 ≤ l < 8 → lane (b_sig b) l = sig → lane (b_loc b) l ∈ matching_locs b sig.
Proof.
  intros Hl Hs. unfold matching_locs. apply list_elem_of_fmap. exists l. split; [done|].
  apply list_elem_of_filter. split; [by apply same_sig_eq|]. apply elem_of_seqZ.
  change ELEM_NUM with 8. lia.
Qed.

(** Deleting leaves the location in the slot, and only clears the signature. *)
Lemma delete_leaves_location t e :
  table_wf t → e_sig e ≠ 0 → bview (ht_get t (bucket_index (e_hash e))) !! e_sig e = Some (e_loc e) →
  e_loc e ∈ matching_locs (ht_get (hash_delete_elem t e) (bucket_index (e_hash e))) 0.
Proof.
  intros Ht Hsig Hin. set (k := bucket_index (e_hash e)) in *.
  pose proof (unit_ballot_entry (ht_get t k) e (Ht k) Hsig) as Hb.
  apply bview_Some in Hin as Hl; [|apply Ht]. destruct Hl as (_ & l & Hl & Hls & Hll).
  assert (ht_get (hash_delete_elem t e) k = clear_entry (ht_get t k) e) as ->.
  { unfold hash_delete_elem. fold k. destruct (Z.eqb_spec (unit_ballot (same_entry (ht_get t k) e)) 0) as [H0|].
    - by apply Hb in H0.
    - simpl. by rewrite ht_get_insert, decide_True. }
  rewrite <-Hll. change (b_loc (ht_get t k)) with (b_loc (clear_entry (ht_get t k) e)).
  apply matching_locs_lane; [done|]. rewrite clear_entry_lane by done.
  by rewrite (proj2 (same_entry_eq _ e l)).
Qed.

(** The exclusive or of the words of a key, the last one filled up with zeros. *)
Fixpoint xor_of_words (n : nat) (key : list Z) : Z :=
  match n with O => 0 | S n => Z.lxor (load_le 8 key) (xor_of_words n (drop 8 key)) end.

Lemma load_le_nil n : load_le n [] = 0.
Proof. by destruct n. Qed.

Lemma xor_of_words_nil n : xor_of_words n [] = 0.
Proof. by induction n as [|n IH]; [|cbn [xor_of_words]; rewrite drop_nil, IH, load_le_nil]. Qed.

(** The mask leaves the bytes of the key. *)
Lemma load_masked tail post :
  (length tail < 8)%nat → Forall byte tail →
  Z.land (load_le 8 (tail ++ post)) (u64 (u64 (Z.shiftl 1 (Z.of_nat (length tail) * 8)) - 1)) = load_le 8 tail.
Proof.
  intros Hl Hb. set (k := length tail) in *. replace 8%nat with (k + (8 - k))%nat by lia.
  assert (Hp : 1 ≤ 2 ^ (8 * Z.of_nat k) ≤ 2 ^ 56)
    by (split; [apply Z.pow_le_mono_r with (b := 0); lia|apply Z.pow_le_mono_r; lia]).
  rewrite Z.shiftl_mul_pow2, Z.mul_1_l by lia. replace (Z.of_nat k * 8) with (8 * Z.of_nat k) by lia.
  rewrite !wrap_id by (unfold in_range; rewrite ?wrap_id by (unfold in_range; lia); lia).
  replace (2 ^ (8 * Z.of_nat k) - 1) with (Z.ones (8 * Z.of_nat k)) by (rewrite Z.ones_equiv; lia).
  rewrite Z.land_ones by lia. rewrite load_le_app_more by done.
  rewrite <-(app_nil_r tail) at 2. rewrite load_le_app_more, load_le_nil, Z.mul_0_r, Z.add_0_r by done.
  pose proof (load_le_range k tail Hb) as Hr. replace (256 ^ Z.of_nat k) with (2 ^ (8 * Z.of_nat k)) in *
    by (rewrite Z.pow_mul_r by lia; done).
  rewrite Z.mul_comm, Z_mod_plus_full. by apply Z.mod_small.
Qed.

Lemma xor_words_spec fuel pre bs post key i nkey sig :
  key + i = Z.of_nat (length pre) → nkey - i = Z.of_nat (length bs) → (7 ≤ length post)%nat →
  (length bs < 8 * fuel)%nat → Forall byte bs →
  xor_words fuel (pre ++ bs ++ post) key i nkey sig = Ok (Z.lxor sig (xor_of_words fuel bs)).
Proof.
  revert pre bs i sig. induction fuel as [|fuel IH]; intros pre bs i sig Hi Hn Hp Hf Hb; [lia|].
  cbn [xor_words xor_of_words]. destruct (Z.leb_spec i (nkey - 8)).
  - rewrite load_prefix, bind_Ok by (done || lia). rewrite <-Z.lxor_assoc.
    rewrite <-(take_drop 8 bs) at 1. rewrite <-app_assoc, app_assoc.
    apply IH; rewrite ?length_app, ?length_take, ?length_drop; try lia. by apply Forall_drop.
  - rewrite (drop_ge bs), xor_of_words_nil, Z.lxor_0_r by lia. destruct (Z.ltb_spec i nkey).
    + rewrite <-(app_nil_r post), (app_assoc bs), load_prefix, bind_Ok by (done || rewrite length_app; lia).
      rewrite Hn, load_masked by (done || lia). done.
    + destruct bs; [|simpl in *; lia]. by rewrite load_le_nil, Z.lxor_0_r.
Qed.

(** ** Properties *)

(** With [SIGNATURE] the 64 bits of a key are the exclusive or of its words, whatever the
    packet holds behind the key; for a key of eight bytes they are the word the Receiver
    takes without [SIGNATURE]. *)
Theorem signature_spec fuel pre key post :
  (8 ≤ length key < 8 * S fuel)%nat → (7 ≤ length post)%nat → Forall byte key →
  signature fuel (pre ++ key ++ post) (Z.of_nat (length pre)) (Z.of_nat (length key)) = Ok (xor_of_words (S fuel) key) ∧
  (length key = 8%nat → xor_of_words (S fuel) key = load_le 8 key).
Proof.
  intros Hk Hp Hb. split.
  - unfold signature. rewrite load_prefix, bind_Ok by (done || lia). cbn [xor_of_words].
    rewrite <-(take_drop 8 key) at 1. rewrite <-app_assoc, app_assoc.
    apply xor_words_spec; rewrite ?length_app, ?length_take, ?length_drop; try lia. by apply Forall_drop.
  - intros H8. cbn [xor_of_words]. by rewrite drop_ge, xor_of_words_nil, Z.lxor_0_r by lia.
Qed.

(** Every key whose two halves of eight bytes are equal has the signature 0, the mark of an
    empty slot, and the hash 0. *)
Theorem equal_halves_signature_0 fuel pre half post :
  (1 < fuel)%nat → length half = 8%nat → (7 ≤ length post)%nat → Forall byte half →
  signature fuel (pre ++ (half ++ half) ++ post) (Z.of_nat (length pre)) 16 = Ok 0.
Proof.
  intros Hf Hl Hp Hb. destruct (signature_spec fuel pre (half ++ half) post) as [H _];
    rewrite ?length_app; try lia; [by apply Forall_app|].
  rewrite length_app, Hl in H. change (Z.of_nat (8 + 8)) with 16 in H. rewrite H. f_equal.
  destruct fuel as [|fuel]; [lia|]. cbn [xor_of_words].
  rewrite (load_le_app 8 half half), drop_app_length' by done. rewrite drop_ge, xor_of_words_nil, Z.lxor_0_r by lia.
  apply Z.lxor_nilpotent.
Qed.

(** Keys whose first word is 0.  The Receiver takes the signature from the first
    four bytes and accepts 0, which [calc_signature] would never return.  A search
    for such a key matches the empty slots of its bucket: among the locations it may
    return is that of an entry that was deleted from there. *)
Theorem zero_word_key_finds_deleted t e key :
  table_wf t → e_sig e ≠ 0 → bview (ht_get t (bucket_index (e_hash e))) !! e_sig e = Some (e_loc e) →
  (8 ≤ length key)%nat → take 4 key = [0; 0; 0; 0] →
  bucket_index (s_hash (elem_of_key key)) = bucket_index (e_hash e) →
  s_sig (elem_of_key key) = 0 ∧ (∃ r, calc_signature key = Ok r ∧ r ≠ 0) ∧
  ∃ locs, e_loc e ∈ locs ∧ ∀ winner,
    (hash_search_elem winner (hash_delete_elem t e) (elem_of_key key) (0, 0)).1 = winner locs.
Proof.
  intros Ht Hsig Hin Hlen Hkey Hbuc. pose proof (zero_word_sig key Hkey) as H0.
  split; [done|]. split; [by apply calc_signature_load|].
  pose proof (delete_leaves_location t e Ht Hsig Hin) as Hl. rewrite <-Hbuc in Hl.
  exists (matching_locs (ht_get (hash_delete_elem t e) (bucket_index (s_hash (elem_of_key key)))) 0).
  split; [done|]. intros winner. unfold hash_search_elem. cbn [fst]. unfold write_out. rewrite H0.
  by destruct (matching_locs _ 0) as [|l ls]; [apply not_elem_of_nil in Hl|].
Qed.

Lemma zero_word_key_finds_deleted_witness :
  ∃ locs, 7 ∈ locs ∧ ∀ winner,
    (hash_search_elem winner (hash_delete_elem (<[0 := Bucket [5; 0; 0; 0; 0; 0; 0; 0] [7; 0; 0; 0; 0; 0; 0; 0]]> ∅)
      (Ielem 5 0 7)) (elem_of_key [0; 0; 0; 0; 0; 0; 0; 0]) (0, 0)).1 = winner locs.
Proof.
  apply (zero_word_key_finds_deleted
    (<[0 := Bucket [5; 0; 0; 0; 0; 0; 0; 0] [7; 0; 0; 0; 0; 0; 0; 0]]> ∅) (Ielem 5 0 7)
    [0; 0; 0; 0; 0; 0; 0; 0]); try done.
  - apply table_wf_insert; [apply empty_table_wf|]. split; try done. intros i j Hi Hj.
    assert (Hall : ∀ l, 0 ≤ l < 8 → l ≠ 0 → lane [5; 0; 0; 0; 0; 0; 0; 0] l = 0).
    { intros l Hl Hne. assert (l = 1 ∨ l = 2 ∨ l = 3 ∨ l = 4 ∨ l = 5 ∨ l = 6 ∨ l = 7) as Hc by lia.
      by destruct Hc as [->|[->|[->|[->|[->|[->| ->]]]]]]. }
    simpl. destruct (decide (i = 0)) as [->|Hi0]; [|by rewrite (Hall i)].
    destruct (decide (j = 0)) as [->|Hj0]; [done|]. by rewrite (Hall j).
Defined.
