(* ===== verification/Logging.v ===== *)
(** * The print buffer (src/src/mega_common.c, src/src/include/mega_common.h)

    With [MEGA_PRINT_BUFFER] the macro [mprint] does not print: it appends the formatted
    line to a large buffer, from which [mprint_fini] prints the lines in the end.  What
    [sprintf] makes of the format and the arguments is an argument, a list of characters
    without the zero that ends it.  The spin lock makes the steps of [mprint] one; threads
    that print at the same time do so in some order.  Without [MEGA_PRINT_BUFFER] [mprint]
    is [printf], and [mprint_init] and [mprint_fini] do nothing. *)

From S2P Require Import Prelude.

(** ** Levels *)

Definition STAT : Z := 0.
Definition FATAL : Z := 1.
Definition ERROR : Z := 2.
Definition WARN : Z := 3.
Definition INFO : Z := 4.
Definition DEBUG : Z := 5.
Definition MEGA_PRINT_LEVEL : Z := INFO.

Definition FBUFFER_SIZE : Z := 128 * 1000 * 1000.

(** [mprint_buffer] (null: [None]), [mprint_lines] and [mprint_head]. *)
Record mprint_t := Mprint {
  mprint_buffer : option (list Z);
  mprint_lines : Z;
  mprint_head : Z;
}.
Definition mprint0 : mprint_t := Mprint None 0 0.

(** ** The operations *)

(** Every page is touched once. *)
Fixpoint touch (fuel : nat) (size i : Z) (b : list Z) : result (list Z) :=
  if i <? size then
    match fuel with
    | O => Err OutOfFuel
    | S fuel => b ← arr_set b i 120; touch fuel size (i + 4096) b
    end
  else Ok b.

(** [mprint_init]; [malloc] is the memory of [FBUFFER_SIZE] bytes, if there is any. *)
Definition mprint_init (fuel : nat) (size : Z) (malloc : option (list Z)) (m : mprint_t) : result mprint_t :=
  match malloc with
  | None => Err Exit
  | Some b => b ← touch fuel size 0 b; Ok (Mprint (Some b) (mprint_lines m) (mprint_head m))
  end.

(** [mprint(lvl, ...)] for the line [text]: it is stored with a zero behind it. *)
Definition mprint (lvl : Z) (text : list Z) (m : mprint_t) : result mprint_t :=
  if lvl <=? MEGA_PRINT_LEVEL then
    match mprint_buffer m with
    | None => Err NullDeref
    | Some b =>
        let len := Z.of_nat (length text) in
        if (0 <=? mprint_head m) && (mprint_head m + len + 1 <=? Z.of_nat (length b)) then
          Ok (Mprint (Some (write_run b (Z.to_nat (mprint_head m)) (text ++ [0])))
                (mprint_lines m + 1) (mprint_head m + (len + 1)))
        else Err OutOfBounds
    end
  else Ok m.

(** What [printf] with the format for a string prints: the characters before the first
    zero. *)
Fixpoint c_string (b : list Z) : result (list Z) :=
  match b with
  | [] => Err OutOfBounds
  | c :: b => if c =? 0 then Ok [] else s ← c_string b; Ok (c :: s)
  end.

Fixpoint print_lines (n : nat) (head : Z) (b : list Z) : result (list (list Z)) :=
  match n with
  | O => Ok []
  | S n =>
      s ← c_string (drop (Z.to_nat head) b);
      out ← print_lines n (head + (Z.of_nat (length s) + 1)) b;
      Ok (s :: out)
  end.

(** [mprint_fini]: the lines that are printed. *)
Definition mprint_fini (m : mprint_t) : result (list (list Z) * mprint_t) :=
  match mprint_buffer m with
  | None => Ok ([], m)
  | Some b =>
      out ← print_lines (Z.to_nat (mprint_lines m)) 0 b;
      Ok (out, Mprint None (mprint_lines m) (mprint_head m))
  end.

Fixpoint mprint_all (ls : list (Z * list Z)) (m : mprint_t) : result mprint_t :=
  match ls with [] => Ok m | l :: ls => m ← mprint l.1 l.2 m; mprint_all ls m end.

(** ** Lemmas *)

Definition shown (ls : list (Z * list Z)) : list (list Z) := (filter (λ l, l.1 ≤ MEGA_PRINT_LEVEL) ls).*2.

(** The lines with their zeros, as they lie in the buffer. *)
Definition laid_out (ts : list (list Z)) : list Z := concat ((λ t, t ++ [0]) <$> ts).

(** [ts] are in the buffer. *)
Record buffered (ts : list (list Z)) (size : nat) (m : mprint_t) : Prop := {
  bd_lines : mprint_lines m = Z.of_nat (length ts);
  bd_head : mprint_head m = Z.of_nat (length (laid_out ts));
  bd_buffer : ∃ rest, mprint_buffer m = Some (laid_out ts ++ rest) ∧ (length (laid_out ts ++ rest) = size)%nat;
}.

Lemma touch_length fuel size i b : (Z.to_nat (size - i) ≤ fuel)%nat → 0 ≤ i → size ≤ Z.of_nat (length b) →
  ∃ b', touch fuel size i b = Ok b' ∧ length b' = length b.
Proof.
  revert i b. induction fuel as [|fuel IH]; intros i b Hf Hi Hs; cbn [touch]; destruct (Z.ltb_spec i size); try lia;
    try (by exists b).
  rewrite arr_set_in_bounds, bind_Ok by lia. destruct (IH (i + 4096) (<[Z.to_nat i := 120]> b)) as (b' & H' & L);
    rewrite ?length_insert in *; try lia. by exists b'.
Qed.

Lemma laid_out_snoc ts t : laid_out (ts ++ [t]) = laid_out ts ++ t ++ [0].
Proof. unfold laid_out. rewrite fmap_app, concat_app. simpl. by rewrite app_nil_r. Qed.

Lemma mprint_buffered ts size m lvl t :
  buffered ts size m → (length (laid_out (ts ++ [t])) ≤ size)%nat → lvl ≤ MEGA_PRINT_LEVEL →
  ∃ m', mprint lvl t m = Ok m' ∧ buffered (ts ++ [t]) size m'.
Proof.
  intros [Hl Hh (rest & Hb & Hsize)] Hfit Hlvl. rewrite laid_out_snoc, !length_app in Hfit. cbn [length] in Hfit.
  rewrite length_app in Hsize. unfold mprint. rewrite (proj2 (Z.leb_le _ _) Hlvl), Hb, Hh.
  rewrite length_app, (proj2 (Z.leb_le 0 _)), (proj2 (Z.leb_le (_ + 1) _)) by lia. cbn [andb].
  eexists. split; [done|]. split; cbn [mprint_lines mprint_head mprint_buffer].
  - rewrite Hl, length_app. simpl. lia.
  - rewrite laid_out_snoc, !length_app. simpl. lia.
  - exists (drop (length (t ++ [0])) rest). rewrite laid_out_snoc. unfold write_run.
    rewrite Nat2Z.id, take_app_length, <-drop_drop, drop_app_length, <-!app_assoc. split; [done|].
    rewrite !length_app, length_drop, ?length_app. cbn [length] in *. lia.
Qed.

Lemma mprint_all_buffered ls ts size m :
  buffered ts size m → (length (laid_out (ts ++ shown ls)) ≤ size)%nat →
  ∃ m', mprint_all ls m = Ok m' ∧ buffered (ts ++ shown ls) size m'.
Proof.
  revert ts m. induction ls as [|[lvl t] ls IH]; intros ts m Hm Hfit.
  { exists m. by rewrite app_nil_r in *. }
  cbn [mprint_all fst snd]. unfold shown in *. destruct (decide (lvl ≤ MEGA_PRINT_LEVEL)) as [Hlvl|Hlvl].
  - rewrite filter_cons_True in * by done. cbn [fmap list_fmap snd] in *.
    rewrite (cons_middle t ts), (app_assoc ts [t]) in *.
    destruct (mprint_buffered ts size m lvl t Hm) as (m1 & -> & H1); [|done|].
    { revert Hfit. unfold laid_out. rewrite (fmap_app _ (ts ++ [t])), concat_app, length_app. lia. }
    rewrite bind_Ok. by apply IH.
  - rewrite filter_cons_False in * by done. unfold mprint. rewrite (proj2 (Z.leb_gt _ _)), bind_Ok by lia. by apply IH.
Qed.

Lemma c_string_text t rest : Forall (λ c, c ≠ 0) t → c_string (t ++ 0 :: rest) = Ok t.
Proof.
  induction 1 as [|c t Hc _ IH]; [done|]. cbn [app c_string]. rewrite (proj2 (Z.eqb_neq _ _) Hc). by rewrite IH.
Qed.

Lemma print_lines_laid_out ts pre rest :
  Forall (Forall (λ c, c ≠ 0)) ts →
  print_lines (length ts) (Z.of_nat (length pre)) (pre ++ laid_out ts ++ rest) = Ok ts.
Proof.
  intros Hts. revert pre. induction Hts as [|t ts Ht _ IH]; intros pre; [done|]. cbn [length print_lines].
  unfold laid_out. rewrite fmap_cons. cbn [concat]. fold (laid_out ts).
  rewrite Nat2Z.id, drop_app_length, <-!app_assoc. cbn [app].
  rewrite c_string_text, bind_Ok by done.
  replace (Z.of_nat (length pre) + (Z.of_nat (length t) + 1)) with (Z.of_nat (length (pre ++ t ++ [0])))
    by (rewrite !length_app; simpl; lia).
  replace (pre ++ t ++ 0 :: laid_out ts ++ rest) with ((pre ++ t ++ [0]) ++ laid_out ts ++ rest)
    by (rewrite <-!app_assoc; done).
  by rewrite IH, bind_Ok.
Qed.

(** ** Properties *)

(** C39: the print buffer loses nothing.  As long as the lines fit into the buffer with the
    zeros that end them, [mprint_fini] prints the lines that were given to [mprint] with a
    level up to [MEGA_PRINT_LEVEL], whole and in their order, and leaves the buffer freed. *)
Theorem mprint_roundtrip fuel size memory ls :
  Z.of_nat (length memory) = size → (length memory ≤ fuel)%nat →
  Forall (λ l, Forall (λ c, c ≠ 0) l.2) ls → Z.of_nat (length (laid_out (shown ls))) ≤ size →
  ∃ m m', mprint_init fuel size (Some memory) mprint0 = Ok m ∧
    (m ← mprint_all ls m; mprint_fini m) = Ok (shown ls, m') ∧ mprint_buffer m' = None.
Proof.
  intros Hsize Hfuel Hls Hfit. unfold mprint_init.
  destruct (touch_length fuel size 0 memory) as (b & -> & Hb); [lia..|]. rewrite bind_Ok. cbn [mprint0 mprint_lines mprint_head].
  destruct (mprint_all_buffered ls [] (length memory) (Mprint (Some b) 0 0)) as (m & Hm & [Hl Hh (rest & Hr & _)]).
  { split; [done|done|]. by exists b. }
  { cbn [app]. lia. }
  eexists _, _. split; [done|]. rewrite Hm, bind_Ok. unfold mprint_fini. rewrite Hr, Hl, Nat2Z.id. cbn [app].
  pose proof (print_lines_laid_out (shown ls) [] rest) as Hout. cbn [app length] in Hout. change (Z.of_nat 0) with 0 in Hout.
  rewrite Hout, bind_Ok; [done|].
  unfold shown. apply Forall_fmap, Forall_forall. intros [lvl t] [_ Hin]%list_elem_of_filter.
  exact (proj1 (Forall_forall _ _) Hls _ Hin).
Qed.

(** Nothing calls [mprint_init]: the first line goes through a null pointer. *)
Theorem mprint_without_init lvl text : lvl ≤ MEGA_PRINT_LEVEL → mprint lvl text mprint0 = Err NullDeref.
Proof. intros H. unfold mprint. by rewrite (proj2 (Z.leb_le _ _) H). Qed.

(** ** The property at a small buffer *)

Definition ex_lines : list (Z * list Z) := [(INFO, [72; 105]); (DEBUG, [110; 111]); (ERROR, []); (STAT, [33])].

Lemma mprint_roundtrip_witness :
  shown ex_lines = [[72; 105]; []; [33]] ∧
  ∃ m m', mprint_init 16 16 (Some (replicate 16 255)) mprint0 = Ok m ∧
    (m ← mprint_all ex_lines m; mprint_fini m) = Ok (shown ex_lines, m') ∧ mprint_buffer m' = None.
Proof.
  split; [reflexivity|]. apply (mprint_roundtrip 16 16 (replicate 16 255) ex_lines); [done|simpl; lia| |by vm_compute].
  repeat constructor; done.
Defined.

Lemma mprint_without_init_witness : mprint FATAL [72] mprint0 = Err NullDeref.
Proof. by apply mprint_without_init. Defined.
