(* ===== verification/Zipf.v ===== *)
(** * The key generator (src/src/zipf.h)

    [mehcached_zipf_next] draws the keys of the searches of the local test and of
    the benchmark client.  [theta] selects the distribution: [-1] counts through
    the keys, [0] is uniform (the active build, [DIS_UNIFORM]), between [0] and [1]
    is Zipf's, [40] and more always gives key 0.  Doubles are those of [Prelude];
    the generator state is passed explicitly. *)

From Stdlib Require Import Floats.SpecFloat.
From S2P Require Import Prelude.

(** ** Bits of a double

    The union in [mehcached_pow_approx] reads the high word of a double as an
    [int] and writes it back, on a little-endian machine. *)
Definition bits_of_double (d : double) : Z :=
  match d with
  | S754_zero s => if s then 2 ^ 63 else 0
  | S754_infinity s => (if s then 2 ^ 63 else 0) + 2047 * 2 ^ 52
  | S754_nan => 2047 * 2 ^ 52 + 2 ^ 51
  | S754_finite s m e => (if s then 2 ^ 63 else 0) + (e + 1074) * 2 ^ 52 + Zpos m
  end.

Definition double_of_bits (b : Z) : double :=
  let s := Z.testbit b 63 in
  let e := (b mod 2 ^ 63) / 2 ^ 52 in
  let f := b mod 2 ^ 52 in
  if e =? 2047 then (if f =? 0 then S754_infinity s else S754_nan)
  else if e =? 0 then
    match f with Zpos m => S754_finite s m (-1074) | _ => S754_zero s end
  else
    match f + 2 ^ 52 with Zpos m => S754_finite s m (e - 1075) | _ => S754_zero s end.

(** [u.x[1]], and the double with [u.x[1] = w] and [u.x[0] = 0]. *)
Definition high_word (d : double) : Z := s32 (Z.shiftr (bits_of_double d) 32).
Definition of_high_word (w : Z) : double := double_of_bits (u32 w * 2 ^ 32).

Definition int_of_double : double → result Z := Z_of_double (- 2 ^ 31) (2 ^ 31 - 1).
Definition u64_of_double : double → result Z := Z_of_double 0 (2 ^ 64 - 1).

(** A signed 32-bit subtraction. *)
Definition sub32 (a b : Z) : result Z :=
  if (- 2 ^ 31 <=? a - b) && (a - b <? 2 ^ 31) then Ok (a - b) else Err SignedOverflow.

(** ** The approximate power *)

(** [while (e)], with an arithmetic shift of the [int] [e]. *)
Fixpoint pow_loop (fuel : nat) (a r : double) (e : Z) : result double :=
  if e =? 0 then Ok r
  else
    match fuel with
    | O => Err OutOfFuel
    | S fuel => pow_loop fuel (dmul a a) (if Z.odd e then dmul r a else r) (Z.shiftr e 1)
    end.

Definition mehcached_pow_approx (a b : double) : result double :=
  e ← int_of_double b;
  w ← sub32 (high_word a) 1072632447;
  x ← int_of_double (dadd (dmul (dsub b (double_of_Z e)) (double_of_Z w)) (double_of_Z 1072632447));
  r ← pow_loop 32 a (double_of_Z 1) e;
  Ok (dmul r (of_high_word x)).

(** ** The generator *)

Record zipf_gen_state := ZipfState {
  z_n : Z;
  z_theta : double;
  z_alpha : double;
  z_thres : double;
  z_last_n : Z;
  z_dbl_n : double;
  z_zetan : double;
  z_eta : double;
  z_rand_state : Z;
}.

Definition one : double := double_of_Z 1.
Definition minus_one : double := double_of_Z (-1).
Definition half : double := ddiv one (double_of_Z 2).

Definition zipfian (theta : double) : bool :=
  SFltb (double_of_Z 0) theta && SFltb theta one.

Definition mehcached_zipf_init (n : Z) (theta : double) (rand_seed : Z) : result zipf_gen_state :=
  _ ← assert_ (0 <? n);
  _ ← assert_ (negb (SFleb one theta && SFltb theta (double_of_Z 40)));
  _ ← assert_ (SFeqb theta minus_one || (SFleb (double_of_Z 0) theta && SFltb theta one)
               || SFleb (double_of_Z 40) theta);
  _ ← assert_ (rand_seed <? 2 ^ 48);
  let zero := double_of_Z 0 in
  if SFeqb theta minus_one then
    Ok (ZipfState n theta zero zero 0 zero zero zero (rand_seed mod n))
  else if zipfian theta then
    p ← mehcached_pow_approx half theta;
    Ok (ZipfState n theta (ddiv one (dsub one theta)) (dadd one p) 0 zero zero zero rand_seed)
  else Ok (ZipfState n theta zero zero 0 zero zero zero rand_seed).

(** [while (last_n < n)]; [cnt] is the number of terms left. *)
Fixpoint zeta_loop (cnt : nat) (last_n : Z) (last_sum theta : double) : result double :=
  match cnt with
  | O => Ok last_sum
  | S cnt =>
      p ← mehcached_pow_approx (dadd (double_of_Z last_n) one) theta;
      zeta_loop cnt (last_n + 1) (dadd last_sum (ddiv one p)) theta
  end.

Definition mehcached_zeta (last_n : Z) (last_sum : double) (n : Z) (theta : double) : result double :=
  let '(last_n, last_sum) := if n <? last_n then (0, double_of_Z 0) else (last_n, last_sum) in
  zeta_loop (Z.to_nat (n - last_n)) last_n last_sum theta.

Definition lcg (state : Z) : Z := Z.land (u64 (u64 (state * 0x5deece66d) + 0xb)) (2 ^ 48 - 1).

(** The new state and the number between 0 and 1. *)
Definition mehcached_rand_d (state : Z) : Z * double :=
  (lcg state, ddiv (double_of_Z (lcg state)) (double_of_Z (2 ^ 48 - 1))).

Definition set_rand (st : zipf_gen_state) (r : Z) : zipf_gen_state :=
  ZipfState (z_n st) (z_theta st) (z_alpha st) (z_thres st) (z_last_n st) (z_dbl_n st) (z_zetan st)
    (z_eta st) r.

(** The numbers that depend on [n], computed again when it has changed. *)
Definition zipf_refresh (st : zipf_gen_state) : result zipf_gen_state :=
  if z_last_n st =? z_n st then Ok st
  else
    '(zetan, eta) ← (if zipfian (z_theta st) then
        zetan ← mehcached_zeta (z_last_n st) (z_zetan st) (z_n st) (z_theta st);
        p ← mehcached_pow_approx (ddiv (double_of_Z 2) (double_of_Z (z_n st))) (dsub one (z_theta st));
        z2 ← mehcached_zeta 0 (double_of_Z 0) 2 (z_theta st);
        Ok (zetan, ddiv (dsub one p) (dsub one (ddiv z2 zetan)))
      else Ok (z_zetan st, z_eta st));
    Ok (ZipfState (z_n st) (z_theta st) (z_alpha st) (z_thres st) (z_n st) (double_of_Z (z_n st)) zetan
          eta (z_rand_state st)).

Definition mehcached_zipf_next (st : zipf_gen_state) : result (zipf_gen_state * Z) :=
  st ← zipf_refresh st;
  let theta := z_theta st in
  if SFeqb theta minus_one then
    let v := z_rand_state st in
    let r := u64 (v + 1) in
    Ok (set_rand st (if z_n st <=? r then 0 else r), v)
  else if SFeqb theta (double_of_Z 0) then
    let '(r, u) := mehcached_rand_d (z_rand_state st) in
    v ← u64_of_double (dmul (z_dbl_n st) u);
    Ok (set_rand st r, v)
  else if SFleb (double_of_Z 40) theta then Ok (st, 0)
  else
    let '(r, u) := mehcached_rand_d (z_rand_state st) in
    let st := set_rand st r in
    let uz := dmul u (z_zetan st) in
    if SFltb uz one then Ok (st, 0)
    else if SFltb uz (z_thres st) then Ok (st, 1)
    else
      p ← mehcached_pow_approx (dadd (dmul (z_eta st) (dsub u one)) one) (z_alpha st);
      v ← u64_of_double (dmul (z_dbl_n st) p);
      Ok (st, v).

(** [k] keys in a row. *)
Fixpoint zipf_draw (k : nat) (st : zipf_gen_state) : result (zipf_gen_state * list Z) :=
  match k with
  | O => Ok (st, [])
  | S k =>
      '(st, v) ← mehcached_zipf_next st;
      '(st, vs) ← zipf_draw k st;
      Ok (st, v :: vs)
  end.

(** ** Properties *)

(** The state that counts through [n] keys and is at [v]. *)
Definition sequential_at (n v : Z) (st : zipf_gen_state) : Prop :=
  z_theta st = minus_one ∧ z_n st = n ∧ z_rand_state st = v.

Lemma zipf_next_sequential n v st :
  0 < n < 2 ^ 64 → 0 ≤ v < n → sequential_at n v st →
  ∃ st', mehcached_zipf_next st = Ok (st', v) ∧ sequential_at n ((v + 1) mod n) st'.
Proof.
  intros Hn Hv (Ht & Hzn & Hr). unfold mehcached_zipf_next.
  assert (Hrefresh : ∃ st1, zipf_refresh st = Ok st1 ∧ sequential_at n v st1).
  { unfold zipf_refresh. destruct (_ =? _); [by exists st|].
    rewrite Ht. change (zipfian minus_one) with false. cbv iota. rewrite bind_Ok.
    eexists. by split. }
  destruct Hrefresh as (st1 & -> & Ht1 & Hn1 & Hr1). rewrite bind_Ok, Ht1.
  change (SFeqb minus_one minus_one) with true. cbv iota.
  rewrite Hr1, Hn1, (wrap_id 64) by (unfold in_range; lia).
  eexists. split; [done|]. unfold sequential_at, set_rand. simpl. rewrite Ht1, Hn1.
  split_and!; [done..|]. destruct (Z.leb_spec n (v + 1)).
  - replace (v + 1) with n by lia. by rewrite Z.mod_same by lia.
  - by rewrite Z.mod_small by lia.
Qed.

Lemma zipf_draw_sequential n k st v :
  0 < n < 2 ^ 64 → 0 ≤ v < n → sequential_at n v st →
  ∃ st', zipf_draw k st = Ok (st', (λ i, (v + i) mod n) <$> seqZ 0 (Z.of_nat k)).
Proof.
  intros Hn. revert st v. induction k as [|k IH]; intros st v Hv Hst; [by exists st|].
  destruct (zipf_next_sequential n v st Hn Hv Hst) as (st1 & H1 & Hst1). simpl.
  rewrite H1, bind_Ok.
  destruct (IH st1 ((v + 1) mod n)) as (st2 & H2); [by apply Z.mod_pos_bound; lia|done|].
  exists st2. rewrite H2, bind_Ok. rewrite (seqZ_cons 0 (Z.of_nat (S k))) by lia.
  replace (Z.pred (Z.of_nat (S k))) with (Z.of_nat k) by lia. rewrite fmap_cons.
  replace (v + 0) with v by lia. rewrite (Z.mod_small v n) by lia. do 3 f_equal.
  change (Z.succ 0) with (0 + 1). rewrite <-(fmap_add_seqZ 1 0), <-list_fmap_compose.
  apply list_fmap_ext. intros i x _. simpl. rewrite Z.add_mod_idemp_l by lia. f_equal. lia.
Qed.

Lemma zipf_draw_length k st st' vs : zipf_draw k st = Ok (st', vs) → length vs = k.
Proof.
  revert st st' vs. induction k as [|k IH]; intros st st' vs; simpl; [by intros [= _ <-]|].
  intros ([st1 v] & _ & H)%bind_Ok_inv. apply bind_Ok_inv in H as ([st2 vs'] & H & [= _ <-]).
  simpl. by rewrite (IH _ _ _ H).
Qed.

(** The sequential generator.  With [theta = -1] the generator returns the
    keys in cyclic order from the seed, each of them between 0 and [n - 1]. *)
Theorem zipf_sequential n seed k :
  0 < n < 2 ^ 64 → 0 ≤ seed < 2 ^ 48 →
  ∃ st st', mehcached_zipf_init n minus_one seed = Ok st ∧
    zipf_draw k st = Ok (st', (λ i, (seed mod n + i) mod n) <$> seqZ 0 (Z.of_nat k)).
Proof.
  intros Hn Hseed. unfold mehcached_zipf_init.
  rewrite assert_true, bind_Ok by (apply Z.ltb_lt; lia).
  rewrite assert_true, bind_Ok by done. rewrite assert_true, bind_Ok by done.
  rewrite assert_true, bind_Ok by (apply Z.ltb_lt; lia).
  change (SFeqb minus_one minus_one) with true. cbv iota.
  eexists. edestruct (zipf_draw_sequential n k) as (st' & H); [done| | |exists st'; split; [done|exact H]].
  - by apply Z.mod_pos_bound; lia.
  - done.
Qed.

Lemma zipf_sequential_witness :
  ∃ st st', mehcached_zipf_init 3 minus_one 5 = Ok st ∧ zipf_draw 4 st = Ok (st', [2; 0; 1; 2]).
Proof. apply (zipf_sequential 3 5 4); lia. Defined.
