(* ===== verification/LoadGen.v ===== *)
(** * The load generators of the Receiver (src/src/mega_recv.c)

    In the local test the Receiver makes its own packets: [preload] fills the hash
    table with [preload_cnt - 1] keys, [mega_receiver_local_read] then sends
    searches and stores for ever.  Both rewrite one packet buffer; the bytes they
    do not write keep what [malloc] or the previous packet left.  The function
    that consumes a packet is an argument here and [Receiver.process_packet] in
    the program. *)

From Stdlib Require Import Floats.SpecFloat.
From S2P Require Import Prelude GpuHash Config Slabs Batch Items Packet Receiver Zipf.

(** ** Keys *)

(** [rte_bswap32] reverses the bytes of a 32-bit word. *)
Definition bswap32 (x : Z) : Z :=
  Z.lor (Z.lor (Z.shiftl (Z.land x 0xff) 24) (Z.shiftl (Z.land (Z.shiftr x 8) 0xff) 16))
        (Z.lor (Z.shiftl (Z.land (Z.shiftr x 16) 0xff) 8) (Z.land (Z.shiftr x 24) 0xff)).

(** [(uint32_t)(LOAD_FACTOR * ((1 << MEM_P)/8))] *)
Definition LOAD_FACTOR (KVSIZE : Z) : double :=
  if KVSIZE =? 0 then ddiv (double_of_Z 2) (double_of_Z 10)
  else if KVSIZE =? 1 then ddiv (double_of_Z 1) (double_of_Z 10)
  else ddiv (double_of_Z 1) (double_of_Z 100).
Definition preload_cnt (KVSIZE : Z) : result Z :=
  u32_of_double (dmul (LOAD_FACTOR KVSIZE) (double_of_Z (Z.shiftl 1 MEM_P / 8))).

Definition total_cnt : Z := 2 ^ 31 - 1.

Section generator.
Context (cfg : mega_config_t) (KVSIZE : Z).

(** The second word of a key; the first one is the key's number. *)
Definition gen_hash (key : Z) : Z :=
  if bits_insert_buf cfg =? 0 then key
  else Z.lor (u32 (Z.shiftl (bswap32 (Z.land key 0xff)) (8 - bits_insert_buf cfg))) key.

Definition put_key (pkt : list Z) (ptr key : Z) : result (list Z) :=
  pkt ← store pkt (ptr + 4) 4 (gen_hash key); store pkt ptr 4 key.

(** One SET job at [ptr]: the packet and the new [ptr]. *)
Definition put_set (pkt : list Z) (ptr key : Z) : result (list Z * Z) :=
  pkt ← store pkt ptr 2 MEGA_JOB_SET;
  pkt ← store pkt (ptr + 2) 2 (KEY_LEN KVSIZE);
  pkt ← store pkt (ptr + 4) 4 (VALUE_LEN KVSIZE);
  pkt ← put_key pkt (ptr + 8) key;
  Ok (pkt, ptr + 8 + KEY_LEN KVSIZE + VALUE_LEN KVSIZE).

Definition put_get (pkt : list Z) (ptr key : Z) : result (list Z * Z) :=
  pkt ← store pkt ptr 2 MEGA_JOB_GET;
  pkt ← store pkt (ptr + 2) 2 (KEY_LEN KVSIZE);
  pkt ← put_key pkt (ptr + 4) key;
  Ok (pkt, ptr + 4 + KEY_LEN KVSIZE).

Definition reserved_len : Z := eiu_hdr_len cfg + MEGA_MAGIC_NUM_LEN + 2.

(** [iph->src_addr = iph->src_addr + 1] *)
Definition next_client (pkt : list Z) : result (list Z) :=
  ip ← load pkt off_src_addr 4; store pkt off_src_addr 4 (u32 (ip + 1)).

Section consumer.
Context {A : Type} (process : list Z → Z → A → result (A * Z)).

(** *** preload *)

(** The jobs of one packet: the packet, [ptr], [payload_len] and [set_key]. *)
Fixpoint preload_pack (fuel : nat) (cnt : Z) (pkt : list Z) (ptr payload_len set_key : Z)
    : result (list Z * Z * Z * Z) :=
  if payload_len + SET_LEN KVSIZE <=? ETHERNET_MAX_FRAME_LEN then
    match fuel with
    | O => Err OutOfFuel
    | S fuel =>
        '(pkt, ptr) ← put_set pkt ptr set_key;
        let payload_len := payload_len + SET_LEN KVSIZE in
        let set_key := u32 (set_key + 1) in
        if cnt <=? set_key then Ok (pkt, ptr, payload_len, set_key)
        else preload_pack fuel cnt pkt ptr payload_len set_key
    end
  else Ok (pkt, ptr, payload_len, set_key).

Definition preload_packet (cnt : Z) (pkt : list Z) (set_key : Z) : result (list Z * Z * Z) :=
  pkt ← next_client pkt;
  '(pkt, ptr, payload_len, set_key) ←
    preload_pack (Z.to_nat ETHERNET_MAX_FRAME_LEN) cnt pkt (off_payload + MEGA_MAGIC_NUM_LEN)
      reserved_len set_key;
  pkt ← store pkt ptr 2 0xFFFF;
  Ok (pkt, payload_len, set_key).

Fixpoint preload_loop (fuel : nat) (cnt : Z) (pkt : list Z) (set_key : Z) (st : A) : result A :=
  if set_key <? cnt then
    match fuel with
    | O => Err OutOfFuel
    | S fuel =>
        '(pkt, payload_len, set_key) ← preload_packet cnt pkt set_key;
        '(st, _) ← process pkt payload_len st;
        preload_loop fuel cnt pkt set_key st
    end
  else Ok st.

(** [pkt] is the buffer as [malloc] returns it; the result is the consumer's state
    and the new value of [loading_mode]. *)
Definition preload (fuel : nat) (id cnt : Z) (pkt : list Z) (st : A) : result (A * Z) :=
  pkt ← store pkt off_payload 2 PROTOCOL_MAGIC;
  _ ← assert_ (id =? 0);
  st ← preload_loop fuel cnt pkt 1 st;
  Ok (st, 0).

(** *** mega_receiver_local_read *)

(** [NUM_DEFINED_GET] and [NUM_DEFINED_SET] are 100 and 0 in the active build. *)
Context (NUM_DEFINED_GET NUM_DEFINED_SET : Z) (id cnt : Z).

Record gen := Gen { g_num_get : Z; g_num_set : Z; g_set_key : Z; g_zipf : zipf_gen_state }.

(** Where the keys of Receiver [i] start. *)
Definition set_start (i : Z) : Z :=
  u32 (cnt + i * ((total_cnt - cnt) / cpu_worker_num cfg)).

(** The SETs that follow the last GET of a group, and the other way round. *)
Definition after_get (num_get num_set : Z) : Z * Z :=
  if (num_get =? 0) && (0 <? NUM_DEFINED_SET) then (num_get, NUM_DEFINED_SET)
  else if num_get =? 0 then (NUM_DEFINED_GET, num_set) else (num_get, num_set).
Definition after_set (num_get num_set : Z) : Z * Z :=
  if (num_set =? 0) && (0 <? NUM_DEFINED_GET) then (NUM_DEFINED_GET, num_set)
  else if num_set =? 0 then (num_get, NUM_DEFINED_SET) else (num_get, num_set).

Fixpoint local_pack (fuel : nat) (pkt : list Z) (ptr payload_len : Z) (g : gen)
    : result (list Z * Z * Z * gen) :=
  match fuel with
  | O => Err OutOfFuel
  | S fuel =>
      if 0 <? g_num_get g then
        if ETHERNET_MAX_FRAME_LEN <? payload_len + GET_LEN KVSIZE
        then Ok (pkt, ptr, payload_len, g)
        else
          '(z, v) ← mehcached_zipf_next (g_zipf g);
          let get_key := u32 (u32 v + 1) in
          _ ← assert_ (get_key <? cnt);
          '(pkt, ptr) ← put_get pkt ptr get_key;
          let '(ng, ns) := after_get (g_num_get g - 1) (g_num_set g) in
          local_pack fuel pkt ptr (payload_len + GET_LEN KVSIZE) (Gen ng ns (g_set_key g) z)
      else if 0 <? g_num_set g then
        if ETHERNET_MAX_FRAME_LEN <? payload_len + SET_LEN KVSIZE
        then Ok (pkt, ptr, payload_len, g)
        else
          let set_key := u32 (g_set_key g + 1) in
          if set_start (id + 1) <=? set_key then Err Exit
          else
            '(pkt, ptr) ← put_set pkt ptr set_key;
            let '(ng, ns) := after_set (g_num_get g) (g_num_set g - 1) in
            local_pack fuel pkt ptr (payload_len + SET_LEN KVSIZE) (Gen ng ns set_key (g_zipf g))
      else Err Exit
  end.

(** One iteration of the outer loop; [total] is [cc->total_packets] and
    [cc->total_bytes]. *)
Definition local_packet (pkt : list Z) (g : gen) (total : Z * Z) (st : A)
    : result (list Z * gen * (Z * Z) * A) :=
  pkt ← next_client pkt;
  '(pkt, ptr, payload_len, g) ←
    local_pack (Z.to_nat ETHERNET_MAX_FRAME_LEN) pkt (off_payload + MEGA_MAGIC_NUM_LEN) reserved_len g;
  pkt ← store pkt ptr 2 0xFFFF;
  let total := (u64 (total.1 + 1), u64 (total.2 + payload_len)) in
  '(st, _) ← process pkt payload_len st;
  Ok (pkt, g, total, st).

(** [mega_receiver_local_read] up to its endless loop. *)
Definition local_read_init (theta : double) (pkt : list Z) : result (list Z * gen) :=
  pkt ← store pkt off_payload 2 PROTOCOL_MAGIC;
  z ← mehcached_zipf_init (cnt - 2) theta 21;
  Ok (pkt, Gen NUM_DEFINED_GET NUM_DEFINED_SET (set_start id) z).

(** The first [n] iterations of the endless loop. *)
Fixpoint local_read (n : nat) (pkt : list Z) (g : gen) (total : Z * Z) (st : A)
    : result (list Z * gen * (Z * Z) * A) :=
  match n with
  | O => Ok (pkt, g, total, st)
  | S n =>
      '(pkt, g, total, st) ← local_packet pkt g total st;
      local_read n pkt g total st
  end.
End consumer.
End generator.

(** ** What the jobs contain *)

(** A job of type [ty] at [ptr] whose key, behind [hdr] bytes, is number [key]. *)
Definition key_at (cfg : mega_config_t) (pkt : list Z) (off key : Z) : Prop :=
  load pkt off 4 = Ok key ∧ load pkt (off + 4) 4 = Ok (gen_hash cfg key).
Definition set_at (cfg : mega_config_t) (KVSIZE : Z) (pkt : list Z) (ptr key : Z) : Prop :=
  load pkt ptr 2 = Ok MEGA_JOB_SET ∧ load pkt (ptr + 2) 2 = Ok (KEY_LEN KVSIZE) ∧
  load pkt (ptr + 4) 4 = Ok (VALUE_LEN KVSIZE) ∧ key_at cfg pkt (ptr + 8) key.
Definition get_at (cfg : mega_config_t) (KVSIZE : Z) (pkt : list Z) (ptr key : Z) : Prop :=
  load pkt ptr 2 = Ok MEGA_JOB_GET ∧ load pkt (ptr + 2) 2 = Ok (KEY_LEN KVSIZE) ∧
  key_at cfg pkt (ptr + 4) key.

(** Everything before [ptr] is the same in both packets. *)
Definition same_before (ptr : Z) (pkt pkt' : list Z) : Prop :=
  length pkt' = length pkt ∧
  ∀ off n, off + Z.of_nat n ≤ ptr → load pkt' off n = load pkt off n.

#[export] Instance same_before_preorder ptr : PreOrder (same_before ptr).
Proof.
  split; [by split|]. intros p1 p2 p3 [L1 H1] [L2 H2]. split; [congruence|].
  intros off n Ho. by rewrite H2, H1.
Qed.

Lemma same_before_weaken p q pkt pkt' : p ≤ q → same_before q pkt pkt' → same_before p pkt pkt'.
Proof. intros Hle [L H]. split; [done|]. intros off n Ho. apply H. lia. Qed.

Lemma store_same_before pkt off n x pkt' : store pkt off n x = Ok pkt' → same_before off pkt pkt'.
Proof.
  intros H. pose proof (store_Ok _ _ _ _ _ H) as (?&?&->). split.
  - apply write_run_length. rewrite length_store_le. lia.
  - intros off' m Ho. apply (load_store_other _ _ _ _ _ _ _ H). lia.
Qed.

Lemma set_at_before cfg KVSIZE pkt pkt' q ptr key :
  same_before q pkt pkt' → ptr + 16 ≤ q →
  set_at cfg KVSIZE pkt ptr key → set_at cfg KVSIZE pkt' ptr key.
Proof.
  intros [_ H] Hq (H1 & H2 & H3 & H4 & H5). unfold set_at, key_at. rewrite !H by lia. done.
Qed.

Lemma get_at_before cfg KVSIZE pkt pkt' q ptr key :
  same_before q pkt pkt' → ptr + 12 ≤ q →
  get_at cfg KVSIZE pkt ptr key → get_at cfg KVSIZE pkt' ptr key.
Proof.
  intros [_ H] Hq (H1 & H2 & H3 & H4). unfold get_at, key_at. rewrite !H by lia. done.
Qed.

Lemma KEY_LEN_bounds KVSIZE : 8 ≤ KEY_LEN KVSIZE ≤ 128.
Proof. unfold KEY_LEN. cmp_cases; lia. Qed.
Lemma VALUE_LEN_bounds KVSIZE : 8 ≤ VALUE_LEN KVSIZE ≤ 1024.
Proof. unfold VALUE_LEN. cmp_cases; lia. Qed.

Lemma gen_hash_range cfg key : in_range 32 key → in_range 32 (gen_hash cfg key).
Proof.
  intros Hk. unfold gen_hash. destruct (_ =? 0); [done|].
  apply testbit_range; [lia| |].
  - apply Z.lor_nonneg. split; [apply (wrap_range 32); lia | apply Hk].
  - intros j Hj. rewrite Z.lor_spec, wrap_testbit, (in_range_testbit 32 key) by (done || lia).
    by cmp_cases.
Qed.

(** The next store of the goal succeeds; [H] is its equation, [L] the length. *)
Tactic Notation "store_step" ident(p) ident(H) ident(L) :=
  match goal with
  | |- context [store ?q ?o ?n ?x] =>
      destruct (store_in_bounds q o n x) as (p & H & L); [lia | lia |]; rewrite H, bind_Ok
  end.

Lemma put_key_spec cfg pkt ptr key :
  0 ≤ ptr → ptr + 8 ≤ Z.of_nat (length pkt) → in_range 32 key →
  ∃ pkt', put_key cfg pkt ptr key = Ok pkt' ∧ same_before ptr pkt pkt' ∧ key_at cfg pkt' ptr key.
Proof.
  intros H0 Hl Hk. unfold put_key. store_step p1 H1 L1.
  destruct (store_in_bounds p1 ptr 4 key) as (p2 & H2 & L2); [lia | lia |].
  exists p2. split; [done|]. split; [|split].
  - transitivity p1; [|by eapply store_same_before].
    eapply same_before_weaken; [|by eapply store_same_before]. lia.
  - eapply load_store_same; [done|]. change (256 ^ Z.of_nat 4) with (2 ^ 32). done.
  - rewrite (load_store_other _ _ _ _ _ _ _ H2) by lia. eapply load_store_same; [done|].
    by apply gen_hash_range.
Qed.

Lemma put_set_spec cfg KVSIZE pkt ptr key :
  0 ≤ ptr → ptr + SET_LEN KVSIZE ≤ Z.of_nat (length pkt) → in_range 32 key →
  ∃ pkt', put_set cfg KVSIZE pkt ptr key = Ok (pkt', ptr + SET_LEN KVSIZE) ∧
    same_before ptr pkt pkt' ∧ set_at cfg KVSIZE pkt' ptr key.
Proof.
  intros H0 Hl Hk. pose proof (KEY_LEN_bounds KVSIZE). pose proof (VALUE_LEN_bounds KVSIZE).
  unfold SET_LEN in *. unfold put_set.
  store_step p1 E1 L1. store_step p2 E2 L2. store_step p3 E3 L3.
  destruct (put_key_spec cfg p3 (ptr + 8) key) as (p4 & H4 & [L4 S4] & K4); [lia|lia|done|].
  rewrite H4, bind_Ok. exists p4. split; [do 2 f_equal; lia|]. split; [|split; [|split; [|split]]].
  - transitivity p1; [by eapply store_same_before|].
    transitivity p2; [eapply same_before_weaken; [|by eapply store_same_before]; lia|].
    transitivity p3; [eapply same_before_weaken; [|by eapply store_same_before]; lia|].
    eapply same_before_weaken; [|by split]. lia.
  - rewrite S4, (load_store_other _ _ _ _ _ _ _ E3), (load_store_other _ _ _ _ _ _ _ E2) by lia.
    by eapply load_store_same.
  - rewrite S4, (load_store_other _ _ _ _ _ _ _ E3) by lia. eapply load_store_same; [done|lia].
  - rewrite S4 by lia. eapply load_store_same; [done|lia].
  - done.
Qed.

Lemma put_get_spec cfg KVSIZE pkt ptr key :
  0 ≤ ptr → ptr + GET_LEN KVSIZE ≤ Z.of_nat (length pkt) → in_range 32 key →
  ∃ pkt', put_get cfg KVSIZE pkt ptr key = Ok (pkt', ptr + GET_LEN KVSIZE) ∧
    same_before ptr pkt pkt' ∧ get_at cfg KVSIZE pkt' ptr key.
Proof.
  intros H0 Hl Hk. pose proof (KEY_LEN_bounds KVSIZE). unfold GET_LEN in *. unfold put_get.
  store_step p1 E1 L1. store_step p2 E2 L2.
  destruct (put_key_spec cfg p2 (ptr + 4) key) as (p4 & H4 & [L4 S4] & K4); [lia|lia|done|].
  rewrite H4, bind_Ok. exists p4. split; [do 2 f_equal; lia|]. split; [|split; [|split]].
  - transitivity p1; [by eapply store_same_before|].
    transitivity p2; [eapply same_before_weaken; [|by eapply store_same_before]; lia|].
    eapply same_before_weaken; [|by split]. lia.
  - rewrite S4, (load_store_other _ _ _ _ _ _ _ E2) by lia. by eapply load_store_same.
  - rewrite S4 by lia. eapply load_store_same; [done|lia].
  - done.
Qed.

(** ** The packets *)

(** Equality of two [Ok]s of tuples, component by component. *)
Ltac ok_tuple :=
  apply (f_equal Ok); repeat (apply pair_equal_spec; split); solve [done | lia].

(** How many jobs of [len] bytes fit behind [used] bytes. *)
Definition fit (used len : Z) : Z := (ETHERNET_MAX_FRAME_LEN - used) / len.

Lemma fit_step used len :
  0 < len → used + len ≤ ETHERNET_MAX_FRAME_LEN → fit used len = 1 + fit (used + len) len.
Proof.
  intros. unfold fit.
  replace (ETHERNET_MAX_FRAME_LEN - used) with (ETHERNET_MAX_FRAME_LEN - (used + len) + 1 * len) by lia.
  rewrite Z.div_add by lia. lia.
Qed.

Lemma fit_none used len :
  0 < len → used ≤ ETHERNET_MAX_FRAME_LEN < used + len → fit used len = 0.
Proof. intros. unfold fit. apply Z.div_small. lia. Qed.

Lemma fit_bounds used len :
  0 < len → used ≤ ETHERNET_MAX_FRAME_LEN →
  0 ≤ fit used len ∧ used + fit used len * len ≤ ETHERNET_MAX_FRAME_LEN.
Proof.
  intros. unfold fit. split; [apply Z.div_pos; lia|].
  pose proof (Z.mul_div_le (ETHERNET_MAX_FRAME_LEN - used) len). lia.
Qed.

Lemma SET_LEN_bounds KVSIZE : 24 ≤ SET_LEN KVSIZE ≤ 1160.
Proof. pose proof (KEY_LEN_bounds KVSIZE). pose proof (VALUE_LEN_bounds KVSIZE). unfold SET_LEN. lia. Qed.
Lemma GET_LEN_bounds KVSIZE : 12 ≤ GET_LEN KVSIZE ≤ 132.
Proof. pose proof (KEY_LEN_bounds KVSIZE). unfold GET_LEN. lia. Qed.

Lemma preload_pack_spec cfg KVSIZE cnt fuel pkt ptr len key :
  length pkt = Z.to_nat ETHERNET_MAX_FRAME_LEN → ptr = len - 2 → 2 ≤ len ≤ ETHERNET_MAX_FRAME_LEN →
  0 ≤ key < cnt → cnt < 2 ^ 32 → (ETHERNET_MAX_FRAME_LEN - len < Z.of_nat fuel) →
  let m := Z.min (fit len (SET_LEN KVSIZE)) (cnt - key) in
  ∃ pkt', preload_pack cfg KVSIZE fuel cnt pkt ptr len key =
      Ok (pkt', ptr + m * SET_LEN KVSIZE, len + m * SET_LEN KVSIZE, key + m) ∧
    same_before ptr pkt pkt' ∧
    ∀ j, 0 ≤ j < m → set_at cfg KVSIZE pkt' (ptr + j * SET_LEN KVSIZE) (key + j).
Proof.
  pose proof (SET_LEN_bounds KVSIZE) as Hset.
  assert (Hlen0 : Z.of_nat (Z.to_nat ETHERNET_MAX_FRAME_LEN) = ETHERNET_MAX_FRAME_LEN) by done.
  revert pkt ptr len key. induction fuel as [|fuel IH]; intros pkt ptr len key Hp -> Hlen Hkey Hcnt Hf m;
    [unfold ETHERNET_MAX_FRAME_LEN in *; lia|]. simpl preload_pack.
  destruct (Z.leb_spec (len + SET_LEN KVSIZE) ETHERNET_MAX_FRAME_LEN) as [Hle|Hgt].
  - destruct (put_set_spec cfg KVSIZE pkt (len - 2) key) as (p1 & -> & S1 & J1);
      [lia | lia | unfold in_range; lia |]. rewrite bind_Ok, (wrap_id 32) by (unfold in_range; lia).
    pose proof (fit_step len (SET_LEN KVSIZE)) as Hstep.
    pose proof (fit_bounds (len + SET_LEN KVSIZE) (SET_LEN KVSIZE)) as Hb.
    destruct (Z.leb_spec cnt (key + 1)).
    + exists p1. assert (m = 1) as -> by lia. split; [ok_tuple|].
      split; [done|]. intros j Hj. replace j with 0 by lia. by rewrite Z.mul_0_l, !Z.add_0_r.
    + destruct (IH p1 (len - 2 + SET_LEN KVSIZE) (len + SET_LEN KVSIZE) (key + 1))
        as (p2 & H2 & S2 & J2); [by rewrite (proj1 S1)|lia..|]. rewrite H2.
      exists p2. assert (m = 1 + Z.min (fit (len + SET_LEN KVSIZE) (SET_LEN KVSIZE)) (cnt - (key + 1)))
        as -> by lia. split; [ok_tuple|].
      split; [transitivity p1; [done|]; eapply same_before_weaken; [|done]; lia|].
      intros j Hj. destruct (decide (j = 0)) as [->|].
      * rewrite Z.mul_0_l, !Z.add_0_r. eapply set_at_before; [done|lia|done].
      * replace (len - 2 + j * SET_LEN KVSIZE) with (len - 2 + SET_LEN KVSIZE + (j - 1) * SET_LEN KVSIZE)
          by lia. replace (key + j) with (key + 1 + (j - 1)) by lia. apply J2. lia.
  - exists pkt. assert (m = 0) as -> by (pose proof (fit_none len (SET_LEN KVSIZE)); lia).
    rewrite !Z.mul_0_l, !Z.add_0_r. split; [done|]. split; [done|]. intros. lia.
Qed.

(** A packet of the preloading phase: [m] SETs of the keys from [start] on. *)
Record preload_pkt (cfg : mega_config_t) (KVSIZE : Z) (pkt : list Z) (len start m : Z) : Prop := {
  pp_jobs : 0 < m;
  pp_len : len = 46 + m * SET_LEN KVSIZE ∧ len ≤ ETHERNET_MAX_FRAME_LEN;
  pp_size : length pkt = Z.to_nat ETHERNET_MAX_FRAME_LEN;
  pp_magic : load pkt off_payload 2 = Ok PROTOCOL_MAGIC;
  pp_set : ∀ j, 0 ≤ j < m → set_at cfg KVSIZE pkt (44 + j * SET_LEN KVSIZE) (start + j);
  pp_end : load pkt (len - 2) 2 = Ok 0xFFFF;
}.

Lemma next_client_spec pkt :
  length pkt = Z.to_nat ETHERNET_MAX_FRAME_LEN →
  ∃ pkt', next_client pkt = Ok pkt' ∧ length pkt' = length pkt ∧
    load pkt' off_payload 2 = load pkt off_payload 2.
Proof.
  intros Hl. unfold next_client, load at 1, bytes_at. rewrite Hl.
  cbn [andb Z.leb Z.compare Z.of_nat Z.to_nat]. change (_ && _) with true. cbv iota. rewrite !bind_Ok.
  match goal with |- context [store ?q ?o ?n ?x] =>
    destruct (store_in_bounds q o n x) as (p & H & L); [done | by rewrite Hl |] end.
  exists p. split; [done|]. split; [by rewrite L|]. by rewrite (load_store_other _ _ _ _ _ _ _ H) by (right; done).
Qed.

Lemma preload_packet_spec cfg KVSIZE cnt pkt key :
  eiu_hdr_len cfg = 42 → length pkt = Z.to_nat ETHERNET_MAX_FRAME_LEN →
  load pkt off_payload 2 = Ok PROTOCOL_MAGIC → 0 ≤ key < cnt → cnt < 2 ^ 32 →
  ∃ pkt' len m, preload_packet cfg KVSIZE cnt pkt key = Ok (pkt', len, key + m) ∧
    preload_pkt cfg KVSIZE pkt' len key m ∧ key + m ≤ cnt.
Proof.
  intros Hh Hl Hm Hk Hcnt. pose proof (SET_LEN_bounds KVSIZE) as Hset. unfold preload_packet.
  destruct (next_client_spec pkt Hl) as (p1 & -> & L1 & M1). rewrite bind_Ok. unfold reserved_len.
  rewrite Hh. change (42 + MEGA_MAGIC_NUM_LEN + 2) with 46. change (off_payload + MEGA_MAGIC_NUM_LEN) with 44.
  destruct (preload_pack_spec cfg KVSIZE cnt (Z.to_nat ETHERNET_MAX_FRAME_LEN) p1 44 46 key)
    as (p2 & -> & [L2 S2] & J2); [by rewrite L1 | done | done | done | done | done |].
  rewrite bind_Ok. set (m := Z.min _ _) in *.
  assert (0 < m ∧ 46 + m * SET_LEN KVSIZE ≤ ETHERNET_MAX_FRAME_LEN ∧ key + m ≤ cnt) as (Hm0 & Hmlen & Hmc).
  { pose proof (fit_step 46 (SET_LEN KVSIZE)). pose proof (fit_bounds 46 (SET_LEN KVSIZE)).
    pose proof (fit_bounds (46 + SET_LEN KVSIZE) (SET_LEN KVSIZE)).
    change ETHERNET_MAX_FRAME_LEN with 1514 in *. split; [lia|]. split; [|lia].
    transitivity (46 + fit 46 (SET_LEN KVSIZE) * SET_LEN KVSIZE); [|lia]. nia. }
  assert (Hp2 : Z.of_nat (length p2) = ETHERNET_MAX_FRAME_LEN) by (by rewrite L2, L1, Hl).
  destruct (store_in_bounds p2 (44 + m * SET_LEN KVSIZE) 2 0xFFFF) as (p3 & H3 & L3); [lia|lia|].
  rewrite H3, bind_Ok. exists p3, (46 + m * SET_LEN KVSIZE), m. split; [done|].
  pose proof (store_same_before _ _ _ _ _ H3) as S3. split; [|done]. split.
  - done.
  - by split.
  - by rewrite L3, L2, L1.
  - rewrite (proj2 S3) by (change off_payload with 42; lia). rewrite S2 by (change off_payload with 42; lia).
    by rewrite M1.
  - intros j Hj. eapply set_at_before; [exact S3|nia|by apply J2].
  - replace (46 + m * SET_LEN KVSIZE - 2) with (44 + m * SET_LEN KVSIZE) by lia.
    by eapply load_store_same.
Qed.

(** The packets [sent] hold the keys [start .. cnt - 1], each once and in order. *)
Inductive preload_run (cfg : mega_config_t) (KVSIZE cnt : Z) : Z → list (list Z * Z) → Prop :=
  | preload_done : preload_run cfg KVSIZE cnt cnt []
  | preload_more start m pkt len sent :
      preload_pkt cfg KVSIZE pkt len start m →
      preload_run cfg KVSIZE cnt (start + m) sent →
      preload_run cfg KVSIZE cnt start ((pkt, len) :: sent).

Fixpoint deliver {A} (process : list Z → Z → A → result (A * Z)) (sent : list (list Z * Z)) (st : A)
    : result A :=
  match sent with
  | [] => Ok st
  | (pkt, len) :: sent => '(st, _) ← process pkt len st; deliver process sent st
  end.

Lemma preload_loop_spec cfg KVSIZE cnt fuel pkt key :
  eiu_hdr_len cfg = 42 → cnt < 2 ^ 32 →
  length pkt = Z.to_nat ETHERNET_MAX_FRAME_LEN → load pkt off_payload 2 = Ok PROTOCOL_MAGIC →
  0 ≤ key ≤ cnt → cnt - key ≤ Z.of_nat fuel →
  ∃ sent, preload_run cfg KVSIZE cnt key sent ∧
    ∀ A (process : list Z → Z → A → result (A * Z)) st,
      preload_loop cfg KVSIZE process fuel cnt pkt key st = deliver process sent st.
Proof.
  intros Hh Hcnt. revert pkt key. induction fuel as [|fuel IH]; intros pkt key Hl Hm Hk Hf.
  - assert (key = cnt) as -> by lia. exists []. split; [constructor|]. intros. simpl.
    by destruct (Z.ltb_spec cnt cnt); [lia|].
  - destruct (decide (key = cnt)) as [->|].
    { exists []. split; [constructor|]. intros. simpl. by destruct (Z.ltb_spec cnt cnt); [lia|]. }
    destruct (preload_packet_spec cfg KVSIZE cnt pkt key) as (p & len & m & H & Hp & Hle); try done; [lia|].
    pose proof (pp_jobs _ _ _ _ _ _ Hp).
    destruct (IH p (key + m)) as (sent & Hrun & Hsent);
      [by eapply pp_size | by eapply pp_magic | lia | lia |].
    exists ((p, len) :: sent). split; [by econstructor|]. intros. simpl.
    destruct (Z.ltb_spec key cnt); [|lia]. rewrite H, bind_Ok.
    destruct (process p len st) as [[st' r]|]; [|done]. rewrite !bind_Ok. apply Hsent.
Qed.

(** C38: preloading.  Whatever [malloc] returned, [preload] ends and hands the
    consumer a sequence of packets that fit into a frame, start with the magic
    number, end with the end mark and hold SET jobs of the configured lengths for
    the keys [1 .. cnt - 1], each exactly once and in order. *)
Theorem preload_covers cfg KVSIZE cnt pkt :
  eiu_hdr_len cfg = 42 → 1 ≤ cnt < 2 ^ 32 → length pkt = Z.to_nat ETHERNET_MAX_FRAME_LEN →
  ∃ sent, preload_run cfg KVSIZE cnt 1 sent ∧
    ∀ A (process : list Z → Z → A → result (A * Z)) st,
      preload cfg KVSIZE process (Z.to_nat cnt) 0 cnt pkt st = (st ← deliver process sent st; Ok (st, 0)).
Proof.
  intros Hh Hcnt Hl.
  destruct (store_in_bounds pkt off_payload 2 PROTOCOL_MAGIC) as (p & H & L); [done | by rewrite Hl |].
  destruct (preload_loop_spec cfg KVSIZE cnt (Z.to_nat cnt) p 1) as (sent & Hrun & Hsent);
    [done | lia | by rewrite L | by eapply load_store_same | lia | lia |].
  exists sent. split; [done|]. intros. unfold preload. rewrite H, bind_Ok. change (assert_ (0 =? 0)) with (Ok ()).
  by rewrite bind_Ok, Hsent.
Qed.

Lemma preload_covers_witness :
  ∃ sent, preload_run mega_init_config 0 200 1 sent ∧
    ∀ A (process : list Z → Z → A → result (A * Z)) st,
      preload mega_init_config 0 process (Z.to_nat 200) 0 200 (replicate 1514 0) st =
      (st ← deliver process sent st; Ok (st, 0)).
Proof. by apply (preload_covers mega_init_config 0 200 (replicate 1514 0)). Defined.

(** *** Placement *)

Lemma land_255_bswap x : 0 ≤ x < 256 → bswap32 x = Z.shiftl x 24.
Proof.
  intros Hx. unfold bswap32.
  assert (∀ n, 8 ≤ n → Z.land (Z.shiftr x n) 0xff = 0) as Hz.
  { intros n Hn. rewrite Z.shiftr_div_pow2 by lia. rewrite Z.div_small; [done|].
    pose proof (Z.pow_le_mono_r 2 8 n). lia. }
  rewrite !Hz by lia. change 0xff with (Z.ones 8). rewrite (Z.land_ones x 8), Z.mod_small by lia.
  by rewrite !Z.shiftl_0_l, !Z.lor_0_r.
Qed.

Lemma gen_hash_testbit cfg key j :
  bits_insert_buf cfg = 3 → 0 ≤ key → 0 ≤ j →
  Z.testbit (gen_hash cfg key) j = (29 <=? j) && (j <? 32) && Z.testbit key (j - 29) || Z.testbit key j.
Proof.
  intros Hb Hk Hj. unfold gen_hash. rewrite Hb. cbn [Z.eqb]. rewrite Z.lor_spec. f_equal.
  change 0xff with (Z.ones 8). rewrite wrap_testbit by lia. rewrite land_255_bswap.
  2:{ rewrite (Z.land_ones key 8) by lia. apply Z.mod_pos_bound. lia. }
  rewrite Z.shiftl_shiftl, Z.shiftl_spec by lia. change (24 + (8 - 3)) with 29.
  destruct (Z.leb_spec 29 j).
  - rewrite (Z.land_ones key 8) by lia. destruct (Z.ltb_spec j 32); [|done].
    by rewrite Z.mod_pow2_bits_low by lia.
  - rewrite (Z.testbit_neg_r _ (j - 29)) by lia. by rewrite andb_false_r.
Qed.

(** Where the generated keys go.  For the keys of the generators the insert
    block is the number's low three bits, the first bucket its low 24 bits, but
    the hash and the signature agree on all the bits the second bucket combines:
    every key's second bucket is one of eight. *)
Theorem generator_placement cfg key :
  bits_insert_buf cfg = 3 → 0 ≤ key < 2 ^ 29 →
  bucket_index (gen_hash cfg key) = Z.land key (2 ^ 24 - 1) ∧
  second_index (gen_hash cfg key) key = Z.land key (7 * 2 ^ 21) ∧
  insert_block_id cfg (gen_hash cfg key) = Z.land key 7.
Proof.
  intros Hb Hk.
  assert (Hhigh : ∀ j, 29 ≤ j → Z.testbit key j = false).
  { intros j Hj. by apply (in_range_testbit 29). }
  split_and!; apply Z.bits_inj'; intros j Hj.
  - rewrite bucket_index_testbit, gen_hash_testbit, Z.land_spec by (done || lia).
    change (2 ^ 24 - 1) with (Z.ones 24). rewrite Z.testbit_ones by lia. cmp_cases.
    all: by rewrite ?andb_true_r, ?andb_false_r.
  - rewrite second_index_testbit, !gen_hash_testbit, Z.land_spec by (done || lia).
    assert (Z.testbit (7 * 2 ^ 21) j = (21 <=? j) && (j <? 24)) as ->.
    { change (7 * 2 ^ 21) with (Z.shiftl (Z.ones 3) 21). rewrite Z.shiftl_spec, Z.testbit_ones by lia.
      by cmp_cases. }
    cmp_cases. all: by rewrite ?xorb_nilpotent, ?andb_true_r, ?andb_false_r.
  - unfold insert_block_id. rewrite Hb. cbn [Z.eqb].
    rewrite wrap_testbit, Z.shiftr_spec, gen_hash_testbit, Z.land_spec by (done || lia).
    change 7 with (Z.ones 3). rewrite Z.testbit_ones by lia.
    rewrite (Hhigh (j + (32 - 3))) by lia. replace (j + (32 - 3) - 29) with j by lia.
    cmp_cases. all: by rewrite ?orb_false_r, ?andb_true_r, ?andb_false_r.
Qed.

Lemma generator_placement_witness :
  bucket_index (gen_hash mega_init_config 0x1234567) = Z.land 0x1234567 (2 ^ 24 - 1) ∧
  second_index (gen_hash mega_init_config 0x1234567) 0x1234567 = Z.land 0x1234567 (7 * 2 ^ 21) ∧
  insert_block_id mega_init_config (gen_hash mega_init_config 0x1234567) = Z.land 0x1234567 7.
Proof. apply (generator_placement mega_init_config 0x1234567); [done|lia]. Defined.

(** *** Searches only *)

Definition get_key_of (v : Z) : Z := u32 (u32 v + 1).

Lemma local_pack_gets cfg KVSIZE NDG id cnt fuel pkt ptr len g z' vs m :
  0 < NDG → length pkt = Z.to_nat ETHERNET_MAX_FRAME_LEN → ptr = len - 2 →
  2 ≤ len ≤ ETHERNET_MAX_FRAME_LEN → 0 < g_num_get g →
  ETHERNET_MAX_FRAME_LEN - len < Z.of_nat fuel →
  Z.of_nat m = fit len (GET_LEN KVSIZE) →
  zipf_draw m (g_zipf g) = Ok (z', vs) → Forall (λ v, get_key_of v < cnt) vs →
  ∃ pkt' g', local_pack cfg KVSIZE NDG 0 id cnt fuel pkt ptr len g =
      Ok (pkt', ptr + Z.of_nat m * GET_LEN KVSIZE, len + Z.of_nat m * GET_LEN KVSIZE, g') ∧
    same_before ptr pkt pkt' ∧ 0 < g_num_get g' ∧ g_zipf g' = z' ∧
    ∀ j v, vs !! j = Some v → get_at cfg KVSIZE pkt' (ptr + Z.of_nat j * GET_LEN KVSIZE) (get_key_of v).
Proof.
  intros HN. pose proof (GET_LEN_bounds KVSIZE) as Hget.
  assert (Hlen0 : Z.of_nat (Z.to_nat ETHERNET_MAX_FRAME_LEN) = ETHERNET_MAX_FRAME_LEN) by done.
  revert pkt ptr len g vs m.
  induction fuel as [|fuel IH]; intros pkt ptr len g vs m Hp -> Hlen Hg Hf Hm Hdraw Hvs; [lia|].
  simpl local_pack. destruct (Z.ltb_spec 0 (g_num_get g)); [|lia].
  destruct (Z.ltb_spec ETHERNET_MAX_FRAME_LEN (len + GET_LEN KVSIZE)) as [Hgt|Hle].
  - rewrite fit_none in Hm by lia. assert (m = 0%nat) as -> by lia. injection Hdraw as <- <-.
    exists pkt, g. rewrite Z.mul_0_l, !Z.add_0_r. by split_and!.
  - rewrite fit_step in Hm by lia.
    pose proof (fit_bounds (len + GET_LEN KVSIZE) (GET_LEN KVSIZE)).
    destruct m as [|m]; [lia|]. simpl in Hdraw.
    apply bind_Ok_inv in Hdraw as ([z v] & Hz & Hdraw).
    apply bind_Ok_inv in Hdraw as ([z2 vs'] & Hdraw & [= <- <-]).
    rewrite Hz, bind_Ok. apply Forall_cons in Hvs as [Hv Hvs].
    fold (get_key_of v). rewrite assert_true, bind_Ok by (by apply Z.ltb_lt).
    destruct (put_get_spec cfg KVSIZE pkt (len - 2) (get_key_of v)) as (p1 & -> & S1 & J1);
      [lia | lia | by apply (wrap_range 32) |]. rewrite bind_Ok.
    destruct (after_get NDG 0 (g_num_get g - 1) (g_num_set g)) as [ng ns] eqn:Hafter.
    assert (0 < ng).
    { revert Hafter. unfold after_get. change (0 <? 0) with false. rewrite andb_false_r.
      destruct (Z.eqb_spec (g_num_get g - 1) 0); intros [= <- <-]; lia. }
    destruct (IH p1 (len - 2 + GET_LEN KVSIZE) (len + GET_LEN KVSIZE) (Gen ng ns (g_set_key g) z) vs' m)
      as (p2 & g2 & H2 & S2 & Hg2 & Hz2 & J2); [by rewrite (proj1 S1)|lia|lia|done|lia|lia|done|done|].
    rewrite H2. exists p2, g2. split; [ok_tuple|].
    split; [transitivity p1; [done|]; eapply same_before_weaken; [|done]; lia|].
    split; [done|]. split; [done|]. intros [|j] w Hw.
    + injection Hw as <-. rewrite Z.mul_0_l, Z.add_0_r. eapply get_at_before; [done|lia|done].
    + replace (len - 2 + Z.of_nat (S j) * GET_LEN KVSIZE)
        with (len - 2 + GET_LEN KVSIZE + Z.of_nat j * GET_LEN KVSIZE) by lia. by apply J2.
Qed.

(** The search load.  With only searches configured, one round of
    [mega_receiver_local_read] hands the consumer a packet with as many GET jobs
    as fit into a frame, whose keys are those the generator draws, plus one; the
    counters advance by one packet and its length. *)
Theorem local_read_gets cfg KVSIZE NDG id cnt pkt g z' vs :
  let m := fit 46 (GET_LEN KVSIZE) in
  eiu_hdr_len cfg = 42 → 0 < NDG → length pkt = Z.to_nat ETHERNET_MAX_FRAME_LEN →
  load pkt off_payload 2 = Ok PROTOCOL_MAGIC → 0 < g_num_get g →
  zipf_draw (Z.to_nat m) (g_zipf g) = Ok (z', vs) → Forall (λ v, get_key_of v < cnt) vs →
  ∃ pkt' g', let len := 46 + m * GET_LEN KVSIZE in
    (∀ A (process : list Z → Z → A → result (A * Z)) total st,
       local_packet cfg KVSIZE process NDG 0 id cnt pkt g total st =
       ('(st, _) ← process pkt' len st; Ok (pkt', g', (u64 (total.1 + 1), u64 (total.2 + len)), st))) ∧
    ETHERNET_MAX_FRAME_LEN - GET_LEN KVSIZE < len ≤ ETHERNET_MAX_FRAME_LEN ∧
    load pkt' off_payload 2 = Ok PROTOCOL_MAGIC ∧ load pkt' (len - 2) 2 = Ok 0xFFFF ∧
    (∀ j v, vs !! j = Some v → get_at cfg KVSIZE pkt' (44 + Z.of_nat j * GET_LEN KVSIZE) (get_key_of v)) ∧
    0 < g_num_get g' ∧ g_zipf g' = z'.
Proof.
  intros m Hh HN Hl Hmagic Hg Hdraw Hvs. pose proof (GET_LEN_bounds KVSIZE) as Hget.
  destruct (next_client_spec pkt Hl) as (p1 & H1 & L1 & M1).
  assert (Hm : 0 ≤ m ∧ ETHERNET_MAX_FRAME_LEN - GET_LEN KVSIZE < 46 + m * GET_LEN KVSIZE ≤ ETHERNET_MAX_FRAME_LEN).
  { change ETHERNET_MAX_FRAME_LEN with 1514. unfold m, fit. change (ETHERNET_MAX_FRAME_LEN - 46) with 1468.
    pose proof (Z.mul_div_le 1468 (GET_LEN KVSIZE)). pose proof (Z.mul_succ_div_gt 1468 (GET_LEN KVSIZE)).
    split; [apply Z.div_pos; lia|]. lia. }
  destruct (local_pack_gets cfg KVSIZE NDG id cnt (Z.to_nat ETHERNET_MAX_FRAME_LEN) p1 44 46 g z' vs
    (Z.to_nat m)) as (p2 & g' & H2 & [L2 S2] & Hg' & Hz & J); try done; [by rewrite L1 | unfold m in *; lia |].
  rewrite Z2Nat.id in H2 by lia.
  destruct (store_in_bounds p2 (44 + m * GET_LEN KVSIZE) 2 0xFFFF) as (p3 & H3 & L3).
  { lia. }
  { rewrite L2, L1, Hl. change (Z.of_nat (Z.to_nat ETHERNET_MAX_FRAME_LEN)) with ETHERNET_MAX_FRAME_LEN. lia. }
  pose proof (store_same_before _ _ _ _ _ H3) as S3.
  exists p3, g'. cbv zeta. split_and!; try done; try lia.
  - intros. unfold local_packet. rewrite H1, bind_Ok. unfold reserved_len. rewrite Hh.
    change (42 + MEGA_MAGIC_NUM_LEN + 2) with 46. change (off_payload + MEGA_MAGIC_NUM_LEN) with 44.
    rewrite H2, bind_Ok, H3, bind_Ok. done.
  - rewrite (proj2 S3) by (change off_payload with 42; lia). rewrite S2 by (change off_payload with 42; lia).
    by rewrite M1.
  - replace (46 + m * GET_LEN KVSIZE - 2) with (44 + m * GET_LEN KVSIZE) by lia. by eapply load_store_same.
  - intros j v Hj. eapply get_at_before; [exact S3| |by apply J].
    pose proof (zipf_draw_length _ _ _ _ Hdraw). pose proof (lookup_lt_Some _ _ _ Hj).
    assert (Z.of_nat j + 1 ≤ m) by lia. nia.
Qed.

(** A generator of the active build over 998 keys, and its first 122 keys. *)
Definition ex_zipf : zipf_gen_state :=
  ZipfState 998 (double_of_Z 0) (double_of_Z 0) (double_of_Z 0) 0 (double_of_Z 0) (double_of_Z 0)
    (double_of_Z 0) 21.
Definition ex_draw : zipf_gen_state * list Z :=
  Eval cbv in match zipf_draw 122 ex_zipf with Ok r => r | Err _ => (ex_zipf, []) end.
Definition ex_pkt : list Z := replicate 42 0 ++ [0x34; 0x12] ++ replicate (Z.to_nat 1470) 0.

Lemma local_read_gets_witness :
  ∃ pkt' g', load pkt' (1510 - 2) 2 = Ok 0xFFFF ∧
    get_at mega_init_config 0 pkt' 44 (get_key_of 1) ∧ g_zipf g' = ex_draw.1.
Proof.
  destruct (local_read_gets mega_init_config 0 100 0 1000 ex_pkt (Gen 100 0 0 ex_zipf) ex_draw.1 ex_draw.2)
    as (pkt' & g' & _ & _ & _ & Hend & Hget & _ & Hz).
  - reflexivity.
  - lia.
  - reflexivity.
  - reflexivity.
  - simpl. lia.
  - vm_compute. reflexivity.
  - apply (bool_decide_unpack _). vm_compute. exact I.
  - exists pkt', g'. split; [exact Hend|]. split; [|exact Hz]. apply (Hget 0%nat 1). reflexivity.
Defined.
