(* ===== verification/LocalTest.v ===== *)
(** * The local test, from the generator to the batch

    The load generator of [LoadGen] with the Receiver's [process_packet] as its
    consumer, as [mega_receiver_local_read] calls it.  The generator writes keys of
    eight bytes ([KVSIZE] 0); what it writes byte by byte is the wire format of
    [Receiver], so that the properties of the two fit together.  [Benchmark] uses
    the same lemmas for the client's packets. *)

From S2P Require Import Prelude GpuHash Config Slabs Batch Items Packet Receiver Zipf LoadGen.

(** The eight bytes of the key with number [k]. *)
Definition key_bytes (cfg : mega_config_t) (k : Z) : list Z := store_le 4 k ++ store_le 4 (gen_hash cfg k).

(** ** Stores as concatenations *)

Lemma store_app pre bs post n x :
  length bs = n →
  store (pre ++ bs ++ post) (Z.of_nat (length pre)) n x = Ok (pre ++ store_le n x ++ post).
Proof.
  intros <-. unfold store. rewrite !length_app. cmp_cases. rewrite Nat2Z.id. f_equal. unfold write_run.
  rewrite length_store_le, take_app_length. f_equal. f_equal.
  by rewrite <-drop_drop, drop_app_length, drop_app_length.
Qed.

Lemma store_app_at pre bs post off n x :
  off = Z.of_nat (length pre) → length bs = n → store (pre ++ bs ++ post) off n x = Ok (pre ++ store_le n x ++ post).
Proof. intros ->. apply store_app. Qed.

Lemma split_at {A} (l : list A) n m : length l = (n + m)%nat → ∃ l1 l2, l = l1 ++ l2 ∧ length l1 = n ∧ length l2 = m.
Proof.
  intros Hl. exists (take n l), (drop n l). rewrite take_drop, length_take, length_drop. split_and!; lia || done.
Qed.

Lemma length_key_bytes cfg k : length (key_bytes cfg k) = 8%nat.
Proof. unfold key_bytes. by rewrite length_app, !length_store_le. Qed.

Lemma put_key_bytes cfg pre mid post k :
  length mid = 8%nat →
  put_key cfg (pre ++ mid ++ post) (Z.of_nat (length pre)) k = Ok (pre ++ key_bytes cfg k ++ post).
Proof.
  intros Hm. destruct (split_at mid 4 4 Hm) as (a & b & -> & Ha & Hb). unfold put_key, key_bytes.
  rewrite <-!app_assoc, (app_assoc pre).
  rewrite (store_app_at (pre ++ a) b), bind_Ok by (rewrite ?length_app; lia).
  rewrite <-app_assoc. by rewrite (store_app_at pre a).
Qed.

Lemma put_get_bytes cfg pre mid post k :
  length mid = 12%nat →
  put_get cfg 0 (pre ++ mid ++ post) (Z.of_nat (length pre)) k =
    Ok (pre ++ encode_get (key_bytes cfg k) ++ post, Z.of_nat (length pre) + 12).
Proof.
  intros Hm. destruct (split_at mid 2 10 Hm) as (a & b & -> & Ha & Hb).
  destruct (split_at b 2 8 Hb) as (c & d & -> & Hc & Hd). unfold put_get, encode_get.
  change (KEY_LEN 0) with 8. rewrite length_key_bytes. rewrite <-!app_assoc.
  rewrite (store_app pre a _ 2), bind_Ok by done.
  rewrite (app_assoc pre), (store_app_at _ c), bind_Ok by (rewrite ?length_app, ?length_store_le; lia).
  rewrite (app_assoc (_ ++ _)).
  replace (Z.of_nat (length pre) + 4)
    with (Z.of_nat (length ((pre ++ store_le 2 MEGA_JOB_GET) ++ store_le 2 8)))
    by (rewrite !length_app, !length_store_le; lia).
  rewrite put_key_bytes, bind_Ok by done. rewrite <-!app_assoc.
  rewrite !length_app, !length_store_le. do 2 f_equal. lia.
Qed.

Lemma put_set_bytes cfg pre mid value post k :
  length mid = 16%nat → length value = 8%nat →
  put_set cfg 0 (pre ++ mid ++ value ++ post) (Z.of_nat (length pre)) k =
    Ok (pre ++ encode_set (key_bytes cfg k) value ++ post, Z.of_nat (length pre) + 24).
Proof.
  intros Hm Hv. destruct (split_at mid 2 14 Hm) as (a & b & -> & Ha & Hb).
  destruct (split_at b 2 12 Hb) as (c & d & -> & Hc & Hd). destruct (split_at d 4 8 Hd) as (e & f & -> & He & Hf).
  unfold put_set, encode_set. change (KEY_LEN 0) with 8. change (VALUE_LEN 0) with 8.
  rewrite length_key_bytes, Hv. rewrite <-!app_assoc.
  rewrite (store_app pre a _ 2), bind_Ok by done.
  rewrite (app_assoc pre), (store_app_at _ c), bind_Ok by (rewrite ?length_app, ?length_store_le; lia).
  rewrite (app_assoc (_ ++ _)), (store_app_at _ e), bind_Ok by (rewrite ?length_app, ?length_store_le; lia).
  rewrite (app_assoc (_ ++ _)).
  replace (Z.of_nat (length pre) + 8)
    with (Z.of_nat (length (((pre ++ store_le 2 MEGA_JOB_SET) ++ store_le 2 8) ++ store_le 4 8)))
    by (rewrite !length_app, !length_store_le; lia).
  rewrite put_key_bytes, bind_Ok by done. rewrite <-!app_assoc.
  rewrite !length_app, !length_store_le. do 2 f_equal. lia.
Qed.

(** *** Keys *)

Lemma store_le_bytes n x : Forall byte (store_le n x).
Proof.
  revert x. induction n as [|n IH]; intros x; [constructor|]. constructor; [|apply IH].
  apply Z.mod_pos_bound. lia.
Qed.

Lemma key_bytes_ok cfg k : key_ok 0 (key_bytes cfg k).
Proof.
  split; [by rewrite length_key_bytes|]. unfold key_bytes.
  apply Forall_app; split; apply store_le_bytes.
Qed.

(** The first word of a key is its signature, the second its hash. *)
Lemma elem_of_key_bytes cfg k :
  in_range 32 k → elem_of_key (key_bytes cfg k) = Selem k (gen_hash cfg k).
Proof.
  intros Hk. pose proof (gen_hash_range cfg k Hk) as Hh. unfold elem_of_key, key_bytes, in_range in *.
  rewrite (load_le_app_more 4 4) by apply length_store_le.
  change (256 ^ Z.of_nat 4) with (2 ^ 32). rewrite !load_store_le by (change (256 ^ Z.of_nat 4) with (2 ^ 32); lia).
  unfold key_elem, wrap. rewrite Z.shiftl_mul_pow2, Z.shiftr_div_pow2 by lia.
  change (2 ^ 64) with (2 ^ 32 * 2 ^ 32). rewrite Z.mul_mod_distr_r, Z.div_mul by lia.
  rewrite (Z.mul_comm (2 ^ 32) (gen_hash cfg k)), Z.mod_add, Z.div_add by lia.
  by rewrite (Z.div_small k), Z.add_0_l, !Z.mod_small by lia.
Qed.

Lemma length_gets cfg ks : length (gets (key_bytes cfg <$> ks)) = (12 * length ks)%nat.
Proof.
  induction ks as [|k ks IH]; [done|]. unfold gets in *. rewrite !fmap_cons, concat_cons, length_app, IH.
  rewrite length_encode_get, length_key_bytes. simpl. lia.
Qed.

Lemma elems_of_keys cfg ks :
  Forall (in_range 32) ks →
  elem_of_key <$> (key_bytes cfg <$> ks) = (λ k, Selem k (gen_hash cfg k)) <$> ks.
Proof.
  intros Hks. rewrite <-list_fmap_compose. apply list_fmap_ext. intros i k Hi.
  simpl. apply elem_of_key_bytes. by eapply Forall_lookup_1.
Qed.

(** ** One round of the generator *)

Lemma local_pack_bytes cfg NDG id cnt fuel pre mid post len g z' vs m :
  0 < NDG → Z.of_nat (length mid) = 12 * Z.of_nat m → 0 ≤ len ≤ ETHERNET_MAX_FRAME_LEN →
  0 < g_num_get g → ETHERNET_MAX_FRAME_LEN - len < Z.of_nat fuel → Z.of_nat m = fit len (GET_LEN 0) →
  zipf_draw m (g_zipf g) = Ok (z', vs) → Forall (λ v, get_key_of v < cnt) vs →
  ∃ g', local_pack cfg 0 NDG 0 id cnt fuel (pre ++ mid ++ post) (Z.of_nat (length pre)) len g =
      Ok (pre ++ gets (key_bytes cfg <$> (get_key_of <$> vs)) ++ post,
          Z.of_nat (length pre) + 12 * Z.of_nat m, len + 12 * Z.of_nat m, g') ∧
    0 < g_num_get g' ∧ g_zipf g' = z'.
Proof.
  intros HN. assert (Hget : GET_LEN 0 = 12) by done. assert (Hmax : ETHERNET_MAX_FRAME_LEN = 1514) by done.
  revert pre mid len g vs m.
  induction fuel as [|fuel IH]; intros pre mid len g vs m Hmid Hlen Hg Hf Hm Hdraw Hvs; [lia|].
  cbn [local_pack]. destruct (Z.ltb_spec 0 (g_num_get g)); [|lia].
  destruct (Z.ltb_spec ETHERNET_MAX_FRAME_LEN (len + GET_LEN 0)) as [Hgt|Hle].
  - rewrite fit_none in Hm by lia. assert (m = 0%nat) as -> by lia. injection Hdraw as <- <-.
    assert (mid = []) as -> by (apply length_zero_iff_nil; lia).
    exists g. rewrite !Z.mul_0_r, !Z.add_0_r. done.
  - rewrite fit_step in Hm by lia. pose proof (fit_bounds (len + GET_LEN 0) (GET_LEN 0)).
    destruct m as [|m]; [lia|]. cbn [zipf_draw] in Hdraw.
    apply bind_Ok_inv in Hdraw as ([z v] & Hz & Hdraw).
    apply bind_Ok_inv in Hdraw as ([z2 vs'] & Hdraw & [= <- <-]).
    rewrite Hz, bind_Ok. apply Forall_cons in Hvs as [Hv Hvs].
    fold (get_key_of v). rewrite assert_true, bind_Ok by (by apply Z.ltb_lt).
    destruct (split_at mid 12 (12 * m)) as (a & b & -> & Ha & Hb); [lia|].
    rewrite <-app_assoc, put_get_bytes, bind_Ok by done.
    destruct (after_get NDG 0 (g_num_get g - 1) (g_num_set g)) as [ng ns] eqn:Hafter.
    assert (0 < ng).
    { revert Hafter. unfold after_get. change (0 <? 0) with false. rewrite andb_false_r.
      destruct (Z.eqb_spec (g_num_get g - 1) 0); intros [= <- <-]; lia. }
    rewrite (app_assoc pre).
    replace (Z.of_nat (length pre) + 12)
      with (Z.of_nat (length (pre ++ encode_get (key_bytes cfg (get_key_of v)))))
      by (rewrite length_app, length_encode_get, length_key_bytes; lia).
    destruct (IH (pre ++ encode_get (key_bytes cfg (get_key_of v))) b (len + GET_LEN 0)
      (Gen ng ns (g_set_key g) z) vs' m) as (g2 & H2 & Hg2 & Hz2); [lia|lia|done|lia|lia|done|done|].
    rewrite H2. exists g2. split; [|by split].
    rewrite length_app, length_encode_get, length_key_bytes, Hget.
    unfold gets. rewrite !fmap_cons, concat_cons, <-!app_assoc. ok_tuple.
Qed.

(** The packet of a round: the header with the address [ip] of the next client. *)
Definition header_with_ip (hdr : list Z) (ip : Z) : list Z := write_run hdr 26 (store_le 4 ip).

Lemma length_header_with_ip hdr ip : length hdr = 42%nat → length (header_with_ip hdr ip) = 42%nat.
Proof. intros H. unfold header_with_ip. rewrite write_run_length; [done|]. rewrite length_store_le. lia. Qed.

Lemma store_ip_bytes hdr post ip :
  length hdr = 42%nat → store (hdr ++ post) 26 4 ip = Ok (header_with_ip hdr ip ++ post).
Proof.
  intros Hl. destruct (split_at hdr 26 16 Hl) as (a & b & -> & Ha & Hb).
  destruct (split_at b 4 12 Hb) as (c & d & -> & Hc & Hd).
  rewrite <-!app_assoc, (store_app_at a c) by (by rewrite ?Ha). unfold header_with_ip, write_run.
  rewrite length_store_le, take_app_length' by done.
  rewrite (app_assoc a c d), drop_app_length' by (rewrite length_app; lia). by rewrite <-!app_assoc.
Qed.

Lemma next_client_bytes hdr post :
  length hdr = 42%nat →
  next_client (hdr ++ post) = Ok (header_with_ip hdr (u32 (load_le 4 (drop 26 hdr) + 1)) ++ post).
Proof.
  intros Hl. unfold next_client. change off_src_addr with (Z.of_nat 26).
  rewrite (load_header hdr post 26 4), bind_Ok by lia. by apply store_ip_bytes.
Qed.

(** ** Properties *)

(** C28: a round of the local test.  With searches only, as configured, one iteration
    of [mega_receiver_local_read] writes a frame of 122 GETs that [process_packet]
    accepts in full: when the buffer has room, the hashes and signatures of the keys
    drawn by the generator are appended to the batch in order, as one compact job of
    the next client, and the packet and its length are counted. *)
Theorem local_round_batches malloc_ok garbage cfg NDG id cnt hdr body g z' vs total jobs fuel st bf :
  let hdr' := header_with_ip hdr (u32 (load_le 4 (drop 26 hdr) + 1)) in
  let es := (λ v, Selem (get_key_of v) (gen_hash cfg (get_key_of v))) <$> vs in
  eiu_hdr_len cfg = 42 → 0 < NDG → length hdr = 42%nat → length body = 1470%nat → 0 < g_num_get g →
  zipf_draw 122 (g_zipf g) = Ok (z', vs) → Forall (λ v, get_key_of v < cnt) vs →
  current_buf st bf → search_room cfg (header_client hdr') 122 bf → (122 < jobs)%nat →
  ∃ g', local_packet cfg 0
      (λ pkt len st, process_packet malloc_ok garbage cfg 0 quiet jobs (S fuel) true pkt len st)
      NDG 0 id cnt (hdr ++ store_le 2 PROTOCOL_MAGIC ++ body) g total st =
      Ok (packet hdr' (gets (key_bytes cfg <$> (get_key_of <$> vs))) (drop 1466 body), g',
          (u64 (total.1 + 1), u64 (total.2 + 1510)),
          searched st (add_keys (header_client hdr') es bf) 122) ∧
    g_zipf g' = z' ∧ 0 < g_num_get g'.
Proof.
  intros hdr' es Hh HN Hl Hb Hg Hdraw Hvs Hcur Hroom Hjobs.
  assert (Hl' : length hdr' = 42%nat) by (by apply length_header_with_ip).
  pose proof (zipf_draw_length _ _ _ _ Hdraw) as Hnv.
  destruct (split_at body 1464 6) as (mid & post & -> & Hmid & Hpost); [lia|].
  destruct (split_at post 2 4) as (em & rest & -> & Hem & Hrest); [lia|].
  unfold local_packet, reserved_len. rewrite Hh, next_client_bytes, bind_Ok by done. fold hdr'.
  change (42 + MEGA_MAGIC_NUM_LEN + 2) with 46. change (off_payload + MEGA_MAGIC_NUM_LEN) with 44.
  rewrite (app_assoc hdr').
  destruct (local_pack_bytes cfg NDG id cnt (Z.to_nat ETHERNET_MAX_FRAME_LEN) (hdr' ++ store_le 2 PROTOCOL_MAGIC)
    mid (em ++ rest) 46 g z' vs 122) as (g' & Hpack & Hg' & Hz); try done; [lia|].
  replace (Z.of_nat (length (hdr' ++ store_le 2 PROTOCOL_MAGIC))) with 44 in Hpack
    by (rewrite length_app, length_store_le; lia).
  rewrite Hpack, bind_Ok. exists g'. split; [|done].
  rewrite (app_assoc (hdr' ++ _)).
  rewrite (store_app_at _ em), bind_Ok; [|rewrite !length_app, length_gets, length_fmap, length_store_le; lia|done].
  change (store_le 2 0xFFFF) with end_mark. rewrite <-!app_assoc.
  change (46 + 12 * Z.of_nat 122) with 1510.
  replace (hdr' ++ store_le 2 PROTOCOL_MAGIC ++ gets (key_bytes cfg <$> (get_key_of <$> vs)) ++ end_mark ++ rest)
    with (packet hdr' (gets (key_bytes cfg <$> (get_key_of <$> vs))) rest) by done.
  rewrite (process_packet_gets_spec malloc_ok garbage cfg 0 hdr' _ rest 1510 jobs fuel st bf);
    rewrite ?length_fmap, ?length_gets, ?Hnv; try done.
  - assert (elem_of_key <$> (key_bytes cfg <$> (get_key_of <$> vs)) = es) as ->.
    { rewrite elems_of_keys; [by rewrite <-list_fmap_compose|].
      apply Forall_fmap, Forall_true. intros v. apply (wrap_range 32). lia. }
    rewrite bind_Ok.
    replace (drop 1466 (mid ++ em ++ rest)) with rest; [done|].
    by rewrite app_assoc, drop_app_length' by (rewrite length_app; lia).
  - apply Forall_fmap, Forall_true. intros k. apply key_bytes_ok.
  - rewrite length_fmap, Hnv. lia.
Qed.

Lemma local_round_batches_witness :
  ∃ g', local_packet mega_init_config 0
      (λ pkt len st, process_packet (λ _, true) (λ _, 0) mega_init_config 0 quiet 123 1 true pkt len st)
      100 0 0 1000 (ex_hdr ++ store_le 2 PROTOCOL_MAGIC ++ replicate (Z.to_nat 1470) 0)
      (Gen 100 0 0 ex_zipf) (0, 0) ex_rstate =
    Ok (packet (header_with_ip ex_hdr 505224220)
          (gets (key_bytes mega_init_config <$> (get_key_of <$> ex_draw.2))) (replicate 4 0), g', (1, 1510),
        searched ex_rstate (add_keys (header_client (header_with_ip ex_hdr 505224220))
          ((λ v, Selem (get_key_of v) (gen_hash mega_init_config (get_key_of v))) <$> ex_draw.2) ex_rbuf) 122).
Proof.
  destruct (local_round_batches (λ _, true) (λ _, 0) mega_init_config 100 0 1000 ex_hdr
    (replicate (Z.to_nat 1470) 0) (Gen 100 0 0 ex_zipf) ex_draw.1 ex_draw.2 (0, 0) 123 0 ex_rstate ex_rbuf)
    as (g' & H & _ & _).
  - reflexivity.
  - lia.
  - reflexivity.
  - reflexivity.
  - simpl. lia.
  - vm_compute. reflexivity.
  - apply (bool_decide_unpack _). vm_compute. exact I.
  - exact ex_current.
  - apply ex_search_room; [vm_compute; reflexivity | lia].
  - lia.
  - exists g'. exact H.
Defined.
