(* ===== verification/Sender.v ===== *)
(** * The Sender (src/src/mega_send.c)

    [mega_sender_sendloop] turns the results of a batch into replies.  A frame is
    the memory of one packet; the header fields the Sender writes are fields of the
    record, [f_bytes] holds the whole frame, in which the replies start behind the
    headers.  The source has three versions of the loop: [PREFETCH_BATCH] (the
    active build), [PREFETCH_BATCH_NO] and the plain one.  [KEY_MATCH], which
    is not defined here, is in [SenderMatch].  The parameter [local_test] says whether
    [LOCAL_TEST] is; without it a chunk is handed to [rte_eth_tx_burst], whose
    result is the parameter [tx_burst].  The packets and their headers are
    set up in [SenderStart]; the wait for a buffer and the hand-over are in [Batch] and,
    with the loop around them, in [SenderMain]. *)

From S2P Require Import Prelude GpuHash Config Bitmap Slabs Batch Packet Receiver.

Record frame := Frame {
  f_d_addr : Z;       (** [ethh->d_addr] *)
  f_dst_addr : Z;     (** [iph->dst_addr] *)
  f_dst_port : Z;     (** [udph->dst_port] *)
  f_ip_length : Z;    (** [iph->total_length], in host order *)
  f_udp_length : Z;   (** [udph->dgram_len], in host order *)
  f_pkt_len : Z;      (** [pkt.pkt_len] and [pkt.data_len] *)
  f_bytes : list Z;
}.

Record mega_sender_t := SenderStat {
  total_packets : Z;
  total_bytes : Z;
  dropped_packets : Z;
  hit : Z;
  miss : Z;
}.

(** What the loop works on; [s_sent] are the chunks handed to the network card. *)
Record sstate := SState {
  s_slabs : list slabclass_t;
  s_jobs : list mega_job_search_t;
  s_frames : list frame;
  s_cc : mega_sender_t;
  s_sent : list (list frame);
}.

Definition with_jobs (s : sstate) (l : list mega_job_search_t) : sstate :=
  SState (s_slabs s) l (s_frames s) (s_cc s) (s_sent s).
Definition with_frames (s : sstate) (l : list frame) : sstate :=
  SState (s_slabs s) (s_jobs s) l (s_cc s) (s_sent s).
Definition with_cc (s : sstate) (c : mega_sender_t) : sstate :=
  SState (s_slabs s) (s_jobs s) (s_frames s) c (s_sent s).
Definition add_hit (c : mega_sender_t) : mega_sender_t :=
  SenderStat (total_packets c) (total_bytes c) (dropped_packets c) (u64 (hit c + 1)) (miss c).
Definition add_miss (c : mega_sender_t) : mega_sender_t :=
  SenderStat (total_packets c) (total_bytes c) (dropped_packets c) (hit c) (u64 (miss c + 1)).
Definition add_bytes (c : mega_sender_t) (n : Z) : mega_sender_t :=
  SenderStat (total_packets c) (u64 (total_bytes c + n)) (dropped_packets c) (hit c) (miss c).
Definition add_packets (c : mega_sender_t) (n d : Z) : mega_sender_t :=
  SenderStat (u64 (total_packets c + n)) (total_bytes c) (u64 (dropped_packets c + d)) (hit c) (miss c).

(** [this_job->num --; this_job->index ++]: the fields have 16 and 32 bits. *)
Definition consume (j : mega_job_search_t) : mega_job_search_t :=
  JobSearch (js_eth_addr j) (js_ip j) (js_port j) (u16 (js_num j - 1)) (u32 (js_index j + 1)).

Definition upd_frame (s : sstate) (mark : Z) (f : frame → result frame) : result sstate :=
  fr ← arr_get (s_frames s) mark;
  fr ← f fr;
  l ← arr_set (s_frames s) mark fr;
  Ok (with_frames s l).

Section sender.
Context (cfg : mega_config_t) (heap : heap_t) (local_test : bool) (tx_burst : list frame → Z).

(** ** Macros *)

(** [rte_memcpy(pkt_ptr, src, ...)] *)
Definition copy (pkt : list Z) (off : Z) (bytes : list Z) : result (list Z) :=
  if (0 <=? off) && (off + Z.of_nat (length bytes) <=? Z.of_nat (length pkt))
  then Ok (write_run pkt (Z.to_nat off) bytes) else Err OutOfBounds.

(** [WRITE_PKT(pkt_ptr, item)]: the frame's bytes and the new [pkt_ptr]; the key
    and value of an item are the first [nkey + nbytes] bytes of its data. *)
Definition WRITE_PKT (pkt : list Z) (ptr : Z) (it : item) : result (list Z * Z) :=
  pkt ← store pkt ptr 2 PROTOCOL_VALUE;
  pkt ← store pkt (ptr + 2) 4 (it_nbytes it);
  bytes ← bytes_at (it_data it) 0 (it_nbytes it + it_nkey it);
  pkt ← copy pkt (ptr + 6) bytes;
  Ok (pkt, ptr + 6 + it_nbytes it).

(** The address computation alone, as [PREFETCH_BATCH] inlines it. *)
Definition item_pointer (cs : list slabclass_t) (loc : Z) : result ptr :=
  p ← arr_get cs (loc_id cfg loc); item_at p (loc_offset loc).

(** [ITEM_GET(it, loc)]; it also records the use of the item in the bitmap. *)
Definition ITEM_GET (cs : list slabclass_t) (loc : Z) : result (list slabclass_t * ptr) :=
  let id := loc_id cfg loc in
  let offset := loc_offset loc in
  p ← arr_get cs id;
  _ ← assert_ (offset <? u32 (sc_perslab p * sc_slabs p));
  it ← item_at p offset;
  bm ← bitmap_touch (sc_bitmap p) offset;
  cs ← arr_set cs id (set_bitmap p bm);
  Ok (cs, it).
(** ** Packets and chunks *)

(** The headers of the packet [pkt_mark] for the client of a job. *)
Definition new_packet (s : sstate) (pkt_mark : Z) (j : mega_job_search_t) : result sstate :=
  upd_frame s pkt_mark (λ f, Ok (Frame (js_eth_addr j) (js_ip j) (js_port j) (f_ip_length f)
    (f_udp_length f) (f_pkt_len f) (f_bytes f))).

(** The lengths of a packet that ends at [pkt_ptr]. *)
Definition complete_packet (s : sstate) (pkt_mark pkt_ptr : Z) : result sstate :=
  s ← upd_frame s pkt_mark (λ f, Ok (Frame (f_d_addr f) (f_dst_addr f) (f_dst_port f)
        (u16 (pkt_ptr - 14)) (u16 (pkt_ptr - 14 - 20))
        (if local_test then f_pkt_len f else pkt_ptr) (f_bytes f)));
  Ok (with_cc s (add_bytes (s_cc s) pkt_ptr)).

Definition send_chunk (s : sstate) (len : Z) : sstate :=
  if local_test then with_cc s (add_packets (s_cc s) (io_batch_num cfg) 0)
  else
    let chunk := take (Z.to_nat len) (s_frames s) in
    let ret := tx_burst chunk in
    SState (s_slabs s) (s_jobs s) (s_frames s) (add_packets (s_cc s) ret (len - ret))
      (s_sent s ++ [chunk]).

Definition deref (p : ptr) : result item :=
  match heap !! p with Some it => Ok it | None => Err NullDeref end.

Definition write_item_pkt (s : sstate) (pkt_mark pkt_ptr : Z) (it : item) : result (sstate * Z) :=
  f ← arr_get (s_frames s) pkt_mark;
  '(bytes, pkt_ptr) ← WRITE_PKT (f_bytes f) pkt_ptr it;
  s ← upd_frame s pkt_mark (λ f, Ok (Frame (f_d_addr f) (f_dst_addr f) (f_dst_port f)
        (f_ip_length f) (f_udp_length f) (f_pkt_len f) bytes));
  Ok (with_cc s (add_hit (s_cc s)), pkt_ptr).

(** Add an item to the packet [pkt_mark], or to a new one if it does not fit or
    is for another client than [this_job]'s; [sent mark] is the length of a full
    chunk. *)
Definition emit (sent : Z → Z) (j : mega_job_search_t) (s : sstate) (pkt_mark pkt_ptr : Z) (p : ptr)
    : result (sstate * Z * Z) :=
  it ← deref p;
  f ← arr_get (s_frames s) pkt_mark;
  '(s, pkt_mark, pkt_ptr) ←
    (if (ETHERNET_MAX_FRAME_LEN <? pkt_ptr + it_nkey it + it_nbytes it + 6)
        || negb (js_ip j =? f_dst_addr f) || negb (js_port j =? f_dst_port f) then
       s ← complete_packet s pkt_mark pkt_ptr;
       let '(s, pkt_mark) := (if pkt_mark =? u32 (io_batch_num cfg - 1)
                              then (send_chunk s (sent pkt_mark), 0) else (s, pkt_mark + 1)) in
       s ← new_packet s pkt_mark j;
       Ok (s, pkt_mark, eiu_hdr_len cfg)
     else Ok (s, pkt_mark, pkt_ptr));
  '(s, pkt_ptr) ← write_item_pkt s pkt_mark pkt_ptr it;
  Ok (s, pkt_mark, pkt_ptr).

(** ** PREFETCH_BATCH *)

Section loops.
(** The batch: [search_out], the number of searches and of entries of the job list. *)
Context (search_out : list Z) (num_search_job total_cnt : Z).

(** The first of the two words the GPU wrote for a search that is not 0. *)
Definition result_loc (index : Z) : result Z :=
  loc ← arr_get search_out (u32 (Z.shiftl index 1));
  if loc =? 0 then arr_get search_out (u32 (u32 (Z.shiftl index 1) + 1)) else Ok loc.

(** From [prefetch_loop1] to [break_loop1]: the items found, the new [index], the
    number of [this_job] and [to_send]. *)
Fixpoint prefetch_loop1 (fuel : nat) (s : sstate) (index job_mark : Z) (items : list ptr)
    : result (sstate * list ptr * Z * Z * bool) :=
  match fuel with
  | O => Err OutOfFuel
  | S fuel =>
      loc ← result_loc index;
      this_job ← arr_get (s_jobs s) job_mark;
      if 0 <? js_num this_job then
        if negb (index =? js_index this_job) then Ok (s, items, u32 (index + 1), job_mark, true)
        else
          jobs ← arr_set (s_jobs s) job_mark (consume this_job);
          let s := with_jobs s jobs in
          let index := u32 (index + 1) in
          if negb (loc =? 0) then
            it ← item_pointer (s_slabs s) loc;
            let items := items ++ [it] in
            if Z.of_nat (length items) <? PREFETCH_BATCH_DISTANCE
            then prefetch_loop1 fuel s index job_mark items
            else Ok (s, items, index, job_mark, false)
          else prefetch_loop1 fuel (with_cc s (add_miss (s_cc s))) index job_mark items
      else if total_cnt <=? job_mark + 1 then Ok (s, items, index, job_mark, true)
      else prefetch_loop1 fuel s index (job_mark + 1) items
  end.

(** [prefetch_loop2]: every item is written for the client of the present [this_job]. *)
Fixpoint prefetch_loop2 (j : mega_job_search_t) (s : sstate) (pkt_mark pkt_ptr : Z) (items : list ptr)
    : result (sstate * Z * Z) :=
  match items with
  | [] => Ok (s, pkt_mark, pkt_ptr)
  | p :: items =>
      '(s, pkt_mark, pkt_ptr) ← emit (λ mark, mark) j s pkt_mark pkt_ptr p;
      prefetch_loop2 j s pkt_mark pkt_ptr items
  end.

(** [while (index < buf->num_search_job)]: the packet under construction and [to_send]. *)
Fixpoint prefetch_batch (fuel : nat) (s : sstate) (index job_mark pkt_mark pkt_ptr : Z)
    : result (sstate * Z * Z * bool) :=
  match fuel with
  | O => Err OutOfFuel
  | S fuel' =>
      if index <? num_search_job then
        '(s, items, index, job_mark, to_send) ← prefetch_loop1 fuel s index job_mark [];
        if (length items =? 0)%nat then Ok (s, pkt_mark, pkt_ptr, to_send)
        else
          this_job ← arr_get (s_jobs s) job_mark;
          '(s, pkt_mark, pkt_ptr) ← prefetch_loop2 this_job s pkt_mark pkt_ptr items;
          if negb (Z.of_nat (length items) =? PREFETCH_BATCH_DISTANCE)
          then Ok (s, pkt_mark, pkt_ptr, to_send)
          else prefetch_batch fuel' s index job_mark pkt_mark pkt_ptr
      else Ok (s, pkt_mark, pkt_ptr, false)
  end.

(** ** PREFETCH_BATCH_NO *)

Fixpoint batch_no (fuel : nat) (s : sstate) (index job_mark pkt_mark pkt_ptr : Z)
    : result (sstate * Z * Z * bool) :=
  match fuel with
  | O => Err OutOfFuel
  | S fuel =>
      if index <? num_search_job then
        this_job ← arr_get (s_jobs s) job_mark;
        if 0 <? js_num this_job then
          if negb (index =? js_index this_job) then Ok (s, pkt_mark, pkt_ptr, true)
          else
            jobs ← arr_set (s_jobs s) job_mark (consume this_job);
            let s := with_jobs s jobs in
            loc ← result_loc index;
            if loc =? 0 then batch_no fuel s index job_mark pkt_mark pkt_ptr
            else
              '(cs, p) ← ITEM_GET (s_slabs s) loc;
              let s := SState cs (s_jobs s) (s_frames s) (s_cc s) (s_sent s) in
              '(s, pkt_mark, pkt_ptr) ← emit (λ mark, mark + 1) this_job s pkt_mark pkt_ptr p;
              batch_no fuel s (u32 (index + 1)) job_mark pkt_mark pkt_ptr
        else if total_cnt <=? job_mark + 1 then Ok (s, pkt_mark, pkt_ptr, true)
        else batch_no fuel s index (job_mark + 1) pkt_mark pkt_ptr
      else Ok (s, pkt_mark, pkt_ptr, false)
  end.

(** What both versions do before and after the loop. *)
Definition send_batch (loop : sstate → Z → Z → Z → Z → result (sstate * Z * Z * bool))
    (job_mark : Z) (s : sstate) : result sstate :=
  this_job ← arr_get (s_jobs s) job_mark;
  s ← new_packet s 0 this_job;
  '(s, pkt_mark, pkt_ptr, to_send) ← loop s (js_index this_job) job_mark 0 (eiu_hdr_len cfg);
  if (to_send : bool) then
    s ← complete_packet s pkt_mark pkt_ptr;
    Ok (send_chunk s (pkt_mark + 1))
  else Ok s.

(** ** Neither *)

(** One byte [PROTOCOL_GET_NOT_FOUND] at [pkt_ptr]. *)
Definition write_not_found (s : sstate) (pkt_mark pkt_ptr : Z) : result sstate :=
  s ← upd_frame s pkt_mark (λ f,
        bytes ← store (f_bytes f) pkt_ptr 1 PROTOCOL_GET_NOT_FOUND;
        Ok (Frame (f_d_addr f) (f_dst_addr f) (f_dst_port f) (f_ip_length f) (f_udp_length f)
              (f_pkt_len f) bytes));
  Ok (with_cc s (add_miss (s_cc s))).

Definition finish_search (s : sstate) (job_mark : Z) (this_job : mega_job_search_t) : result sstate :=
  jobs ← arr_set (s_jobs s) job_mark (consume this_job); Ok (with_jobs s jobs).

(** "construct a packet": until the jobs end, the client changes or the packet is full. *)
Fixpoint plain_packet (fuel : nat) (s : sstate) (job_mark pkt_mark pkt_ptr : Z)
    : result (sstate * Z * Z) :=
  match fuel with
  | O => Err OutOfFuel
  | S fuel =>
      if total_cnt <=? job_mark then Ok (s, job_mark, pkt_ptr)
      else
        this_job ← arr_get (s_jobs s) job_mark;
        f ← arr_get (s_frames s) pkt_mark;
        if negb (js_ip this_job =? f_dst_addr f) || negb (js_port this_job =? f_dst_port f)
        then Ok (s, job_mark, pkt_ptr)
        else if js_num this_job <=? 0 then plain_packet fuel s (job_mark + 1) pkt_mark pkt_ptr
        else
          loc ← result_loc (js_index this_job);
          if negb (loc =? 0) then
            '(cs, p) ← ITEM_GET (s_slabs s) loc;
            let s := SState cs (s_jobs s) (s_frames s) (s_cc s) (s_sent s) in
            it ← deref p;
            if ETHERNET_MAX_FRAME_LEN <? pkt_ptr + it_nkey it + it_nbytes it + 6
            then Ok (s, job_mark, pkt_ptr)
            else
              '(s, pkt_ptr) ← write_item_pkt s pkt_mark pkt_ptr it;
              s ← finish_search s job_mark this_job;
              plain_packet fuel s job_mark pkt_mark pkt_ptr
          else if ETHERNET_MAX_FRAME_LEN <? pkt_ptr + 1 then Ok (s, job_mark, pkt_ptr)
          else
            s ← write_not_found s pkt_mark pkt_ptr;
            s ← finish_search s job_mark this_job;
            plain_packet fuel s job_mark pkt_mark (pkt_ptr + 1)
  end.

(** "construct a chunk": the packets, as long as there is room for them. *)
Fixpoint plain_chunk (fuel : nat) (s : sstate) (job_mark pkt_mark : Z) : result (sstate * Z * Z) :=
  match fuel with
  | O => Err OutOfFuel
  | S fuel' =>
      if (pkt_mark <? io_batch_num cfg) && (job_mark <? total_cnt) then
        this_job ← arr_get (s_jobs s) job_mark;
        s ← new_packet s pkt_mark this_job;
        '(s, job_mark, pkt_ptr) ← plain_packet fuel s job_mark pkt_mark (eiu_hdr_len cfg);
        if eiu_hdr_len cfg <? pkt_ptr then
          s ← complete_packet s pkt_mark pkt_ptr;
          plain_chunk fuel' s job_mark (pkt_mark + 1)
        else plain_chunk fuel' s job_mark pkt_mark
      else Ok (s, job_mark, pkt_mark)
  end.

Fixpoint plain_batch (fuel : nat) (s : sstate) (job_mark : Z) : result sstate :=
  match fuel with
  | O => Err OutOfFuel
  | S fuel' =>
      if job_mark <? total_cnt then
        '(s, job_mark, pkt_mark) ← plain_chunk fuel s job_mark 0;
        plain_batch fuel' (send_chunk s pkt_mark) job_mark
      else Ok s
  end.
End loops.

(** ** mega_sender_sendloop *)

Inductive version := PREFETCH_BATCH | PREFETCH_BATCH_NO | NEITHER.

(** One buffer, between taking it and giving it back; [compact] is [COMPACT_JOB]. *)
Definition send_buffer (v : version) (compact : bool) (fuel : nat) (bf : mega_batch_buf_t) (s : sstate)
    : result sstate :=
  if num_search_job bf =? 0 then Ok s
  else
    let job_mark := if compact then 1 else 0 in
    let total_cnt := if compact then num_compact_search_job bf + 1 else num_compact_search_job bf in
    match v with
    | PREFETCH_BATCH =>
        send_batch (prefetch_batch (search_out bf) (num_search_job bf) total_cnt fuel) job_mark s
    | PREFETCH_BATCH_NO =>
        send_batch (batch_no (search_out bf) (num_search_job bf) total_cnt fuel) job_mark s
    | NEITHER => plain_batch (search_out bf) total_cnt fuel s job_mark
    end.
End sender.

(** ** Lemmas: items and frames *)

(** An item's data holds its key and value, which fit into an empty packet. *)
Record sendable (hdr : Z) (it : item) : Prop := {
  sd_nkey : 0 ≤ it_nkey it;
  sd_nbytes : in_range 32 (it_nbytes it);
  sd_data : it_nbytes it + it_nkey it ≤ Z.of_nat (length (it_data it));
  sd_fits : hdr + it_nkey it + it_nbytes it + 6 ≤ ETHERNET_MAX_FRAME_LEN;
}.

Definition frames_ok (cfg : mega_config_t) (l : list frame) : Prop :=
  Z.of_nat (length l) = io_batch_num cfg ∧
  Forall (λ f, length (f_bytes f) = Z.to_nat ETHERNET_MAX_FRAME_LEN) l.

Lemma copy_in_bounds pkt off bytes :
  0 ≤ off → off + Z.of_nat (length bytes) ≤ Z.of_nat (length pkt) →
  copy pkt off bytes = Ok (write_run pkt (Z.to_nat off) bytes).
Proof. intros. unfold copy. by cmp_cases. Qed.

Lemma WRITE_PKT_eq pkt ptr it :
  0 ≤ ptr → 0 ≤ it_nkey it → 0 ≤ it_nbytes it →
  it_nbytes it + it_nkey it ≤ Z.of_nat (length (it_data it)) →
  ptr + it_nkey it + it_nbytes it + 6 ≤ Z.of_nat (length pkt) →
  ∃ p2, length p2 = length pkt ∧ load p2 ptr 2 = Ok PROTOCOL_VALUE ∧
    (in_range 32 (it_nbytes it) → load p2 (ptr + 2) 4 = Ok (it_nbytes it)) ∧
    WRITE_PKT pkt ptr it =
      Ok (write_run p2 (Z.to_nat (ptr + 6)) (take (Z.to_nat (it_nbytes it + it_nkey it)) (it_data it)),
          ptr + 6 + it_nbytes it).
Proof.
  intros Hp Hk Hb Hd Hl. unfold WRITE_PKT.
  destruct (store_in_bounds pkt ptr 2 PROTOCOL_VALUE) as (p1 & H1 & L1); [lia|lia|].
  destruct (store_in_bounds p1 (ptr + 2) 4 (it_nbytes it)) as (p2 & H2 & L2); [lia|lia|].
  exists p2. split; [lia|]. split; [|split].
  - rewrite (load_store_other _ _ _ _ _ _ _ H2) by lia. by eapply load_store_same.
  - intros Hr. eapply load_store_same; [done|exact Hr].
  - rewrite H1, bind_Ok, H2, bind_Ok. unfold bytes_at. rewrite Z.add_0_l.
    destruct (Z.leb_spec 0 (it_nbytes it + it_nkey it)); [|lia].
    destruct (Z.leb_spec (it_nbytes it + it_nkey it) (Z.of_nat (length (it_data it)))); [|lia].
    cbn [andb Z.leb Z.compare]. rewrite bind_Ok, drop_0. rewrite copy_in_bounds, bind_Ok; [done|lia|].
    rewrite length_take. lia.
Qed.

Lemma frames_ok_lookup cfg l mark :
  frames_ok cfg l → 0 ≤ mark < io_batch_num cfg →
  ∃ f, l !! Z.to_nat mark = Some f ∧ length (f_bytes f) = Z.to_nat ETHERNET_MAX_FRAME_LEN.
Proof.
  intros [Hl Hf] Hm. destruct (lookup_lt_is_Some_2 l (Z.to_nat mark)) as [f Hfr]; [lia|].
  exists f. split; [done|]. exact (Forall_lookup_1 _ _ _ _ Hf Hfr).
Qed.

Lemma frames_ok_insert cfg l i f :
  frames_ok cfg l → length (f_bytes f) = Z.to_nat ETHERNET_MAX_FRAME_LEN → frames_ok cfg (<[i := f]> l).
Proof. intros [Hl Hf] Hb. split; [by rewrite length_insert | by apply Forall_insert]. Qed.

Lemma upd_frame_eq s mark f f' g :
  0 ≤ mark → s_frames s !! Z.to_nat mark = Some f → g f = Ok f' →
  upd_frame s mark g = Ok (with_frames s (<[Z.to_nat mark := f']> (s_frames s))).
Proof.
  intros Hm Hf Hg. unfold upd_frame. rewrite (arr_get_lookup _ _ f) by done. rewrite bind_Ok, Hg, bind_Ok.
  rewrite arr_set_in_bounds; [done|]. apply lookup_lt_Some in Hf. lia.
Qed.

(** What the packets being built keep: the slabs, the jobs and the counts of
    answers. *)
Definition same_answers (s s' : sstate) : Prop :=
  s_slabs s' = s_slabs s ∧ s_jobs s' = s_jobs s ∧ hit (s_cc s') = hit (s_cc s) ∧
  miss (s_cc s') = miss (s_cc s).
(** ... and nothing sent. *)
Definition same_traffic (s s' : sstate) : Prop :=
  total_packets (s_cc s') = total_packets (s_cc s) ∧ total_bytes (s_cc s') = total_bytes (s_cc s) ∧
  dropped_packets (s_cc s') = dropped_packets (s_cc s) ∧ s_sent s' = s_sent s.

#[export] Instance same_answers_preorder : PreOrder same_answers.
Proof.
  split; [by repeat split|]. intros s1 s2 s3 (A1 & A2 & A3 & A4) (B1 & B2 & B3 & B4).
  repeat split; congruence.
Qed.

Section frames.
Context (cfg : mega_config_t) (heap : heap_t) (local_test : bool) (tx_burst : list frame → Z).
Context (Hio : 0 < io_batch_num cfg < 2 ^ 32) (Hhdr : eiu_hdr_len cfg = 42).

Lemma new_packet_spec s mark j :
  frames_ok cfg (s_frames s) → 0 ≤ mark < io_batch_num cfg →
  ∃ s', new_packet s mark j = Ok s' ∧ frames_ok cfg (s_frames s') ∧ same_answers s s' ∧
    same_traffic s s' ∧
    ∃ f, s_frames s' !! Z.to_nat mark = Some f ∧ f_dst_addr f = js_ip j ∧ f_dst_port f = js_port j.
Proof.
  intros Hf Hm. destruct (frames_ok_lookup cfg _ mark Hf Hm) as (f & Hl & Hb).
  unfold new_packet. erewrite (upd_frame_eq s mark f); [|lia|exact Hl|reflexivity].
  eexists. split; [done|]. split; [simpl; by apply frames_ok_insert|].
  split; [by repeat split|]. split; [by repeat split|].
  simpl. rewrite list_lookup_insert_eq by (apply lookup_lt_Some in Hl; lia).
  eexists. split; [reflexivity | done].
Qed.

Lemma complete_packet_spec s mark ptr :
  frames_ok cfg (s_frames s) → 0 ≤ mark < io_batch_num cfg →
  ∃ s', complete_packet local_test s mark ptr = Ok s' ∧ frames_ok cfg (s_frames s') ∧ same_answers s s'.
Proof.
  intros Hf Hm. destruct (frames_ok_lookup cfg _ mark Hf Hm) as (f & Hl & Hb).
  unfold complete_packet. erewrite (upd_frame_eq s mark f), bind_Ok; [|lia|exact Hl|reflexivity].
  eexists. split; [done|]. split; [simpl; by apply frames_ok_insert|]. by repeat split.
Qed.

Lemma send_chunk_spec s len :
  frames_ok cfg (s_frames s) →
  frames_ok cfg (s_frames (send_chunk cfg local_test tx_burst s len)) ∧
  same_answers s (send_chunk cfg local_test tx_burst s len).
Proof. intros Hf. unfold send_chunk. destruct local_test; by repeat split; apply Hf. Qed.

Lemma write_item_pkt_spec s mark ptr it :
  frames_ok cfg (s_frames s) → 0 ≤ mark < io_batch_num cfg → 42 ≤ ptr →
  sendable 42 it → ptr + it_nkey it + it_nbytes it + 6 ≤ ETHERNET_MAX_FRAME_LEN →
  ∃ s', write_item_pkt s mark ptr it = Ok (s', ptr + 6 + it_nbytes it) ∧
    frames_ok cfg (s_frames s') ∧ same_traffic s s' ∧
    s_slabs s' = s_slabs s ∧ s_jobs s' = s_jobs s ∧ miss (s_cc s') = miss (s_cc s) ∧
    hit (s_cc s') = u64 (hit (s_cc s) + 1) ∧
    ∀ f, s_frames s !! Z.to_nat mark = Some f → ∃ f', s_frames s' !! Z.to_nat mark = Some f' ∧
      f_dst_addr f' = f_dst_addr f ∧ f_dst_port f' = f_dst_port f.
Proof.
  intros Hf Hm Hp [Hk Hb Hd _] Hfit. destruct (frames_ok_lookup cfg _ mark Hf Hm) as (f & Hl & Hlen).
  unfold write_item_pkt. rewrite (arr_get_lookup _ _ f), bind_Ok by (lia || done).
  assert (Hlen' : Z.of_nat (length (f_bytes f)) = ETHERNET_MAX_FRAME_LEN) by (by rewrite Hlen).
  destruct (WRITE_PKT_eq (f_bytes f) ptr it) as (p2 & L2 & _ & _ & ->);
    [lia | done | apply Hb | done | lia |]. rewrite bind_Ok.
  erewrite (upd_frame_eq s mark f), bind_Ok; [|lia|exact Hl|reflexivity].
  eexists. split; [done|]. split.
  { simpl. apply frames_ok_insert; [done|]. simpl. rewrite write_run_length; [congruence|].
    rewrite length_take. destruct Hb. lia. }
  split; [by repeat split|]. split_and!; try done. intros f2 Hf2. simpl.
  rewrite list_lookup_insert_eq by (apply lookup_lt_Some in Hl; lia).
  eexists. split; [reflexivity|]. by simplify_eq.
Qed.

(** Whose packet it is. *)
Definition for_client (s : sstate) (mark : Z) (j : mega_job_search_t) : Prop :=
  ∃ f, s_frames s !! Z.to_nat mark = Some f ∧ f_dst_addr f = js_ip j ∧ f_dst_port f = js_port j.

(** The packet under construction and the counts after [n] more answers. *)
Definition answered (n : Z) (s s' : sstate) : Prop :=
  s_slabs s' = s_slabs s ∧ s_jobs s' = s_jobs s ∧ miss (s_cc s') = miss (s_cc s) ∧
  hit (s_cc s') = u64 (hit (s_cc s) + n).
Definition building (s : sstate) (mark ptr : Z) : Prop :=
  frames_ok cfg (s_frames s) ∧ 0 ≤ mark < io_batch_num cfg ∧ 42 ≤ ptr.

Lemma emit_spec sent j s mark ptr p it :
  building s mark ptr → heap !! p = Some it → sendable 42 it →
  ∃ s' mark' ptr', emit cfg heap local_test tx_burst sent j s mark ptr p = Ok (s', mark', ptr') ∧
    building s' mark' ptr' ∧ answered 1 s s'.
Proof.
  intros (Hf & Hm & Hp) Hit Hs. unfold emit, deref. rewrite Hit, bind_Ok.
  destruct (frames_ok_lookup cfg _ mark Hf Hm) as (f & Hl & Hlen).
  rewrite (arr_get_lookup _ _ f), bind_Ok by (lia || done). rewrite Hhdr.
  destruct (_ || _) eqn:Hnew.
  - destruct (complete_packet_spec s mark ptr Hf Hm) as (s1 & -> & F1 & A1). rewrite bind_Ok.
    assert (∃ s2 mark2, (if mark =? u32 (io_batch_num cfg - 1)
        then (send_chunk cfg local_test tx_burst s1 (sent mark), 0) else (s1, mark + 1)) = (s2, mark2) ∧
        frames_ok cfg (s_frames s2) ∧ same_answers s1 s2 ∧ 0 ≤ mark2 < io_batch_num cfg)
      as (s2 & mark2 & -> & F2 & A2 & M2).
    { rewrite (wrap_id 32) by (unfold in_range; lia). destruct (Z.eqb_spec mark (io_batch_num cfg - 1)).
      - destruct (send_chunk_spec s1 (sent mark) F1). eexists _, 0. split; [done|]. split_and!; (done || lia).
      - eexists s1, (mark + 1). split; [done|]. split_and!; (done || lia). }
    destruct (new_packet_spec s2 mark2 j F2 M2) as (s3 & -> & F3 & A3 & _ & _). rewrite !bind_Ok.
    destruct (write_item_pkt_spec s3 mark2 42 it F3 M2) as (s4 & -> & F4 & _ & S4 & J4 & MI4 & H4 & _);
      [done | done | apply (sd_fits _ _ Hs) |]. rewrite bind_Ok.
    exists s4, mark2, (42 + 6 + it_nbytes it). split; [done|].
    assert (same_answers s s3) as (B1 & B2 & B3 & B4) by (etrans; [exact A1|]; etrans; [exact A2|exact A3]).
    destruct (sd_nbytes _ _ Hs). split; [split_and!; (done || lia)|]. unfold answered.
    rewrite H4, S4, J4, MI4, B1, B2, B3, B4. done.
  - apply orb_false_iff in Hnew as [Hnew _]. apply orb_false_iff in Hnew as [Hnew%Z.ltb_ge _].
    rewrite bind_Ok.
    destruct (write_item_pkt_spec s mark ptr it Hf Hm) as (s4 & -> & F4 & _ & S4 & J4 & MI4 & H4 & _);
      [lia | done | lia |]. rewrite bind_Ok. exists s4, mark, (ptr + 6 + it_nbytes it). split; [done|].
    destruct (sd_nbytes _ _ Hs). split; [split_and!; (done || lia)|]. done.
Qed.

(** An item for the client of the packet that still fits into it. *)
Lemma emit_same_packet sent j s mark ptr p it :
  building s mark ptr → heap !! p = Some it → sendable 42 it → for_client s mark j →
  ptr + it_nkey it + it_nbytes it + 6 ≤ ETHERNET_MAX_FRAME_LEN →
  ∃ s', emit cfg heap local_test tx_burst sent j s mark ptr p = Ok (s', mark, ptr + 6 + it_nbytes it) ∧
    building s' mark (ptr + 6 + it_nbytes it) ∧ answered 1 s s' ∧ same_traffic s s' ∧ for_client s' mark j.
Proof.
  intros (Hf & Hm & Hp) Hit Hs (f & Hl & Hip & Hport) Hfit. unfold emit, deref. rewrite Hit, bind_Ok.
  rewrite (arr_get_lookup _ _ f), bind_Ok by (lia || done). rewrite Hip, Hport, !Z.eqb_refl.
  destruct (Z.ltb_spec ETHERNET_MAX_FRAME_LEN (ptr + it_nkey it + it_nbytes it + 6)); [lia|].
  cbn [orb negb]. rewrite bind_Ok.
  destruct (write_item_pkt_spec s mark ptr it Hf Hm) as (s4 & -> & F4 & T4 & S4 & J4 & MI4 & H4 & C4);
    [lia | done | lia |]. rewrite bind_Ok. exists s4. split; [done|]. destruct (sd_nbytes _ _ Hs).
  split; [split_and!; (done || lia)|]. split; [done|]. split; [done|].
  destruct (C4 f Hl) as (f' & ? & Hip' & Hport'). exists f'. by rewrite Hip', Hport'.
Qed.

Lemma answered_trans n m s1 s2 s3 :
  in_range 64 (hit (s_cc s1)) → answered n s1 s2 → answered m s2 s3 → answered (n + m) s1 s3.
Proof.
  intros Hr (A1 & A2 & A3 & A4) (B1 & B2 & B3 & B4). unfold answered. rewrite B1, B2, B3, B4, A4.
  split_and!; try done. unfold wrap. rewrite Z.add_mod_idemp_l by lia. f_equal. lia.
Qed.

Lemma answered_0 s : in_range 64 (hit (s_cc s)) → answered 0 s s.
Proof. intros Hr. unfold answered. by rewrite Z.add_0_r, (wrap_id 64). Qed.

Definition found_item (p : ptr) : Prop := ∃ it, heap !! p = Some it ∧ sendable 42 it.

Lemma prefetch_loop2_spec j s mark ptr items :
  building s mark ptr → in_range 64 (hit (s_cc s)) → Forall found_item items →
  ∃ s' mark' ptr', prefetch_loop2 cfg heap local_test tx_burst j s mark ptr items = Ok (s', mark', ptr') ∧
    building s' mark' ptr' ∧ answered (Z.of_nat (length items)) s s'.
Proof.
  intros Hb Hr Hitems. revert s mark ptr Hb Hr.
  induction Hitems as [|p items (it & Hit & Hs) Hitems IH]; intros s mark ptr Hb Hr.
  { exists s, mark, ptr. split; [done|]. split; [done|]. by apply answered_0. }
  simpl. destruct (emit_spec (λ mark, mark) j s mark ptr p it Hb Hit Hs) as (s1 & m1 & p1 & -> & B1 & A1).
  rewrite bind_Ok. destruct (IH s1 m1 p1 B1) as (s2 & m2 & p2 & -> & B2 & A2).
  { destruct A1 as (_ & _ & _ & ->). apply (wrap_range 64). lia. }
  exists s2, m2, p2. split; [done|]. split; [done|].
  replace (Z.of_nat (S (length items))) with (1 + Z.of_nat (length items)) by lia.
  by eapply answered_trans.
Qed.
End frames.

(** ** Lemmas: PREFETCH_BATCH *)

(** The jobs [js] are the runs of the searches from [index] to [num]. *)
Fixpoint pending (js : list mega_job_search_t) (index num : Z) : Prop :=
  match js with
  | [] => index = num
  | j :: js =>
      (js_num j = 0 ∨ js_index j = index) ∧ in_range 16 (js_num j) ∧ pending js (index + js_num j) num
  end.

Lemma pending_le js index num : pending js index num → index ≤ num.
Proof.
  revert index. induction js as [|j js IH]; intros index; simpl; [lia|].
  intros (_ & [Hn _] & Hp). apply IH in Hp. lia.
Qed.

Definition is_found (out : list Z) (i : Z) : bool :=
  match result_loc out i with Ok loc => negb (loc =? 0) | Err _ => false end.
(** How many of the searches [lo .. hi - 1] were found. *)
Definition found_in (out : list Z) (lo hi : Z) : Z :=
  zsum (λ i, if is_found out i then 1 else 0) (seqZ lo (hi - lo)).

Lemma found_in_step out lo hi :
  lo < hi → found_in out lo hi = (if is_found out lo then 1 else 0) + found_in out (lo + 1) hi.
Proof.
  intros. unfold found_in. rewrite (seqZ_cons lo) by lia. simpl.
  by replace (Z.pred (hi - lo)) with (hi - (lo + 1)) by lia.
Qed.

Lemma found_in_empty out lo : found_in out lo lo = 0.
Proof. unfold found_in. by rewrite Z.sub_diag. Qed.

Lemma found_in_bound out lo hi : lo ≤ hi → 0 ≤ found_in out lo hi ≤ hi - lo.
Proof.
  intros. unfold found_in. pose proof (length_seqZ lo (hi - lo)) as Hl.
  pose proof (zsum_bound (λ i, if is_found out i then 1 else 0) (seqZ lo (hi - lo)) 1) as Hz.
  rewrite Hl, Z2Nat.id in Hz by lia. rewrite Z.mul_1_r in Hz. apply Hz.
  intros i a _. by destruct (is_found out a).
Qed.

(** The clients of the jobs. *)
Definition clients (l : list mega_job_search_t) : list (Z * Z) := (λ j, (js_ip j, js_port j)) <$> l.

Lemma clients_consume l i j : l !! i = Some j → clients (<[i := consume j]> l) = clients l.
Proof.
  intros Hj. unfold clients. rewrite list_fmap_insert. apply list_insert_id.
  by rewrite list_lookup_fmap, Hj.
Qed.

Section prefetch.
Context (cfg : mega_config_t) (heap : heap_t) (local_test : bool) (tx_burst : list frame → Z).
Context (search_out : list Z) (num total_cnt : Z) (cs : list slabclass_t).

(** What the GPU wrote: room for one more result than there are searches, and
    every location that is not 0 is that of an item that can be sent. *)
Record results_ok : Prop := {
  ro_num : num < 2 ^ 30;
  ro_room : 2 * num + 2 ≤ Z.of_nat (length search_out);
  ro_found : ∀ i loc, 0 ≤ i < num → result_loc search_out i = Ok loc → loc ≠ 0 →
    ∃ p, item_pointer cfg cs loc = Ok p ∧ found_item heap p;
}.

Lemma result_loc_Ok i : results_ok → 0 ≤ i ≤ num → ∃ loc, result_loc search_out i = Ok loc.
Proof.
  intros [Hn Hr _] Hi. unfold result_loc. rewrite Z.shiftl_mul_pow2 by lia.
  rewrite (wrap_id 32 (i * 2 ^ 1)), (wrap_id 32 (i * 2 ^ 1 + 1)) by (unfold in_range; lia).
  destruct (arr_get_in_bounds search_out (i * 2 ^ 1)) as (x & -> & _); [lia|]. rewrite bind_Ok.
  destruct (x =? 0); [|by eexists].
  destruct (arr_get_in_bounds search_out (i * 2 ^ 1 + 1)) as (y & -> & _); [lia|]. by eexists.
Qed.

(** Between two searches: [index] is the next one, [job_mark] its job or an
    earlier, finished one. *)
Record at_search (s : sstate) (index job_mark : Z) : Prop := {
  as_slabs : s_slabs s = cs;
  as_index : 0 ≤ index;
  as_mark : 0 ≤ job_mark < total_cnt ∧ total_cnt ≤ Z.of_nat (length (s_jobs s));
  as_jobs : pending (drop (Z.to_nat job_mark) (take (Z.to_nat total_cnt) (s_jobs s))) index num;
  as_miss : in_range 64 (miss (s_cc s));
  as_hit : in_range 64 (hit (s_cc s));
}.

Lemma at_search_job s index job_mark :
  at_search s index job_mark →
  ∃ j, s_jobs s !! Z.to_nat job_mark = Some j ∧
    (js_num j = 0 ∨ js_index j = index) ∧ in_range 16 (js_num j) ∧
    pending (drop (S (Z.to_nat job_mark)) (take (Z.to_nat total_cnt) (s_jobs s))) (index + js_num j) num.
Proof.
  intros [_ _ [Hm Hl] Hp _ _].
  destruct (lookup_lt_is_Some_2 (s_jobs s) (Z.to_nat job_mark)) as [j Hj]; [lia|].
  exists j. split; [done|]. rewrite (drop_S _ j) in Hp by (rewrite lookup_take_lt by lia; done). done.
Qed.

(** The loop [prefetch_loop1] from any point: [k] searches are taken, those
    found are appended to [items], the others counted as missed. *)
Lemma prefetch_loop1_spec fuel s index job_mark items :
  results_ok → at_search s index job_mark → Z.of_nat (length items) < 5 → Forall (found_item heap) items →
  num - index + (total_cnt - job_mark) ≤ Z.of_nat fuel →
  ∃ s' items' index' job_mark' to_send m,
    prefetch_loop1 cfg search_out total_cnt fuel s index job_mark items =
      Ok (s', items', index', job_mark', to_send) ∧
    at_search s' index' job_mark' ∧ Forall (found_item heap) items' ∧
    s_frames s' = s_frames s ∧ same_traffic s s' ∧ hit (s_cc s') = hit (s_cc s) ∧
    clients (s_jobs s') = clients (s_jobs s) ∧ index ≤ index' ∧ job_mark ≤ job_mark' ∧
    0 ≤ m ∧ miss (s_cc s') = u64 (miss (s_cc s) + m) ∧
    m + (Z.of_nat (length items') - Z.of_nat (length items)) = index' - index ∧
    Z.of_nat (length items') + found_in search_out index' num =
      Z.of_nat (length items) + found_in search_out index num ∧
    (to_send = false ∧ Z.of_nat (length items') = 5 ∨
     to_send = true ∧ index' = num ∧ Z.of_nat (length items') < 5).
Proof.
  intros Hro. revert s index job_mark items.
  induction fuel as [|fuel IH]; intros s index job_mark items Hat Hi Hitems Hf.
  { pose proof (as_mark _ _ _ Hat). pose proof (pending_le _ _ _ (as_jobs _ _ _ Hat)). lia. }
  destruct (at_search_job _ _ _ Hat) as (j & Hj & Hidx & Hnum & Hrest).
  pose proof (pending_le _ _ _ (as_jobs _ _ _ Hat)) as Hle. pose proof (pending_le _ _ _ Hrest) as Hle'.
  pose proof (ro_num Hro). pose proof Hat as Hat0. destruct Hat as [Hslabs Hindex [Hm Hl] Hp Hmiss Hhit].
  simpl. destruct (result_loc_Ok index Hro) as (loc & Hloc); [lia|]. rewrite Hloc, bind_Ok.
  rewrite (arr_get_lookup _ _ j), bind_Ok by (done || lia).
  destruct (Z.ltb_spec 0 (js_num j)).
  - destruct Hidx as [|Hidx]; [lia|]. rewrite Hidx, Z.eqb_refl. cbn [negb].
    rewrite (arr_set_in_bounds (s_jobs s)), bind_Ok by lia. rewrite (wrap_id 32) by (unfold in_range; lia).
    assert (Hat1 : ∀ cc, miss cc = u64 (miss cc) → hit cc = u64 (hit cc) →
      at_search (with_cc (with_jobs s (<[Z.to_nat job_mark := consume j]> (s_jobs s))) cc) (index + 1) job_mark).
    { intros cc Hc1 Hc2. destruct Hnum. split; simpl; try done; [lia|by rewrite length_insert| | |].
      - rewrite take_insert_lt by lia.
        rewrite (drop_S _ (consume j)) by (apply list_lookup_insert_eq; rewrite length_take; lia).
        rewrite drop_insert_lt by lia. simpl.
        rewrite (wrap_id 16), (wrap_id 32) by (unfold in_range; lia).
        split; [right; lia|]. split; [unfold in_range; lia|].
        by replace (index + 1 + (js_num j - 1)) with (index + js_num j) by lia.
      - rewrite Hc1. apply (wrap_range 64). lia.
      - rewrite Hc2. apply (wrap_range 64). lia. }
    pose proof (found_in_step search_out index num) as Hstep.
    unfold is_found at 1 in Hstep. rewrite Hloc in Hstep.
    destruct (Z.eqb_spec loc 0) as [->|Hloc0]; cbn [negb] in *.
    + destruct (IH (with_cc (with_jobs s (<[Z.to_nat job_mark := consume j]> (s_jobs s)))
                  (add_miss (s_cc s))) (index + 1) job_mark items)
        as (s' & items' & index' & jm' & ts & m & -> & A & Fi & Fr & T & Hh & Hcl & Hi1 & Hj1 & Hm0 & Hm1 & Hc1 & Hc2 & Hend);
        [| done | done | lia |].
      { apply Hat1; simpl; symmetry; [apply (wrap_id 64), (wrap_range 64); lia | by apply (wrap_id 64)]. }
      exists s', items', index', jm', ts, (1 + m). split; [done|]. split; [done|]. split; [done|].
      simpl in Fr, Hh, Hm1, Hcl. rewrite clients_consume in Hcl by done. split_and!; try done; try lia.
      rewrite Hm1. unfold wrap. rewrite Z.add_mod_idemp_l by lia. f_equal. lia.
    + destruct (ro_found Hro index loc) as (p & Hp1 & Hp2); [lia|done|done|].
      simpl. rewrite Hslabs, Hp1, bind_Ok. rewrite length_app. simpl.
      change PREFETCH_BATCH_DISTANCE with 5.
      assert (Hat2 : at_search (with_jobs s (<[Z.to_nat job_mark := consume j]> (s_jobs s))) (index + 1) job_mark).
      { apply (Hat1 (s_cc s)); by rewrite (wrap_id 64). }
      assert (Forall (found_item heap) (items ++ [p])) by (apply Forall_app; split; [done|by repeat constructor]).
      destruct (Z.ltb_spec (Z.of_nat (length items + 1)) 5).
      * destruct (IH (with_jobs s (<[Z.to_nat job_mark := consume j]> (s_jobs s))) (index + 1) job_mark
                    (items ++ [p]))
          as (s' & items' & index' & jm' & ts & m & -> & A & Fi & Fr & T & Hh & Hcl & Hi1 & Hj1 & Hm0 & Hm1 & Hc1 & Hc2 & Hend);
          [done | rewrite length_app; simpl; lia | done | lia |].
        rewrite length_app in Hc1, Hc2. simpl in Hc1, Hc2, Hcl. rewrite clients_consume in Hcl by done.
        exists s', items', index', jm', ts, m. split; [done|]. split; [done|]. split; [done|].
        split_and!; (done || lia).
      * eexists _, _, _, _, _, 0. split; [done|]. split; [done|]. split; [done|]. simpl. rewrite length_app, clients_consume by done. simpl.
        split_and!; try done; try lia. by rewrite Z.add_0_r, (wrap_id 64).
  - assert (Hn0 : js_num j = 0) by (destruct Hnum; lia). rewrite Hn0, Z.add_0_r in Hrest.
    destruct (Z.leb_spec total_cnt (job_mark + 1)).
    + rewrite drop_ge in Hrest by (rewrite length_take; lia). simpl in Hrest.
      eexists s, items, index, job_mark, true, 0. split; [done|]. split; [exact Hat0|].
      split_and!; try done; try lia. by rewrite Z.add_0_r, (wrap_id 64).
    + destruct (IH s index (job_mark + 1) items)
        as (s' & items' & index' & jm' & ts & m & -> & A & Fi & Fr & T & Hh & Hcl & Hi1 & Hj1 & Hm0 & Hm1 & Hc1 & Hc2 & Hend);
        [| done | done | lia |].
      { split; try done; [lia|]. by replace (Z.to_nat (job_mark + 1)) with (S (Z.to_nat job_mark)) by lia. }
      exists s', items', index', jm', ts, m. split; [done|]. split; [done|]. split; [done|].
      split_and!; (done || lia).
Qed.

Context (Hio : 0 < io_batch_num cfg < 2 ^ 32) (Hhdr : eiu_hdr_len cfg = 42).

Lemma wrap_add_l w a b : 0 ≤ w → wrap w (wrap w a + b) = wrap w (a + b).
Proof. intros. unfold wrap. apply Z.add_mod_idemp_l. pose proof (Z.pow_pos_nonneg 2 w). lia. Qed.

Lemma at_search_answered s s' index job_mark n :
  at_search s index job_mark → answered n s s' → at_search s' index job_mark.
Proof.
  intros [H1 H2 H3 H4 H5 H6] (A1 & A2 & A3 & A4). split; rewrite ?A1, ?A2, ?A3, ?A4; try done.
  apply (wrap_range 64). lia.
Qed.

Lemma prefetch_batch_spec fuel s index job_mark mark ptr :
  results_ok → at_search s index job_mark → building cfg s mark ptr →
  num - index + (total_cnt - job_mark) ≤ Z.of_nat fuel →
  ∃ s' mark' ptr' to_send,
    prefetch_batch cfg heap local_test tx_burst search_out num total_cnt fuel s index job_mark mark ptr =
      Ok (s', mark', ptr', to_send) ∧
    building cfg s' mark' ptr' ∧ s_slabs s' = s_slabs s ∧
    hit (s_cc s') = u64 (hit (s_cc s) + found_in search_out index num) ∧
    miss (s_cc s') = u64 (miss (s_cc s) + (num - index - found_in search_out index num)).
Proof.
  intros Hro. revert s index job_mark mark ptr.
  induction fuel as [|fuel IH]; intros s index job_mark mark ptr Hat Hb Hf.
  { pose proof (as_mark _ _ _ Hat). pose proof (pending_le _ _ _ (as_jobs _ _ _ Hat)). lia. }
  pose proof (pending_le _ _ _ (as_jobs _ _ _ Hat)) as Hle. cbn [prefetch_batch].
  destruct (Z.ltb_spec index num).
  2:{ assert (index = num) as -> by lia. exists s, mark, ptr, false. split; [done|]. split; [done|].
      rewrite found_in_empty, Z.sub_diag, !Z.add_0_r. split; [done|].
      split; symmetry; apply (wrap_id 64), Hat. }
  destruct (prefetch_loop1_spec (S fuel) s index job_mark [])
    as (s1 & items & i1 & jm1 & ts & m & -> & A1 & Hitems & Fr1 & _ & Hh1 & _ & Hi1 & Hj1 & Hm0 & Hm1 & Hc1 & Hc2 & Hend);
    [done | done | done | constructor | done |].
  rewrite bind_Ok. simpl in Hc1, Hc2.
  assert (Hb1 : building cfg s1 mark ptr) by (unfold building; rewrite Fr1; exact Hb).
  assert (Hhit1 : in_range 64 (hit (s_cc s1))) by apply A1.
  assert (Hslabs : s_slabs s1 = s_slabs s) by (rewrite (as_slabs _ _ _ A1); symmetry; apply Hat).
  destruct (Nat.eqb_spec (length items) 0) as [H0|H0].
  { exists s1, mark, ptr, ts. split; [done|]. split; [done|]. split; [done|].
    destruct Hend as [[_ ?]|(_ & -> & _)]; [lia|]. rewrite found_in_empty in Hc2.
    rewrite Hh1, Hm1. split; [|f_equal; lia]. replace (found_in search_out index num) with 0 by lia.
    rewrite Z.add_0_r. symmetry. apply (wrap_id 64). by rewrite <-Hh1. }
  destruct (at_search_job _ _ _ A1) as (j & Hj & _).
  pose proof (as_mark _ _ _ A1). rewrite (arr_get_lookup _ _ j), bind_Ok by (done || lia).
  destruct (prefetch_loop2_spec cfg heap local_test tx_burst Hio Hhdr j s1 mark ptr items Hb1 Hhit1 Hitems)
    as (s2 & mark2 & ptr2 & -> & Hb2 & Ha2). rewrite bind_Ok.
  pose proof (at_search_answered _ _ _ _ _ A1 Ha2) as A2. destruct Ha2 as (Hs2 & Hjobs2 & Hmiss2 & Hhit2).
  assert (PREFETCH_BATCH_DISTANCE = 5) as HD by done.
  destruct (Z.eqb_spec (Z.of_nat (length items)) PREFETCH_BATCH_DISTANCE) as [H5|H5]; cbn [negb].
  - destruct (IH s2 i1 jm1 mark2 ptr2 A2 Hb2) as (s3 & mark3 & ptr3 & ts3 & -> & Hb3 & Hs3 & Hh3 & Hm3);
      [lia|]. exists s3, mark3, ptr3, ts3. split; [done|]. split; [done|]. split; [congruence|].
    rewrite Hh3, Hm3, Hhit2, Hmiss2, Hm1, Hh1, !wrap_add_l by lia. split; f_equal; lia.
  - destruct Hend as [[_ ?]|(-> & -> & _)]; [lia|]. rewrite found_in_empty in Hc2.
    exists s2, mark2, ptr2, true. split; [done|]. split; [done|]. split; [congruence|].
    rewrite Hhit2, Hmiss2, Hm1, Hh1. split; f_equal; lia.
Qed.
End prefetch.

Lemma runs_pending js start total :
  runs js start total → 0 ≤ start → total < 2 ^ 16 → pending js start total ∧ start ≤ total.
Proof.
  revert start. induction js as [|j js IH]; intros start; simpl; [intros; split; [done|lia]|].
  intros (Hi & Hn & Hr) Hs Ht. destruct (IH _ Hr) as [Hp Hle]; [lia|done|].
  split; [|lia]. split; [by right|]. split; [unfold in_range; lia|done].
Qed.

(** The buffer as [mega_sender_sendloop] finds it. *)
Record sendable_buf (cfg : mega_config_t) (heap : heap_t) (bf : mega_batch_buf_t) (s : sstate) : Prop := {
  sb_io : 0 < io_batch_num cfg < 2 ^ 32;
  sb_hdr : eiu_hdr_len cfg = 42;
  sb_jobs : compact_wf bf ∧ s_jobs s = search_job_list bf;
  sb_num : 0 < num_search_job bf < 2 ^ 16;
  sb_out : results_ok cfg heap (search_out bf) (num_search_job bf) (s_slabs s);
  sb_frames : frames_ok cfg (s_frames s);
  sb_cc : in_range 64 (hit (s_cc s)) ∧ in_range 64 (miss (s_cc s));
}.

Lemma sendable_at_search cfg heap bf s :
  sendable_buf cfg heap bf s →
  at_search (num_search_job bf) (num_compact_search_job bf + 1) (s_slabs s) s 0 1 ∧
  1 ≤ num_compact_search_job bf ∧
  ∃ j, s_jobs s !! 1%nat = Some j ∧ js_index j = 0.
Proof.
  intros [_ _ [[Hc Hruns] Hjobs] Hnum _ _ [Hh Hm]].
  assert (Hc1 : 1 ≤ num_compact_search_job bf).
  { destruct (decide (num_compact_search_job bf = 0)) as [H0|]; [|lia]. rewrite H0 in Hruns. simpl in Hruns. lia. }
  split; [|split; [done|]].
  - split; try done; [rewrite Hjobs; lia|]. rewrite Hjobs.
    change (Z.to_nat 1) with 1%nat.
    replace (Z.to_nat (num_compact_search_job bf + 1)) with (1 + Z.to_nat (num_compact_search_job bf))%nat by lia.
    rewrite <-take_drop_commute. eapply runs_pending; [exact Hruns | lia | lia].
  - rewrite Hjobs. destruct (search_job_list bf) as [|j0 [|j1 l]]; simpl in Hc; [lia..|].
    simpl in Hruns. destruct (Z.to_nat (num_compact_search_job bf)) eqn:E; [lia|].
    simpl in Hruns. exists j1. split; [done|]. apply Hruns.
Qed.

(** Small items for the client of the packet stay in it. *)
Lemma prefetch_loop2_same cfg heap local_test tx_burst j s mark ptr items :
  0 < io_batch_num cfg < 2 ^ 32 → eiu_hdr_len cfg = 42 →
  building cfg s mark ptr → in_range 64 (hit (s_cc s)) → for_client s mark j →
  Forall (λ p, ∃ it, heap !! p = Some it ∧ sendable 42 it ∧ it_nkey it + it_nbytes it ≤ 288) items →
  ptr + 294 * Z.of_nat (length items) ≤ ETHERNET_MAX_FRAME_LEN →
  ∃ s' ptr', prefetch_loop2 cfg heap local_test tx_burst j s mark ptr items = Ok (s', mark, ptr') ∧
    building cfg s' mark ptr' ∧ answered (Z.of_nat (length items)) s s' ∧ same_traffic s s'.
Proof.
  intros Hio Hhdr Hb Hr Hcl Hitems. revert s ptr Hb Hr Hcl.
  induction Hitems as [|p items (it & Hit & Hs & Hsmall) Hitems IH]; intros s ptr Hb Hr Hcl Hfit.
  { exists s, ptr. split; [done|]. split; [done|]. split; [by apply answered_0|by repeat split]. }
  simpl length in Hfit. simpl.
  destruct (emit_same_packet cfg heap local_test tx_burst (λ mark, mark) j s mark ptr p it)
    as (s1 & -> & B1 & A1 & T1 & C1); [done..|lia|]. rewrite bind_Ok.
  pose proof (sd_nkey _ _ Hs).
  destruct (IH s1 (ptr + 6 + it_nbytes it) B1) as (s2 & p2 & -> & B2 & A2 & T2); [|done|lia|].
  { destruct A1 as (_ & _ & _ & ->). apply (wrap_range 64). lia. }
  exists s2, p2. split; [done|]. split; [done|]. split.
  - replace (Z.of_nat (S (length items))) with (1 + Z.of_nat (length items)) by lia.
    by eapply answered_trans.
  - destruct T1 as (?&?&?&?), T2 as (?&?&?&?). repeat split; congruence.
Qed.

(** The bytes [WRITE_PKT] leaves where the value belongs. *)
Lemma WRITE_PKT_value pkt ptr it key value rest :
  it_data it = key ++ value ++ rest → it_nkey it = Z.of_nat (length key) →
  it_nbytes it = Z.of_nat (length value) → 0 ≤ ptr →
  ptr + it_nkey it + it_nbytes it + 6 ≤ Z.of_nat (length pkt) →
  ∃ pkt', WRITE_PKT pkt ptr it = Ok (pkt', ptr + 6 + it_nbytes it) ∧
    load pkt' ptr 2 = Ok PROTOCOL_VALUE ∧
    bytes_at pkt' (ptr + 6) (it_nbytes it) = Ok (take (length value) (key ++ value)).
Proof.
  intros Hd Hk Hb Hp Hl.
  destruct (WRITE_PKT_eq pkt ptr it) as (p2 & L2 & Hv & _ & ->); [lia|lia|lia| |lia|].
  { rewrite Hd, !length_app. lia. }
  assert (take (Z.to_nat (it_nbytes it + it_nkey it)) (it_data it) = key ++ value) as ->.
  { rewrite Hd, app_assoc. replace (Z.to_nat _) with (length (key ++ value)) by (rewrite length_app; lia).
    apply take_app_length. }
  assert (Hlen : length (write_run p2 (Z.to_nat (ptr + 6)) (key ++ value)) = length pkt).
  { rewrite write_run_length; [done|]. rewrite length_app. lia. }
  eexists. split; [done|]. split.
  - rewrite <-Hv. apply load_write_run_other; rewrite ?length_app; lia.
  - unfold bytes_at. rewrite Hlen. cmp_cases; [|done..]. f_equal. rewrite Hb, Nat2Z.id.
    apply list_eq. intros k. destruct (decide (k < length value)%nat).
    + rewrite bytes_at_lookup by done. rewrite write_run_lookup by (rewrite length_app; lia).
      rewrite decide_True by (rewrite length_app; lia). rewrite lookup_take_lt by lia. f_equal. lia.
    + by rewrite !lookup_ge_None_2 by (rewrite length_take, ?length_app; lia).
Qed.

(** ** Properties *)

(** C21: every search of a batch is accounted for.  For a well-formed batch whose
    results are items that fit into a packet, the [PREFETCH_BATCH] Sender ends,
    never writes outside of a frame, and counts every search the GPU found as a
    hit and every other one as a miss, each once.  It leaves the slabs as they
    are, bitmaps included: the use of an item is not recorded. *)
Theorem prefetch_answers_all cfg heap local_test tx_burst fuel bf s :
  sendable_buf cfg heap bf s → num_search_job bf + num_compact_search_job bf ≤ Z.of_nat fuel →
  ∃ s', send_buffer cfg heap local_test tx_burst PREFETCH_BATCH true fuel bf s = Ok s' ∧
    let found := found_in (search_out bf) 0 (num_search_job bf) in
    hit (s_cc s') = u64 (hit (s_cc s) + found) ∧
    miss (s_cc s') = u64 (miss (s_cc s) + (num_search_job bf - found)) ∧
    s_slabs s' = s_slabs s ∧ frames_ok cfg (s_frames s').
Proof.
  intros Hsb Hf. pose proof (sendable_at_search _ _ _ _ Hsb) as (Hat & Hc1 & j & Hj & Hj0).
  destruct Hsb as [Hio Hhdr Hjobs Hnum Hout Hframes Hcc]. unfold send_buffer.
  destruct (Z.eqb_spec (num_search_job bf) 0); [lia|]. unfold send_batch.
  rewrite (arr_get_lookup _ 1 j), bind_Ok by done.
  destruct (new_packet_spec cfg s 0 j Hframes) as (s0 & -> & F0 & A0 & _); [lia|]. rewrite bind_Ok, Hj0, Hhdr.
  destruct A0 as (B1 & B2 & B3 & B4).
  destruct (prefetch_batch_spec cfg heap local_test tx_burst (search_out bf) (num_search_job bf)
    (num_compact_search_job bf + 1) (s_slabs s) Hio Hhdr fuel s0 0 1 0 42 Hout)
    as (s1 & mark & ptr & ts & -> & Hb1 & Hs1 & Hh1 & Hm1).
  { destruct Hat as [H1 H2 H3 H4 H5 H6]. split; rewrite ?B1, ?B2, ?B3, ?B4; done. }
  { split_and!; (done || lia). }
  { lia. }
  rewrite bind_Ok, Z.sub_0_r in *. destruct Hb1 as (F1 & M1 & _).
  rewrite B3 in Hh1. rewrite B4 in Hm1. rewrite B1 in Hs1. destruct ts.
  - destruct (complete_packet_spec cfg local_test s1 mark ptr F1 M1) as (s2 & -> & F2 & A2). rewrite bind_Ok.
    destruct (send_chunk_spec cfg local_test tx_burst s2 (mark + 1) F2) as [F3 A3].
    assert (same_answers s1 (send_chunk cfg local_test tx_burst s2 (mark + 1))) as (C1 & C2 & C3 & C4)
      by (etrans; [exact A2|exact A3]).
    eexists. split; [done|]. by rewrite C1, C3, C4.
  - by exists s1.
Qed.

(** Replies that are never sent.  When one client's five searches are the
    whole batch and all are found, the group of [PREFETCH_BATCH_DISTANCE] items
    fills up exactly when the searches end: [to_send] is still 0, the packet with
    the five replies is not completed and nothing is sent. *)
Theorem five_replies_not_sent cfg heap local_test tx_burst fuel bf s :
  sendable_buf cfg heap bf s → num_search_job bf = 5 → num_compact_search_job bf = 1 →
  found_in (search_out bf) 0 5 = 5 →
  (∀ p it, heap !! p = Some it → it_nkey it + it_nbytes it ≤ 288) → (6 ≤ fuel)%nat →
  ∃ s', send_buffer cfg heap local_test tx_burst PREFETCH_BATCH true fuel bf s = Ok s' ∧
    hit (s_cc s') = u64 (hit (s_cc s) + 5) ∧ same_traffic s s'.
Proof.
  intros Hsb H5 H1 Hfound Hsmall Hf. pose proof (sendable_at_search _ _ _ _ Hsb) as (Hat & _ & j & Hj & Hj0).
  destruct Hsb as [Hio Hhdr Hjobs Hnum Hout Hframes Hcc]. unfold send_buffer. rewrite H5, H1 in *.
  cbn [Z.eqb]. unfold send_batch. rewrite (arr_get_lookup _ 1 j), bind_Ok by done.
  destruct (new_packet_spec cfg s 0 j Hframes) as (s0 & -> & F0 & A0 & T0 & C0); [lia|].
  rewrite bind_Ok, Hj0, Hhdr. destruct A0 as (B1 & B2 & B3 & B4). destruct fuel as [|fuel]; [lia|].
  cbn [prefetch_batch]. cbn [Z.ltb Z.compare].
  assert (Hat0 : at_search 5 (1 + 1) (s_slabs s) s0 0 1).
  { destruct Hat as [G1 G2 G3 G4 G5 G6]. split; rewrite ?B1, ?B2, ?B3, ?B4; done. }
  destruct (prefetch_loop1_spec cfg heap (search_out bf) 5 (1 + 1) (s_slabs s) (S fuel) s0 0 1 [] Hout Hat0)
    as (s1 & items & i1 & jm1 & ts & m & -> & A1 & Hitems & Fr1 & T1 & Hh1 & Hcl & Hi1 & Hj1 & Hm0 & Hm1 & Hc1 & Hc2 & Hend);
    [simpl; lia | constructor | lia |].
  rewrite bind_Ok. simpl in Hc1, Hc2. pose proof (pending_le _ _ _ (as_jobs _ _ _ _ _ _ A1)).
  pose proof (found_in_bound (search_out bf) i1 5). pose proof (as_mark _ _ _ _ _ _ A1).
  destruct Hend as [[-> Hlen]|(_ & -> & Hlen)]; [|rewrite found_in_empty in Hc2; lia].
  assert (i1 = 5) as -> by lia. assert (jm1 = 1) as -> by lia.
  destruct (Nat.eqb_spec (length items) 0); [lia|].
  destruct (at_search_job _ _ _ _ _ _ A1) as (j1 & Hj1' & _).
  rewrite (arr_get_lookup _ 1 j1), bind_Ok by done.
  assert (Hcl1 : js_ip j1 = js_ip j ∧ js_port j1 = js_port j).
  { assert (clients (s_jobs s1) !! 1%nat = clients (s_jobs s0) !! 1%nat) as Hc by (by rewrite Hcl).
    unfold clients in Hc. rewrite !list_lookup_fmap, B2, Hj in Hc. change (Z.to_nat 1) with 1%nat in Hj1'.
    rewrite Hj1' in Hc. by injection Hc. }
  destruct (prefetch_loop2_same cfg heap local_test tx_burst j1 s1 0 42 items Hio Hhdr)
    as (s2 & ptr2 & -> & Hb2 & Ha2 & Ht2).
  { split_and!; [by rewrite Fr1|lia|lia|lia]. }
  { apply A1. }
  { destruct C0 as (f & Hf0 & Hf1 & Hf2). exists f. rewrite Fr1. by destruct Hcl1 as [-> ->]. }
  { eapply Forall_impl; [exact Hitems|]. intros p (it & Hit & Hs). exists it. by eauto. }
  { change ETHERNET_MAX_FRAME_LEN with 1514. lia. }
  rewrite bind_Ok. replace (Z.of_nat (length items)) with PREFETCH_BATCH_DISTANCE by done.
  rewrite Z.eqb_refl. destruct fuel as [|fuel]; [lia|]. cbn [negb prefetch_batch Z.ltb Z.compare Pos.compare Pos.compare_cont].
  rewrite bind_Ok. exists s2. split; [done|]. destruct Ha2 as (_ & _ & _ & ->). rewrite Hh1, B3, Hlen.
  split; [done|]. destruct T0 as (?&?&?&?), T1 as (?&?&?&?), Ht2 as (?&?&?&?). repeat split; congruence.
Qed.

(** Replies carry the key.  Without [KEY_MATCH], [WRITE_PKT] copies the key
    and the value but announces and skips only [nbytes] bytes: what a client
    finds as the value of an item are the first bytes of its key and value, the
    key itself when both have the same length; the next reply, or the end of the
    packet, cuts off the rest. *)
Theorem reply_carries_key pkt ptr it key value rest :
  it_data it = key ++ value ++ rest → it_nkey it = Z.of_nat (length key) →
  it_nbytes it = Z.of_nat (length value) → 0 ≤ ptr →
  ptr + it_nkey it + it_nbytes it + 6 ≤ Z.of_nat (length pkt) →
  ∃ pkt', WRITE_PKT pkt ptr it = Ok (pkt', ptr + 6 + it_nbytes it) ∧
    bytes_at pkt' (ptr + 6) (it_nbytes it) = Ok (take (length value) (key ++ value)) ∧
    (length key = length value → bytes_at pkt' (ptr + 6) (it_nbytes it) = Ok key).
Proof.
  intros Hd Hk Hb Hp Hl. destruct (WRITE_PKT_value pkt ptr it key value rest) as (p & H1 & _ & H2); try done.
  exists p. split; [done|]. split; [done|]. intros Heq. rewrite H2, <-Heq. f_equal. apply take_app_length.
Qed.

(** ** The properties at a small Sender

    One class with eight items of 40 bytes; five searches that find item 1. *)
Definition ex_item1 : item := Item None 0 0 8 8 1 (seqZ 1 16).
Definition ex_send_heap : heap_t := {[ (0, 40) := ex_item1 ]}.
Definition ex_send_class : slabclass_t :=
  Slabclass 40 3 8 None 0 1 [Some (0, 0)] 16 1 (Bitmap [0] 1 1 0 0).
Definition ex_send_buf (jobs : list mega_job_search_t) (c : Z) : mega_batch_buf_t :=
  BatchBuf [] [1; 0; 1; 0; 0; 1; 1; 0; 1; 1; 0; 0] [] [] jobs [] 5 0 0 c [].
Definition ex_one_client : list mega_job_search_t :=
  [JobSearch 0 0 0 0 0; JobSearch 9 1 2 5 0; JobSearch 0 0 0 0 0].
Definition ex_two_clients : list mega_job_search_t :=
  [JobSearch 0 0 0 0 0; JobSearch 9 1 2 2 0; JobSearch 8 3 4 3 2; JobSearch 0 0 0 0 0].
Definition ex_frame : frame := Frame 0 0 0 0 0 0 (replicate 1514 0).
Definition ex_sstate (jobs : list mega_job_search_t) : sstate :=
  SState [ex_send_class] jobs [ex_frame; ex_frame] (SenderStat 0 0 0 0 0) [].

Lemma ex_item1_sendable : sendable 42 ex_item1.
Proof. split; simpl; unfold in_range, ETHERNET_MAX_FRAME_LEN; lia. Qed.

Lemma ex_results_ok jobs c :
  results_ok mega_init_config ex_send_heap (search_out (ex_send_buf jobs c)) 5 [ex_send_class].
Proof.
  split; [lia|simpl; lia|]. intros i loc Hi Hloc Hnz.
  assert (loc = 1) as ->.
  { assert (i = 0 ∨ i = 1 ∨ i = 2 ∨ i = 3 ∨ i = 4) as Hcases by lia.
    destruct Hcases as [->|[->|[->|[->| ->]]]]; vm_compute in Hloc; congruence. }
  exists (0, 40). split; [reflexivity|]. exists ex_item1. split; [reflexivity | exact ex_item1_sendable].
Qed.

Lemma ex_sendable_buf :
  sendable_buf mega_init_config ex_send_heap (ex_send_buf ex_one_client 1) (ex_sstate ex_one_client).
Proof.
  split.
  - simpl. lia.
  - reflexivity.
  - split; [|reflexivity]. split; [simpl; lia|]. simpl. lia.
  - simpl. lia.
  - apply ex_results_ok.
  - split; [reflexivity|]. repeat constructor.
  - unfold in_range. simpl. lia.
Qed.

Lemma prefetch_answers_all_witness :
  ∃ s', send_buffer mega_init_config ex_send_heap true (λ _, 0) PREFETCH_BATCH true 6
      (ex_send_buf ex_one_client 1) (ex_sstate ex_one_client) = Ok s' ∧
    hit (s_cc s') = 5 ∧ miss (s_cc s') = 0.
Proof.
  destruct (prefetch_answers_all mega_init_config ex_send_heap true (λ _, 0) 6 (ex_send_buf ex_one_client 1)
    (ex_sstate ex_one_client) ex_sendable_buf ltac:(simpl; lia)) as (s' & H & Hh & Hm & _).
  exists s'. split; [exact H|]. split; [exact Hh | exact Hm].
Defined.

Lemma five_replies_not_sent_witness :
  ∃ s', send_buffer mega_init_config ex_send_heap false (λ l, Z.of_nat (length l)) PREFETCH_BATCH true 6
      (ex_send_buf ex_one_client 1) (ex_sstate ex_one_client) = Ok s' ∧
    hit (s_cc s') = 5 ∧ total_bytes (s_cc s') = 0 ∧ s_sent s' = [].
Proof.
  destruct (five_replies_not_sent mega_init_config ex_send_heap false (λ l, Z.of_nat (length l)) 6
    (ex_send_buf ex_one_client 1) (ex_sstate ex_one_client) ex_sendable_buf eq_refl eq_refl eq_refl)
    as (s' & H & Hh & _ & Hb & _ & Hs).
  - intros p it Hp. unfold ex_send_heap in Hp. apply lookup_singleton_Some in Hp as [_ <-]. simpl. lia.
  - lia.
  - exists s'. split; [exact H|]. split; [exact Hh|]. split; [exact Hb | exact Hs].
Defined.

Lemma reply_carries_key_witness :
  ∃ pkt', WRITE_PKT (replicate 64 0) 42 ex_item1 = Ok (pkt', 56) ∧ bytes_at pkt' 48 8 = Ok (seqZ 1 8).
Proof.
  destruct (reply_carries_key (replicate 64 0) 42 ex_item1 (seqZ 1 8) (seqZ 9 8) [] eq_refl eq_refl eq_refl)
    as (pkt' & H & _ & Hk); [lia | simpl; lia |].
  exists pkt'. split; [exact H | exact (Hk eq_refl)].
Defined.

(** Two clients in one group: the packet of the first, with two searches, is
    completed empty, and all five replies go into a packet for the second. *)
Example group_goes_to_last_client :
  (s ← send_buffer mega_init_config ex_send_heap true (λ _, 0) PREFETCH_BATCH true 9
         (ex_send_buf ex_two_clients 2) (ex_sstate ex_two_clients);
   Ok ((λ f, (f_dst_addr f, f_dst_port f, f_ip_length f)) <$> s_frames s,
       (λ f, bytes_at (f_bytes f) 42 2) <$> s_frames s, s_cc s)) =
  Ok ([(1, 2, 28); (3, 4, 0)], [Ok [0; 0]; Ok [1; 0]], SenderStat 0 42 0 5 0).
Proof. vm_compute. reflexivity. Qed.
