(* ===== verification/SenderMatch.v ===== *)
(** * The Sender with KEY_MATCH (src/src/mega_send.c, mega_recv.c)

    With [KEY_MATCH] (and then without [COMPACT_JOB]: src/src/mega.c stops the program
    when both are defined) a job of the job list is one search and keeps its key; the
    Sender answers only with an item of that key and copies the value alone.  This file
    has what differs from [Sender] (for the Receiver it is [ReceiverMatch]); the keys of the jobs are a list of their own,
    parallel to the job list.  Characters are compared as [strncmp] does: up to the
    first zero byte.

    The properties are about the plain version of the loop, the one that tells its
    clients what was not found: every client gets, in order, one reply for each of its
    searches, with the value of an item of the key it asked for if the search found
    one. *)

From S2P Require Import Prelude GpuHash Config Bitmap Slabs Batch Packet Receiver Sender.

(** ** Keys *)

(** [job->key] and [job->nkey]. *)
Record job_key_t := JobKey { jk_key : list Z; jk_nkey : Z }.

(** What the Receiver stores: [rte_memcpy(job->key, key, nkey)], into
    [MAX_KEY_LENGTH] bytes. *)
Definition store_job_key (keys : list job_key_t) (i nkey : Z) (key : list Z) : result (list job_key_t) :=
  k ← arr_get keys i;
  if (0 <=? nkey) && (nkey <=? Z.of_nat (length (jk_key k))) && (nkey <=? Z.of_nat (length key))
  then arr_set keys i (JobKey (write_run (jk_key k) 0 (take (Z.to_nat nkey) key)) nkey)
  else Err OutOfBounds.

(** [strncmp(a, b, n)] *)
Fixpoint strncmp (n : nat) (a b : list Z) : result Z :=
  match n, a, b with
  | O, _, _ => Ok 0
  | S n, x :: a, y :: b => if x =? y then if x =? 0 then Ok 0 else strncmp n a b else Ok (x - y)
  | _, _, _ => Err OutOfBounds
  end.

Definition key_matches (it : item) (k : job_key_t) : result bool :=
  if it_nkey it =? jk_nkey k then
    c ← strncmp (Z.to_nat (it_nkey it)) (it_data it) (jk_key k); Ok (c =? 0)
  else Ok false.

Section sender_match.
Context (cfg : mega_config_t) (heap : heap_t) (local_test : bool) (tx_burst : list frame → Z).
Context (keys : list job_key_t).

(** [WRITE_PKT(pkt_ptr, item)] under [KEY_MATCH]: the value is [nbytes] bytes behind
    the key. *)
Definition WRITE_PKT_value (pkt : list Z) (ptr : Z) (it : item) : result (list Z * Z) :=
  pkt ← store pkt ptr 2 PROTOCOL_VALUE;
  pkt ← store pkt (ptr + 2) 4 (it_nbytes it);
  bytes ← bytes_at (it_data it) (it_nkey it) (it_nbytes it);
  pkt ← copy pkt (ptr + 6) bytes;
  Ok (pkt, ptr + 6 + it_nbytes it).

Definition write_value_pkt (s : sstate) (pkt_mark pkt_ptr : Z) (it : item) : result (sstate * Z) :=
  f ← arr_get (s_frames s) pkt_mark;
  '(bytes, pkt_ptr) ← WRITE_PKT_value (f_bytes f) pkt_ptr it;
  s ← upd_frame s pkt_mark (λ f, Ok (Frame (f_d_addr f) (f_dst_addr f) (f_dst_port f)
        (f_ip_length f) (f_udp_length f) (f_pkt_len f) bytes));
  Ok (with_cc s (add_hit (s_cc s)), pkt_ptr).

(** ** PREFETCH_BATCH and PREFETCH_BATCH_NO *)

(** [Sender.emit] with the other size and the comparison: an item of another key
    counts as a miss, after it may have completed the packet. *)
Definition emit_match (sent : Z → Z) (j : mega_job_search_t) (k : job_key_t) (s : sstate)
    (pkt_mark pkt_ptr : Z) (p : ptr) : result (sstate * Z * Z) :=
  it ← deref heap p;
  f ← arr_get (s_frames s) pkt_mark;
  '(s, pkt_mark, pkt_ptr) ←
    (if (ETHERNET_MAX_FRAME_LEN <? pkt_ptr + it_nbytes it + 6)
        || negb (js_ip j =? f_dst_addr f) || negb (js_port j =? f_dst_port f) then
       s ← complete_packet local_test s pkt_mark pkt_ptr;
       let '(s, pkt_mark) := (if pkt_mark =? u32 (io_batch_num cfg - 1)
                              then (send_chunk cfg local_test tx_burst s (sent pkt_mark), 0) else (s, pkt_mark + 1)) in
       s ← new_packet s pkt_mark j;
       Ok (s, pkt_mark, eiu_hdr_len cfg)
     else Ok (s, pkt_mark, pkt_ptr));
  ok ← key_matches it k;
  if (ok : bool) then
    '(s, pkt_ptr) ← write_value_pkt s pkt_mark pkt_ptr it;
    Ok (s, pkt_mark, pkt_ptr)
  else Ok (with_cc s (add_miss (s_cc s)), pkt_mark, pkt_ptr).

Section loops.
Context (search_out : list Z) (num_search_job total_cnt : Z).

(** [item_pointer_buf] and [key_buf] together. *)
Fixpoint prefetch_loop1_match (fuel : nat) (s : sstate) (index job_mark : Z) (items : list (ptr * job_key_t))
    : result (sstate * list (ptr * job_key_t) * Z * Z * bool) :=
  match fuel with
  | O => Err OutOfFuel
  | S fuel =>
      loc ← result_loc search_out index;
      this_job ← arr_get (s_jobs s) job_mark;
      if 0 <? js_num this_job then
        if negb (index =? js_index this_job) then Ok (s, items, u32 (index + 1), job_mark, true)
        else
          jobs ← arr_set (s_jobs s) job_mark (consume this_job);
          let s := with_jobs s jobs in
          let index := u32 (index + 1) in
          if negb (loc =? 0) then
            it ← item_pointer cfg (s_slabs s) loc;
            key ← arr_get keys job_mark;
            let items := items ++ [(it, key)] in
            if Z.of_nat (length items) <? PREFETCH_BATCH_DISTANCE
            then prefetch_loop1_match fuel s index job_mark items
            else Ok (s, items, index, job_mark, false)
          else prefetch_loop1_match fuel (with_cc s (add_miss (s_cc s))) index job_mark items
      else if total_cnt <=? job_mark + 1 then Ok (s, items, index, job_mark, true)
      else prefetch_loop1_match fuel s index (job_mark + 1) items
  end.

Fixpoint prefetch_loop2_match (j : mega_job_search_t) (s : sstate) (pkt_mark pkt_ptr : Z)
    (items : list (ptr * job_key_t)) : result (sstate * Z * Z) :=
  match items with
  | [] => Ok (s, pkt_mark, pkt_ptr)
  | (p, k) :: items =>
      '(s, pkt_mark, pkt_ptr) ← emit_match (λ mark, mark) j k s pkt_mark pkt_ptr p;
      prefetch_loop2_match j s pkt_mark pkt_ptr items
  end.

Fixpoint prefetch_batch_match (fuel : nat) (s : sstate) (index job_mark pkt_mark pkt_ptr : Z)
    : result (sstate * Z * Z * bool) :=
  match fuel with
  | O => Err OutOfFuel
  | S fuel' =>
      if index <? num_search_job then
        '(s, items, index, job_mark, to_send) ← prefetch_loop1_match fuel s index job_mark [];
        if (length items =? 0)%nat then Ok (s, pkt_mark, pkt_ptr, to_send)
        else
          this_job ← arr_get (s_jobs s) job_mark;
          '(s, pkt_mark, pkt_ptr) ← prefetch_loop2_match this_job s pkt_mark pkt_ptr items;
          if negb (Z.of_nat (length items) =? PREFETCH_BATCH_DISTANCE)
          then Ok (s, pkt_mark, pkt_ptr, to_send)
          else prefetch_batch_match fuel' s index job_mark pkt_mark pkt_ptr
      else Ok (s, pkt_mark, pkt_ptr, false)
  end.

Fixpoint batch_no_match (fuel : nat) (s : sstate) (index job_mark pkt_mark pkt_ptr : Z)
    : result (sstate * Z * Z * bool) :=
  match fuel with
  | O => Err OutOfFuel
  | S fuel =>
      if index <? num_search_job then
        this_job ← arr_get (s_jobs s) job_mark;
        if 0 <? js_num this_job then
          if negb (index =? js_index this_job) then Ok (s, pkt_mark, pkt_ptr, true)
          else
            jobs ← arr_set (s_jobs s) job_mark (consume this_job);
            let s := with_jobs s jobs in
            loc ← result_loc search_out index;
            if loc =? 0 then batch_no_match fuel s index job_mark pkt_mark pkt_ptr
            else
              '(cs, p) ← ITEM_GET cfg (s_slabs s) loc;
              let s := SState cs (s_jobs s) (s_frames s) (s_cc s) (s_sent s) in
              key ← arr_get keys job_mark;
              '(s, pkt_mark, pkt_ptr) ← emit_match (λ mark, mark + 1) this_job key s pkt_mark pkt_ptr p;
              batch_no_match fuel s (u32 (index + 1)) job_mark pkt_mark pkt_ptr
        else if total_cnt <=? job_mark + 1 then Ok (s, pkt_mark, pkt_ptr, true)
        else batch_no_match fuel s index (job_mark + 1) pkt_mark pkt_ptr
      else Ok (s, pkt_mark, pkt_ptr, false)
  end.

(** ** Neither *)

(** One of the two locations of a search: go on with [this_job_end], with
    [exceed_packet_len], or with what follows. *)
Inductive attempt :=
  | Replied (s : sstate) (pkt_ptr : Z)
  | Exceeds (s : sstate)
  | NoReply (s : sstate).

Definition try_location (s : sstate) (k : job_key_t) (pkt_mark pkt_ptr loc : Z) : result attempt :=
  if negb (loc =? 0) then
    '(cs, p) ← ITEM_GET cfg (s_slabs s) loc;
    let s := SState cs (s_jobs s) (s_frames s) (s_cc s) (s_sent s) in
    it ← deref heap p;
    if ETHERNET_MAX_FRAME_LEN <? pkt_ptr + it_nbytes it + 6 then Ok (Exceeds s)
    else
      ok ← key_matches it k;
      if (ok : bool) then
        '(s, pkt_ptr) ← write_value_pkt s pkt_mark pkt_ptr it; Ok (Replied s pkt_ptr)
      else Ok (NoReply s)
  else Ok (NoReply s).

(** One search, up to [this_job_end]. *)
Definition answer_search (s : sstate) (this_job : mega_job_search_t) (k : job_key_t) (pkt_mark pkt_ptr : Z)
    : result attempt :=
  loc ← arr_get search_out (u32 (Z.shiftl (js_index this_job) 1));
  r ← try_location s k pkt_mark pkt_ptr loc;
  match r with
  | NoReply s =>
      loc ← arr_get search_out (u32 (u32 (Z.shiftl (js_index this_job) 1) + 1));
      r ← try_location s k pkt_mark pkt_ptr loc;
      match r with
      | NoReply s =>
          if ETHERNET_MAX_FRAME_LEN <? pkt_ptr + 1 then Ok (Exceeds s)
          else s ← write_not_found s pkt_mark pkt_ptr; Ok (Replied s (pkt_ptr + 1))
      | _ => Ok r
      end
  | _ => Ok r
  end.

Fixpoint plain_packet_match (fuel : nat) (s : sstate) (job_mark pkt_mark pkt_ptr : Z)
    : result (sstate * Z * Z) :=
  match fuel with
  | O => Err OutOfFuel
  | S fuel =>
      if total_cnt <=? job_mark then Ok (s, job_mark, pkt_ptr)
      else
        this_job ← arr_get (s_jobs s) job_mark;
        f ← arr_get (s_frames s) pkt_mark;
        if negb (js_ip this_job =? f_dst_addr f) || negb (js_port this_job =? f_dst_port f)
        then Ok (s, job_mark, pkt_ptr)
        else if js_num this_job <=? 0 then plain_packet_match fuel s (job_mark + 1) pkt_mark pkt_ptr
        else
          k ← arr_get keys job_mark;
          r ← answer_search s this_job k pkt_mark pkt_ptr;
          match r with
          | Replied s pkt_ptr =>
              s ← finish_search s job_mark this_job;
              plain_packet_match fuel s job_mark pkt_mark pkt_ptr
          | Exceeds s | NoReply s => Ok (s, job_mark, pkt_ptr)
          end
  end.

Fixpoint plain_chunk_match (fuel : nat) (s : sstate) (job_mark pkt_mark : Z) : result (sstate * Z * Z) :=
  match fuel with
  | O => Err OutOfFuel
  | S fuel' =>
      if (pkt_mark <? io_batch_num cfg) && (job_mark <? total_cnt) then
        this_job ← arr_get (s_jobs s) job_mark;
        s ← new_packet s pkt_mark this_job;
        '(s, job_mark, pkt_ptr) ← plain_packet_match fuel s job_mark pkt_mark (eiu_hdr_len cfg);
        if eiu_hdr_len cfg <? pkt_ptr then
          s ← complete_packet local_test s pkt_mark pkt_ptr;
          plain_chunk_match fuel' s job_mark (pkt_mark + 1)
        else plain_chunk_match fuel' s job_mark pkt_mark
      else Ok (s, job_mark, pkt_mark)
  end.

Fixpoint plain_batch_match (fuel : nat) (s : sstate) (job_mark : Z) : result sstate :=
  match fuel with
  | O => Err OutOfFuel
  | S fuel' =>
      if job_mark <? total_cnt then
        '(s, job_mark, pkt_mark) ← plain_chunk_match fuel s job_mark 0;
        plain_batch_match fuel' (send_chunk cfg local_test tx_burst s pkt_mark) job_mark
      else Ok s
  end.
End loops.

(** [mega_sender_sendloop] for one buffer: [COMPACT_JOB] is not defined. *)
Definition send_buffer_match (v : version) (fuel : nat) (bf : mega_batch_buf_t) (s : sstate) : result sstate :=
  if num_search_job bf =? 0 then Ok s
  else
    let total_cnt := num_compact_search_job bf in
    match v with
    | PREFETCH_BATCH =>
        send_batch cfg local_test tx_burst
          (prefetch_batch_match (search_out bf) (num_search_job bf) total_cnt fuel) 0 s
    | PREFETCH_BATCH_NO =>
        send_batch cfg local_test tx_burst
          (batch_no_match (search_out bf) (num_search_job bf) total_cnt fuel) 0 s
    | NEITHER => plain_batch_match (search_out bf) total_cnt fuel s 0
    end.
End sender_match.

(** ** Specification: the replies to a batch *)

(** What [strncmp] sees of a key. *)
Fixpoint upto_nul (l : list Z) : list Z :=
  match l with [] => [] | x :: l => if x =? 0 then [] else x :: upto_nul l end.

Definition same_key (it : item) (k : job_key_t) : bool :=
  (it_nkey it =? jk_nkey k) &&
  bool_decide (upto_nul (take (Z.to_nat (it_nkey it)) (it_data it)) =
               upto_nul (take (Z.to_nat (it_nkey it)) (jk_key k))).

Definition item_value (it : item) : list Z :=
  take (Z.to_nat (it_nbytes it)) (drop (Z.to_nat (it_nkey it)) (it_data it)).

Definition reply_bytes (o : option item) : list Z :=
  match o with
  | Some it => store_le 2 PROTOCOL_VALUE ++ store_le 4 (it_nbytes it) ++ item_value it
  | None => store_le 1 PROTOCOL_GET_NOT_FOUND
  end.

(** A search of the batch: the job, its key and the two words the GPU wrote. *)
Record request := Request { rq_job : mega_job_search_t; rq_key : job_key_t; rq_loc0 : Z; rq_loc1 : Z }.

Definition client_of (j : mega_job_search_t) : Z * Z := (js_ip j, js_port j).

Section spec.
Context (cfg : mega_config_t) (heap : heap_t) (cs : list slabclass_t).

Definition item_found (loc : Z) : option item :=
  if loc =? 0 then None
  else match item_pointer cfg cs loc with Ok p => heap !! p | Err _ => None end.

Definition pick (k : job_key_t) (loc : Z) : option item :=
  match item_found loc with Some it => if same_key it k then Some it else None | None => None end.

(** The item of the first location if it has the key, else that of the second. *)
Definition answer (r : request) : option item :=
  match pick (rq_key r) (rq_loc0 r) with
  | Some it => Some it
  | None => pick (rq_key r) (rq_loc1 r)
  end.

Definition reply_of (r : request) : (Z * Z) * list Z := (client_of (rq_job r), reply_bytes (answer r)).

(** The counters after a reply. *)
Definition count_reply (hm : Z * Z) (r : request) : Z * Z :=
  match answer r with Some _ => (u64 (hm.1 + 1), hm.2) | None => (hm.1, u64 (hm.2 + 1)) end.
End spec.

(** A packet with these replies, for this client. *)
Definition packet_of (f : frame) (p : (Z * Z) * list (list Z)) : Prop :=
  let len := 42 + Z.of_nat (length (concat p.2)) in
  (f_dst_addr f, f_dst_port f) = p.1 ∧ p.2 ≠ [] ∧ len ≤ ETHERNET_MAX_FRAME_LEN ∧
  f_pkt_len f = len ∧ f_ip_length f = len - 14 ∧ f_udp_length f = len - 34 ∧
  bytes_at (f_bytes f) 42 (len - 42) = Ok (concat p.2).

(** ** Lemmas: keys *)

Lemma strncmp_spec n a b :
  (n ≤ length a)%nat → (n ≤ length b)%nat →
  ∃ c, strncmp n a b = Ok c ∧ (c = 0 ↔ upto_nul (take n a) = upto_nul (take n b)).
Proof.
  revert a b. induction n as [|n IH]; intros a b Ha Hb; [by exists 0|].
  destruct a as [|x a]; [simpl in Ha; lia|]. destruct b as [|y b]; [simpl in Hb; lia|].
  simpl in Ha, Hb. cbn [strncmp firstn upto_nul]. destruct (Z.eqb_spec x y) as [->|Hne].
  - destruct (Z.eqb_spec y 0); [by exists 0|]. destruct (IH a b) as (c & H & Hc); [lia|lia|].
    exists c. split; [done|]. rewrite Hc. split; congruence.
  - exists (x - y). split; [done|]. split; [lia|].
    destruct (Z.eqb_spec x 0), (Z.eqb_spec y 0); intros Heq; try congruence.
Qed.

(** Without zero bytes [strncmp] compares the keys. *)
Lemma upto_nul_id l : Forall (λ x, x ≠ 0) l → upto_nul l = l.
Proof.
  induction 1 as [|x l Hx _ IH]; [done|]. cbn [upto_nul]. rewrite (proj2 (Z.eqb_neq x 0)) by done. by rewrite IH.
Qed.

Lemma key_matches_spec it k :
  0 ≤ it_nkey it ≤ Z.of_nat (length (it_data it)) → jk_nkey k ≤ Z.of_nat (length (jk_key k)) →
  key_matches it k = Ok (same_key it k).
Proof.
  intros Hd Hk. unfold key_matches, same_key. destruct (Z.eqb_spec (it_nkey it) (jk_nkey k)) as [Heq|]; [|done].
  destruct (strncmp_spec (Z.to_nat (it_nkey it)) (it_data it) (jk_key k)) as (c & -> & Hc); [lia|lia|].
  rewrite bind_Ok. f_equal. destruct (Z.eqb_spec c 0); symmetry.
  - by rewrite bool_decide_true by by apply Hc.
  - by rewrite bool_decide_false by by rewrite <-Hc.
Qed.

(** ** Lemmas: the bytes of a packet *)

Lemma write_run_extends (b r : list Z) (o p : nat) :
  (o ≤ p)%nat → (p + length r ≤ length b)%nat →
  take (p + length r - o) (drop o (write_run b p r)) = take (p - o) (drop o b) ++ r.
Proof.
  intros Ho Hl. apply list_eq. intros i.
  destruct (decide (i < p + length r - o)%nat) as [Hi|Hi].
  - rewrite lookup_take_lt, lookup_drop, write_run_lookup by lia. destruct (decide (i < p - o)%nat).
    + rewrite decide_False by lia. rewrite lookup_app_l by (rewrite length_take, length_drop; lia).
      by rewrite lookup_take_lt, lookup_drop by lia.
    + rewrite decide_True by lia. rewrite lookup_app_r by (rewrite length_take, length_drop; lia).
      rewrite length_take, length_drop. f_equal. lia.
  - rewrite !lookup_ge_None_2; [done| |].
    + rewrite length_app, length_take, length_drop. lia.
    + rewrite length_take, length_drop. lia.
Qed.

Lemma take_before_write_run {A} (b r : list A) (o p : nat) :
  (o ≤ p)%nat → (p + length r ≤ length b)%nat → take o (write_run b p r) = take o b.
Proof.
  intros Ho Hl. unfold write_run. rewrite take_app_le by (rewrite length_take; lia).
  rewrite take_take. f_equal. lia.
Qed.

(** An item that can be sent: its key and value are in its data, and its value fits into
    an empty packet. *)
Record value_ok (it : item) : Prop := {
  vo_nkey : 0 ≤ it_nkey it;
  vo_nbytes : in_range 32 (it_nbytes it);
  vo_data : it_nkey it + it_nbytes it ≤ Z.of_nat (length (it_data it));
  vo_fits : 42 + it_nbytes it + 6 ≤ ETHERNET_MAX_FRAME_LEN;
}.

Lemma length_reply_value it :
  value_ok it → Z.of_nat (length (reply_bytes (Some it))) = 6 + it_nbytes it.
Proof.
  intros [Hk [Hn _] Hd _]. unfold reply_bytes, item_value.
  rewrite !length_app, !length_store_le, length_take, length_drop. lia.
Qed.

Lemma WRITE_PKT_value_eq pkt ptr it :
  value_ok it → 0 ≤ ptr → ptr + 6 + it_nbytes it ≤ Z.of_nat (length pkt) →
  WRITE_PKT_value pkt ptr it =
    Ok (write_run pkt (Z.to_nat ptr) (reply_bytes (Some it)), ptr + 6 + it_nbytes it).
Proof.
  intros Hv Hp Hl. pose proof (length_reply_value it Hv) as Hlen. destruct Hv as [Hk [Hn _] Hd _].
  unfold WRITE_PKT_value, store.
  destruct (Z.leb_spec 0 ptr), (Z.leb_spec (ptr + Z.of_nat 2) (Z.of_nat (length pkt))); try lia.
  cbn [andb]. rewrite bind_Ok, write_run_length by (rewrite length_store_le; lia).
  destruct (Z.leb_spec 0 (ptr + 2)), (Z.leb_spec (ptr + 2 + Z.of_nat 4) (Z.of_nat (length pkt))); try lia.
  cbn [andb]. rewrite bind_Ok. unfold bytes_at.
  destruct (Z.leb_spec 0 (it_nkey it)), (Z.leb_spec 0 (it_nbytes it)),
    (Z.leb_spec (it_nkey it + it_nbytes it) (Z.of_nat (length (it_data it)))); try lia.
  cbn [andb]. rewrite bind_Ok. fold (item_value it).
  replace (Z.to_nat (ptr + 2)) with (Z.to_nat ptr + length (store_le 2 PROTOCOL_VALUE))%nat by (rewrite length_store_le; lia).
  rewrite write_run_app by (rewrite !length_store_le; lia).
  rewrite copy_in_bounds, bind_Ok.
  - replace (Z.to_nat (ptr + 6)) with (Z.to_nat ptr + length (store_le 2 PROTOCOL_VALUE ++ store_le 4 (it_nbytes it)))%nat
      by (rewrite length_app, !length_store_le; lia).
    rewrite write_run_app, <-app_assoc; [done|].
    unfold reply_bytes in Hlen. rewrite !length_app, !length_store_le in Hlen.
    rewrite length_app, !length_store_le. lia.
  - lia.
  - rewrite write_run_length by (rewrite length_app, !length_store_le; lia).
    unfold reply_bytes in Hlen. rewrite !length_app, !length_store_le in Hlen. lia.
Qed.

(** ** Lemmas: the plain loop *)

Definition with_slabs (s : sstate) (cs : list slabclass_t) : sstate :=
  SState cs (s_jobs s) (s_frames s) (s_cc s) (s_sent s).
Definition with_bytes (f : frame) (b : list Z) : frame :=
  Frame (f_d_addr f) (f_dst_addr f) (f_dst_port f) (f_ip_length f) (f_udp_length f) (f_pkt_len f) b.

Lemma with_slabs_same s : with_slabs s (s_slabs s) = s.
Proof. by destruct s. Qed.

Section plain.
Context (cfg : mega_config_t) (heap : heap_t) (tx_burst : list frame → Z) (keys : list job_key_t).
Context (search_out : list Z) (cs0 : list slabclass_t) (reqs : list request).
Abbreviation answer := (answer cfg heap cs0).
Abbreviation reply_of := (reply_of cfg heap cs0).
Abbreviation count_reply := (count_reply cfg heap cs0).
Abbreviation pick := (pick cfg heap cs0).

(** [ITEM_GET] succeeds for the location and returns [p]. *)
Definition gettable (cs : list slabclass_t) (loc : Z) (p : ptr) : Prop :=
  ∃ c, arr_get cs (loc_id cfg loc) = Ok c ∧ loc_offset loc < u32 (sc_perslab c * sc_slabs c) ∧
    item_at c (loc_offset loc) = Ok p ∧ bitmap_wf (sc_bitmap c) ∧
    0 ≤ loc_offset loc < 64 * bm_size (sc_bitmap c).

Definition loc_ok (loc : Z) : Prop :=
  loc ≠ 0 → ∃ p it, gettable cs0 loc p ∧ heap !! p = Some it ∧ value_ok it.

Definition key_ok (k : job_key_t) : Prop := jk_nkey k ≤ Z.of_nat (length (jk_key k)).

(** The slabs as they were, bitmaps apart. *)
Definition same_slabs (cs : list slabclass_t) : Prop := ∀ loc p, gettable cs0 loc p → gettable cs loc p.

Lemma ITEM_GET_spec cs loc p :
  same_slabs cs → gettable cs0 loc p → ∃ cs', ITEM_GET cfg cs loc = Ok (cs', p) ∧ same_slabs cs'.
Proof.
  intros Hcs Hg. destruct (Hcs loc p Hg) as (c & Hc & Hlt & Hat & Hwf & Hoff).
  destruct (bitmap_touch_clears (sc_bitmap c) (loc_offset loc) Hwf Hoff) as (bm & Hbm & Hwf' & _ & Hsame).
  apply arr_get_Ok in Hc as [Hid Hc]. pose proof (lookup_lt_Some _ _ _ Hc) as Hlen.
  exists (<[Z.to_nat (loc_id cfg loc) := set_bitmap c bm]> cs). split.
  - unfold ITEM_GET. rewrite (arr_get_lookup _ _ c), bind_Ok by done.
    rewrite assert_true, bind_Ok by (by apply Z.ltb_lt). rewrite Hat, bind_Ok, Hbm, bind_Ok.
    by rewrite arr_set_in_bounds by lia.
  - intros loc' p' Hg'. destruct (Hcs loc' p' Hg') as (c' & Hc' & Hrest).
    apply arr_get_Ok in Hc' as [Hid' Hc'].
    destruct (decide (Z.to_nat (loc_id cfg loc) = Z.to_nat (loc_id cfg loc'))) as [Heq|Hne].
    + rewrite <-Heq, Hc in Hc'. injection Hc' as <-. exists (set_bitmap c bm). split.
      * apply arr_get_lookup; [done|]. rewrite <-Heq. by rewrite list_lookup_insert_eq.
      * destruct Hrest as (H1 & H2 & _ & H4). injection Hsame as Hsz _ _ _. simpl. rewrite Hsz. done.
    + exists c'. split; [|done]. apply arr_get_lookup; [done|]. by rewrite list_lookup_insert_ne.
Qed.

Lemma item_found_gettable loc p it :
  loc ≠ 0 → gettable cs0 loc p → heap !! p = Some it → item_found cfg heap cs0 loc = Some it.
Proof.
  intros Hl (c & Hc & _ & Hat & _) Hit. unfold item_found, item_pointer.
  rewrite (proj2 (Z.eqb_neq _ _)) by done. by rewrite Hc, bind_Ok, Hat, Hit.
Qed.

(** The frame [mark] and what is written to it. *)
Definition has_frame (s : sstate) (mark : Z) (f : frame) : Prop :=
  0 ≤ mark ∧ s_frames s !! Z.to_nat mark = Some f ∧ Z.of_nat (length (f_bytes f)) = ETHERNET_MAX_FRAME_LEN.

Definition written (s s' : sstate) (cs : list slabclass_t) (mark ptr : Z) (f : frame) (o : option item) : Prop :=
  s' = SState cs (s_jobs s)
    (<[Z.to_nat mark := with_bytes f (write_run (f_bytes f) (Z.to_nat ptr) (reply_bytes o))]> (s_frames s))
    (match o with Some _ => add_hit (s_cc s) | None => add_miss (s_cc s) end) (s_sent s).

Lemma try_location_spec s k mark ptr loc f :
  same_slabs (s_slabs s) → loc_ok loc → key_ok k → has_frame s mark f → 42 ≤ ptr →
  ∃ cs, same_slabs cs ∧
    ((try_location cfg heap s k mark ptr loc = Ok (Exceeds (with_slabs s cs)) ∧ 42 < ptr) ∨
     (∃ it s', pick k loc = Some it ∧ value_ok it ∧ ptr + 6 + it_nbytes it ≤ ETHERNET_MAX_FRAME_LEN ∧
        written s s' cs mark ptr f (Some it) ∧
        try_location cfg heap s k mark ptr loc = Ok (Replied s' (ptr + 6 + it_nbytes it))) ∨
     (pick k loc = None ∧ try_location cfg heap s k mark ptr loc = Ok (NoReply (with_slabs s cs)))).
Proof.
  intros Hcs Hloc Hk (Hm & Hf & Hlen) Hp. unfold try_location, SenderMatch.pick.
  destruct (Z.eqb_spec loc 0) as [->|Hl]; cbn [negb].
  { exists (s_slabs s). split; [done|]. right. right. by destruct s. }
  destruct (Hloc Hl) as (p & it & Hg & Hit & Hv).
  destruct (ITEM_GET_spec (s_slabs s) loc p Hcs Hg) as (cs & -> & Hcs'). exists cs. split; [done|].
  rewrite (item_found_gettable loc p it) by done. unfold deref. rewrite bind_Ok, Hit, bind_Ok.
  destruct (Z.ltb_spec ETHERNET_MAX_FRAME_LEN (ptr + it_nbytes it + 6)) as [Hbig|Hfit].
  { left. split; [done|]. pose proof (vo_fits _ Hv). lia. }
  destruct Hv as [Hk0 Hn Hd Hfits] eqn:Hv'. rewrite key_matches_spec, bind_Ok by (done || destruct Hn; lia).
  destruct (same_key it k); [|by right; right].
  right. left. eexists it, _. split; [done|]. split; [done|]. split; [lia|]. split; [reflexivity|].
  unfold write_value_pkt. cbn [s_frames]. rewrite (arr_get_lookup _ _ f), bind_Ok by done.
  rewrite WRITE_PKT_value_eq, bind_Ok by (done || lia).
  erewrite (upd_frame_eq _ mark f), bind_Ok; [|lia|exact Hf|reflexivity]. done.
Qed.

Definition reply_len (r : request) : Z := Z.of_nat (length (reply_bytes (answer r))).

Lemma written_slabs s s' cs1 cs mark ptr f o :
  written (with_slabs s cs1) s' cs mark ptr f o → written s s' cs mark ptr f o.
Proof. done. Qed.

(** A search whose words are these is answered, or does not fit any more. *)
Lemma answer_search_spec s r mark ptr f :
  same_slabs (s_slabs s) → key_ok (rq_key r) → loc_ok (rq_loc0 r) →
  (pick (rq_key r) (rq_loc0 r) = None → loc_ok (rq_loc1 r)) →
  let i := js_index (rq_job r) in
  arr_get search_out (u32 (Z.shiftl i 1)) = Ok (rq_loc0 r) →
  arr_get search_out (u32 (u32 (Z.shiftl i 1) + 1)) = Ok (rq_loc1 r) →
  has_frame s mark f → 42 ≤ ptr →
  ∃ cs, same_slabs cs ∧
    ((answer_search cfg heap search_out s (rq_job r) (rq_key r) mark ptr = Ok (Exceeds (with_slabs s cs)) ∧ 42 < ptr) ∨
     (∃ s', answer_search cfg heap search_out s (rq_job r) (rq_key r) mark ptr = Ok (Replied s' (ptr + reply_len r)) ∧
        ptr + reply_len r ≤ ETHERNET_MAX_FRAME_LEN ∧ written s s' cs mark ptr f (answer r))).
Proof.
  intros Hcs Hk Hl0 Hl1 i H0 H1 Hf Hp. unfold answer_search, reply_len, SenderMatch.answer. fold i. rewrite H0, bind_Ok.
  destruct (try_location_spec s (rq_key r) mark ptr (rq_loc0 r) f Hcs Hl0 Hk Hf Hp)
    as (cs & Hcs' & [[-> Hlt]|[(it & s' & -> & Hv & Hfit & Hw & ->)|[Hp0 ->]]]).
  - exists cs. split; [done|]. left. done.
  - exists cs. split; [done|]. right. exists s'. rewrite length_reply_value by done. rewrite bind_Ok.
    split; [|split; [lia|done]]. do 2 f_equal. lia.
  - rewrite Hp0, bind_Ok, H1, bind_Ok.
    destruct (try_location_spec (with_slabs s cs) (rq_key r) mark ptr (rq_loc1 r) f Hcs' (Hl1 Hp0) Hk Hf Hp)
      as (cs2 & Hcs2 & [[-> Hlt]|[(it & s' & -> & Hv & Hfit & Hw & ->)|[-> ->]]]); exists cs2; (split; [done|]).
    + left. done.
    + right. exists s'. rewrite length_reply_value by done. rewrite bind_Ok.
      split; [|split; [lia|by eapply written_slabs]]. do 2 f_equal. lia.
    + rewrite bind_Ok. change (Z.of_nat (length (reply_bytes None))) with 1.
      destruct (Z.ltb_spec ETHERNET_MAX_FRAME_LEN (ptr + 1)) as [Hbig|Hfit].
      { left. split; [done|]. change ETHERNET_MAX_FRAME_LEN with 1514 in Hbig. lia. }
      right. destruct Hf as (Hm & Hf & Hlen). unfold write_not_found, store.
      erewrite (upd_frame_eq _ mark f); [|lia|exact Hf|].
      * rewrite !bind_Ok. eexists. split; [reflexivity|]. split; [done|]. reflexivity.
      * destruct (Z.leb_spec 0 ptr), (Z.leb_spec (ptr + Z.of_nat 1) (Z.of_nat (length (f_bytes f)))); try lia.
        cbn [andb]. rewrite bind_Ok. reflexivity.
Qed.

(** The searches of the batch, with what the loop finds of them. *)
Record request_ok (i : nat) (r : request) : Prop := {
  ro_key : keys !! i = Some (rq_key r);
  ro_key_ok : key_ok (rq_key r);
  ro_num : js_num (rq_job r) = 1;
  ro_word0 : arr_get search_out (u32 (Z.shiftl (js_index (rq_job r)) 1)) = Ok (rq_loc0 r);
  ro_word1 : arr_get search_out (u32 (u32 (Z.shiftl (js_index (rq_job r)) 1) + 1)) = Ok (rq_loc1 r);
  ro_loc0 : loc_ok (rq_loc0 r);
  ro_loc1 : pick (rq_key r) (rq_loc0 r) = None → loc_ok (rq_loc1 r);   (** looked at only then *)
}.

Context (Hreqs : ∀ i r, reqs !! i = Some r → request_ok i r).
Abbreviation total := (Z.of_nat (length reqs)).

(** The first [d] jobs are finished. *)
Definition jobs_at (d : nat) (jobs : list mega_job_search_t) : Prop :=
  ∀ i r, reqs !! i = Some r → ∃ j, jobs !! i = Some j ∧ client_of j = client_of (rq_job r) ∧
    (if decide (i < d)%nat then js_num j = 0 else j = rq_job r).

(** The packet [mark] holds the replies [rs], up to [ptr]. *)
Definition filled (f : frame) (ptr : Z) (rs : list (list Z)) : Prop :=
  ptr = 42 + Z.of_nat (length (concat rs)) ∧ ptr ≤ ETHERNET_MAX_FRAME_LEN ∧
  take (Z.to_nat ptr - 42) (drop 42 (f_bytes f)) = concat rs.

Lemma filled_write f ptr rs r :
  Z.of_nat (length (f_bytes f)) = ETHERNET_MAX_FRAME_LEN → filled f ptr rs →
  ptr + reply_len r ≤ ETHERNET_MAX_FRAME_LEN →
  filled (with_bytes f (write_run (f_bytes f) (Z.to_nat ptr) (reply_bytes (answer r)))) (ptr + reply_len r)
    (rs ++ [reply_bytes (answer r)]).
Proof.
  unfold reply_len. intros Hlen (Hptr & Hmax & Hb) Hfit. unfold filled.
  rewrite concat_app, length_app. cbn [concat]. rewrite app_nil_r. split; [lia|]. split; [done|]. simpl f_bytes.
  replace (Z.to_nat (ptr + _)) with (Z.to_nat ptr + length (reply_bytes (answer r)))%nat by lia.
  rewrite write_run_extends by lia. by rewrite Hb.
Qed.

Lemma finish_search_spec s d r j :
  reqs !! d = Some r → jobs_at d (s_jobs s) → s_jobs s !! d = Some j → js_num j = 1 →
  ∃ jobs, finish_search s (Z.of_nat d) j = Ok (with_jobs s jobs) ∧ jobs_at (S d) jobs.
Proof.
  intros Hr Hjobs Hj Hnum. unfold finish_search.
  rewrite arr_set_in_bounds, bind_Ok by (apply lookup_lt_Some in Hj; lia).
  rewrite Nat2Z.id. eexists. split; [done|]. intros i r' Hr'. destruct (Hjobs i r' Hr') as (j' & Hj' & Hc & Hst).
  destruct (decide (i = d)) as [->|Hne].
  - exists (consume j). rewrite list_lookup_insert_eq by (by eapply lookup_lt_Some).
    assert (j' = j) as -> by congruence. split; [done|]. split; [done|]. rewrite decide_True by lia.
    simpl. by rewrite Hnum.
  - exists j'. rewrite list_lookup_insert_ne by done. split; [done|]. split; [done|].
    destruct (decide (i < d)%nat), (decide (i < S d)%nat); (done || lia).
Qed.

(** The state between two searches of a packet. *)
Record at_packet (s : sstate) (d : nat) (mark ptr : Z) (f : frame) (rs : list (list Z)) : Prop := {
  ap_jobs : jobs_at d (s_jobs s);
  ap_slabs : same_slabs (s_slabs s);
  ap_frame : has_frame s mark f;
  ap_filled : filled f ptr rs;
}.

Definition slice (d m : nat) : list request := take m (drop d reqs).
Definition frame_client (f : frame) : Z * Z := (f_dst_addr f, f_dst_port f).

Lemma slice_0 d : slice d 0 = [].
Proof. done. Qed.

Lemma slice_S d m r : reqs !! d = Some r → slice d (S m) = r :: slice (S d) m.
Proof. intros Hr. unfold slice. by rewrite (drop_S _ _ _ Hr). Qed.

(** What [m] more replies in the packet [mark] leave. *)
Record packed (s : sstate) (d : nat) (mark : Z) (f : frame) (rs : list (list Z))
    (s' : sstate) (m : nat) (ptr' : Z) (f' : frame) : Prop := {
  pk_le : (d + m ≤ length reqs)%nat;
  pk_at : at_packet s' (d + m) mark ptr' f' (rs ++ (reply_of <$> slice d m).*2);
  pk_client : frame_client f' = frame_client f;
  pk_header : take 42 (f_bytes f') = take 42 (f_bytes f);
  pk_all : Forall (λ r, client_of (rq_job r) = frame_client f) (slice d m);
  pk_frames : ∀ i, i ≠ Z.to_nat mark → s_frames s' !! i = s_frames s !! i;
  pk_length : length (s_frames s') = length (s_frames s);
  pk_sent : s_sent s' = s_sent s;
  pk_count : (hit (s_cc s'), miss (s_cc s')) = foldl count_reply (hit (s_cc s), miss (s_cc s)) (slice d m);
}.

Lemma packed_0 s d mark ptr f rs cs :
  (d ≤ length reqs)%nat → at_packet s d mark ptr f rs → same_slabs cs →
  packed s d mark f rs (with_slabs s cs) 0 ptr f.
Proof.
  intros Hd [? ? ? ?] Hcs. split; rewrite ?Nat.add_0_r, ?slice_0; simpl; rewrite ?app_nil_r; try done.
Qed.

Lemma packed_S s d mark f rs r s1 ptr1 f1 s' m ptr' f' :
  reqs !! d = Some r → packed s d mark f rs s1 1 ptr1 f1 →
  packed s1 (S d) mark f1 (rs ++ [reply_bytes (answer r)]) s' m ptr' f' →
  packed s d mark f rs s' (S m) ptr' f'.
Proof.
  intros Hr [A1 A2 A3 A9 A4 A5 A6 A7 A8] [B1 B2 B3 B9 B4 B5 B6 B7 B8].
  rewrite (slice_S d 0 r Hr), slice_0 in *.
  split; rewrite ?(slice_S d m r Hr), ?fmap_cons; try congruence.
  - lia.
  - rewrite <-app_assoc in B2. by replace (d + S m)%nat with (S d + m)%nat by lia.
  - constructor; [by inversion A4|by rewrite A3 in B4].
  - intros i Hi. by rewrite B5, A5.
  - by rewrite B8, A8.
Qed.

Lemma answered_step s d mark ptr f rs r s' cs :
  reqs !! d = Some r → at_packet s d mark ptr f rs → same_slabs cs → client_of (rq_job r) = frame_client f →
  ptr + reply_len r ≤ ETHERNET_MAX_FRAME_LEN → written s s' cs mark ptr f (answer r) →
  ∃ s2 f2, finish_search s' (Z.of_nat d) (rq_job r) = Ok s2 ∧ packed s d mark f rs s2 1 (ptr + reply_len r) f2.
Proof.
  intros Hr [Hjobs Hcs0 (Hm & Hf & Hlen) Hfill] Hcs Hc Hfit ->.
  destruct (Hjobs d r Hr) as (j & Hj & _ & Hst). rewrite decide_False in Hst by lia. subst j.
  match goal with |- ∃ s2 f2, finish_search ?st _ _ = _ ∧ _ =>
    destruct (finish_search_spec st d r (rq_job r) Hr Hjobs Hj (ro_num _ _ (Hreqs d r Hr))) as (jobs & -> & Hjobs') end.
  eexists _, (with_bytes f (write_run (f_bytes f) (Z.to_nat ptr) (reply_bytes (answer r)))). split; [done|].
  split; rewrite ?(slice_S d 0 r Hr), ?slice_0; simpl.
  - apply lookup_lt_Some in Hr. lia.
  - replace (d + 1)%nat with (S d) by lia. destruct Hfill as (Hptr & Hmax & Hb).
    split; simpl; try done; [|by apply filled_write].
    split; [done|]. simpl. rewrite list_lookup_insert_eq by (by eapply lookup_lt_Some). split; [done|].
    unfold reply_len in Hfit. rewrite write_run_length by lia. done.
  - done.
  - destruct Hfill as (Hptr & Hmax & _). unfold reply_len in Hfit. apply take_before_write_run; lia.
  - by repeat constructor.
  - intros i Hi. by rewrite list_lookup_insert_ne.
  - apply length_insert.
  - done.
  - unfold SenderMatch.count_reply. by destruct (answer r).
Qed.

Lemma foreign_job j f :
  client_of j ≠ frame_client f → negb (js_ip j =? f_dst_addr f) || negb (js_port j =? f_dst_port f) = true.
Proof.
  unfold client_of, frame_client. intros Hc. apply orb_true_iff. rewrite !negb_true_iff, !Z.eqb_neq.
  destruct (decide (js_ip j = f_dst_addr f)) as [He|]; [|by left]. right. congruence.
Qed.

Lemma own_job j f :
  client_of j = frame_client f → negb (js_ip j =? f_dst_addr f) || negb (js_port j =? f_dst_port f) = false.
Proof. intros [= -> ->]. by rewrite !Z.eqb_refl. Qed.

(** The loop over the searches of a packet ends, [m] replies later; a new packet for the
    client of the next search gets at least that one. *)
Lemma plain_packet_spec fuel s d jm mark ptr f rs :
  at_packet s d mark ptr f rs → (d ≤ length reqs)%nat →
  (jm = Z.of_nat d ∨ jm = Z.of_nat d - 1 ∧
    ∃ r, reqs !! (d - 1)%nat = Some r ∧ (0 < d)%nat ∧ client_of (rq_job r) = frame_client f) →
  2 * (total - Z.of_nat d) + 1 + (Z.of_nat d - jm) ≤ Z.of_nat fuel →
  ∃ s' m ptr' f', plain_packet_match cfg heap keys search_out total fuel s jm mark ptr =
      Ok (s', Z.of_nat (d + m), ptr') ∧ packed s d mark f rs s' m ptr' f' ∧
    (ptr = 42 → (∃ r, reqs !! d = Some r ∧ client_of (rq_job r) = frame_client f) → (0 < m)%nat).
Proof.
  revert s d jm ptr f rs. induction fuel as [|fuel IH]; intros s d jm ptr f rs Hap Hd Hjm Hfuel; [lia|].
  cbn [plain_packet_match]. pose proof (ap_frame _ _ _ _ _ _ Hap) as (Hm & Hfr & Hlen).
  assert (Hstop : ∀ cs, same_slabs cs →
    (ptr = 42 → (∃ r, reqs !! d = Some r ∧ client_of (rq_job r) = frame_client f) → False) →
    ∃ s' m ptr' f', Ok (with_slabs s cs, Z.of_nat d, ptr) = Ok (s', Z.of_nat (d + m), ptr') ∧
      packed s d mark f rs s' m ptr' f' ∧
      (ptr = 42 → (∃ r, reqs !! d = Some r ∧ client_of (rq_job r) = frame_client f) → (0 < m)%nat)).
  { intros cs Hcs Hno. exists (with_slabs s cs), 0%nat, ptr, f. rewrite Nat.add_0_r. split; [done|].
    split; [by eapply packed_0|]. intros H1 H2. by destruct (Hno H1 H2). }
  specialize (Hstop (s_slabs s) (ap_slabs _ _ _ _ _ _ Hap)) as Hstop0. rewrite with_slabs_same in Hstop0.
  destruct (Z.leb_spec total jm) as [Hend|Hmore].
  { destruct Hjm as [->|[-> _]]; [|lia]. apply Hstop0. intros _ (r & Hr & _). apply lookup_lt_Some in Hr. lia. }
  destruct Hjm as [->|[-> (r & Hr & Hd0 & Hc)]].
  - destruct (lookup_lt_is_Some_2 reqs d) as [r Hr]; [lia|].
    destruct (ap_jobs _ _ _ _ _ _ Hap d r Hr) as (j & Hj & _ & Hst). rewrite decide_False in Hst by lia. subst j.
    rewrite (arr_get_lookup _ _ (rq_job r)), bind_Ok by (lia || by rewrite Nat2Z.id).
    rewrite (arr_get_lookup _ _ f), bind_Ok by done.
    destruct (decide (client_of (rq_job r) = frame_client f)) as [Hc|Hc].
    2: { rewrite foreign_job by done. apply Hstop0. intros _ (r' & Hr' & Hc'). by simplify_eq. }
    destruct (Hreqs d r Hr) as [Hkey Hkok Hnum Hw0 Hw1 Hl0 Hl1]. rewrite own_job, Hnum by done. cbn [Z.leb Z.compare].
    rewrite (arr_get_lookup _ _ (rq_key r)), bind_Ok by (lia || by rewrite Nat2Z.id).
    destruct (answer_search_spec s r mark ptr f (ap_slabs _ _ _ _ _ _ Hap) Hkok Hl0 Hl1 Hw0 Hw1)
      as (cs & Hcs' & [[-> Hlt]|(s' & -> & Hfit & Hw)]); [apply Hap|destruct (ap_filled _ _ _ _ _ _ Hap); lia| |].
    { rewrite bind_Ok. apply Hstop; [done|]. intros ->. lia. }
    rewrite bind_Ok. destruct (answered_step s d mark ptr f rs r s' cs Hr Hap Hcs' Hc Hfit Hw) as (s2 & f2 & -> & Hp2).
    rewrite bind_Ok. pose proof (pk_at _ _ _ _ _ _ _ _ _ Hp2) as Hap2.
    rewrite (slice_S d 0 r Hr), slice_0 in Hap2. replace (d + 1)%nat with (S d) in Hap2 by lia.
    destruct (IH s2 (S d) (Z.of_nat d) (ptr + reply_len r) f2 _ Hap2) as (s3 & m & ptr3 & f3 & -> & Hp3 & _); [lia| |lia|].
    { right. split; [lia|]. exists r. replace (S d - 1)%nat with d by lia. split; [done|]. split; [lia|].
      by rewrite (pk_client _ _ _ _ _ _ _ _ _ Hp2). }
    exists s3, (S m), ptr3, f3. replace (d + S m)%nat with (S d + m)%nat by lia.
    split; [done|]. split; [by eapply packed_S|]. lia.
  - destruct (ap_jobs _ _ _ _ _ _ Hap (d - 1)%nat r Hr) as (j & Hj & Hjc & Hst). rewrite decide_True in Hst by lia.
    rewrite (arr_get_lookup _ _ j), bind_Ok; [|lia|by replace (Z.to_nat (Z.of_nat d - 1)) with (d - 1)%nat by lia].
    rewrite (arr_get_lookup _ _ f), bind_Ok by done. rewrite own_job, Hst by congruence. cbn [Z.leb Z.compare].
    replace (Z.of_nat d - 1 + 1) with (Z.of_nat d) by lia. apply IH; [done|done|by left|lia].
Qed.

(** *** Chunks *)

Context (Hio : 0 < io_batch_num cfg < 2 ^ 32) (Hhdr : eiu_hdr_len cfg = 42).
(** What holds of the headers of every frame, which the loop does not touch. *)
Context (hp : list Z → Prop).

Definition expand (p : (Z * Z) * list (list Z)) : list ((Z * Z) * list Z) := (λ b, (p.1, b)) <$> p.2.

Lemma expand_replies c l :
  Forall (λ r, client_of (rq_job r) = c) l → expand (c, (reply_of <$> l).*2) = reply_of <$> l.
Proof.
  induction 1 as [|r l Hc _ IH]; [done|]. unfold expand in *. cbn [fst snd] in *. rewrite !fmap_cons.
  f_equal; [|exact IH]. cbn. by rewrite <-Hc.
Qed.

(** Between two packets: [d] searches are answered, the packets before [mark] are [ps]. *)
Record at_chunk (s : sstate) (d : nat) (mark : Z) (ps : list ((Z * Z) * list (list Z))) : Prop := {
  ac_le : (d ≤ length reqs)%nat;
  ac_jobs : jobs_at d (s_jobs s);
  ac_slabs : same_slabs (s_slabs s);
  ac_frames : frames_ok cfg (s_frames s);
  ac_headers : Forall (λ f, hp (take 42 (f_bytes f))) (s_frames s);
  ac_mark : 0 ≤ mark ≤ io_batch_num cfg;
  ac_packets : Forall2 packet_of (take (Z.to_nat mark) (s_frames s)) ps;
}.

Lemma open_packet s d mark ps r :
  at_chunk s d mark ps → mark < io_batch_num cfg → reqs !! d = Some r →
  ∃ s1 f, new_packet s mark (rq_job r) = Ok s1 ∧ at_packet s1 d mark 42 f [] ∧
    frame_client f = client_of (rq_job r) ∧ frames_ok cfg (s_frames s1) ∧
    Forall (λ f, hp (take 42 (f_bytes f))) (s_frames s1) ∧
    take (Z.to_nat mark) (s_frames s1) = take (Z.to_nat mark) (s_frames s) ∧
    s_sent s1 = s_sent s ∧ s_cc s1 = s_cc s.
Proof.
  intros [Hd Hj Hcs Hf Hh Hm Hp] Hlt Hr.
  destruct (frames_ok_lookup cfg _ mark Hf) as (f & Hl & Hb); [lia|].
  unfold new_packet. erewrite (upd_frame_eq s mark f); [|lia|exact Hl|reflexivity].
  eexists _, (Frame (js_eth_addr (rq_job r)) (js_ip (rq_job r)) (js_port (rq_job r)) (f_ip_length f)
    (f_udp_length f) (f_pkt_len f) (f_bytes f)). split; [done|]. split; [|split; [reflexivity|]].
  - split; simpl; try done. split; [lia|]. simpl.
    rewrite list_lookup_insert_eq by (by eapply lookup_lt_Some).
    split; [reflexivity|]. simpl. by rewrite Hb.
  - simpl. split; [by apply frames_ok_insert|]. rewrite take_insert_ge by lia. split; [|done].
    apply Forall_insert; [done|]. exact (Forall_lookup_1 _ _ _ _ Hh Hl).
Qed.

Lemma filled_packet f ptr rs c :
  frame_client f = c → rs ≠ [] → filled f ptr rs → Z.of_nat (length (f_bytes f)) = ETHERNET_MAX_FRAME_LEN →
  packet_of (Frame (f_d_addr f) (f_dst_addr f) (f_dst_port f) (u16 (ptr - 14)) (u16 (ptr - 14 - 20)) ptr (f_bytes f))
    (c, rs).
Proof.
  intros Hc Hne (Hptr & Hmax & Hb) Hlen. unfold packet_of. simpl. rewrite <-Hptr.
  change ETHERNET_MAX_FRAME_LEN with 1514 in *.
  rewrite (wrap_id 16), (wrap_id 16) by (unfold in_range; lia). split_and!; try done; try lia.
  unfold bytes_at. cmp_cases. f_equal. rewrite <-Hb. do 2 f_equal; lia.
Qed.

(** A packet with replies is completed, and becomes the last one of the chunk. *)
Lemma close_packet s0 s1 d m mark ps ptr f f0 :
  at_chunk s0 d mark ps → mark < io_batch_num cfg → frames_ok cfg (s_frames s1) →
  Forall (λ f, hp (take 42 (f_bytes f))) (s_frames s1) → has_frame s1 mark f0 →
  take (Z.to_nat mark) (s_frames s1) = take (Z.to_nat mark) (s_frames s0) →
  ∀ s, packed s1 d mark f0 [] s m ptr f → (0 < m)%nat →
  ∃ s', complete_packet false s mark ptr = Ok s' ∧
    at_chunk s' (d + m) (mark + 1) (ps ++ [(frame_client f0, (reply_of <$> slice d m).*2)]) ∧
    s_sent s' = s_sent s ∧ hit (s_cc s') = hit (s_cc s) ∧ miss (s_cc s') = miss (s_cc s) ∧ 42 < ptr.
Proof.
  intros [Hd Hj Hcs Hf _ Hm Hps] Hlt Hf1 Hh1 (_ & Hf0 & _) Htake s
    [P1 [Q1 Q2 (_ & Q3 & Q4) Q5] P3 P9 P4 P5 P6 P7 P8] Hm0.
  unfold complete_packet. erewrite (upd_frame_eq s mark f), bind_Ok; [|lia|exact Q3|reflexivity].
  eexists. split; [done|].
  assert (Hne : (reply_of <$> slice d m).*2 ≠ []).
  { unfold slice. destruct (lookup_lt_is_Some_2 reqs d) as [r Hr]; [lia|].
    rewrite (drop_S _ _ _ Hr). by destruct m; [lia|]. }
  assert (Hsame : ∀ i, i ≠ Z.to_nat mark → s_frames s !! i = s_frames s1 !! i) by done.
  split; [|simpl; split; [done|]; split; [done|]; split; [done|]].
  - split; simpl; try done.
    + apply frames_ok_insert; [|simpl; lia]. destruct Hf1 as [Hl1 Hall1]. split; [by rewrite P6|].
      apply Forall_lookup. intros i g Hg. destruct (decide (i = Z.to_nat mark)) as [->|Hi].
      * simplify_eq. lia.
      * rewrite Hsame in Hg by done. by eapply Forall_lookup_1 in Hall1.
    + apply Forall_lookup. intros i g Hg. destruct (decide (i = Z.to_nat mark)) as [->|Hi].
      * rewrite list_lookup_insert_eq in Hg by (by eapply lookup_lt_Some). simplify_eq. simpl. rewrite P9.
        exact (Forall_lookup_1 _ _ _ _ Hh1 Hf0).
      * rewrite list_lookup_insert_ne, Hsame in Hg by done. exact (Forall_lookup_1 _ _ _ _ Hh1 Hg).
    + lia.
    + replace (Z.to_nat (mark + 1)) with (S (Z.to_nat mark)) by lia.
      rewrite (take_S_r _ _ _ (list_lookup_insert_eq _ _ _ (lookup_lt_Some _ _ _ Q3))).
      apply Forall2_app; [|constructor; [by apply filled_packet|constructor]].
      rewrite take_insert_ge by lia.
      assert (take (Z.to_nat mark) (s_frames s) = take (Z.to_nat mark) (s_frames s0)) as ->; [|done].
      rewrite <-Htake. apply list_eq. intros i. destruct (decide (i < Z.to_nat mark)%nat).
      * rewrite !lookup_take_lt by lia. apply Hsame. lia.
      * by rewrite !lookup_take_ge by lia.
  - destruct Q5 as (-> & _). destruct (slice d m) as [|r l] eqn:Hs; [by destruct Hne|].
    rewrite !fmap_cons. simpl. rewrite length_app.
    assert (0 < length (reply_bytes (answer r)))%nat; [|lia]. destruct (answer r); simpl; lia.
Qed.

Lemma plain_chunk_spec fuel s d mark ps :
  at_chunk s d mark ps → 2 * (total - Z.of_nat d) + 1 ≤ Z.of_nat fuel →
  ∃ s' m mark' ps', plain_chunk_match cfg heap false keys search_out total fuel s (Z.of_nat d) mark =
      Ok (s', Z.of_nat (d + m), mark') ∧
    at_chunk s' (d + m) mark' (ps ++ ps') ∧ concat (expand <$> ps') = reply_of <$> slice d m ∧
    s_sent s' = s_sent s ∧
    (hit (s_cc s'), miss (s_cc s')) = foldl count_reply (hit (s_cc s), miss (s_cc s)) (slice d m) ∧
    (mark < io_batch_num cfg → (d < length reqs)%nat → (0 < m)%nat).
Proof.
  revert s d mark ps. induction fuel as [|fuel IH]; intros s d mark ps Hac Hfuel.
  { pose proof (ac_le _ _ _ _ Hac). lia. }
  cbn [plain_chunk_match]. destruct ((mark <? io_batch_num cfg) && (Z.of_nat d <? total)) eqn:Hgo.
  2: { exists s, 0%nat, mark, []. rewrite Nat.add_0_r, app_nil_r. split_and!; try done.
       intros H1 H2. apply andb_false_iff in Hgo as [?%Z.ltb_ge|?%Z.ltb_ge]; lia. }
  apply andb_true_iff in Hgo as [Hlt%Z.ltb_lt Hd%Z.ltb_lt].
  destruct (lookup_lt_is_Some_2 reqs d) as [r Hr]; [lia|].
  destruct (ac_jobs _ _ _ _ Hac d r Hr) as (j & Hj & _ & Hst). rewrite decide_False in Hst by lia. subst j.
  rewrite (arr_get_lookup _ _ (rq_job r)), bind_Ok by (lia || by rewrite Nat2Z.id).
  destruct (open_packet s d mark ps r Hac Hlt Hr) as (s1 & f & -> & Hap & Hc & Hf1 & Hh1 & Htake & Hs1 & Hcc1).
  rewrite bind_Ok, Hhdr.
  destruct (plain_packet_spec (S fuel) s1 d (Z.of_nat d) mark 42 f [] Hap) as (s2 & m & ptr & f2 & -> & Hpk & Hprog);
    [apply Hac|by left|lia|].
  assert (Hm : (0 < m)%nat) by (apply Hprog; [done|by exists r]).
  rewrite bind_Ok. destruct (close_packet s s1 d m mark ps ptr f2 f Hac Hlt Hf1 Hh1 (ap_frame _ _ _ _ _ _ Hap) Htake s2 Hpk Hm)
    as (s3 & Hcomp & Hac3 & Hs3 & Hh3 & Hm3 & Hptr).
  rewrite (proj2 (Z.ltb_lt 42 ptr) Hptr), Hcomp, bind_Ok.
  destruct (IH s3 (d + m)%nat (mark + 1) _ Hac3) as (s4 & m4 & mark4 & ps4 & -> & Hac4 & Hexp & Hs4 & Hc4 & _); [lia|].
  exists s4, (m + m4)%nat, mark4, ((frame_client f, (reply_of <$> slice d m).*2) :: ps4).
  assert (Hslice : slice d (m + m4) = slice d m ++ slice (d + m) m4).
  { unfold slice. rewrite <-drop_drop. symmetry. apply take_take_drop. }
  rewrite Nat.add_assoc. split; [done|]. split; [by rewrite <-app_assoc in Hac4|]. split.
  { rewrite fmap_cons, concat_cons, Hexp, Hslice, fmap_app. f_equal. apply expand_replies.
    eapply Forall_impl; [apply (pk_all _ _ _ _ _ _ _ _ _ Hpk)|]. done. }
  split; [by rewrite Hs4, Hs3, (pk_sent _ _ _ _ _ _ _ _ _ Hpk)|]. split; [|lia].
  rewrite Hc4, Hh3, Hm3, (pk_count _ _ _ _ _ _ _ _ _ Hpk), Hcc1, Hslice, foldl_app. done.
Qed.

(** *** The batch *)

Lemma next_chunk s d mark ps :
  at_chunk s d mark ps → at_chunk (send_chunk cfg false tx_burst s mark) d 0 [].
Proof. intros []. split; simpl; try done; lia. Qed.

Lemma plain_batch_spec fuel s d :
  at_chunk s d 0 [] → 2 * (total - Z.of_nat d) + 1 ≤ Z.of_nat fuel →
  ∃ s' chunks ps, plain_batch_match cfg heap false tx_burst keys search_out total fuel s (Z.of_nat d) = Ok s' ∧
    s_sent s' = s_sent s ++ chunks ∧ Forall2 packet_of (concat chunks) ps ∧
    Forall (λ f, hp (take 42 (f_bytes f))) (concat chunks ++ s_frames s') ∧ frames_ok cfg (s_frames s') ∧
    concat (expand <$> ps) = reply_of <$> drop d reqs ∧
    (hit (s_cc s'), miss (s_cc s')) = foldl count_reply (hit (s_cc s), miss (s_cc s)) (drop d reqs).
Proof.
  revert s d. induction fuel as [|fuel IH]; intros s d Hac Hfuel.
  { pose proof (ac_le _ _ _ _ Hac). lia. }
  cbn [plain_batch_match]. destruct (Z.ltb_spec (Z.of_nat d) total) as [Hd|Hd].
  2: { exists s, [], []. rewrite drop_ge by lia. rewrite app_nil_r. split_and!; try done; apply Hac. }
  destruct (plain_chunk_spec (S fuel) s d 0 [] Hac Hfuel) as (s1 & m & mark & ps & -> & Hac1 & Hexp & Hs1 & Hc1 & Hm).
  specialize (Hm ltac:(lia) ltac:(lia)). rewrite bind_Ok.
  destruct (IH (send_chunk cfg false tx_burst s1 mark) (d + m)%nat) as (s2 & chunks & ps2 & -> & Hs2 & Hps2 & Hh2 & Hf2 & Hexp2 & Hc2);
    [by eapply next_chunk|lia|].
  exists s2, (take (Z.to_nat mark) (s_frames s1) :: chunks), (ps ++ ps2). split; [done|].
  assert (Hdrop : drop d reqs = slice d m ++ drop (d + m) reqs)
    by (unfold slice; rewrite <-drop_drop; symmetry; apply take_drop).
  split; [rewrite Hs2; simpl; by rewrite <-app_assoc, Hs1|]. split.
  { rewrite concat_cons. apply Forall2_app; [apply (ac_packets _ _ _ _ Hac1)|done]. }
  split; [rewrite concat_cons, <-app_assoc; apply Forall_app; split; [apply Forall_take, Hac1|done]|].
  split; [done|].
  split; [by rewrite fmap_app, concat_app, Hexp, Hexp2, Hdrop, fmap_app|].
  rewrite Hc2, Hdrop, foldl_app, <-Hc1. done.
Qed.
End plain.

(** A batch as the Receiver leaves it without [COMPACT_JOB]: one job per search, with its
    key, and the two words the GPU wrote for it. *)
Record match_batch (cfg : mega_config_t) (heap : heap_t) (keys : list job_key_t) (bf : mega_batch_buf_t)
    (s : sstate) (reqs : list request) : Prop := {
  mb_io : 0 < io_batch_num cfg < 2 ^ 32;
  mb_hdr : eiu_hdr_len cfg = 42;
  mb_frames : frames_ok cfg (s_frames s);
  mb_num : num_search_job bf = Z.of_nat (length reqs);
  mb_compact : num_compact_search_job bf = Z.of_nat (length reqs);
  mb_jobs : ∀ i r, reqs !! i = Some r → s_jobs s !! i = Some (rq_job r);
  mb_reqs : ∀ i r, reqs !! i = Some r → request_ok cfg heap keys (search_out bf) (s_slabs s) i r;
}.

(** The replies to a batch, and the headers of the packets that carry them. *)
Lemma send_buffer_match_spec hp cfg heap tx_burst keys fuel bf s reqs :
  match_batch cfg heap keys bf s reqs → Forall (λ f, hp (take 42 (f_bytes f))) (s_frames s) →
  2 * Z.of_nat (length reqs) + 1 ≤ Z.of_nat fuel →
  ∃ s' chunks ps, send_buffer_match cfg heap false tx_burst keys NEITHER fuel bf s = Ok s' ∧
    s_sent s' = s_sent s ++ chunks ∧ Forall2 packet_of (concat chunks) ps ∧
    Forall (λ f, hp (take 42 (f_bytes f))) (concat chunks ++ s_frames s') ∧ frames_ok cfg (s_frames s') ∧
    concat (expand <$> ps) = reply_of cfg heap (s_slabs s) <$> reqs ∧
    (hit (s_cc s'), miss (s_cc s')) =
      foldl (count_reply cfg heap (s_slabs s)) (hit (s_cc s), miss (s_cc s)) reqs.
Proof.
  intros [Hio Hhdr Hfr Hnum Hcompact Hjobs Hreqs] Hh Hfuel. unfold send_buffer_match. rewrite Hnum, Hcompact.
  destruct (Z.eqb_spec (Z.of_nat (length reqs)) 0) as [H0|_].
  { destruct reqs; [|done]. exists s, [], []. rewrite app_nil_r. split_and!; try done. }
  destruct (plain_batch_spec cfg heap tx_burst keys (search_out bf) (s_slabs s) reqs Hreqs Hio Hhdr hp fuel s 0)
    as (s' & chunks & ps & Hrun & Hs & Hps & Hch & Hf & Hexp & Hc).
  - split; simpl; try done; try lia.
    + intros i r Hr. exists (rq_job r). split; [by apply Hjobs|]. done.
    + by intros loc p.
  - lia.
  - exists s', chunks, ps. rewrite drop_0 in *. done.
Qed.

(** ** Properties *)

(** C10: with [KEY_MATCH], the plain Sender gives every client its replies.  For a batch of
    searches whose results are items that can be sent, it ends, whatever the number of
    clients, packets and chunks; the packets it hands to the network, in this order, are
    well formed, each for one client, and hold exactly one reply per search, in the order
    of the searches and for the client of the search: the value of the item of the first
    location if that has the key asked for, else of the second, else "not found".  Hits
    and misses count these. *)
Theorem keyed_replies cfg heap tx_burst keys fuel bf s reqs :
  match_batch cfg heap keys bf s reqs → 2 * Z.of_nat (length reqs) + 1 ≤ Z.of_nat fuel →
  ∃ s' chunks ps, send_buffer_match cfg heap false tx_burst keys NEITHER fuel bf s = Ok s' ∧
    s_sent s' = s_sent s ++ chunks ∧ Forall2 packet_of (concat chunks) ps ∧
    concat (expand <$> ps) = reply_of cfg heap (s_slabs s) <$> reqs ∧
    (hit (s_cc s'), miss (s_cc s')) =
      foldl (count_reply cfg heap (s_slabs s)) (hit (s_cc s), miss (s_cc s)) reqs.
Proof.
  intros Hb Hfuel. destruct (send_buffer_match_spec (λ _, True) cfg heap tx_burst keys fuel bf s reqs Hb)
    as (s' & chunks & ps & Hrun & Hs & Hps & _ & _ & Hexp & Hc); [by apply Forall_true|done|].
  by exists s', chunks, ps.
Qed.

(** A key without zero bytes is compared as a whole: the item of a reply has exactly the
    key of the search. *)
Lemma answer_has_key cfg heap cs r it :
  answer cfg heap cs r = Some it →
  let n := Z.to_nat (it_nkey it) in
  Forall (λ x, x ≠ 0) (take n (jk_key (rq_key r))) → Forall (λ x, x ≠ 0) (take n (it_data it)) →
  it_nkey it = jk_nkey (rq_key r) ∧ take n (it_data it) = take n (jk_key (rq_key r)).
Proof.
  intros Ha n Hk Hd. assert (same_key it (rq_key r) = true) as Hs.
  { unfold answer, pick in Ha. destruct (item_found cfg heap cs (rq_loc0 r)) as [i0|];
      [destruct (same_key i0 (rq_key r)) eqn:E0; [congruence|]|];
      (destruct (item_found cfg heap cs (rq_loc1 r)) as [i1|]; [|done]);
      (destruct (same_key i1 (rq_key r)) eqn:E1; [congruence|done]). }
  unfold same_key in Hs. apply andb_true_iff in Hs as [Hn%Z.eqb_eq Hu%bool_decide_eq_true].
  split; [done|]. fold n in Hu. by rewrite !upto_nul_id in Hu.
Qed.

(** Binary keys: what follows a zero byte is not compared.  The keys 1 and 2 of the
    generators, as eight bytes with the number first, are told apart by their first byte,
    but a key with the number 1 and any spread is taken for the key 1. *)
Lemma zero_byte_ends_comparison :
  key_matches (Item None 0 0 8 8 1 ([1; 0; 0; 0; 1; 0; 0; 32] ++ seqZ 1 8)) (JobKey [1; 0; 0; 0; 9; 9; 9; 9] 8) = Ok true ∧
  key_matches (Item None 0 0 8 8 1 ([1; 0; 0; 0; 1; 0; 0; 32] ++ seqZ 1 8)) (JobKey [2; 0; 0; 0; 2; 0; 0; 64] 8) = Ok false.
Proof. done. Qed.

(** ** The property at a small batch

    Three searches: one that finds its item, one of the same client whose search finds an
    item of another key, one of another client that finds its item in the second bucket. *)
Definition ex_keys : list job_key_t :=
  [JobKey (seqZ 1 8) 8; JobKey (seqZ 2 8) 8; JobKey (seqZ 1 8) 8].
Definition ex_reqs : list request :=
  [Request (JobSearch 9 1 2 1 0) (JobKey (seqZ 1 8) 8) 1 0;
   Request (JobSearch 9 1 2 1 1) (JobKey (seqZ 2 8) 8) 1 0;
   Request (JobSearch 8 3 4 1 2) (JobKey (seqZ 1 8) 8) 0 1].
Definition ex_match_buf : mega_batch_buf_t :=
  BatchBuf [] [1; 0; 1; 0; 0; 1; 0; 0] [] [] (rq_job <$> ex_reqs) [] 3 0 0 3 [].

Lemma ex_match_batch :
  match_batch mega_init_config ex_send_heap ex_keys ex_match_buf (ex_sstate (rq_job <$> ex_reqs)) ex_reqs.
Proof.
  assert (Hloc : loc_ok mega_init_config ex_send_heap [ex_send_class] 1).
  { intros _. exists (0, 40), ex_item1. split; [|split; [reflexivity|]].
    - exists ex_send_class. split; [reflexivity|]. split; [reflexivity|]. split; [reflexivity|].
      split; [|done]. split; simpl; try done. by repeat constructor.
    - split; simpl; unfold in_range, ETHERNET_MAX_FRAME_LEN; lia. }
  assert (Hz : loc_ok mega_init_config ex_send_heap [ex_send_class] 0) by (by intros ?).
  split.
  - simpl. lia.
  - reflexivity.
  - split; [reflexivity|]. repeat constructor.
  - reflexivity.
  - reflexivity.
  - intros i r Hr. change (s_jobs _) with (rq_job <$> ex_reqs). by rewrite list_lookup_fmap, Hr.
  - intros i r Hr. destruct i as [|[|[|i]]]; simpl in Hr; [injection Hr as <-..|done]; split; (reflexivity || done).
Qed.

Lemma keyed_replies_witness :
  ∃ s' chunks ps, send_buffer_match mega_init_config ex_send_heap false (λ l, Z.of_nat (length l)) ex_keys
      NEITHER 7 ex_match_buf (ex_sstate (rq_job <$> ex_reqs)) = Ok s' ∧
    s_sent s' = chunks ∧ Forall2 packet_of (concat chunks) ps ∧
    concat (expand <$> ps) = [((1, 2), [1; 0; 8; 0; 0; 0] ++ seqZ 9 8); ((1, 2), [2]); ((3, 4), [1; 0; 8; 0; 0; 0] ++ seqZ 9 8)] ∧
    hit (s_cc s') = 2 ∧ miss (s_cc s') = 1.
Proof.
  destruct (keyed_replies mega_init_config ex_send_heap (λ l, Z.of_nat (length l)) ex_keys 7 ex_match_buf
    (ex_sstate (rq_job <$> ex_reqs)) ex_reqs ex_match_batch) as (s' & chunks & ps & H & Hs & Hps & He & Hc); [simpl; lia|].
  exists s', chunks, ps. split; [exact H|]. split; [exact Hs|]. split; [exact Hps|]. split; [exact He|].
  assert (Hc' : (hit (s_cc s'), miss (s_cc s')) = (2, 1)) by (rewrite Hc; vm_compute; reflexivity).
  split; [exact (f_equal fst Hc') | exact (f_equal snd Hc')].
Defined.
