(* ===== verification/ReceiverMatch.v ===== *)
(** * The Receiver with KEY_MATCH (src/src/mega_recv.c)

    With [KEY_MATCH], and then without [COMPACT_JOB], the search branch of [process_packet]
    also stores the key of the search in its job, for the Sender to compare ([SenderMatch]).
    As there, the keys are lists of their own, one per buffer, parallel to the job lists.
    [process_packet] with keys does to the batch what [Receiver.process_packet] without
    [COMPACT_JOB] does; the packets of a burst leave one job per search, with its client,
    its place in the search buffer and its key. *)

From S2P Require Import Prelude GpuHash Config Slabs Batch Items Packet Receiver Receive Sender SenderMatch.

(** The keys of the jobs of the three buffers. *)
Abbreviation job_keys := (list (list job_key_t)).

(** ** The operations *)

Section receiver_match.
Context (malloc_ok : Z → bool) (garbage : ptr → Z) (cfg : mega_config_t) (KVSIZE : Z).
Context (env : nat → mega_batch_t → mega_batch_t).

(** From label [again] on; [key] is the memory from the key on. *)
Fixpoint add_search_match (fuel : nat) (st : rstate) (keys : job_keys) (kk : Z) (cl : client_t) (sig : Z)
    (key : list Z) (nkey : Z) : result (rstate * job_keys * option Z) :=
  match fuel with
  | O => Err OutOfFuel
  | S fuel =>
      let b := env (r_reads st) (r_batch st) in
      let st := with_batch st (S (r_reads st)) b in
      let id := receiver_buf_id b in
      bf ← arr_get (buf b) id;
      if u32 (batch_max_search_job cfg - 1) <=? u32 (num_search_job bf) then Ok (st, keys, None)
      else
        let st := count_search st in
        let kk := kk + 1 in
        ks ← arr_get keys id;
        ks ← store_job_key ks (num_compact_search_job bf) nkey key;
        keys ← arr_set keys id ks;
        b ← upd_buf b id (search_plain cl sig);
        let b := env (r_reads st) b in
        if negb (id =? receiver_buf_id b) then
          b ← upd_buf b id undo_plain;
          add_search_match fuel (with_batch st (S (r_reads st)) b) keys kk cl sig key nkey
        else Ok (with_batch st (S (r_reads st)) b, keys, Some kk)
  end.

(** [case MEGA_JOB_GET] *)
Definition process_get_match (fuel : nat) (pkt : list Z) (st : rstate) (keys : job_keys) (kk ptr : Z) (cl : client_t)
    : result (rstate * job_keys * option (Z * Z)) :=
  nkey ← load pkt ptr 2;
  let ptr := ptr + MEGA_KEY_SIZE_LEN in
  if negb (nkey =? KEY_LEN KVSIZE) then Ok (st, keys, Some (kk, ptr + nkey))
  else
    sig ← load pkt ptr 8;
    '(st, keys, r) ← add_search_match fuel st keys kk cl sig (drop (Z.to_nat ptr) pkt) nkey;
    Ok (st, keys, match r with Some kk => Some (kk, ptr + nkey) | None => None end).

Fixpoint process_jobs_match (jobs fuel : nat) (pkt : list Z) (pkt_len : Z) (st : rstate) (keys : job_keys)
    (kk ptr : Z) (cl : client_t) : result (rstate * job_keys * Z) :=
  match jobs with
  | O => Err OutOfFuel
  | S jobs =>
      job_type ← load pkt ptr 2;
      let ptr := ptr + MEGA_JOB_TYPE_LEN in
      if job_type =? 0xFFFF then Ok (st, keys, kk)
      else if (job_type =? MEGA_JOB_GET) || (job_type =? MEGA_JOB_SET) then
        '(st, keys, r) ← (if job_type =? MEGA_JOB_GET then process_get_match fuel pkt st keys kk ptr cl
                          else '(st, r) ← process_set malloc_ok garbage cfg KVSIZE env fuel pkt st kk ptr;
                               Ok (st, keys, r));
        match r with
        | None => Ok (st, keys, -1)
        | Some (kk, ptr) =>
            if pkt_len <=? ptr then Ok (st, keys, -1)
            else process_jobs_match jobs fuel pkt pkt_len st keys kk ptr cl
        end
      else Ok (st, keys, -1)
  end.

Definition process_packet_match (jobs fuel : nat) (pkt : list Z) (pkt_len : Z) (st : rstate) (keys : job_keys)
    : result (rstate * job_keys * Z) :=
  eth ← load pkt off_s_addr 6;
  ip ← load pkt off_src_addr 4;
  port ← load pkt off_src_port 2;
  magic ← load pkt off_payload 2;
  if negb (magic =? PROTOCOL_MAGIC) then Ok (st, keys, -1)
  else process_jobs_match jobs fuel pkt pkt_len st keys 0 (off_payload + MEGA_MAGIC_NUM_LEN) (Client eth ip port).

(** The packets of a burst; their numbers and bytes are counted as in [Receive]. *)
Fixpoint receive_packets_match (jobs fuel : nat) (st : rstate) (keys : job_keys) (ms : list (list Z * Z))
    : result (rstate * job_keys) :=
  match ms with
  | [] => Ok (st, keys)
  | m :: ms =>
      '(st, keys, _) ← process_packet_match jobs fuel m.1 m.2 st keys;
      receive_packets_match jobs fuel st keys ms
  end.
End receiver_match.

(** ** Lemmas: the batch

    But for the keys, this is [Receiver]'s reception without [COMPACT_JOB]. *)

Section batch.
Context (malloc_ok : Z → bool) (garbage : ptr → Z) (cfg : mega_config_t) (KVSIZE : Z).
Context (env : nat → mega_batch_t → mega_batch_t).

Lemma add_search_match_batch fuel st keys kk cl sig key nkey st' keys' r :
  add_search_match cfg env fuel st keys kk cl sig key nkey = Ok (st', keys', r) →
  add_search cfg env fuel false st kk cl sig = Ok (st', r).
Proof.
  revert st keys kk. induction fuel as [|fuel IH]; intros st keys kk H; [done|].
  cbn [add_search_match] in H. cbn [add_search]. apply bind_Ok_inv in H as (bf & -> & H). rewrite bind_Ok.
  destruct (_ <=? _); [by injection H as <- _ <-|]. apply bind_Ok_inv in H as (ks & _ & H).
  apply bind_Ok_inv in H as (ks' & _ & H). apply bind_Ok_inv in H as (keys1 & _ & H).
  apply bind_Ok_inv in H as (b & -> & H). rewrite bind_Ok. destruct (negb _); [|by injection H as <- _ <-].
  apply bind_Ok_inv in H as (b' & -> & H). rewrite bind_Ok. by eapply IH.
Qed.

Lemma process_get_match_batch fuel pkt st keys kk ptr cl st' keys' r :
  process_get_match cfg KVSIZE env fuel pkt st keys kk ptr cl = Ok (st', keys', r) →
  process_get cfg KVSIZE env fuel false pkt st kk ptr cl = Ok (st', r).
Proof.
  intros H. unfold process_get_match in H. unfold process_get. apply bind_Ok_inv in H as (nkey & -> & H).
  rewrite bind_Ok. cbv zeta in *. destruct (negb _); [by injection H as <- _ <-|].
  apply bind_Ok_inv in H as (sig & -> & H). rewrite bind_Ok.
  apply bind_Ok_inv in H as ([[st1 keys1] r1] & ->%add_search_match_batch & H). rewrite bind_Ok.
  by injection H as <- _ <-.
Qed.

Lemma process_jobs_match_batch jobs fuel pkt pkt_len cl st keys kk ptr st' keys' n :
  process_jobs_match malloc_ok garbage cfg KVSIZE env jobs fuel pkt pkt_len st keys kk ptr cl = Ok (st', keys', n) →
  process_jobs malloc_ok garbage cfg KVSIZE env jobs fuel false pkt pkt_len st kk ptr cl = Ok (st', n).
Proof.
  revert st keys kk ptr. induction jobs as [|jobs IH]; intros st keys kk ptr H; [done|].
  cbn [process_jobs_match] in H. cbn [process_jobs]. apply bind_Ok_inv in H as (t & -> & H). rewrite bind_Ok.
  cbv zeta in *. destruct (t =? 0xFFFF); [by injection H as <- _ <-|].
  destruct (_ || _); [|by injection H as <- _ <-]. apply bind_Ok_inv in H as ([[st1 keys1] r] & Hr & H).
  assert ((if t =? MEGA_JOB_GET then process_get cfg KVSIZE env fuel false pkt st kk (ptr + MEGA_JOB_TYPE_LEN) cl
           else process_set malloc_ok garbage cfg KVSIZE env fuel pkt st kk (ptr + MEGA_JOB_TYPE_LEN)) = Ok (st1, r)) as ->.
  { destruct (t =? MEGA_JOB_GET); [by eapply process_get_match_batch|].
    apply bind_Ok_inv in Hr as ([st2 r2] & Hs & [= -> -> ->]). exact Hs. }
  rewrite bind_Ok. destruct r as [[kk1 ptr1]|]; [|by injection H as <- _ <-].
  destruct (_ <=? _); [by injection H as <- _ <-|by eapply IH].
Qed.

Lemma process_packet_match_batch jobs fuel pkt pkt_len st keys st' keys' n :
  process_packet_match malloc_ok garbage cfg KVSIZE env jobs fuel pkt pkt_len st keys = Ok (st', keys', n) →
  process_packet malloc_ok garbage cfg KVSIZE env jobs fuel false pkt pkt_len st = Ok (st', n).
Proof.
  intros H. unfold process_packet_match in H. unfold process_packet.
  apply bind_Ok_inv in H as (eth & -> & H). apply bind_Ok_inv in H as (ip & -> & H).
  apply bind_Ok_inv in H as (port & -> & H). apply bind_Ok_inv in H as (magic & -> & H). rewrite !bind_Ok.
  destruct (negb _); [by injection H as <- _ <-|]. by eapply process_jobs_match_batch.
Qed.
End batch.

(** ** Lemmas: searches without interference *)

(** A search somebody asked for: the client and the key. *)
Abbreviation ask := (client_t * list Z)%type.

Definition ask_job (i : nat) (a : ask) : mega_job_search_t :=
  JobSearch (c_eth a.1) (c_ip a.1) (c_port a.1) 1 (Z.of_nat i).

Definition slot_has (key : list Z) (k : job_key_t) : Prop :=
  jk_nkey k = Z.of_nat (length key) ∧ take (length key) (jk_key k) = key.

(** The buffer [bf0], empty so far, with the searches [asks] and their keys. *)
Record gathered (KVSIZE : Z) (bf0 : mega_batch_buf_t) (asks : list ask) (bf : mega_batch_buf_t)
    (ks : list job_key_t) : Prop := {
  ga_rest : bf = set_search bf0 (search_in bf) (num_search_job bf) (search_job_list bf) (num_compact_search_job bf);
  ga_in : length (search_in bf) = length (search_in bf0);
  ga_jobs : length (search_job_list bf) = length (search_job_list bf0);
  ga_num : num_search_job bf = Z.of_nat (length asks);
  ga_compact : num_compact_search_job bf = Z.of_nat (length asks);
  ga_slots : (length (search_job_list bf0) ≤ length ks)%nat ∧ Forall (λ k, KEY_LEN KVSIZE ≤ Z.of_nat (length (jk_key k))) ks;
  ga_asks : ∀ i a, asks !! i = Some a →
    search_in bf !! i = Some (elem_of_key a.2) ∧ search_job_list bf !! i = Some (ask_job i a) ∧
    ∃ k, ks !! i = Some k ∧ slot_has a.2 k;
}.

(** The Receiver's batch, with the searches in its current buffer. *)
Record gathers (KVSIZE : Z) (bf0 : mega_batch_buf_t) (st : rstate) (keys : job_keys) (asks : list ask) : Prop := {
  gt_id : 0 ≤ receiver_buf_id (r_batch st);
  gt_buf : ∃ bf ks, buf (r_batch st) !! Z.to_nat (receiver_buf_id (r_batch st)) = Some bf ∧
    keys !! Z.to_nat (receiver_buf_id (r_batch st)) = Some ks ∧ gathered KVSIZE bf0 asks bf ks;
}.

(** Past the headers and the magic number of a packet. *)
Lemma process_packet_match_header malloc_ok garbage cfg KVSIZE env jobs fuel hdr payload pkt_len st keys :
  length hdr = 42%nat →
  process_packet_match malloc_ok garbage cfg KVSIZE env jobs fuel (hdr ++ store_le 2 PROTOCOL_MAGIC ++ payload) pkt_len
    st keys =
  process_jobs_match malloc_ok garbage cfg KVSIZE env jobs fuel ((hdr ++ store_le 2 PROTOCOL_MAGIC) ++ payload) pkt_len
    st keys 0 (Z.of_nat (length (hdr ++ store_le 2 PROTOCOL_MAGIC))) (header_client hdr).
Proof.
  intros Hh. destruct (load_headers hdr payload Hh) as (H1 & H2 & H3 & H4 & H5). unfold process_packet_match.
  rewrite H1, bind_Ok, H2, bind_Ok, H3, bind_Ok, H4, bind_Ok, Z.eqb_refl, H5. by rewrite <-app_assoc.
Qed.

Section gather.
Context (malloc_ok : Z → bool) (garbage : ptr → Z) (cfg : mega_config_t) (KVSIZE : Z) (bf0 : mega_batch_buf_t).
(** The arrays of a batch, as [mega_receiver_batch_init] allocates them. *)
Context (Hmax : batch_max_search_job cfg < 2 ^ 31).
Context (Hin : Z.of_nat (length (search_in bf0)) = batch_max_search_job cfg).
Context (Hjobs : Z.of_nat (length (search_job_list bf0)) = batch_max_search_job cfg).
Abbreviation gathered := (gathered KVSIZE bf0).
Abbreviation gathers := (gathers KVSIZE bf0).

Lemma store_job_key_eq ks c k key post :
  ks !! c = Some k → (length key ≤ length (jk_key k))%nat →
  store_job_key ks (Z.of_nat c) (Z.of_nat (length key)) (key ++ post) =
    Ok (<[c := JobKey (write_run (jk_key k) 0 key) (Z.of_nat (length key))]> ks).
Proof.
  intros Hk Hlen. unfold store_job_key. rewrite (arr_get_lookup _ _ k), bind_Ok by (done || lia || by rewrite Nat2Z.id).
  rewrite length_app, !(proj2 (Z.leb_le _ _)) by lia. cbn [andb].
  rewrite Nat2Z.id, take_app_length. by rewrite arr_set_in_bounds, Nat2Z.id by (apply lookup_lt_Some in Hk; lia).
Qed.

Lemma slot_has_stored k key n :
  (length key ≤ length (jk_key k))%nat → n = Z.of_nat (length key) →
  slot_has key (JobKey (write_run (jk_key k) 0 key) n) ∧
  length (write_run (jk_key k) 0 key) = length (jk_key k).
Proof.
  intros Hlen ->. split; [split; [done|]|].
  - cbn [jk_key]. unfold write_run. rewrite take_0. cbn [app]. apply take_app_length.
  - apply write_run_length. lia.
Qed.

(** One more search. *)
Lemma gathered_ask asks bf ks cl key post :
  gathered asks bf ks → Z.of_nat (length key) = KEY_LEN KVSIZE →
  Z.of_nat (length asks) + 1 < batch_max_search_job cfg →
  ∃ bf' ks', store_job_key ks (num_compact_search_job bf) (Z.of_nat (length key)) (key ++ post) = Ok ks' ∧
    search_plain cl (load_le 8 key) bf = Ok bf' ∧ gathered (asks ++ [(cl, key)]) bf' ks'.
Proof.
  intros [Hrest HIn HJobs Hnum Hc [Hs1 Hs2] Hall] Hkey Hroom.
  destruct (lookup_lt_is_Some_2 ks (length asks)) as [k Hk]; [lia|].
  assert (Hkl : (length key ≤ length (jk_key k))%nat) by (apply Nat2Z.inj_le; rewrite Hkey; apply (Forall_lookup_1 _ _ _ _ Hs2 Hk)).
  destruct (slot_has_stored k key _ Hkl eq_refl) as [Hslot Hsl].
  rewrite Hc. eexists _, _. split; [apply store_job_key_eq; done|].
  unfold search_plain. rewrite Hnum, Hc. rewrite (arr_set_in_bounds (search_job_list bf)), bind_Ok by lia.
  rewrite (arr_set_in_bounds (search_in bf)), bind_Ok by lia. split; [reflexivity|]. rewrite Nat2Z.id.
  split; cbn [search_in search_job_list num_search_job num_compact_search_job set_search]; rewrite ?length_insert;
    try done; try (rewrite length_app; simpl; lia).
  - rewrite Hrest. done.
  - split; [lia|]. apply Forall_insert; [done|]. cbn [jk_key]. rewrite Hsl. lia.
  - intros i a Ha. destruct (decide (i = length asks)) as [->|Hne].
    + rewrite lookup_app_r, Nat.sub_diag in Ha by done. injection Ha as <-.
      rewrite !list_lookup_insert_eq by lia. split; [done|]. split; [done|]. eexists. split; [done|exact Hslot].
    + rewrite !list_lookup_insert_ne by done. apply Hall. apply lookup_app_Some in Ha as [Ha|[Hle Ha]]; [done|].
      apply lookup_lt_Some in Ha. simpl in Ha. lia.
Qed.

Lemma add_search_match_quiet fuel st keys asks kk cl key post :
  gathers st keys asks → Z.of_nat (length key) = KEY_LEN KVSIZE → Z.of_nat (length asks) + 1 < batch_max_search_job cfg →
  ∃ st' keys', add_search_match cfg quiet (S fuel) st keys kk cl (load_le 8 key) (key ++ post) (Z.of_nat (length key)) =
      Ok (st', keys', Some (kk + 1)) ∧
    gathers st' keys' (asks ++ [(cl, key)]) ∧ r_slabs st' = r_slabs st.
Proof.
  intros [Hid (bf & ks & Hb & Hks & Hg)] Hkey Hroom.
  destruct (gathered_ask asks bf ks cl key post Hg Hkey Hroom) as (bf' & ks' & Hstore & Hsearch & Hg').
  pose proof (ga_num _ _ _ _ _ Hg) as Hnum. cbn [add_search_match]. cbv zeta. cbn [r_batch r_reads with_batch count_search].
  rewrite (arr_get_lookup _ _ _ Hid Hb), bind_Ok. rewrite !wrap_id by (unfold in_range; lia).
  destruct (Z.leb_spec (batch_max_search_job cfg - 1) (num_search_job bf)); [lia|].
  rewrite (arr_get_lookup _ _ _ Hid Hks), bind_Ok, Hstore, bind_Ok.
  rewrite arr_set_in_bounds, bind_Ok by (apply lookup_lt_Some in Hks; lia).
  rewrite (upd_buf_eq _ _ bf _ _ Hid Hb Hsearch), bind_Ok.
  cbn [receiver_buf_id set_buf]. rewrite Z.eqb_refl. cbn [negb]. eexists _, _. split; [reflexivity|]. split; [|done].
  split; [done|]. exists bf', ks'. cbn [r_batch with_batch set_buf buf receiver_buf_id].
  apply lookup_lt_Some in Hb, Hks. by rewrite !list_lookup_insert_eq.
Qed.

Lemma process_get_match_quiet fuel pre key post st keys asks kk cl :
  gathers st keys asks → Receiver.key_ok KVSIZE key → Z.of_nat (length asks) + 1 < batch_max_search_job cfg →
  ∃ st' keys', process_get_match cfg KVSIZE quiet (S fuel) (pre ++ store_le 2 (Z.of_nat (length key)) ++ key ++ post)
      st keys kk (Z.of_nat (length pre)) cl =
      Ok (st', keys', Some (kk + 1, Z.of_nat (length pre) + 2 + Z.of_nat (length key))) ∧
    gathers st' keys' (asks ++ [(cl, key)]) ∧ r_slabs st' = r_slabs st.
Proof.
  intros Hg [Hk _] Hroom. pose proof (KEY_LEN_range KVSIZE) as HK. unfold process_get_match, MEGA_KEY_SIZE_LEN.
  rewrite (load_app pre _ _ _ 2), bind_Ok by (done || apply length_store_le).
  rewrite load_store_le by (change (256 ^ Z.of_nat 2) with 65536; lia).
  rewrite Hk, Z.eqb_refl. cbn [negb]. rewrite <-Hk, app_assoc.
  replace (Z.of_nat (length pre) + 2) with (Z.of_nat (length (pre ++ store_le 2 (Z.of_nat (length key)))))
    by (rewrite length_app, length_store_le; lia).
  rewrite (load_prefix _ key post _ 8), bind_Ok by (done || lia). rewrite Nat2Z.id, drop_app_length.
  destruct (add_search_match_quiet fuel st keys asks kk cl key post Hg Hk Hroom) as (st' & keys' & -> & Hg' & Hs).
  rewrite bind_Ok. by exists st', keys'.
Qed.

Lemma process_jobs_match_gets cl rest pkt_len fuel :
  ∀ gs jobs pre st keys kk asks,
  Forall (Receiver.key_ok KVSIZE) gs → gathers st keys asks →
  Z.of_nat (length asks + length gs) < batch_max_search_job cfg →
  Z.of_nat (length pre + length (gets gs)) < pkt_len → (length gs < jobs)%nat →
  ∃ st' keys', process_jobs_match malloc_ok garbage cfg KVSIZE quiet jobs (S fuel)
      (pre ++ gets gs ++ end_mark ++ rest) pkt_len st keys kk (Z.of_nat (length pre)) cl =
      Ok (st', keys', kk + Z.of_nat (length gs)) ∧
    gathers st' keys' (asks ++ ((cl,.) <$> gs)) ∧ r_slabs st' = r_slabs st.
Proof.
  induction gs as [|key gs IH]; intros jobs pre st keys kk asks Hgs Hg Hroom Hlen Hj;
    (destruct jobs as [|jobs]; [simpl in Hj; lia|]).
  { cbn [process_jobs_match]. simpl gets. cbn [app].
    rewrite (load_app pre end_mark rest _ 2), bind_Ok by done.
    change (load_le 2 end_mark) with 0xFFFF. cbn [Z.eqb Pos.eqb]. exists st, keys.
    by rewrite Z.add_0_r, app_nil_r. }
  apply Forall_cons in Hgs as [Hk Hgs]. change (gets (key :: gs)) with (encode_get key ++ gets gs) in *.
  cbn [length] in *.  rewrite length_app, length_encode_get in Hlen. rewrite <-app_assoc. cbn [process_jobs_match].
  rewrite (load_prefix pre (encode_get key) _ _ 2), bind_Ok by (done || rewrite length_encode_get; lia).
  change (load_le 2 (encode_get key)) with 2. cbv zeta. cbn [Z.eqb MEGA_JOB_GET Pos.eqb orb].
  assert (Hpkt : pre ++ encode_get key ++ gets gs ++ end_mark ++ rest =
    (pre ++ store_le 2 MEGA_JOB_GET) ++ store_le 2 (Z.of_nat (length key)) ++ key ++ gets gs ++ end_mark ++ rest)
    by (unfold encode_get; by rewrite <-!app_assoc).
  assert (Hptr : Z.of_nat (length pre) + MEGA_JOB_TYPE_LEN = Z.of_nat (length (pre ++ store_le 2 MEGA_JOB_GET)))
    by (rewrite length_app, length_store_le; unfold MEGA_JOB_TYPE_LEN; lia).
  assert (Hend : Z.of_nat (length (pre ++ store_le 2 MEGA_JOB_GET)) + 2 + Z.of_nat (length key) =
    Z.of_nat (length (pre ++ encode_get key)))
    by (rewrite !length_app, length_encode_get, length_store_le; lia).
  destruct (process_get_match_quiet fuel (pre ++ store_le 2 MEGA_JOB_GET) key (gets gs ++ end_mark ++ rest)
    st keys asks kk cl Hg Hk) as (st1 & keys1 & Hget & Hg1 & Hs1); [lia|].
  rewrite Hend, <-Hpkt, <-Hptr in Hget. rewrite Hget, bind_Ok. cbv beta iota. clear Hget Hpkt.
  destruct (Z.leb_spec pkt_len (Z.of_nat (length (pre ++ encode_get key)))); [rewrite length_app, length_encode_get in *; lia|].
  rewrite app_assoc.
  destruct (IH jobs (pre ++ encode_get key) st1 keys1 (kk + 1) (asks ++ [(cl, key)]) Hgs Hg1) as (st2 & keys2 & -> & Hg2 & Hs2).
  - rewrite length_app. simpl. lia.
  - rewrite length_app, length_encode_get. lia.
  - lia.
  - exists st2, keys2. split; [do 2 f_equal; lia|]. split; [|by rewrite Hs2].
    by rewrite <-app_assoc in Hg2.
Qed.

Definition packet_asks (g : get_packet) : list ask := (header_client (gp_hdr g),.) <$> gp_keys g.

(** The packets of a burst. *)
Lemma receive_packets_match_gets jobs fuel gs :
  ∀ st keys asks, Forall (gp_ok KVSIZE) gs → gathers st keys asks →
  Z.of_nat (length asks + total_keys gs) < batch_max_search_job cfg → (total_keys gs < jobs)%nat →
  ∃ st' keys', receive_packets_match malloc_ok garbage cfg KVSIZE quiet jobs (S fuel) st keys (gp_memory <$> gs) =
      Ok (st', keys') ∧
    gathers st' keys' (asks ++ concat (packet_asks <$> gs)) ∧ r_slabs st' = r_slabs st.
Proof.
  induction gs as [|g gs IH]; intros st keys asks Hgs Hg Hroom Hj.
  { exists st, keys. simpl. by rewrite app_nil_r. }
  apply Forall_cons in Hgs as [(Hh & Hkeys & Hlen) Hgs].
  change (total_keys (g :: gs)) with (length (gp_keys g) + total_keys gs)%nat in *.
  rewrite fmap_cons. cbn [receive_packets_match]. change (gp_memory g).2 with (gp_len g).
  change (gp_memory g).1 with (packet (gp_hdr g) (gets (gp_keys g)) (gp_rest g)).
  unfold packet. rewrite process_packet_match_header by done.
  destruct (process_jobs_match_gets (header_client (gp_hdr g)) (gp_rest g) (gp_len g) fuel (gp_keys g) jobs
    (gp_hdr g ++ store_le 2 PROTOCOL_MAGIC) st keys 0 asks Hkeys Hg) as (st1 & keys1 & -> & Hg1 & Hs1);
    [lia|rewrite length_app, length_store_le; lia|lia|].
  rewrite bind_Ok. destruct (IH st1 keys1 _ Hgs Hg1) as (st2 & keys2 & -> & Hg2 & Hs2).
  - rewrite length_app, length_fmap. lia.
  - lia.
  - exists st2, keys2. split; [done|]. split; [|by rewrite Hs2]. by rewrite fmap_cons, concat_cons, app_assoc.
Qed.
End gather.
