(* ===== verification/SenderStart.v ===== *)
(** * The start of a Sender, and its packets on the wire (src/src/mega_send.c)

    [mega_sender_init], and what [mega_sender_sendloop] does before its loop: it takes
    [io_batch_num] packet buffers and writes the fields of the headers that never
    change.  The loop writes the others ([Sender.new_packet], [Sender.complete_packet]),
    which the model keeps as fields of a frame; [wire] puts the two together to the bytes
    that leave the machine.  The property joins the two halves: the replies of
    [SenderMatch.keyed_replies] leave as well-formed UDP packets. *)

From Stdlib Require Import Sorting.Sorted.
From S2P Require Import Prelude GpuHash Config Bitmap Slabs Batch Packet Receiver Sender SenderMatch.

(** ** mega_sender_init *)

Definition clear_stat (c : mega_sender_t) : mega_sender_t :=
  SenderStat 0 0 (dropped_packets c) 0 0.

(** The statistics of all Senders, whose number is [cpu_worker_num], and the batch of this
    one. *)
Definition mega_sender_init (CPU_AFFINITY : bool) (sched_setaffinity : Z → Z) (core_id : Z)
    (cfg : mega_config_t) (senders : list mega_sender_t) (b : mega_batch_t)
    : result (list mega_sender_t * mega_batch_t) :=
  if cpu_worker_num cfg <=? Z.of_nat (length senders) then
    let senders := (clear_stat <$> take (Z.to_nat (cpu_worker_num cfg)) senders) ++
                   drop (Z.to_nat (cpu_worker_num cfg)) senders in
    _ ← set_affinity CPU_AFFINITY sched_setaffinity core_id;
    Ok (senders, set_sender b (-1))
  else Err OutOfBounds.

(** ** The packet buffers *)

(** Offset, size and value of the fields that are written once; the addresses are as the
    configuration has them, the type of the frame is big-endian. *)
Definition fixed_headers (cfg : mega_config_t) (local_mac_addr : Z) : list (Z * nat * Z) :=
  [(6, 6%nat, local_mac_addr); (12, 2%nat, be16 0x0800); (14, 1%nat, Z.lor 0x40 0x05); (15, 1%nat, 0);
   (18, 2%nat, 0); (20, 2%nat, 0); (22, 1%nat, 64); (23, 1%nat, 17); (24, 2%nat, 0);
   (26, 4%nat, local_ip_addr cfg); (34, 2%nat, local_udp_port cfg); (40, 2%nat, 0)].

(** A buffer as a frame: the fields the loop will write hold what is there. *)
Definition frame_of (b : list Z) (pkt_len : Z) : result frame :=
  d_addr ← load b 0 6; ip_length ← load b 16 2; dst_addr ← load b 30 4;
  dst_port ← load b 36 2; udp_length ← load b 38 2;
  Ok (Frame d_addr dst_addr dst_port (be16 ip_length) (be16 udp_length) pkt_len b).

(** [alloc i] is the [i]th packet buffer, [None] if there is none; without [LOCAL_TEST]
    it comes from [send_pktmbuf_pool], and its length field from there. *)
Fixpoint start_frames (n : nat) (cfg : mega_config_t) (mac : Z) (alloc : nat → option (list Z * Z)) (i : nat)
    : result (list frame) :=
  match n with
  | O => Ok []
  | S n =>
      match alloc i with
      | None => Err AssertFail
      | Some (b, len) =>
          b ← stores b (fixed_headers cfg mac);
          f ← frame_of b len;
          l ← start_frames n cfg mac alloc (S i);
          Ok (f :: l)
      end
  end.

(** The fields the loop writes, in the memory of the frame. *)
Definition varying_headers (f : frame) : list (Z * nat * Z) :=
  [(0, 6%nat, f_d_addr f); (16, 2%nat, be16 (f_ip_length f)); (30, 4%nat, f_dst_addr f);
   (36, 2%nat, f_dst_port f); (38, 2%nat, be16 (f_udp_length f))].

(** What [rte_eth_tx_burst] sends of a frame: [pkt_len] bytes. *)
Definition wire (f : frame) : result (list Z) :=
  b ← stores (f_bytes f) (varying_headers f); bytes_at b 0 (f_pkt_len f).

(** ** Lemmas *)

Lemma be16_range x : 0 ≤ be16 x < 2 ^ 16.
Proof.
  apply (testbit_range 16); [lia| |].
  - unfold be16. apply Z.lor_nonneg. split; [apply Z.shiftl_nonneg, Z.land_nonneg|apply Z.land_nonneg]; lia.
  - intros j Hj. unfold be16. change 0xff with (Z.ones 8).
    rewrite Z.lor_spec, Z.shiftl_spec, !Z.land_spec, !Z.testbit_ones_nonneg by lia.
    by cmp_cases; rewrite ?andb_false_r.
Qed.

(** The fixed part of a header, as the first 42 bytes of a frame. *)
Definition fixed_ok (cfg : mega_config_t) (mac : Z) (h : list Z) : Prop :=
  length h = 42%nat ∧ load h 6 6 = Ok mac ∧ load h 12 2 = Ok (be16 0x0800) ∧
  load h 14 1 = Ok (Z.lor 0x40 0x05) ∧ load h 18 2 = Ok 0 ∧ load h 20 2 = Ok 0 ∧ load h 22 1 = Ok 64 ∧ load h 23 1 = Ok 17 ∧ load h 24 2 = Ok 0 ∧
  load h 26 4 = Ok (local_ip_addr cfg) ∧ load h 34 2 = Ok (local_udp_port cfg) ∧ load h 40 2 = Ok 0.

Lemma fixed_headers_ok cfg mac b :
  0 ≤ mac < 2 ^ 48 → in_range 32 (local_ip_addr cfg) → in_range 16 (local_udp_port cfg) →
  (42 ≤ length b)%nat →
  ∃ b', stores b (fixed_headers cfg mac) = Ok b' ∧ length b' = length b ∧ fixed_ok cfg mac (take 42 b').
Proof.
  intros Hmac Hip Hport Hl. unfold in_range in *.
  destruct (stores_in_bounds (fixed_headers cfg mac) b) as (b' & Hb' & Hlen); [repeat constructor; lia|].
  exists b'. split; [done|]. split; [done|]. unfold fixed_ok.
  rewrite !load_take by lia. rewrite length_take. split; [lia|].
  assert (Hs : StronglySorted before (fixed_headers cfg mac)) by (repeat constructor; unfold before; simpl; lia).
  split_and!; (eapply load_stores_field; [exact Hs|exact Hb'|unfold fixed_headers; repeat constructor|]);
    first [apply be16_range | simpl; lia | done].
Qed.

Lemma start_frames_spec cfg mac alloc n i :
  0 ≤ mac < 2 ^ 48 → in_range 32 (local_ip_addr cfg) → in_range 16 (local_udp_port cfg) →
  (∀ k, ∃ b len, alloc k = Some (b, len) ∧ length b = Z.to_nat ETHERNET_MAX_FRAME_LEN) →
  ∃ l, start_frames n cfg mac alloc i = Ok l ∧ length l = n ∧
    Forall (λ f, length (f_bytes f) = Z.to_nat ETHERNET_MAX_FRAME_LEN ∧ fixed_ok cfg mac (take 42 (f_bytes f))) l.
Proof.
  intros Hmac Hip Hport Halloc. revert i. induction n as [|n IH]; intros i; [by exists []|].
  destruct (Halloc i) as (b & len & Hb & Hlen). cbn [start_frames]. rewrite Hb.
  destruct (fixed_headers_ok cfg mac b Hmac Hip Hport) as (b' & -> & Hl' & Hok); [rewrite Hlen; unfold ETHERNET_MAX_FRAME_LEN; lia|].
  rewrite bind_Ok. assert (∃ f, frame_of b' len = Ok f ∧ f_bytes f = b') as (f & -> & Hf).
  { assert (Hld : ∀ off n, 0 ≤ off → off + Z.of_nat n ≤ 42 → ∃ x, load b' off n = Ok x).
    { intros off m H0 H1. unfold load, bytes_at. rewrite Hl', Hlen. change (Z.of_nat (Z.to_nat ETHERNET_MAX_FRAME_LEN)) with 1514.
      cmp_cases. by eexists. }
    unfold frame_of. destruct (Hld 0 6%nat) as [? ->]; [lia..|]. destruct (Hld 16 2%nat) as [? ->]; [lia..|].
    destruct (Hld 30 4%nat) as [? ->]; [lia..|]. destruct (Hld 36 2%nat) as [? ->]; [lia..|].
    destruct (Hld 38 2%nat) as [? ->]; [lia..|]. by eexists. }
  rewrite bind_Ok. destruct (IH (S i)) as (l & -> & Hn & Hall). rewrite bind_Ok.
  exists (f :: l). split; [done|]. split; [simpl; lia|]. constructor; [|done]. rewrite Hf. split; [congruence|done].
Qed.

(** ** The packets *)

(** A UDP packet of the Sender for the client [p.1], whose payload are the replies [p.2]. *)
Definition packet_on_wire (cfg : mega_config_t) (mac : Z) (w : list Z) (p : (Z * Z) * list (list Z)) : Prop :=
  let len := Z.of_nat (length (concat p.2)) in
  Z.of_nat (length w) = 42 + len ∧ Z.of_nat (length w) ≤ ETHERNET_MAX_FRAME_LEN ∧
  load w 6 6 = Ok mac ∧ load w 12 2 = Ok (be16 0x0800) ∧ load w 14 1 = Ok 0x45 ∧ load w 22 1 = Ok 64 ∧ load w 23 1 = Ok 17 ∧
  load w 16 2 = Ok (be16 (20 + 8 + len)) ∧ load w 38 2 = Ok (be16 (8 + len)) ∧
  load w 26 4 = Ok (local_ip_addr cfg) ∧ load w 34 2 = Ok (local_udp_port cfg) ∧
  load w 30 4 = Ok p.1.1 ∧ load w 36 2 = Ok p.1.2 ∧
  bytes_at w 42 len = Ok (concat p.2).

Lemma bytes_at_stores l pkt pkt' off len :
  stores pkt l = Ok pkt' → 0 ≤ off → Forall (λ '(off', n', _), off' + Z.of_nat n' ≤ off) l →
  bytes_at pkt' off len = bytes_at pkt off len.
Proof.
  revert pkt. induction l as [|[[off' n'] x] l IH]; intros pkt Hs Hoff Hl; [by injection Hs as ->|].
  apply Forall_cons in Hl as [H0 Hl]. cbn [stores] in Hs. apply bind_Ok_inv in Hs as (p1 & Hp1 & Hs).
  rewrite (IH p1 Hs Hoff Hl). apply store_Ok in Hp1 as (H1 & H2 & ->). unfold bytes_at.
  rewrite write_run_length by (rewrite length_store_le; lia). destruct (_ && _ && _); [|done]. do 2 f_equal.
  apply list_eq. intros k. rewrite !lookup_drop, write_run_lookup by (rewrite length_store_le; lia).
  by rewrite decide_False by (rewrite length_store_le; lia).
Qed.

Lemma wire_packet cfg mac f p :
  packet_of f p → fixed_ok cfg mac (take 42 (f_bytes f)) →
  in_range 32 p.1.1 → in_range 16 p.1.2 →
  ∃ w, wire f = Ok w ∧ packet_on_wire cfg mac w p.
Proof.
  intros (Hc & _ & Hmax & Hlen & Hipl & Hudpl & Hb) Hfix Hip Hport. unfold wire.
  destruct p as [[ip port] rs]. cbn [fst snd] in *. injection Hc as <- <-. set (len := Z.of_nat (length (concat rs))) in *.
  change ETHERNET_MAX_FRAME_LEN with 1514 in *.
  assert (Hfb : 42 + len ≤ Z.of_nat (length (f_bytes f))).
  { unfold bytes_at in Hb. destruct (Z.leb_spec (42 + (42 + len - 42)) (Z.of_nat (length (f_bytes f)))); [lia|].
    by rewrite andb_false_r in Hb. }
  destruct (stores_in_bounds (varying_headers f) (f_bytes f)) as (b & Hs & Hbl); [repeat constructor; simpl; lia|].
  rewrite Hs, bind_Ok. rewrite <-Hbl in Hfb. unfold bytes_at. rewrite Hlen.
  destruct (Z.leb_spec 0 (42 + len)), (Z.leb_spec (0 + (42 + len)) (Z.of_nat (length b))); try lia.
  eexists. split; [reflexivity|]. cbn [andb Z.leb Z.compare]. rewrite drop_0.
  assert (Hlw : length (take (Z.to_nat (42 + len)) b) = Z.to_nat (42 + len)) by (rewrite length_take; lia).
  assert (Hw : ∀ off n, 0 ≤ off → off + Z.of_nat n ≤ 42 → load (take (Z.to_nat (42 + len)) b) off n = load b off n)
    by (intros; apply load_take; lia).
  assert (Hkeep : ∀ off n x, 0 ≤ off → off + Z.of_nat n ≤ 42 → load (take 42 (f_bytes f)) off n = Ok x →
    Forall (λ '(off', n', _), off + Z.of_nat n ≤ off' ∨ off' + Z.of_nat n' ≤ off) (varying_headers f) →
    load (take (Z.to_nat (42 + len)) b) off n = Ok x).
  { intros off n x H1 H2 Hx Hno. rewrite Hw by done. rewrite (load_stores_other _ _ _ _ _ Hs Hno).
    rewrite <-Hx. symmetry. apply load_take; lia. }
  assert (Hsort : StronglySorted before (varying_headers f)) by (repeat constructor; unfold before; simpl; lia).
  assert (Hset : ∀ off n x, 0 ≤ off → off + Z.of_nat n ≤ 42 → (off, n, x) ∈ varying_headers f →
    0 ≤ x < 256 ^ Z.of_nat n → load (take (Z.to_nat (42 + len)) b) off n = Ok x).
  { intros off n x H1 H2 Hin Hx. rewrite Hw by done. by eapply load_stores_field. }
  destruct Hfix as (_ & Hmac & Hty & Hv & _ & _ & Httl & Hpr & _ & Hsrc & Hsp & _).
  unfold packet_on_wire. simpl fst. simpl snd. fold len. unfold in_range in *.
  change ETHERNET_MAX_FRAME_LEN with 1514.
  split; [lia|]. split; [lia|].
  do 5 (split; [apply Hkeep; [lia|lia|done|repeat constructor; lia]|]).
  split; [apply Hset; [lia|lia| |apply be16_range]|].
  { unfold varying_headers. rewrite Hipl. replace (20 + 8 + len) with (42 + len - 14) by lia. repeat constructor. }
  split; [apply Hset; [lia|lia| |apply be16_range]|].
  { unfold varying_headers. rewrite Hudpl. replace (8 + len) with (42 + len - 34) by lia. repeat constructor. }
  do 2 (split; [apply Hkeep; [lia|lia|done|repeat constructor; lia]|]).
  split; [apply Hset; [lia|lia|repeat constructor|lia]|]. split; [apply Hset; [lia|lia|repeat constructor|lia]|].
  rewrite bytes_at_take by lia. rewrite (bytes_at_stores _ _ _ _ _ Hs) by first [lia | repeat constructor; lia].
  rewrite <-Hb. f_equal. lia.
Qed.

Lemma packets_on_wire cfg mac chunk ps :
  Forall2 packet_of chunk ps → Forall (λ f, fixed_ok cfg mac (take 42 (f_bytes f))) chunk →
  Forall (λ p, in_range 32 p.1.1 ∧ in_range 16 p.1.2) ps →
  Forall2 (λ f p, ∃ w, wire f = Ok w ∧ packet_on_wire cfg mac w p) chunk ps.
Proof.
  induction 1 as [|f p chunk ps Hp _ IH]; intros Hh Hr; [constructor|].
  apply Forall_cons in Hh as [Hh1 Hh], Hr as [[Hr1 Hr2] Hr].
  constructor; [by apply wire_packet | by apply IH].
Qed.

(** The clients of the packets are clients of the batch. *)
Lemma expand_clients (P : Z * Z → Prop) fs ps (l : list ((Z * Z) * list Z)) :
  Forall2 packet_of fs ps → concat (expand <$> ps) = l → Forall (λ x, P x.1) l → Forall (λ p, P p.1) ps.
Proof.
  intros Hp <-. induction Hp as [|f p fs ps (_ & Hne & _) _ IH]; [by constructor|].
  rewrite fmap_cons, concat_cons. intros [H1 H2]%Forall_app. constructor; [|by apply IH].
  unfold expand in H1. destruct p as [c [|r rs]]; [done|]. by inversion H1.
Qed.

(** C17: a Sender's replies on the wire.  With a packet buffer for every frame, the Sender
    starts; from then on, whatever batch it gets, the packets it hands to the network card
    are UDP packets from the server's configured address and port, with the lengths of
    their content and never longer than a frame, each to the client whose replies it
    carries; and the frames are left as they are needed for the next batch. *)
Theorem replies_on_the_wire cfg mac alloc :
  0 < io_batch_num cfg < 2 ^ 32 → 0 ≤ mac < 2 ^ 48 →
  in_range 32 (local_ip_addr cfg) → in_range 16 (local_udp_port cfg) →
  (∀ i, ∃ b len, alloc i = Some (b, len) ∧ length b = Z.to_nat ETHERNET_MAX_FRAME_LEN) →
  let ready l := frames_ok cfg l ∧ Forall (λ f, fixed_ok cfg mac (take 42 (f_bytes f))) l in
  (∃ l, start_frames (Z.to_nat (io_batch_num cfg)) cfg mac alloc 0 = Ok l ∧ ready l) ∧
  ∀ heap tx_burst keys fuel bf s reqs,
    ready (s_frames s) → match_batch cfg heap keys bf s reqs →
    Forall (λ r, in_range 32 (js_ip (rq_job r)) ∧ in_range 16 (js_port (rq_job r))) reqs →
    2 * Z.of_nat (length reqs) + 1 ≤ Z.of_nat fuel →
    ∃ s' chunks ps, send_buffer_match cfg heap false tx_burst keys NEITHER fuel bf s = Ok s' ∧
      s_sent s' = s_sent s ++ chunks ∧
      Forall2 (λ f p, ∃ w, wire f = Ok w ∧ packet_on_wire cfg mac w p) (concat chunks) ps ∧
      concat (expand <$> ps) = reply_of cfg heap (s_slabs s) <$> reqs ∧ ready (s_frames s').
Proof.
  intros Hio Hmac Hip Hport Halloc ready. split.
  { destruct (start_frames_spec cfg mac alloc (Z.to_nat (io_batch_num cfg)) 0 Hmac Hip Hport Halloc)
      as (l & Hl & Hn & Hall). exists l. split; [done|]. apply Forall_and in Hall as [H1 H2].
    split; [|done]. split; [lia|done]. }
  intros heap tx_burst keys fuel bf s reqs [Hf Hh] Hb Hr Hfuel.
  destruct (send_buffer_match_spec (λ h, fixed_ok cfg mac h ∧ True) cfg heap tx_burst keys fuel bf s reqs Hb)
    as (s' & chunks & ps & Hrun & Hs & Hps & Hch & Hf' & Hexp & _).
  { eapply Forall_impl; [exact Hh|]. done. }
  { done. }
  exists s', chunks, ps. split; [done|]. split; [done|].
  assert (Hfix : Forall (λ f, fixed_ok cfg mac (take 42 (f_bytes f))) (concat chunks ++ s_frames s'))
    by (eapply Forall_impl; [exact Hch|]; simpl; tauto).
  apply Forall_app in Hfix as [Hfix1 Hfix2]. split; [|done]. apply packets_on_wire; try done.
  apply (expand_clients (λ c, in_range 32 c.1 ∧ in_range 16 c.2) _ _ _ Hps Hexp).
  apply Forall_fmap. eapply Forall_impl; [exact Hr|]. done.
Qed.

(** *** The property for the batch of [SenderMatch] *)

Definition ex_alloc (i : nat) : option (list Z * Z) := Some (replicate 1514 (Z.of_nat i), 0).

Lemma replies_on_the_wire_witness :
  ∃ l s' chunks ps, start_frames 2 mega_init_config 0xa1b2c3 ex_alloc 0 = Ok l ∧
    send_buffer_match mega_init_config ex_send_heap false (λ l, Z.of_nat (length l)) ex_keys NEITHER 7 ex_match_buf
      (SState [ex_send_class] (rq_job <$> ex_reqs) l (SenderStat 0 0 0 0 0) []) = Ok s' ∧
    s_sent s' = chunks ∧
    Forall2 (λ f p, ∃ w, wire f = Ok w ∧ packet_on_wire mega_init_config 0xa1b2c3 w p) (concat chunks) ps ∧
    concat (expand <$> ps) = [((1, 2), [1; 0; 8; 0; 0; 0] ++ seqZ 9 8); ((1, 2), [2]); ((3, 4), [1; 0; 8; 0; 0; 0] ++ seqZ 9 8)].
Proof.
  destruct (replies_on_the_wire mega_init_config 0xa1b2c3 ex_alloc) as [(l & Hl & Hready) Hsend].
  - simpl. lia.
  - lia.
  - unfold in_range. simpl. lia.
  - unfold in_range. simpl. lia.
  - intros i. eexists _, _. split; [reflexivity|]. by rewrite length_replicate.
  - pose proof ex_match_batch as Hb.
    destruct (Hsend ex_send_heap (λ l, Z.of_nat (length l)) ex_keys 7%nat ex_match_buf
      (SState [ex_send_class] (rq_job <$> ex_reqs) l (SenderStat 0 0 0 0 0) []) ex_reqs Hready)
      as (s' & chunks & ps & H & Hs & Hps & He & _).
    + destruct Hb as [B1 B2 _ B4 B5 B6 B7]. split; [exact B1|exact B2|exact (proj1 Hready)|exact B4|exact B5|exact B6|exact B7].
    + repeat constructor; simpl; lia.
    + simpl. lia.
    + exists l, s', chunks, ps. split; [exact Hl|]. split; [exact H|]. split; [exact Hs|].
      split; [exact Hps | exact He].
Defined.
