(* ===== verification/Timer.v ===== *)
(** * Timers (src/src/mega_timer.c)

    A timer adds up time-stamp counter differences; the counter is an argument of
    the functions that read it.  Times are doubles, in microseconds. *)

From S2P Require Import Prelude Config.

(** macros.h *)
Definition CPU_FREQUENCY_US : Z := 2600.

Record mega_timer_t := Timer { clocks : Z; start : Z }.

(** [rdtsc] leaves the two halves of the counter in two registers. *)
Definition read_tsc (lo hi : Z) : Z := Z.lor lo (Z.shiftl hi 32).

Definition mega_timer_init : mega_timer_t := Timer 0 0.
Definition mega_timer_start (tsc : Z) (t : mega_timer_t) : mega_timer_t := Timer (clocks t) tsc.
Definition mega_timer_restart (tsc : Z) (t : mega_timer_t) : mega_timer_t := Timer 0 tsc.
Definition mega_timer_stop (tsc : Z) (t : mega_timer_t) : mega_timer_t :=
  Timer (u64 (clocks t + u64 (tsc - start t))) (start t).
Definition mega_timer_reset (t : mega_timer_t) : mega_timer_t := mega_timer_init.
Definition mega_timer_get_total_time (t : mega_timer_t) : double :=
  ddiv (double_of_Z (clocks t)) (double_of_Z CPU_FREQUENCY_US).
Definition mega_timer_get_elapsed_time (tsc : Z) (t : mega_timer_t) : double :=
  ddiv (double_of_Z (u64 (tsc - start t))) (double_of_Z CPU_FREQUENCY_US).

(** The intervals of a measurement, each from a start to a stop. *)
Fixpoint measure (intervals : list (Z * Z)) (t : mega_timer_t) : mega_timer_t :=
  match intervals with
  | [] => t
  | (a, b) :: intervals => measure intervals (mega_timer_stop b (mega_timer_start a t))
  end.

Lemma measure_clocks intervals t :
  in_range 64 (clocks t) →
  clocks (measure intervals t) = u64 (clocks t + zsum (λ '(a, b), b - a) intervals).
Proof.
  revert t. induction intervals as [|[a b] l IH]; intros t Ht; simpl.
  - by rewrite Z.add_0_r, (wrap_id 64).
  - rewrite IH by (apply (wrap_range 64); lia). simpl. unfold wrap.
    rewrite Z.add_mod_idemp_l, <-Z.add_assoc, Z.add_comm, <-Z.add_assoc, Z.add_mod_idemp_l by lia.
    f_equal. lia.
Qed.

(** A stop that follows another one counts the time since the start again. *)
Lemma stop_twice t a b c :
  clocks (mega_timer_stop c (mega_timer_stop b (mega_timer_restart a t))) = u64 ((b - a) + (c - a)).
Proof.
  simpl. unfold wrap. by rewrite Z.add_0_l, Z.mod_mod, <-Z.add_mod by lia.
Qed.
