(* ===== verification/Scheduler.v ===== *)
(** * The Scheduler (src/src/mega_scheduler.c)

    The thread that runs the GPU.  Every [I] microseconds it takes a buffer from
    each CPU worker, launches the kernels for the searches of all workers, then for
    their deletions, then for their insertions, and hands the buffers to the
    Senders.  The hand-over is in [Batch] and [Rotation]; this file has the wait
    for the next time point, the kernel launches of a cycle and the statistics.
    [NUM_SCHED_INS_DEL] is 0 and [TIME_MEASURE] is not defined, as in the source; the
    set-up and the loop of the thread, and other values of [NUM_SCHED_INS_DEL], are in
    [SchedulerMain].

    A kernel's units work on the elements of [kernel_ids]; the kernels of a cycle
    run in the order in which they are launched, each one's units one after the
    other, which is one of the schedules CUDA allows for the streams.  [Streams] has
    the others, and says when they make no difference.

    The index that a cycle leaves is that of the cycle's deletions ([gpu_deletes]) and
    then its insertions ([gpu_inserts]), as lists; with one insertion only there are
    [gpu_cycle_one_insert] and [gpu_cycle_lone_insert]. *)

From Stdlib Require Import Floats.SpecFloat.
From S2P Require Import Prelude GpuHash Config Slabs Batch Items Packet Receiver Receive Sender Timer Index.

(** ** The next time point *)

(** [do ... while ((double)(config->I) - elapsed_time > 10)], with the counter
    [tsc n] at its [n]th reading: the number of readings and the last time. *)
Fixpoint wait_time_point (fuel n : nat) (cfg : mega_config_t) (tsc : nat → Z) (t : mega_timer_t)
    : result (nat * double) :=
  match fuel with
  | O => Err OutOfFuel
  | S fuel =>
      let elapsed_time := mega_timer_get_elapsed_time (tsc n) t in
      let ten := double_of_Z 10 in
      let I := double_of_Z (interval cfg) in
      if SFltb ten (dsub elapsed_time I) then Ok (S n, elapsed_time)
      else if SFltb ten (dsub I elapsed_time) then wait_time_point fuel (S n) cfg tsc t
      else Ok (S n, elapsed_time)
  end.

(** ** One cycle *)

Record counters := Counters {
  search_total_job : Z;
  insert_total_job : Z;
  delete_total_job : Z;
  num_each_batch : Z;
}.
Definition add_search_total (c : counters) (n : Z) : counters :=
  Counters (u64 (search_total_job c + n)) (insert_total_job c) (delete_total_job c) (num_each_batch c).
Definition add_insert_total (c : counters) (n : Z) : counters :=
  Counters (search_total_job c) (u64 (insert_total_job c + n)) (delete_total_job c) (num_each_batch c).
Definition add_delete_total (c : counters) (n : Z) : counters :=
  Counters (search_total_job c) (insert_total_job c) (u64 (delete_total_job c + n)) (num_each_batch c).
Definition add_batches (c : counters) (n : Z) : counters :=
  Counters (search_total_job c) (insert_total_job c) (delete_total_job c) (u64 (num_each_batch c + n)).

Definition set_search_out (b : mega_batch_buf_t) (l : list Z) : mega_batch_buf_t :=
  {| search_in := search_in b;
     search_out := l;
     delete_in := delete_in b;
     insert_in := insert_in b;
     search_job_list := search_job_list b;
     insert_job_list := insert_job_list b;
     num_search_job := num_search_job b;
     num_insert_job := num_insert_job b;
     num_delete_job := num_delete_job b;
     num_compact_search_job := num_compact_search_job b;
     insert_buf := insert_buf b |}.

(** [cudaMemcpyAsync] of [n] elements from index [from] of an array on. *)
Definition elements {A} (l : list A) (from n : Z) : result (list A) :=
  if (0 <=? from) && (0 <=? n) && (from + n <=? Z.of_nat (length l))
  then Ok (take (Z.to_nat n) (drop (Z.to_nat from) l)) else Err OutOfBounds.

Definition copy_back (l : list Z) (r : list Z) : result (list Z) :=
  if (length r <=? length l)%nat then Ok (write_run l 0 r) else Err OutOfBounds.

(** The elements in the order in which the units of a kernel get to them. *)
Definition visited {A} (l : list A) (ids : list Z) : list A := omap (λ i, l !! Z.to_nat i) ids.

Definition words (out : list (Z * Z)) : list Z := concat ((λ o, [o.1; o.2]) <$> out).

Section scheduler.
Context (cfg : mega_config_t) (kind : hash_kind) (winner : list Z → Z) (fuel : nat).

(** The search kernel; an element no unit gets to keeps the zeros of [cudaMemsetAsync]. *)
Definition search_results (t : table) (ids : list Z) (es : list selem_t) : list (Z * Z) :=
  imap (λ i e, if bool_decide (Z.of_nat i ∈ ids) then hash_search_elem winner t e (0, 0) else (0, 0)) es.

Definition gpu_search (t : table) (c : counters) (bf : mega_batch_buf_t)
    : result (counters * mega_batch_buf_t) :=
  let n := num_search_job bf in
  if n =? 0 then Ok (c, bf)
  else
    es ← elements (search_in bf) 0 n;
    '(grid, thread_num) ← gpu_hash_search_launch (GPU_search_thread_num cfg) (GPU_threads_per_blk cfg);
    out ← copy_back (search_out bf) (words (search_results t (kernel_ids grid thread_num n) es));
    Ok (add_search_total c n, set_search_out bf out).

Definition gpu_delete (t : table) (c : counters) (bf : mega_batch_buf_t) : result (counters * table) :=
  let n := num_delete_job bf in
  if n =? 0 then Ok (c, t)
  else
    _ ← assert_ (u32 n <? batch_max_delete_job cfg);
    es ← elements (delete_in bf) 0 n;
    '(grid, thread_num) ← gpu_hash_delete_launch (GPU_delete_thread_num cfg) (GPU_threads_per_blk cfg);
    Ok (add_delete_total c n, hash_delete t (visited es (kernel_ids grid thread_num n))).

(** One block of the insertion kernel per insert buffer. *)
Fixpoint insert_blocks (t : table) (bf : mega_batch_buf_t) (ibufs : list mega_batch_insert_t)
    : result table :=
  match ibufs with
  | [] => Ok t
  | ibuf :: ibufs =>
      es ← elements (insert_in bf) (bi_insert_in ibuf) (bi_num_insert_job ibuf);
      t ← hash_insert kind fuel t (visited es (gpu_hash_insert_ids (bi_num_insert_job ibuf)));
      insert_blocks t bf ibufs
  end.

Definition gpu_insert (t : table) (c : counters) (bf : mega_batch_buf_t) : result (counters * table) :=
  let n := num_insert_job bf in
  if n =? 0 then Ok (c, t)
  else
    _ ← assert_ (u32 n <=? u32 (batch_max_insert_job cfg * INSERT_BLOCK));
    t ← insert_blocks t bf (take (Z.to_nat (num_insert_buf cfg)) (insert_buf bf));
    Ok (add_insert_total c n, t).

(** The three loops over the workers. *)
Fixpoint search_all (t : table) (c : counters) (bufs : list mega_batch_buf_t)
    : result (counters * list mega_batch_buf_t) :=
  match bufs with
  | [] => Ok (c, [])
  | bf :: bufs =>
      '(c, bf) ← gpu_search t c bf;
      '(c, bufs) ← search_all t c bufs;
      Ok (c, bf :: bufs)
  end.

Fixpoint update_all (f : table → counters → mega_batch_buf_t → result (counters * table))
    (t : table) (c : counters) (bufs : list mega_batch_buf_t) : result (counters * table) :=
  match bufs with
  | [] => Ok (c, t)
  | bf :: bufs => '(c, t) ← f t c bf; update_all f t c bufs
  end.

(** From taking the buffers to [cudaDeviceSynchronize]; [bufs] are the workers'
    buffers [gpu_buf_id]. *)
Definition gpu_cycle (t : table) (c : counters) (bufs : list mega_batch_buf_t)
    : result (table * counters * list mega_batch_buf_t) :=
  let c := add_batches c (cpu_worker_num cfg) in
  '(c, bufs) ← search_all t c bufs;
  '(c, t) ← update_all gpu_delete t c bufs;
  '(c, t) ← update_all gpu_insert t c bufs;
  Ok (t, c, bufs).
End scheduler.

(** ** handle_signal *)

(** What is printed, before the divisions. *)
Record report := Report {
  rep_packet_recv : Z;
  rep_packet_send : Z;
  rep_byte_recv : Z;
  rep_byte_send : Z;
  rep_hit : Z;
  rep_miss : Z;
  rep_counters : counters;
  rep_cycles : double;
  rep_subtime : double;
}.

Definition sum_u64 {A} (f : A → Z) (l : list A) : Z := foldl (λ n a, u64 (n + f a)) 0 l.

(** The report and the state after it: the statistics of the Receivers and the
    Senders, the counters, [cycles] and the timer [counter]. *)
Definition handle_signal (tsc1 tsc2 : Z) (counter : mega_timer_t) (receivers : list mega_receiver_t)
    (senders : list mega_sender_t) (c : counters) (cycles : double)
    : report * (list mega_receiver_t * list mega_sender_t * counters * double * mega_timer_t) :=
  let counter := mega_timer_stop tsc1 counter in
  (Report (sum_u64 recv_packets receivers) (sum_u64 total_packets senders)
     (sum_u64 recv_bytes receivers) (sum_u64 total_bytes senders) (sum_u64 hit senders)
     (sum_u64 miss senders) c cycles (mega_timer_get_total_time counter),
   ((λ _, ReceiverStat 0 0) <$> receivers, (λ _, SenderStat 0 0 0 0 0) <$> senders,
    Counters 0 0 0 0, double_of_Z 0, mega_timer_restart tsc2 counter)).

(** ** Lemmas *)

(** The launch parameters of [mega_init_config] satisfy this. *)
Record gpu_ok (cfg : mega_config_t) : Prop := {
  go_blk : 0 < GPU_threads_per_blk cfg ≤ 1024;
  go_search : GPU_threads_per_blk cfg < GPU_search_thread_num cfg ∧ GPU_search_thread_num cfg mod 32 = 0;
  go_delete : GPU_threads_per_blk cfg < GPU_delete_thread_num cfg ∧ GPU_delete_thread_num cfg mod 32 = 0;
}.

Lemma imap_covered {B C} (f g : B → C) (P : Z → bool) (es : list B) (m : nat) :
  (∀ i, (i < length es)%nat → P (Z.of_nat (m + i)) = true) →
  imap (λ i e, if P (Z.of_nat (m + i)) then f e else g e) es = f <$> es.
Proof.
  revert m. induction es as [|e es IH]; intros m H; [done|]. cbn [imap fmap list_fmap].
  rewrite (H 0%nat) by (simpl; lia). f_equal. rewrite <-(IH (S m)).
  - apply imap_ext. intros i x _. simpl. by replace (m + S i)%nat with (S (m + i)) by lia.
  - intros i Hi. replace (S m + i)%nat with (m + S i)%nat by lia. apply H. simpl. lia.
Qed.

Lemma search_results_all winner t ids es :
  (∀ id, 0 ≤ id < Z.of_nat (length es) → id ∈ ids) →
  search_results winner t ids es = hash_search winner t es.
Proof.
  intros H. unfold search_results, hash_search.
  apply (imap_covered (λ e, hash_search_elem winner t e (0, 0)) (λ _, (0, 0)) (λ i : Z, @bool_decide (i ∈ ids) (decide_rel elem_of i ids)) es 0).
  intros i Hi. apply bool_decide_eq_true_2, H. lia.
Qed.

Lemma elements_Ok {A} (l : list A) from n es :
  elements l from n = Ok es →
  0 ≤ from ∧ 0 ≤ n ∧ from + n ≤ Z.of_nat (length l) ∧ es = take (Z.to_nat n) (drop (Z.to_nat from) l).
Proof. unfold elements. cmp_cases; intros [= <-]; auto. Qed.

Lemma elements_in_bounds {A} (l : list A) from n :
  0 ≤ from → 0 ≤ n → from + n ≤ Z.of_nat (length l) →
  elements l from n = Ok (take (Z.to_nat n) (drop (Z.to_nat from) l)).
Proof. intros. unfold elements. by cmp_cases. Qed.

Lemma length_words out : length (words out) = (2 * length out)%nat.
Proof.
  unfold words. induction out as [|o out IH]; [done|]. rewrite fmap_cons, concat_cons, length_app, IH.
  simpl. lia.
Qed.

Lemma words_lookup out i o :
  out !! i = Some o → words out !! (2 * i)%nat = Some o.1 ∧ words out !! (2 * i + 1)%nat = Some o.2.
Proof.
  revert i. induction out as [|o' out IH]; intros [|i] H; try done.
  - by injection H as ->.
  - apply IH in H as [H1 H2]. replace (2 * S i)%nat with (S (S (2 * i))) by lia.
    split; [exact H1 | exact H2].
Qed.

(** *** Counters *)

Definition count (c : counters) (ds di dd db : Z) : counters :=
  Counters (u64 (search_total_job c + ds)) (u64 (insert_total_job c + di))
    (u64 (delete_total_job c + dd)) (u64 (num_each_batch c + db)).

Definition counters_ok (c : counters) : Prop :=
  in_range 64 (search_total_job c) ∧ in_range 64 (insert_total_job c) ∧
  in_range 64 (delete_total_job c) ∧ in_range 64 (num_each_batch c).

Lemma count_ok c ds di dd db : counters_ok (count c ds di dd db).
Proof. split_and!; apply (wrap_range 64); lia. Qed.

Lemma count_count c a1 a2 a3 a4 b1 b2 b3 b4 :
  count (count c a1 a2 a3 a4) b1 b2 b3 b4 = count c (a1 + b1) (a2 + b2) (a3 + b3) (a4 + b4).
Proof. unfold count. simpl. rewrite !wrap_add_l, !Z.add_assoc by lia. done. Qed.

Lemma count_0 c : counters_ok c → count c 0 0 0 0 = c.
Proof.
  intros (H1 & H2 & H3 & H4). unfold count. rewrite !Z.add_0_r, !(wrap_id 64) by done. by destruct c.
Qed.

Lemma add_search_count c n : counters_ok c → add_search_total c n = count c n 0 0 0.
Proof.
  intros (H1 & H2 & H3 & H4). unfold count, add_search_total. rewrite !Z.add_0_r.
  by rewrite (wrap_id 64 _ H2), (wrap_id 64 _ H3), (wrap_id 64 _ H4).
Qed.
Lemma add_insert_count c n : counters_ok c → add_insert_total c n = count c 0 n 0 0.
Proof.
  intros (H1 & H2 & H3 & H4). unfold count, add_insert_total. rewrite !Z.add_0_r.
  by rewrite (wrap_id 64 _ H1), (wrap_id 64 _ H3), (wrap_id 64 _ H4).
Qed.
Lemma add_delete_count c n : counters_ok c → add_delete_total c n = count c 0 0 n 0.
Proof.
  intros (H1 & H2 & H3 & H4). unfold count, add_delete_total. rewrite !Z.add_0_r.
  by rewrite (wrap_id 64 _ H1), (wrap_id 64 _ H2), (wrap_id 64 _ H4).
Qed.
Lemma add_batches_count c n : counters_ok c → add_batches c n = count c 0 0 0 n.
Proof.
  intros (H1 & H2 & H3 & H4). unfold count, add_batches. rewrite !Z.add_0_r.
  by rewrite (wrap_id 64 _ H1), (wrap_id 64 _ H2), (wrap_id 64 _ H3).
Qed.

(** *** The three phases *)

(** A buffer after the search kernel on table [t]. *)
Definition searched_buf (winner : list Z → Z) (t : table) (bf : mega_batch_buf_t) : mega_batch_buf_t :=
  if num_search_job bf =? 0 then bf
  else set_search_out bf (write_run (search_out bf) 0
         (words (hash_search winner t (take (Z.to_nat (num_search_job bf)) (search_in bf))))).

Section phases.
Context (cfg : mega_config_t) (kind : hash_kind) (winner : list Z → Z) (fuel : nat) (Hgpu : gpu_ok cfg).

Lemma gpu_search_spec t c bf c' bf' :
  counters_ok c → gpu_search cfg winner t c bf = Ok (c', bf') →
  c' = count c (num_search_job bf) 0 0 0 ∧ bf' = searched_buf winner t bf.
Proof.
  intros Hc H. unfold gpu_search in H. unfold searched_buf.
  destruct (Z.eqb_spec (num_search_job bf) 0) as [H0|H0].
  { injection H as <- <-. split; [|done]. by rewrite H0, count_0. }
  apply bind_Ok_inv in H as (es & (H1 & H2 & H3 & ->)%elements_Ok & H).
  destruct Hgpu as [Hb [Hs1 Hs2] _].
  destruct (launch_covers_spec (GPU_search_thread_num cfg) (GPU_threads_per_blk cfg) (num_search_job bf))
    as [(grid & Hl & _ & Hids) _]; [done..|].
  rewrite Hl, bind_Ok, drop_0 in H. rewrite search_results_all in H.
  2:{ intros id Hid. apply Hids. rewrite length_take in Hid. lia. }
  apply bind_Ok_inv in H as (out & Hout & [= <- <-]). split; [by apply add_search_count|].
  unfold copy_back in Hout. destruct (_ <=? _)%nat; [|done]. by injection Hout as <-.
Qed.

Lemma search_all_spec t c bufs c' bufs' :
  counters_ok c → search_all cfg winner t c bufs = Ok (c', bufs') →
  c' = count c (zsum num_search_job bufs) 0 0 0 ∧ bufs' = searched_buf winner t <$> bufs.
Proof.
  revert c bufs'. induction bufs as [|bf bufs IH]; intros c bufs' Hc H; simpl in H.
  { injection H as <- <-. simpl. by rewrite count_0. }
  apply bind_Ok_inv in H as ([c1 bf1] & [-> ->]%gpu_search_spec & H); [|done].
  apply bind_Ok_inv in H as ([c2 bufs2] & H & [= <- <-]).
  apply IH in H as [-> ->]; [|apply count_ok]. rewrite count_count. by rewrite !Z.add_0_l.
Qed.

Lemma update_all_spec f (n : mega_batch_buf_t → Z) (g : counters → Z → counters) t c bufs c' t' :
  (∀ t c bf c' t', counters_ok c → f t c bf = Ok (c', t') → c' = g c (n bf)) →
  (∀ c a b, g (g c a) b = g c (a + b)) → (∀ c, counters_ok c → g c 0 = c) →
  (∀ c a, counters_ok (g c a)) →
  counters_ok c → update_all f t c bufs = Ok (c', t') → c' = g c (zsum n bufs).
Proof.
  intros Hf Hg Hg0 Hok. revert t c. induction bufs as [|bf bufs IH]; intros t c Hc H; simpl in H.
  { injection H as <- <-. simpl. by rewrite Hg0. }
  apply bind_Ok_inv in H as ([c1 t1] & H1 & H). apply Hf in H1 as ->; [|done].
  apply IH in H as ->; [|apply Hok]. by rewrite Hg.
Qed.

Lemma gpu_delete_count t c bf c' t' :
  counters_ok c → gpu_delete cfg t c bf = Ok (c', t') → c' = count c 0 0 (num_delete_job bf) 0.
Proof.
  intros Hc H. unfold gpu_delete in H. destruct (Z.eqb_spec (num_delete_job bf) 0) as [H0|H0].
  { injection H as <- <-. by rewrite H0, count_0. }
  apply bind_Ok_inv in H as (u & _ & H). apply bind_Ok_inv in H as (es & _ & H).
  apply bind_Ok_inv in H as ([grid tn] & _ & [= <- <-]). by apply add_delete_count.
Qed.

Lemma gpu_insert_count t c bf c' t' :
  counters_ok c → gpu_insert cfg kind fuel t c bf = Ok (c', t') → c' = count c 0 (num_insert_job bf) 0 0.
Proof.
  intros Hc H. unfold gpu_insert in H. destruct (Z.eqb_spec (num_insert_job bf) 0) as [H0|H0].
  { injection H as <- <-. by rewrite H0, count_0. }
  apply bind_Ok_inv in H as (u & _ & H). apply bind_Ok_inv in H as (t1 & _ & [= <- <-]).
  by apply add_insert_count.
Qed.

Lemma gpu_cycle_spec t c bufs t' c' bufs' :
  counters_ok c → gpu_cycle cfg kind winner fuel t c bufs = Ok (t', c', bufs') →
  bufs' = searched_buf winner t <$> bufs ∧
  c' = count c (zsum num_search_job bufs) (zsum num_insert_job bufs) (zsum num_delete_job bufs)
         (cpu_worker_num cfg).
Proof.
  intros Hc H. unfold gpu_cycle in H. rewrite add_batches_count in H by done.
  apply bind_Ok_inv in H as ([c1 b1] & [-> ->]%search_all_spec & H); [|apply count_ok].
  assert (Hn : ∀ f : mega_batch_buf_t → Z, (∀ bf, f (searched_buf winner t bf) = f bf) →
    zsum f (searched_buf winner t <$> bufs) = zsum f bufs).
  { intros f Hf. clear -Hf. induction bufs as [|bf bufs IH]; [done|].
    rewrite fmap_cons. unfold zsum in *. cbn [foldr]. by rewrite Hf, IH. }
  apply bind_Ok_inv in H as ([c2 t2] & H2 & H).
  apply (update_all_spec _ num_delete_job (λ c n, count c 0 0 n 0)) in H2 as ->; try apply count_ok;
    [|intros; by eapply gpu_delete_count|intros; by rewrite count_count|apply count_0|intros; apply count_ok].
  apply bind_Ok_inv in H as ([c3 t3] & H3 & H).
  apply (update_all_spec _ num_insert_job (λ c n, count c 0 n 0 0)) in H3 as ->; try apply count_ok;
    [|intros; by eapply gpu_insert_count|intros; by rewrite count_count|apply count_0|intros; apply count_ok].
  injection H as <- <- <-. split; [done|]. rewrite !count_count.
  rewrite !Hn by (intros bf; unfold searched_buf; by destruct (_ =? 0)). f_equal; lia.
Qed.
End phases.

(** The search arrays have room for the searches and their results. *)
Definition searchable (bf : mega_batch_buf_t) : Prop :=
  0 ≤ num_search_job bf ≤ Z.of_nat (length (search_in bf)) ∧
  2 * num_search_job bf ≤ Z.of_nat (length (search_out bf)).

(** What the kernels of a cycle need of a buffer: the numbers of jobs are within the
    arrays and within what the assertions allow. *)
Record cycle_buf (cfg : mega_config_t) (bf : mega_batch_buf_t) : Prop := {
  cb_search : searchable bf;
  cb_delete : 0 ≤ num_delete_job bf ≤ Z.of_nat (length (delete_in bf));
  cb_max_delete : u32 (num_delete_job bf) < batch_max_delete_job cfg;
  cb_max_insert : u32 (num_insert_job bf) ≤ u32 (batch_max_insert_job cfg * INSERT_BLOCK);
  cb_insert : Forall (λ ib, 0 ≤ bi_insert_in ib ∧ 0 ≤ bi_num_insert_job ib ∧
      bi_insert_in ib + bi_num_insert_job ib ≤ Z.of_nat (length (insert_in bf))) (insert_buf bf);
}.


Section total.
Context (cfg : mega_config_t) (kind : hash_kind) (winner : list Z → Z) (fuel : nat) (Hgpu : gpu_ok cfg).

Lemma gpu_search_total t c bf : searchable bf → ∃ c' bf', gpu_search cfg winner t c bf = Ok (c', bf').
Proof.
  intros [Hin Hout]. unfold gpu_search. destruct (Z.eqb_spec (num_search_job bf) 0); [by eexists _, _|].
  rewrite elements_in_bounds, bind_Ok by lia. destruct Hgpu as [Hb [Hs1 Hs2] _].
  destruct (launch_covers_spec (GPU_search_thread_num cfg) (GPU_threads_per_blk cfg) (num_search_job bf))
    as [(grid & Hl & _) _]; [done|done|done|lia|].
  rewrite Hl, bind_Ok. unfold copy_back. rewrite length_words. unfold search_results.
  rewrite length_imap, length_take, drop_0.
  rewrite (proj2 (Nat.leb_le _ _)) by lia. rewrite bind_Ok. by eexists _, _.
Qed.

Lemma search_all_total t c bufs :
  Forall searchable bufs → ∃ c' bufs', search_all cfg winner t c bufs = Ok (c', bufs').
Proof.
  intros Hb. revert c. induction Hb as [|bf bufs Hbf _ IH]; intros c; [by eexists _, _|].
  destruct (gpu_search_total t c bf Hbf) as (c1 & bf1 & H1). destruct (IH c1) as (c2 & bufs2 & H2).
  cbn [search_all]. rewrite H1, bind_Ok, H2, bind_Ok. by eexists _, _.
Qed.

Lemma searched_cycle_buf t bf : cycle_buf cfg bf → cycle_buf cfg (searched_buf winner t bf).
Proof.
  intros H. unfold searched_buf. destruct (_ =? 0); [done|]. destruct H as [[Hin Hout]].
  split; try done. split; [done|]. simpl. rewrite write_run_length; [done|].
  rewrite length_words. unfold hash_search. rewrite length_fmap, length_take. lia.
Qed.

(** What every deletion and insertion keeps, the whole cycle keeps. *)
Context (Keeps : table → Prop).
Context (Hdel : ∀ t es, Keeps t → Keeps (hash_delete t es)).
Context (Hins : ∀ t es, Keeps t → ∃ t', hash_insert kind (6 + fuel) t es = Ok t' ∧ Keeps t').

Lemma gpu_delete_total t c bf :
  Keeps t → cycle_buf cfg bf → ∃ c' t', gpu_delete cfg t c bf = Ok (c', t') ∧ Keeps t'.
Proof.
  intros Ht [_ Hd Hmax _ _]. unfold gpu_delete.
  destruct (Z.eqb_spec (num_delete_job bf) 0); [by eexists _, _|].
  rewrite assert_true, bind_Ok by (by apply Z.ltb_lt). rewrite elements_in_bounds, bind_Ok by lia.
  destruct Hgpu as [Hb _ [Hs1 Hs2]].
  destruct (launch_covers_spec (GPU_delete_thread_num cfg) (GPU_threads_per_blk cfg) (num_delete_job bf))
    as [(grid & _ & Hl & _) _]; [done|done|done|lia|].
  rewrite Hl, bind_Ok. eexists _, _. split; [done|]. by apply Hdel.
Qed.

Lemma insert_blocks_total t bf l :
  Keeps t → cycle_buf cfg bf → Forall (λ ib, ib ∈ insert_buf bf) l →
  ∃ t', insert_blocks kind (6 + fuel) t bf l = Ok t' ∧ Keeps t'.
Proof.
  intros Ht Hbf Hl. revert t Ht. induction Hl as [|ib l Hib _ IH]; intros t Ht; [by exists t|].
  destruct (proj1 (Forall_forall _ _) (cb_insert _ _ Hbf) ib Hib) as (H1 & H2 & H3).
  cbn [insert_blocks]. rewrite elements_in_bounds, bind_Ok by lia.
  destruct (Hins t (visited (take (Z.to_nat (bi_num_insert_job ib))
    (drop (Z.to_nat (bi_insert_in ib)) (insert_in bf))) (gpu_hash_insert_ids (bi_num_insert_job ib))))
    as (t1 & Ht1 & Hwf); [done|].
  rewrite Ht1, bind_Ok. by apply IH.
Qed.

Lemma gpu_insert_total t c bf :
  Keeps t → cycle_buf cfg bf → ∃ c' t', gpu_insert cfg kind (6 + fuel) t c bf = Ok (c', t') ∧ Keeps t'.
Proof.
  intros Ht Hbf. unfold gpu_insert. destruct (Z.eqb_spec (num_insert_job bf) 0); [by eexists _, _|].
  rewrite assert_true, bind_Ok by (apply Z.leb_le, Hbf).
  destruct (insert_blocks_total t bf (take (Z.to_nat (num_insert_buf cfg)) (insert_buf bf))) as (t' & H & Hwf);
    [done|done| |].
  { apply Forall_forall. intros ib Hib. by apply (subseteq_take (Z.to_nat (num_insert_buf cfg))). }
  rewrite H, bind_Ok. by eexists _, _.
Qed.

Lemma update_all_total f t c bufs :
  (∀ t c bf, Keeps t → cycle_buf cfg bf → ∃ c' t', f t c bf = Ok (c', t') ∧ Keeps t') →
  Keeps t → Forall (cycle_buf cfg) bufs → ∃ c' t', update_all f t c bufs = Ok (c', t') ∧ Keeps t'.
Proof.
  intros Hf Ht Hb. revert t c Ht. induction Hb as [|bf bufs Hbf _ IH]; intros t c Ht; [by eexists _, _|].
  destruct (Hf t c bf Ht Hbf) as (c1 & t1 & H1 & Ht1). cbn [update_all]. rewrite H1, bind_Ok. by apply IH.
Qed.

Lemma gpu_cycle_keeps t c bufs :
  Keeps t → counters_ok c → Forall (cycle_buf cfg) bufs →
  ∃ t' c' bufs', gpu_cycle cfg kind winner (6 + fuel) t c bufs = Ok (t', c', bufs') ∧ Keeps t'.
Proof.
  intros Ht Hc Hb. unfold gpu_cycle.
  destruct (search_all_total t (add_batches c (cpu_worker_num cfg)) bufs) as (c1 & bufs1 & H1).
  { eapply Forall_impl; [exact Hb|]. intros bf. apply cb_search. }
  rewrite H1, bind_Ok. apply search_all_spec in H1 as [_ ->]; [|done|rewrite add_batches_count by done; apply count_ok].
  assert (Hb' : Forall (cycle_buf cfg) (searched_buf winner t <$> bufs)).
  { apply Forall_fmap. eapply Forall_impl; [exact Hb|]. intros bf. apply searched_cycle_buf. }
  destruct (update_all_total (gpu_delete cfg) t c1 _ gpu_delete_total Ht Hb') as (c2 & t2 & -> & Ht2).
  rewrite bind_Ok.
  destruct (update_all_total (gpu_insert cfg kind (6 + fuel)) t2 c2 _ gpu_insert_total Ht2 Hb')
    as (c3 & t3 & -> & Ht3).
  rewrite bind_Ok. by eexists _, _, _.
Qed.
End total.

Lemma gpu_cycle_total cfg kind winner fuel t c bufs :
  gpu_ok cfg → table_wf t → counters_ok c → Forall (cycle_buf cfg) bufs →
  ∃ t' c' bufs', gpu_cycle cfg kind winner (6 + fuel) t c bufs = Ok (t', c', bufs') ∧ table_wf t'.
Proof. intros Hgpu. apply gpu_cycle_keeps; [done|exact hash_delete_wf|exact (hash_insert_total kind fuel)]. Qed.

Lemma gpu_cycle_shape cfg kind winner fuel t c bufs :
  gpu_ok cfg → table_shape t → counters_ok c → Forall (cycle_buf cfg) bufs →
  ∃ t' c' bufs', gpu_cycle cfg kind winner (6 + fuel) t c bufs = Ok (t', c', bufs') ∧ table_shape t'.
Proof. intros Hgpu. apply gpu_cycle_keeps; [done|exact hash_delete_shape|exact (shape_insert_total kind fuel)]. Qed.

(** *** Searches and insertions against the index *)

(** The two words of search [i], where the Senders read them. *)
Lemma search_words l out i o :
  (2 * length out ≤ length l)%nat → 0 ≤ i < 2 ^ 30 → out !! Z.to_nat i = Some o →
  arr_get (write_run l 0 (words out)) (u32 (Z.shiftl i 1)) = Ok o.1 ∧
  arr_get (write_run l 0 (words out)) (u32 (u32 (Z.shiftl i 1) + 1)) = Ok o.2.
Proof.
  intros Hl Hi Ho. destruct (words_lookup _ _ _ Ho) as [H1 H2].
  pose proof (lookup_lt_Some _ _ _ Ho) as Hlt. rewrite Z.shiftl_mul_pow2 by lia.
  rewrite (wrap_id 32 (i * 2 ^ 1)), (wrap_id 32 (i * 2 ^ 1 + 1)) by (unfold in_range; lia).
  assert (Hget : ∀ k v, words out !! k = Some v → write_run l 0 (words out) !! k = Some v).
  { intros k v Hk. pose proof (lookup_lt_Some _ _ _ Hk). rewrite length_words in *.
    rewrite write_run_lookup by (rewrite length_words; lia).
    rewrite decide_True by (rewrite length_words; lia). by rewrite Nat.sub_0_r. }
  split; apply arr_get_lookup; try lia; apply Hget.
  - by replace (Z.to_nat (i * 2 ^ 1)) with (2 * Z.to_nat i)%nat by lia.
  - by replace (Z.to_nat (i * 2 ^ 1 + 1)) with (2 * Z.to_nat i + 1)%nat by lia.
Qed.

Lemma result_loc_words l l' out i o :
  l' = write_run l 0 (words out) → (2 * length out ≤ length l)%nat → 0 ≤ i < 2 ^ 30 →
  out !! Z.to_nat i = Some o → result_loc l' i = Ok (found o).
Proof.
  intros -> Hl Hi Ho. destruct (search_words l out i o Hl Hi Ho) as [H1 H2]. unfold result_loc.
  rewrite H1, bind_Ok. unfold found. by destruct (o.1 =? 0).
Qed.

(** Every search of a buffer has its answer from table [t] in [search_out]. *)
Definition answers (w : winner_t) (t : table) (bf : mega_batch_buf_t) : Prop :=
  ∀ i x, 0 ≤ i < num_search_job bf → search_in bf !! Z.to_nat i = Some x →
    result_loc (search_out bf) i = Ok (gpu_find w t x).

Lemma searched_answers w t bf :
  searchable bf → num_search_job bf < 2 ^ 30 → answers w t (searched_buf (win w) t bf).
Proof.
  intros [Hin Hout] Hmax i x. unfold searched_buf.
  destruct (Z.eqb_spec (num_search_job bf) 0); [lia|]. simpl. intros Hi Hx.
  apply (result_loc_words (search_out bf) _
    (hash_search (win w) t (take (Z.to_nat (num_search_job bf)) (search_in bf))) i
    (hash_search_elem (win w) t x (0, 0)) eq_refl).
  - unfold hash_search. rewrite length_fmap, length_take. lia.
  - lia.
  - unfold hash_search. by rewrite list_lookup_fmap, lookup_take_lt, Hx by lia.
Qed.

Lemma searched_words winner t bf i x :
  searchable bf → num_search_job bf < 2 ^ 30 → 0 ≤ i < num_search_job bf → search_in bf !! Z.to_nat i = Some x →
  let out := search_out (searched_buf winner t bf) in
  let o := hash_search_elem winner t x (0, 0) in
  arr_get out (u32 (Z.shiftl i 1)) = Ok o.1 ∧ arr_get out (u32 (u32 (Z.shiftl i 1) + 1)) = Ok o.2.
Proof.
  intros [Hin Hout] Hmax Hi Hx. unfold searched_buf. destruct (Z.eqb_spec (num_search_job bf) 0); [lia|].
  apply search_words; unfold hash_search; rewrite ?length_fmap, ?length_take; try lia.
  by rewrite list_lookup_fmap, lookup_take_lt, Hx by lia.
Qed.

(** What the Sender reads for search [i] of a buffer that was searched in a table
    that represents [m]. *)
Lemma searched_result w kind fuel hash_of t m bf i x :
  represents (Ix := gpu_location_index w kind fuel) hash_of t m →
  0 < num_search_job bf < 2 ^ 30 → num_search_job bf ≤ Z.of_nat (length (search_in bf)) →
  2 * num_search_job bf ≤ Z.of_nat (length (search_out bf)) →
  0 ≤ i < num_search_job bf → search_in bf !! Z.to_nat i = Some x →
  s_sig x ≠ 0 → s_hash x = hash_of (s_sig x) →
  result_loc (search_out (searched_buf (win w) t bf)) i = Ok (default 0 (m !! s_sig x)).
Proof.
  intros [_ Hm] Hn Hin Hout Hi Hx Hs Hh. rewrite (searched_answers w t bf) with (x := x).
  - f_equal. rewrite <-Hm by done. rewrite <-Hh. by destruct x.
  - split; lia.
  - lia.
  - unfold searched_buf. by destruct (_ =? 0).
  - unfold searched_buf. by destruct (_ =? 0).
Qed.

Lemma searched_results w kind fuel hash_of cfg t m bufs :
  represents (Ix := gpu_location_index w kind fuel) hash_of t m → Forall (cycle_buf cfg) bufs →
  ∀ b bf i x, bufs !! b = Some bf → 0 ≤ i < num_search_job bf → num_search_job bf < 2 ^ 30 →
    search_in bf !! Z.to_nat i = Some x → s_sig x ≠ 0 → s_hash x = hash_of (s_sig x) →
    ∃ bf', (searched_buf (win w) t <$> bufs) !! b = Some bf' ∧ search_in bf' = search_in bf ∧
      result_loc (search_out bf') i = Ok (default 0 (m !! s_sig x)).
Proof.
  intros Hr Hb b bf i x Hbf Hi Hn Hx Hs Hh.
  destruct (cb_search _ _ (Forall_lookup_1 _ _ _ _ Hb Hbf)) as [Hin Hout].
  exists (searched_buf (win w) t bf). split; [by rewrite list_lookup_fmap, Hbf|].
  split; [by unfold searched_buf; destruct (_ =? 0)|].
  by apply (searched_result w kind fuel hash_of t m bf i x); [|lia|lia|..].
Qed.

(** An insert buffer without elements. *)
Definition idle (bf : mega_batch_buf_t) (ib : mega_batch_insert_t) : Prop :=
  bi_num_insert_job ib = 0 ∧ 0 ≤ bi_insert_in ib ≤ Z.of_nat (length (insert_in bf)).

Lemma insert_blocks_idle kind fuel t bf l : Forall (idle bf) l → insert_blocks kind fuel t bf l = Ok t.
Proof.
  intros Hl. induction Hl as [|ib l [H0 Hin] _ IH]; [done|]. simpl. rewrite H0.
  rewrite elements_in_bounds, bind_Ok by lia. exact IH.
Qed.

Lemma insert_blocks_app kind fuel t bf l1 l2 :
  insert_blocks kind fuel t bf (l1 ++ l2) =
  (t ← insert_blocks kind fuel t bf l1; insert_blocks kind fuel t bf l2).
Proof.
  revert t. induction l1 as [|ib l1 IH]; intros t; [done|]. simpl.
  destruct (elements _ _ _); [|done]. rewrite !bind_Ok.
  destruct (hash_insert _ _ _ _); [|done]. rewrite !bind_Ok. apply IH.
Qed.

(** A buffer with a single insertion. *)
Lemma insert_blocks_one kind fuel t bf blk ib p e :
  0 ≤ blk → insert_buf bf !! Z.to_nat blk = Some ib →
  Forall (idle bf) (insert_buf bf) → bi_insert_in ib < Z.of_nat (length (insert_in bf)) →
  let bf' := add_elem blk ib p e bf in
  insert_blocks kind fuel t bf' (insert_buf bf') = hash_insert_elem kind alone fuel t e.
Proof.
  intros Hblk Hib Hidle Hlt bf'. pose proof (lookup_lt_Some _ _ _ Hib) as Hlen.
  destruct (Forall_lookup_1 _ _ _ _ Hidle Hib) as [H0 [Hin _]].
  assert (Hi : ∀ l, Forall (idle bf) l → Forall (idle bf') l).
  { intros l Hl. eapply Forall_impl; [exact Hl|]. intros ib' [? ?]. split; [done|].
    unfold bf', add_elem. simpl. by rewrite length_insert. }
  assert (insert_buf bf' = take (Z.to_nat blk) (insert_buf bf) ++
    set_num_insert ib 1 :: drop (S (Z.to_nat blk)) (insert_buf bf)) as ->.
  { unfold bf', add_elem. simpl. by rewrite H0, insert_take_drop. }
  rewrite insert_blocks_app, insert_blocks_idle by (by apply Hi, Forall_take). rewrite bind_Ok.
  cbn [insert_blocks bi_insert_in bi_num_insert_job set_num_insert].
  assert (insert_in bf' = <[Z.to_nat (bi_insert_in ib) := e]> (insert_in bf)) as ->.
  { unfold bf', add_elem. simpl. by rewrite H0, Z.add_0_r. }
  rewrite elements_in_bounds by (rewrite ?length_insert; lia). rewrite bind_Ok.
  rewrite drop_insert_ge, Nat.sub_diag by lia.
  destruct (drop (Z.to_nat (bi_insert_in ib)) (insert_in bf)) as [|e0 l] eqn:Ed.
  { apply (f_equal length) in Ed. rewrite length_drop in Ed. simpl in Ed. lia. }
  assert (visited (take (Z.to_nat 1) (<[0%nat := e]> (e0 :: l))) (gpu_hash_insert_ids 1) = [e]) as ->
    by (vm_compute; reflexivity).
  cbn [hash_insert]. destruct (hash_insert_elem _ _ _ _ _) as [t1|]; [|done]. rewrite !bind_Ok.
  apply insert_blocks_idle. apply Hi. by apply Forall_drop.
Qed.

Lemma item_pointer_slab cfg cs loc p : slab_loc_to_ptr cfg cs loc = Ok p → item_pointer cfg cs loc = Ok p.
Proof.
  unfold slab_loc_to_ptr, item_pointer. intros H.
  apply bind_Ok_inv in H as (u & _ & H). apply bind_Ok_inv in H as (c & -> & H). rewrite bind_Ok.
  by apply bind_Ok_inv in H as (u' & _ & H).
Qed.

(** *** A cycle with one insertion *)

Definition no_updates (bf : mega_batch_buf_t) : Prop := num_delete_job bf = 0 ∧ num_insert_job bf = 0.

Lemma update_all_app f t c l1 l2 :
  update_all f t c (l1 ++ l2) = ('(c, t) ← update_all f t c l1; update_all f t c l2).
Proof.
  revert t c. induction l1 as [|bf l1 IH]; intros t c; [done|]. cbn [update_all app].
  destruct (f t c bf) as [[c1 t1]|]; [|done]. rewrite !bind_Ok. apply IH.
Qed.

Lemma update_all_id f t c bufs :
  Forall (λ bf, ∀ t c, f t c bf = Ok (c, t)) bufs → update_all f t c bufs = Ok (c, t).
Proof. intros H. induction H as [|bf bufs Hbf _ IH]; [done|]. cbn [update_all]. by rewrite Hbf, bind_Ok. Qed.

Lemma insert_blocks_ext kind fuel t bf bf' l :
  insert_in bf = insert_in bf' → insert_blocks kind fuel t bf l = insert_blocks kind fuel t bf' l.
Proof.
  intros H. revert t. induction l as [|ib l IH]; intros t; [done|]. cbn [insert_blocks]. rewrite H.
  destruct (elements _ _ _); [|done]. rewrite !bind_Ok.
  destruct (hash_insert _ _ _ _); [|done]. rewrite !bind_Ok. apply IH.
Qed.

Lemma searched_fields winner t bf :
  let bf' := searched_buf winner t bf in
  num_delete_job bf' = num_delete_job bf ∧ num_insert_job bf' = num_insert_job bf ∧
  insert_in bf' = insert_in bf ∧ insert_buf bf' = insert_buf bf.
Proof. unfold searched_buf. by destruct (_ =? 0). Qed.

(** The buffer [add_elem blk ib p e bf] of one worker has the only insertion of the
    cycle, and there are no deletions. *)
Record lone_insert (cfg : mega_config_t) (blk : Z) (ib : mega_batch_insert_t) (bf : mega_batch_buf_t)
    : Prop := {
  li_blk : 0 ≤ blk ∧ insert_buf bf !! Z.to_nat blk = Some ib;
  li_idle : Forall (idle bf) (insert_buf bf) ∧ bi_insert_in ib < Z.of_nat (length (insert_in bf));
  li_quiet : no_updates bf;
  li_max : 1 ≤ u32 (batch_max_insert_job cfg * INSERT_BLOCK);
  li_bufs : Z.of_nat (length (insert_buf bf)) ≤ num_insert_buf cfg;
}.

Lemma deletes_skipped cfg winner t l :
  Forall (λ bf, num_delete_job bf = 0) l →
  Forall (λ bf, ∀ t c, gpu_delete cfg t c bf = Ok (c, t)) (searched_buf winner t <$> l).
Proof.
  intros Hl. apply Forall_fmap. eapply Forall_impl; [exact Hl|]. intros bf Hb t0 c0. simpl.
  unfold gpu_delete. destruct (searched_fields winner t bf) as [-> _]. by rewrite Hb.
Qed.

Lemma inserts_skipped cfg kind fuel winner t l :
  Forall no_updates l →
  Forall (λ bf, ∀ t c, gpu_insert cfg kind fuel t c bf = Ok (c, t)) (searched_buf winner t <$> l).
Proof.
  intros Hl. apply Forall_fmap. eapply Forall_impl; [exact Hl|]. intros bf [_ Hb] t0 c0. simpl.
  unfold gpu_insert. destruct (searched_fields winner t bf) as (_ & -> & _). by rewrite Hb.
Qed.

(** *** A cycle with any updates *)

(** The deletions and the insertions of a buffer, in the order in which the units of the
    kernels get to them. *)
Definition gpu_deletes (cfg : mega_config_t) (bf : mega_batch_buf_t) : list ielem_t :=
  match gpu_hash_delete_launch (GPU_delete_thread_num cfg) (GPU_threads_per_blk cfg) with
  | Ok (grid, n) =>
      visited (take (Z.to_nat (num_delete_job bf)) (delete_in bf)) (kernel_ids grid n (num_delete_job bf))
  | Err _ => []
  end.

Definition block_inserts (bf : mega_batch_buf_t) (ib : mega_batch_insert_t) : list ielem_t :=
  visited (take (Z.to_nat (bi_num_insert_job ib)) (drop (Z.to_nat (bi_insert_in ib)) (insert_in bf)))
    (gpu_hash_insert_ids (bi_num_insert_job ib)).

Definition gpu_inserts (cfg : mega_config_t) (bf : mega_batch_buf_t) : list ielem_t :=
  if num_insert_job bf =? 0 then []
  else concat (block_inserts bf <$> take (Z.to_nat (num_insert_buf cfg)) (insert_buf bf)).

(** Nothing is left out of the deletions, and nothing is added. *)
Lemma elem_of_gpu_deletes cfg bf e :
  gpu_ok cfg → 0 ≤ num_delete_job bf ≤ Z.of_nat (length (delete_in bf)) →
  e ∈ gpu_deletes cfg bf ↔ e ∈ take (Z.to_nat (num_delete_job bf)) (delete_in bf).
Proof.
  intros [Hb _ [Hs1 Hs2]] Hn. unfold gpu_deletes.
  destruct (launch_covers_spec (GPU_delete_thread_num cfg) (GPU_threads_per_blk cfg) (num_delete_job bf))
    as [(grid & _ & -> & Hids) _]; [done|done|done|lia|].
  unfold visited. rewrite list_elem_of_omap. split.
  - intros (i & _ & Hi). by eapply list_elem_of_lookup_2.
  - intros [i Hi]%list_elem_of_lookup_1. exists (Z.of_nat i). rewrite Nat2Z.id. split; [|done]. apply Hids.
    apply lookup_lt_Some in Hi. rewrite length_take in Hi. lia.
Qed.

Lemma hash_insert_app kind fuel t l1 l2 :
  hash_insert kind fuel t (l1 ++ l2) = (t ← hash_insert kind fuel t l1; hash_insert kind fuel t l2).
Proof.
  revert t. induction l1 as [|e l1 IH]; intros t; [done|]. cbn [app hash_insert].
  destruct (hash_insert_elem _ _ _ _ _); [|done]. rewrite !bind_Ok. apply IH.
Qed.

Section updates.
Context (cfg : mega_config_t) (kind : hash_kind) (winner : list Z → Z) (fuel : nat) (Hgpu : gpu_ok cfg).

(** The deletions of the buffer fit into it. *)
Definition deletable (bf : mega_batch_buf_t) : Prop :=
  num_delete_job bf = 0 ∨
  0 ≤ num_delete_job bf ≤ Z.of_nat (length (delete_in bf)) ∧ u32 (num_delete_job bf) < batch_max_delete_job cfg.

Lemma cycle_buf_deletable bf : cycle_buf cfg bf → deletable bf.
Proof. intros [_ Hd Hmax _ _]. by right. Qed.

Lemma gpu_deletes_none bf : num_delete_job bf = 0 → gpu_deletes cfg bf = [].
Proof.
  intros H0. unfold gpu_deletes. rewrite H0. destruct (gpu_hash_delete_launch _ _) as [[grid n]|]; [|done].
  simpl take. unfold visited. by induction (kernel_ids _ _ _).
Qed.

Lemma gpu_delete_list t c bf :
  deletable bf → ∃ c', gpu_delete cfg t c bf = Ok (c', hash_delete t (gpu_deletes cfg bf)).
Proof.
  intros [H0|[Hd Hmax]].
  { exists c. rewrite gpu_deletes_none by done. unfold gpu_delete. by rewrite H0. }
  unfold gpu_delete, gpu_deletes. destruct Hgpu as [Hb _ [Hs1 Hs2]].
  destruct (launch_covers_spec (GPU_delete_thread_num cfg) (GPU_threads_per_blk cfg) (num_delete_job bf))
    as [(grid & _ & -> & _) _]; [done|done|done|lia|].
  destruct (Z.eqb_spec (num_delete_job bf) 0) as [H0|H0].
  { exists c. rewrite H0. simpl take. do 2 f_equal. unfold visited. by induction (kernel_ids _ _ _). }
  rewrite assert_true, bind_Ok by (by apply Z.ltb_lt). rewrite elements_in_bounds, bind_Ok by lia.
  rewrite bind_Ok, drop_0. by eexists.
Qed.

Lemma insert_blocks_list t bf l :
  Forall (λ ib, 0 ≤ bi_insert_in ib ∧ 0 ≤ bi_num_insert_job ib ∧
    bi_insert_in ib + bi_num_insert_job ib ≤ Z.of_nat (length (insert_in bf))) l →
  insert_blocks kind fuel t bf l = hash_insert kind fuel t (concat (block_inserts bf <$> l)).
Proof.
  intros Hl. revert t. induction Hl as [|ib l (H1 & H2 & H3) _ IH]; intros t; [done|].
  cbn [insert_blocks]. rewrite elements_in_bounds, bind_Ok by lia. rewrite fmap_cons, concat_cons, hash_insert_app.
  fold (block_inserts bf ib). destruct (hash_insert kind fuel t (block_inserts bf ib)); [|done]. rewrite !bind_Ok. apply IH.
Qed.

Lemma gpu_insert_list t c bf :
  cycle_buf cfg bf →
  ∃ c', gpu_insert cfg kind fuel t c bf = (t ← hash_insert kind fuel t (gpu_inserts cfg bf); Ok (c', t)).
Proof.
  intros [_ _ _ Hmax Hib]. unfold gpu_insert, gpu_inserts. destruct (Z.eqb_spec (num_insert_job bf) 0).
  { by exists c. }
  rewrite assert_true, bind_Ok by (by apply Z.leb_le). eexists. rewrite insert_blocks_list by (by apply Forall_take). done.
Qed.

Lemma update_all_deletes t c bufs :
  Forall deletable bufs →
  ∃ c', update_all (gpu_delete cfg) t c bufs = Ok (c', hash_delete t (concat (gpu_deletes cfg <$> bufs))).
Proof.
  intros Hb. revert t c. induction Hb as [|bf bufs Hbf _ IH]; intros t c; [by exists c|].
  cbn [update_all]. destruct (gpu_delete_list t c bf Hbf) as (c1 & ->). rewrite bind_Ok.
  destruct (IH (hash_delete t (gpu_deletes cfg bf)) c1) as (c2 & ->). exists c2.
  rewrite fmap_cons, concat_cons. unfold hash_delete. by rewrite foldl_app.
Qed.

Lemma update_all_inserts t c bufs t' :
  Forall (cycle_buf cfg) bufs → hash_insert kind fuel t (concat (gpu_inserts cfg <$> bufs)) = Ok t' →
  ∃ c', update_all (gpu_insert cfg kind fuel) t c bufs = Ok (c', t').
Proof.
  intros Hb. revert t c. induction Hb as [|bf bufs Hbf _ IH]; intros t c H; [injection H as <-; by exists c|].
  rewrite fmap_cons, concat_cons, hash_insert_app in H. apply bind_Ok_inv in H as (t1 & H1 & H).
  cbn [update_all]. destruct (gpu_insert_list t c bf Hbf) as (c1 & ->). rewrite H1, !bind_Ok. by apply IH.
Qed.

(** The updates of a searched buffer are those of the buffer. *)
Lemma searched_updates t bf :
  gpu_deletes cfg (searched_buf winner t bf) = gpu_deletes cfg bf ∧
  gpu_inserts cfg (searched_buf winner t bf) = gpu_inserts cfg bf.
Proof. unfold searched_buf. by destruct (_ =? 0). Qed.

Lemma gpu_cycle_updates t c bufs t' :
  counters_ok c → Forall (cycle_buf cfg) bufs →
  hash_insert kind fuel (hash_delete t (concat (gpu_deletes cfg <$> bufs))) (concat (gpu_inserts cfg <$> bufs)) = Ok t' →
  ∃ c', gpu_cycle cfg kind winner fuel t c bufs = Ok (t', c', searched_buf winner t <$> bufs).
Proof.
  intros Hc Hb Hins. unfold gpu_cycle.
  destruct (search_all_total cfg winner Hgpu t (add_batches c (cpu_worker_num cfg)) bufs) as (c1 & bufs1 & H1).
  { eapply Forall_impl; [exact Hb|]. intros bf. apply cb_search. }
  rewrite H1, bind_Ok. apply search_all_spec in H1 as [_ ->]; [|done|rewrite add_batches_count by done; apply count_ok].
  assert (Hb' : Forall (cycle_buf cfg) (searched_buf winner t <$> bufs)).
  { apply Forall_fmap. eapply Forall_impl; [exact Hb|]. intros bf. apply searched_cycle_buf. }
  destruct (update_all_deletes t c1 (searched_buf winner t <$> bufs)) as (c2 & ->).
  { eapply Forall_impl; [exact Hb'|]. exact cycle_buf_deletable. }
  rewrite bind_Ok.
  assert (Hd : concat (gpu_deletes cfg <$> (searched_buf winner t <$> bufs)) = concat (gpu_deletes cfg <$> bufs)).
  { f_equal. rewrite <-list_fmap_compose. apply list_fmap_ext. intros i bf _. apply searched_updates. }
  assert (Hi : concat (gpu_inserts cfg <$> (searched_buf winner t <$> bufs)) = concat (gpu_inserts cfg <$> bufs)).
  { f_equal. rewrite <-list_fmap_compose. apply list_fmap_ext. intros i bf _. apply searched_updates. }
  rewrite Hd. rewrite <-Hi in Hins. destruct (update_all_inserts _ c2 _ t' Hb' Hins) as (c3 & ->).
  rewrite bind_Ok. by exists c3.
Qed.

(** One insertion, and the deletions of the same buffer. *)
Lemma gpu_cycle_one_insert t t' c bufs1 bufs2 blk ib p e bf d n :
  let bf' := set_deletes (add_elem blk ib p e bf) d n in
  let bufs := bufs1 ++ bf' :: bufs2 in
  lone_insert cfg blk ib bf → counters_ok c → Forall searchable bufs →
  Forall no_updates bufs1 → Forall no_updates bufs2 → deletable bf' →
  hash_insert_elem kind alone fuel (hash_delete t (gpu_deletes cfg bf')) e = Ok t' →
  ∃ c', gpu_cycle cfg kind winner fuel t c bufs = Ok (t', c', searched_buf winner t <$> bufs).
Proof.
  intros bf' bufs [[Hblk Hib] [Hidle Hin] [_ Hi] Hmax Hbufs] Hc Hs H1 H2 Hdel Hins.
  unfold gpu_cycle.
  destruct (search_all_total cfg winner Hgpu t (add_batches c (cpu_worker_num cfg)) _ Hs) as (c1 & bufs' & Hsearch).
  rewrite Hsearch, bind_Ok. apply search_all_spec in Hsearch as [_ ->];
    [|done|rewrite add_batches_count by done; apply count_ok].
  assert (Hd0 : ∀ l, Forall no_updates l → Forall (λ bf, num_delete_job bf = 0) l)
    by (intros l Hl; eapply Forall_impl; [exact Hl|]; by intros b [? _]).
  unfold bufs. rewrite fmap_app, fmap_cons, !update_all_app, (update_all_id _ _ _ _ (deletes_skipped _ _ _ _ (Hd0 _ H1))), bind_Ok.
  cbn [update_all]. destruct (searched_updates t bf') as [Hsd _].
  destruct (gpu_delete_list t c1 (searched_buf winner t bf')) as (c2 & ->).
  { destruct (searched_fields winner t bf') as (Hn & _). unfold deletable. rewrite Hn. unfold searched_buf. by destruct (_ =? 0). }
  rewrite Hsd, bind_Ok, (update_all_id _ _ _ _ (deletes_skipped _ _ _ _ (Hd0 _ H2))), bind_Ok.
  set (t1 := hash_delete _ _) in *. rewrite update_all_app, (update_all_id _ _ _ _ (inserts_skipped _ _ _ _ _ _ H1)), bind_Ok.
  cbn [update_all].
  assert (Hone : ∀ c, gpu_insert cfg kind fuel t1 c (searched_buf winner t bf') = Ok (add_insert_total c 1, t')).
  { intros c0. unfold gpu_insert. destruct (searched_fields winner t bf') as (_ & -> & Hii & ->).
    replace (num_insert_job bf') with 1 by (unfold bf'; simpl; lia). cbn [Z.eqb].
    rewrite assert_true, bind_Ok by (by apply Z.leb_le).
    rewrite (insert_blocks_ext _ _ _ _ (add_elem blk ib p e bf)) by (by rewrite Hii).
    rewrite take_ge by (unfold bf'; simpl; rewrite length_insert; lia). change (insert_buf bf') with (insert_buf (add_elem blk ib p e bf)).
    rewrite (insert_blocks_one kind fuel t1 bf blk ib p e) by done. by rewrite Hins, bind_Ok. }
  rewrite Hone, bind_Ok, (update_all_id _ _ _ _ (inserts_skipped _ _ _ _ _ _ H2)), bind_Ok.
  by eexists.
Qed.

(** One insertion, and no deletions. *)
Lemma gpu_cycle_lone_insert t t' c bufs1 bufs2 blk ib p e bf :
  let bf' := add_elem blk ib p e bf in
  lone_insert cfg blk ib bf → counters_ok c →
  Forall searchable (bufs1 ++ bf' :: bufs2) → Forall no_updates bufs1 → Forall no_updates bufs2 →
  hash_insert_elem kind alone fuel t e = Ok t' →
  ∃ c', gpu_cycle cfg kind winner fuel t c (bufs1 ++ bf' :: bufs2) =
    Ok (t', c', searched_buf winner t <$> (bufs1 ++ bf' :: bufs2)).
Proof.
  intros bf' Hlone Hc Hs H1 H2 Hins. pose proof (proj1 (li_quiet _ _ _ _ Hlone)) as Hd0.
  assert (Heq : bf' = set_deletes bf' (delete_in bf) (num_delete_job bf)) by done.
  rewrite Heq in Hs |- *. apply gpu_cycle_one_insert; try done; [by left|].
  by rewrite gpu_deletes_none.
Qed.
End updates.

(** The item at [p] is one of the items of a size class. *)
Definition class_item (s : slabs_t) (p : ptr) : Prop :=
  ∃ id pc k x b, 0 ≤ id ∧ slabclass s !! Z.to_nat id = Some pc ∧ 0 ≤ k < sc_slabs pc ∧
    0 ≤ x < sc_perslab pc ∧ slab_at pc k b ∧ p = (b, sc_size pc * x).

Lemma class_item_pointer cfg s p it :
  cfg_ok cfg → slabs_wf cfg s → class_item s p → heap s !! p = Some it →
  item_pointer cfg (slabclass s) (it_loc it) = Ok p.
Proof.
  intros Hcfg Hs (id & pc & k & x & b & Hid & Hpc & Hk & Hx & Hb & ->) Hit.
  by eapply item_pointer_slab, item_loc_to_ptr.
Qed.

(** ** Properties *)

(** C18: a cycle of the Scheduler, its kernels in the order of their launches.  For buffers
    whose numbers of jobs are in range the three phases end without a failed assertion and leave a well-formed table; the
    counters grow by the numbers of jobs; and every search of every worker is
    answered with the location the table had for its signature when the cycle
    began, before the cycle's own deletions and insertions. *)
Theorem cycle_answers w cfg kind fuel hash_of t m c bufs :
  gpu_ok cfg → represents (Ix := gpu_location_index w kind fuel) hash_of t m →
  counters_ok c → Forall (cycle_buf cfg) bufs →
  ∃ t' bufs',
    gpu_cycle cfg kind (win w) (6 + fuel) t c bufs =
      Ok (t', count c (zsum num_search_job bufs) (zsum num_insert_job bufs) (zsum num_delete_job bufs)
                (cpu_worker_num cfg), bufs') ∧
    table_wf t' ∧ length bufs' = length bufs ∧
    ∀ b bf i x, bufs !! b = Some bf → 0 ≤ i < num_search_job bf → num_search_job bf < 2 ^ 30 →
      search_in bf !! Z.to_nat i = Some x → s_sig x ≠ 0 → s_hash x = hash_of (s_sig x) →
      ∃ bf', bufs' !! b = Some bf' ∧ search_in bf' = search_in bf ∧
        result_loc (search_out bf') i = Ok (default 0 (m !! s_sig x)).
Proof.
  intros Hgpu Hr Hc Hb.
  destruct (gpu_cycle_total cfg kind (win w) fuel t c bufs Hgpu (proj1 Hr) Hc Hb)
    as (t' & c' & bufs' & H & Ht').
  pose proof H as H'. apply gpu_cycle_spec in H' as [-> ->]; [|done|done].
  exists t', (searched_buf (win w) t <$> bufs). split; [exact H|]. split; [done|].
  split; [by rewrite length_fmap|]. by eapply searched_results.
Qed.

(** In the order of [gpu_cycle] - all searches, then the deletions and the insertions one
    after the other - a cycle refines a map on any buffers, insertions of one signature
    included: if no signature to be deleted lies in both of its buckets, and every insertion
    has room when it is its turn, the index then represents [m] without the bindings the
    deletions name and then with the insertions, and every search is answered by [m].  In
    other orders this needs more: see [Streams.streams_refine_map]. *)
Theorem cycle_refines_map w cfg kind fuel hash_of t m c bufs :
  let Ix := gpu_location_index w kind fuel in
  let ds := concat (gpu_deletes cfg <$> bufs) in
  let es := concat (gpu_inserts cfg <$> bufs) in
  gpu_ok cfg → represents hash_of t m → counters_ok c → Forall (cycle_buf cfg) bufs →
  Forall (proper_elem hash_of) ds → Forall (ix_single t) ds →
  Forall (proper_elem hash_of) es → all_fit (hash_delete t ds) es →
  ∃ t' c' bufs',
    gpu_cycle cfg kind (win w) (S fuel) t c bufs = Ok (t', c', bufs') ∧
    represents hash_of t' (foldl map_insert (foldl map_delete m ds) es) ∧
    length bufs' = length bufs ∧
    ∀ b bf i x, bufs !! b = Some bf → 0 ≤ i < num_search_job bf → num_search_job bf < 2 ^ 30 →
      search_in bf !! Z.to_nat i = Some x → s_sig x ≠ 0 → s_hash x = hash_of (s_sig x) →
      ∃ bf', bufs' !! b = Some bf' ∧ search_in bf' = search_in bf ∧
        result_loc (search_out bf') i = Ok (default 0 (m !! s_sig x)).
Proof.
  intros Ix ds es Hgpu Hr Hc Hb Hds Hsingle Hes Hfit.
  pose proof (delete_list_refines hash_of t m ds Hr Hds Hsingle) as Hr1.
  destruct (insert_list_refines hash_of (hash_delete t ds) (foldl map_delete m ds) es Hr1 Hes Hfit) as (t' & Ht' & Hr').
  destruct (gpu_cycle_updates cfg kind (win w) (S fuel) Hgpu t c bufs t' Hc Hb) as (c' & Hcyc).
  { by rewrite (hash_insert_list w). }
  exists t', c', (searched_buf (win w) t <$> bufs). split; [done|]. split; [done|].
  split; [by rewrite length_fmap|]. by eapply searched_results.
Qed.

(** C4: from a SET to the GETs that follow.  A Receiver stores an item for a key; the
    Scheduler runs the cycle of the batch, in which this is the only update; the
    table then represents the map with the key's signature bound to the item's
    location.  In every later batch that finds this table, a search for the key
    gives the Sender the location, the Sender's address computation leads from it
    to the item, and the item holds the key and the value that were sent. *)
Theorem set_then_get malloc_ok garbage cfg KVSIZE n pre key value post st kk i p it bf ib
    w kind fuel hash_of t m c bufs1 bufs2 :
  let e := elem_of_key key in
  let blk := insert_block_id cfg (s_hash e) in
  let ie := Ielem (s_sig e) (s_hash e) (it_loc it) in
  key_ok KVSIZE key → Z.of_nat (length value) = VALUE_LEN KVSIZE →
  local_item st (Z.of_nat (length (key ++ value))) i p it →
  (length (key ++ value) ≤ length (it_data it))%nat →
  current_buf st bf → insert_room cfg blk ib bf →
  cfg_ok cfg → slabs_wf cfg (r_slabs st) → class_item (r_slabs st) p →
  gpu_ok cfg → represents (Ix := gpu_location_index w kind fuel) hash_of t m →
  proper_elem hash_of ie → gpu_fits t ie → lone_insert cfg blk ib bf → counters_ok c →
  Forall searchable (bufs1 ++ bf :: bufs2) → Forall no_updates bufs1 → Forall no_updates bufs2 →
  ∃ st' bf' t' c' bufs',
    process_set malloc_ok garbage cfg KVSIZE quiet (S n) (pre ++ set_fields key value ++ post) st kk
      (Z.of_nat (length pre)) =
      Ok (st', Some (kk + 1, Z.of_nat (length pre) + 6 + Z.of_nat (length (key ++ value)))) ∧
    current_buf st' bf' ∧
    gpu_cycle cfg kind (win w) (S fuel) t c (bufs1 ++ bf' :: bufs2) = Ok (t', c', bufs') ∧
    represents (Ix := gpu_location_index w kind fuel) hash_of t' (<[s_sig e := it_loc it]> m) ∧
    (∀ gb j, searchable gb → 0 ≤ j < num_search_job gb → num_search_job gb < 2 ^ 30 →
       search_in gb !! Z.to_nat j = Some e →
       result_loc (search_out (searched_buf (win w) t' gb)) j = Ok (it_loc it)) ∧
    item_pointer cfg (slabclass (r_slabs st')) (it_loc it) = Ok p ∧
    heap (r_slabs st') !! p = Some (stored_item it key value).
Proof.
  intros e blk ie Hkey Hval Hlocal Hfit Hcur Hroom Hcfg Hs Hitem Hgpu Hr He Hgfit Hlone Hc Hsearch H1 H2.
  destruct (process_set_spec malloc_ok garbage cfg KVSIZE n pre key value post st kk i p it bf ib)
    as (st' & Hset & Hheap & Hwf & _ & Hbuf & _ & Hcls); [done..|].
  fold e blk in Hbuf. fold ie in Hbuf.
  destruct (represents_insert (Ix := gpu_location_index w kind fuel) hash_of t m ie Hr He Hgfit)
    as (t' & Hins & Hr').
  destruct (gpu_cycle_lone_insert cfg kind (win w) (S fuel) Hgpu t t' c bufs1 bufs2 blk ib p ie bf)
    as (c' & Hcyc); try done.
  { apply Forall_app in Hsearch as [? [Hbf ?]%Forall_cons]. apply Forall_app; split; [done|].
    by constructor. }
  exists st', (add_elem blk ib p ie bf), t', c',
    (searched_buf (win w) t <$> (bufs1 ++ add_elem blk ib p ie bf :: bufs2)).
  split; [exact Hset|]. split; [exact Hbuf|]. split; [exact Hcyc|]. split; [exact Hr'|]. split; [|split].
  - intros gb j [Hin Hout] Hj Hn Hx. destruct He as (Hs0 & _ & Hh).
    rewrite (searched_result w kind fuel hash_of t' _ gb j e Hr') by (done || lia).
    unfold map_insert. simpl. by rewrite lookup_insert_eq.
  - rewrite Hcls. apply class_item_pointer; [done..|apply Hlocal].
  - by rewrite Hheap, lookup_insert_eq.
Qed.

(** ** The properties at a small batch *)

Lemma ex_gpu_ok : gpu_ok mega_init_config.
Proof. by split; vm_compute. Qed.

Lemma ex_gpu_ok_small : gpu_ok ex_cfg.
Proof. by split; vm_compute. Qed.

Lemma ex_represents w kind fuel hash_of :
  represents (Ix := gpu_location_index w kind fuel) hash_of ∅ ∅.
Proof.
  split; [exact empty_table_wf|]. intros s Hs. simpl.
  rewrite gpu_find_view by (exact empty_table_wf || done). reflexivity.
Qed.

(** One search, one deletion and one insertion. *)
Definition ex_cycle_buf : mega_batch_buf_t :=
  BatchBuf [Selem 7 7] [0; 0] [Ielem 7 7 70] [Ielem 8 8 80] [] [] 1 1 1 0 [BatchInsert 0 1].

Lemma cycle_answers_witness :
  ∃ t' bufs', gpu_cycle mega_init_config HASH_CUCKOO (win ex_w) 6 ∅ (Counters 0 0 0 0)
      [ex_cycle_buf; ex_cycle_buf] = Ok (t', Counters 2 2 2 7, bufs') ∧ table_wf t'.
Proof.
  destruct (cycle_answers ex_w mega_init_config HASH_CUCKOO 0 (λ s, s) ∅ ∅ (Counters 0 0 0 0)
    [ex_cycle_buf; ex_cycle_buf] ex_gpu_ok (ex_represents _ _ _ _)) as (t' & bufs' & H & Ht' & _).
  - by split_and!.
  - assert (cycle_buf mega_init_config ex_cycle_buf).
    { split; [split; simpl; lia | simpl; lia | by vm_compute | by vm_compute |].
      repeat constructor; simpl; lia. }
    by repeat constructor.
  - exists t', bufs'. split; [exact H | exact Ht'].
Defined.

(** The Receiver of [Receiver] over an allocator with one slab. *)
Definition ex_sitem : item := default ex_small_item (heap ex_slabs1 !! (9, 40 * 63)).
Definition ex_sbuf : mega_batch_buf_t :=
  BatchBuf [] [] [] (replicate 4096 (Ielem 0 0 0)) [] (replicate (Z.to_nat 32768) None) 0 0 0 0
    [BatchInsert 0 0].
Definition ex_sstate : rstate :=
  RState 0 ex_slabs1
    (Batch (replicate 3 ex_sbuf) 0 (-1) (1, 2) (-1) (-1) (Some (9, 40 * 63) :: replicate 7 None)
       [40; 80; 160; 320; 640; 1280; 2560; 5120]) 0 0.
Definition ex_sib : mega_batch_insert_t := BatchInsert 0 0.

Lemma ex_sitem_eq : heap ex_slabs1 !! (9, 40 * 63) = Some ex_sitem.
Proof. vm_compute. reflexivity. Qed.

Lemma ex_class_item : class_item ex_slabs1 (9, 40 * 63).
Proof.
  eexists 0, _, 0, 63, 9. split; [lia|]. split; [vm_compute; reflexivity|].
  split; [vm_compute; by split|]. split; [vm_compute; by split|]. by split; vm_compute.
Qed.

Lemma ex_lone_insert : lone_insert ex_cfg 0 ex_sib ex_sbuf.
Proof.
  split; [by split| |by split|by vm_compute|simpl; vm_compute; done].
  unfold ex_sbuf, idle. cbn [insert_in insert_buf ex_sib bi_insert_in bi_num_insert_job].
  rewrite length_replicate. split; [|lia]. repeat constructor; simpl; lia.
Qed.

Lemma ex_sroom : insert_room ex_cfg 0 ex_sib ex_sbuf.
Proof.
  split; unfold ex_sbuf, ex_sib, ex_cfg, with_slab_sizes, mega_init_config; cbn [insert_job_list insert_in
    bits_insert_buf batch_max_insert_job num_insert_job insert_buf bi_num_insert_job bi_insert_in];
    rewrite ?length_replicate; change (32768 ≫ IBLOCK_P) with 4096;
    [done | lia | lia | lia | split; [lia | reflexivity] | lia | lia].
Qed.

Lemma set_then_get_witness :
  ∃ st' bf' t' c' bufs', process_set (λ _, true) (λ _, 0) ex_cfg 0 quiet 1
      ([0; 0] ++ set_fields ex_key ex_value ++ end_mark) ex_sstate 0 2 = Ok (st', Some (1, 24)) ∧
    gpu_cycle ex_cfg HASH_CUCKOO (win ex_w) 1 ∅ (Counters 0 0 0 0)
      [bf'] = Ok (t', c', bufs') ∧
    gpu_find ex_w t' (Selem 67305985 134678021) = 63 ∧
    heap (r_slabs st') !! (9, 40 * 63) = Some (stored_item ex_sitem ex_key ex_value).
Proof.
  destruct (set_then_get (λ _, true) (λ _, 0) ex_cfg 0 0 [0; 0] ex_key ex_value end_mark ex_sstate 0 0
    (9, 40 * 63) ex_sitem ex_sbuf ex_sib ex_w HASH_CUCKOO 0 (λ _, 134678021) ∅ ∅ (Counters 0 0 0 0) [] [])
    as (st' & bf' & t' & c' & bufs' & Hset & Hbuf & Hcyc & Hr & _ & _ & Hheap).
  - exact ex_key_ok.
  - reflexivity.
  - split; [reflexivity | lia | reflexivity | exact ex_sitem_eq].
  - vm_compute. lia.
  - by split.
  - exact ex_sroom.
  - exact ex_cfg_ok.
  - exact ex_slabs1_wf.
  - exact ex_class_item.
  - exact (ex_gpu_ok_small).
  - apply ex_represents.
  - by split_and!; vm_compute.
  - left. right. apply room_empty_table.
  - exact ex_lone_insert.
  - by split_and!.
  - constructor; [|constructor]. split; simpl; lia.
  - constructor.
  - constructor.
  - exists st', bf', t', c', bufs'. split; [exact Hset|]. split; [exact Hcyc|]. split; [|exact Hheap].
    exact (proj2 Hr 67305985 ltac:(lia)).
Defined.
