(* ===== verification/Streams.v ===== *)
(** * The streams of a cycle (src/src/mega_scheduler.c, src/libgpuhash/gpu_hash.cu)

    [Scheduler.gpu_cycle] runs the kernels of a cycle in the order of their launches, and
    each one's units one after the other.  Here they run as the device runs them: every
    worker has a stream of its own, in which the deletion kernel starts when the search
    kernel is finished and the insertion kernel when the deletion kernel is, while nothing
    orders the streams before the [cudaDeviceSynchronize] at the end; all units of a kernel
    run at once, and their accesses to the table come in any order.  A step is one access
    of one unit: the lookup in one bucket, the vote or the clearing of a bucket, a step of
    an insertion block of [Units].

    Nothing protects one stream from the others: which buckets the workers update is up to
    the keys.  The property therefore asks that no bucket is updated by two workers, nor by
    two insertion blocks of one ([Receiver.insert_blocks_share_buckets] and
    [Units.same_signature_stored_twice] say why), and claims the answers of the searches in
    buckets that no other worker updates.  What needs no such condition is
    [streams_keep_types]: whatever the buffers hold, every order of the steps keeps the
    shape of the buckets and makes no location up. *)

From S2P Require Import Prelude GpuHash Index Units Config Slabs Batch Items Packet Receiver Receive.
From S2P Require Import Sender Timer Scheduler.

(** ** The units *)

(** A unit of the search kernel is the list of the lookups it has still to do: for each of
    its elements one in the first bucket and one in the second. *)
Record probe_t := Probe { pr_id : Z; pr_elem : selem_t; pr_second : bool }.

#[export] Instance selem_eq_dec : EqDecision selem_t.
Proof. solve_decision. Defined.
#[export] Instance probe_eq_dec : EqDecision probe_t.
Proof. solve_decision. Defined.

Definition probe_bucket (p : probe_t) : Z :=
  if pr_second p then second_index (s_hash (pr_elem p)) (s_sig (pr_elem p)) else bucket_index (s_hash (pr_elem p)).
Definition probe_word (p : probe_t) : nat := Z.to_nat (2 * pr_id p + if pr_second p then 1 else 0).

Definition search_unit (es : list selem_t) (ids : list Z) : list probe_t :=
  ids ≫= λ id, match es !! Z.to_nat id with
    | Some e => [Probe id e false; Probe id e true]
    | None => []
    end.

(** A unit of the deletion kernel: where it is with the first element of its list. *)
Inductive delete_pc :=
  | DVote                        (** about to look for the element in its first bucket *)
  | DClear (hit : bool)          (** about to clear it there; [hit] when the vote found it *)
  | DSecond.                     (** about to clear it in the second bucket *)
Record delete_unit := DeleteUnit { d_pc : delete_pc; d_todo : list ielem_t }.

Definition delete_step (t : table) (u : delete_unit) : option (table * delete_unit) :=
  match d_todo u with
  | [] => None
  | e :: rest =>
      let k := bucket_index (e_hash e) in
      match d_pc u with
      | DVote =>
          let ballot := unit_ballot (same_entry (ht_get t k) e) in
          Some (t, DeleteUnit (DClear (negb (ballot =? 0))) (e :: rest))
      | DClear hit =>
          Some (<[k := clear_entry (ht_get t k) e]> t,
                if hit then DeleteUnit DVote rest else DeleteUnit DSecond (e :: rest))
      | DSecond =>
          let k := second_index (e_hash e) (e_sig e) in
          Some (<[k := clear_entry (ht_get t k) e]> t, DeleteUnit DVote rest)
      end
  end.

(** ** The streams *)

(** [st_out] is [search_out_d], which is copied to the buffer behind the search kernel. *)
Record stream := Stream {
  st_search : list (list probe_t);
  st_out : list Z;
  st_delete : list delete_unit;
  st_insert : list (list unit_t);
}.
Record gpu := Gpu { g_table : table; g_streams : list stream }.

Definition is_nil {A} (l : list A) : bool := match l with [] => true | _ => false end.
Definition all_searched (st : stream) : bool := forallb is_nil (st_search st).
Definition all_deleted (st : stream) : bool := forallb (λ u, is_nil (d_todo u)) (st_delete st).
Definition all_inserted (st : stream) : bool := forallb (forallb finished) (st_insert st).

Section streams.
Context (winner : list Z → Z).

Definition probe (t : table) (p : probe_t) (out : list Z) : list Z :=
  <[probe_word p := write_out winner (ht_get t (probe_bucket p)) (s_sig (pr_elem p)) (default 0 (out !! probe_word p))]> out.

Inductive stream_step (t : table) (st : stream) (t' : table) (st' : stream) : Prop :=
  | step_search i p ps : st_search st !! i = Some (p :: ps) → t' = t →
      st' = Stream (<[i := ps]> (st_search st)) (probe t p (st_out st)) (st_delete st) (st_insert st) →
      stream_step t st t' st'
  | step_delete i u u' : all_searched st = true → st_delete st !! i = Some u → delete_step t u = Some (t', u') →
      st' = Stream (st_search st) (st_out st) (<[i := u']> (st_delete st)) (st_insert st) →
      stream_step t st t' st'
  | step_insert j us us' : all_searched st = true → all_deleted st = true → st_insert st !! j = Some us →
      block_step (Block t us) (Block t' us') →
      st' = Stream (st_search st) (st_out st) (st_delete st) (<[j := us']> (st_insert st)) →
      stream_step t st t' st'.

Inductive gpu_step (s s' : gpu) : Prop :=
  | step_stream b st t' st' : g_streams s !! b = Some st → stream_step (g_table s) st t' st' →
      s' = Gpu t' (<[b := st']> (g_streams s)) → gpu_step s s'.
End streams.

Definition all_done (s : gpu) : bool :=
  forallb (λ st, all_searched st && all_deleted st && all_inserted st) (g_streams s).

(** ** The launches *)

Section launch.
Context (cfg : mega_config_t).

(** The element numbers of every unit of a grid. *)
Definition launched_units (grid thread_num total : Z) : list (list Z) :=
  (λ u, unit_ids (Z.to_nat total) u (Z.shiftr thread_num ELEM_NUM_P) total) <$> seqZ 0 (Z.shiftr grid ELEM_NUM_P).

Definition buf_searches (bf : mega_batch_buf_t) : list selem_t := take (Z.to_nat (num_search_job bf)) (search_in bf).
Definition buf_deletes (bf : mega_batch_buf_t) : list ielem_t := take (Z.to_nat (num_delete_job bf)) (delete_in bf).
(** The elements of the insertion blocks. *)
Definition buf_blocks (bf : mega_batch_buf_t) : list (list ielem_t) :=
  if num_insert_job bf =? 0 then []
  else (λ ib, take (Z.to_nat (bi_num_insert_job ib)) (drop (Z.to_nat (bi_insert_in ib)) (insert_in bf))) <$>
         take (Z.to_nat (num_insert_buf cfg)) (insert_buf bf).

Definition insert_units (es : list ielem_t) : list unit_t :=
  UnitT UStart <$> (unit_elems es <$> seqZ 0 (Z.shiftr 1024 ELEM_NUM_P)).

(** What the cycle puts into the stream of a worker. *)
Definition stream0 (bf : mega_batch_buf_t) : stream :=
  Stream
    (match gpu_hash_search_launch (GPU_search_thread_num cfg) (GPU_threads_per_blk cfg) with
     | Ok (grid, n) => search_unit (buf_searches bf) <$> launched_units grid n (num_search_job bf)
     | Err _ => []
     end)
    (replicate (Z.to_nat (2 * num_search_job bf)) 0)
    (match gpu_hash_delete_launch (GPU_delete_thread_num cfg) (GPU_threads_per_blk cfg) with
     | Ok (grid, n) =>
         DeleteUnit DVote <$> (visited (buf_deletes bf) <$> launched_units grid n (num_delete_job bf))
     | Err _ => []
     end)
    (insert_units <$> buf_blocks bf).

Definition gpu0 (t : table) (bufs : list mega_batch_buf_t) : gpu := Gpu t (stream0 <$> bufs).
End launch.

(** ** Tables that agree on some buckets *)

Abbreviation bk e := (bucket_index (e_hash e)).
Abbreviation bk2 e := (second_index (e_hash e) (e_sig e)).

Definition agree (K : Z → Prop) (t t' : table) : Prop := ∀ k, K k → ht_get t k = ht_get t' k.

#[export] Instance agree_equivalence K : Equivalence (agree K).
Proof. split; [by intros t k|intros t t' H k Hk; by rewrite H|intros t1 t2 t3 H1 H2 k Hk; by rewrite H1, H2]. Qed.

Lemma agree_sub (K K' : Z → Prop) t t' : (∀ k, K' k → K k) → agree K t t' → agree K' t t'.
Proof. intros HK H k Hk. by apply H, HK. Qed.

Lemma agree_insert K t t' k b : agree K t t' → agree K (<[k := b]> t) (<[k := b]> t').
Proof. intros H k' Hk'. rewrite !ht_get_insert. case_decide; [done|by apply H]. Qed.

Lemma bucket_ext b b' :
  length (b_sig b) = 8%nat → length (b_loc b) = 8%nat → length (b_sig b') = 8%nat → length (b_loc b') = 8%nat →
  (∀ l, 0 ≤ l < 8 → lane (b_sig b) l = lane (b_sig b') l ∧ lane (b_loc b) l = lane (b_loc b') l) → b = b'.
Proof.
  destruct b as [s v], b' as [s' v']. simpl. intros H1 H2 H3 H4 Hl.
  assert (Heq : ∀ l l' : list Z, length l = 8%nat → length l' = 8%nat →
    (∀ i, 0 ≤ i < 8 → lane l i = lane l' i) → l = l').
  { intros l l' Hn Hn' He. apply (list_eq_same_length _ _ 8); [done|done|].
    intros i x y Hi Hx Hy. specialize (He (Z.of_nat i) ltac:(lia)). unfold lane in He. rewrite Nat2Z.id, Hx, Hy in He.
    done. }
  f_equal; apply Heq; try done; intros i Hi; by apply Hl.
Qed.

(** A unit of a block only looks at the first bucket of its element. *)
Lemma unit_step_agree K t τ u t' u' :
  agree K t τ → (∀ e, e ∈ u_todo u → K (bk e)) → unit_step t u = Some (t', u') →
  ∃ τ', unit_step τ u = Some (τ', u') ∧ agree K t' τ' ∧ (∀ k, ¬ K k → ht_get t' k = ht_get t k) ∧
    ∀ e, e ∈ u_todo u' → e ∈ u_todo u.
Proof.
  intros Ha HK Hs. unfold unit_step in *. destruct (u_todo u) as [|e rest]; [done|].
  assert (Hk : K (bk e)) by (apply HK; left). specialize (Ha (bk e) Hk) as Heq. rewrite Heq in Hs.
  assert (Hout : ∀ b k, ¬ K k → ht_get (<[bk e := b]> t) k = ht_get t k).
  { intros b k Hn. rewrite ht_get_insert, decide_False; [done|]. by intros <-. }
  destruct (u_pc u) as [| |c|c|[c|]|c|]; try discriminate; try (destruct (_ && _)); injection Hs as <- <-;
    (eexists; split; [reflexivity|]); (split; [by try apply agree_insert|]); (split; [by auto|]); simpl; intros e' He'; first [exact He'|by right].
Qed.

Definition units_in (K : Z → Prop) (us : list unit_t) : Prop := ∀ i u e, us !! i = Some u → e ∈ u_todo u → K (bk e).

Lemma block_step_agree K t τ us t' us' :
  agree K t τ → units_in K us → block_step (Block t us) (Block t' us') →
  ∃ τ', block_step (Block τ us) (Block τ' us') ∧ agree K t' τ' ∧ (∀ k, ¬ K k → ht_get t' k = ht_get t k).
Proof.
  intros Ha HK [i u t1 u1 Hi Hs [= -> ->]|Hmay [= -> ->]]; simpl in *.
  - destruct (unit_step_agree K t τ u t1 u1 Ha (λ e, HK i u e Hi) Hs) as (τ' & Hs' & Ha' & Hout & _).
    exists τ'. split; [|done]. by eapply step_unit.
  - exists τ. split; [|done]. by eapply step_barrier.
Qed.

(** The measure of a block does not look at other buckets either. *)
Lemma remaining_agree a K t τ us : agree K t τ → units_in K us → remaining a (Block t us) = remaining a (Block τ us).
Proof.
  intros Ha HK. unfold remaining. simpl.
  assert (Hle : ∀ t τ, agree K t τ → zsum (cost a t) us = zsum (cost a τ) us).
  { clear Ha. intros t1 τ1 Ha. induction us as [|u us IH]; [done|]. simpl. f_equal; [|apply IH; intros i; apply (HK (S i))].
    unfold cost. do 4 f_equal. unfold won. destruct (u_todo u) as [|e rest] eqn:Ht; [done|].
    assert (Hk : K (bk e)) by (apply (HK 0%nat u); [done|rewrite Ht; left]).
    unfold slot. by rewrite (Ha _ Hk). }
  by apply Hle.
Qed.

(** Units that are about to start have no slots. *)
Lemma remaining_start a t τ us : Forall (λ u, u_pc u = UStart) us → remaining a (Block t us) = remaining a (Block τ us).
Proof.
  intros Hus. unfold remaining. simpl. induction Hus as [|u us Hu _ IH]; [done|]. simpl. rewrite IH. f_equal.
  unfold cost, won. rewrite Hu. by destruct (u_todo u).
Qed.

(** ** Deletions in any order *)

Section deletes.
(** The table when the cycle begins, the deletions of a worker, the buckets it updates. *)
Context (t : table) (U : Z → Prop) (ds : list ielem_t).
Context (Hwf : table_wf t) (Hds : Forall (λ e, e_sig e ≠ 0) ds) (Hsingle : Forall (gpu_single t) ds).
Context (HU : ∀ e, e ∈ ds → U (bk e) ∧ U (bk2 e)).

Definition named (k l : Z) : Prop := ∃ e, e ∈ ds ∧ (k = bk e ∨ k = bk2 e) ∧ same_entry (ht_get t k) e l = true.

(** Slots are cleared, and only slots that a deletion names. *)
Record cleared_some (T : table) : Prop := {
  cs_len : ∀ k, U k → length (b_sig (ht_get T k)) = 8%nat ∧ length (b_loc (ht_get T k)) = 8%nat;
  cs_loc : ∀ k l, U k → 0 ≤ l < 8 → sloc T k l = sloc t k l;
  cs_slot : ∀ k l, U k → 0 ≤ l < 8 → slot T k l = slot t k l ∨ slot T k l = 0 ∧ named k l;
}.

(** The entries of [e] in bucket [k] are cleared. *)
Definition wiped (T : table) (e : ielem_t) (k : Z) : Prop :=
  ∀ l, 0 ≤ l < 8 → same_entry (ht_get t k) e l = true → slot T k l = 0.

Lemma clear_slots T k e k' l :
  0 ≤ l < 8 →
  slot (<[k := clear_entry (ht_get T k) e]> T) k' l =
    (if decide (k = k') then if same_entry (ht_get T k) e l then 0 else slot T k l else slot T k' l) ∧
  sloc (<[k := clear_entry (ht_get T k) e]> T) k' l = sloc T k' l.
Proof.
  intros Hl. unfold slot, sloc. rewrite ht_get_insert. destruct (decide (k = k')) as [<-|]; [|done].
  by rewrite clear_entry_lane.
Qed.

Lemma cleared_start : cleared_some t.
Proof. split; [intros k _; by split; apply Hwf|done|by left]. Qed.

Lemma clear_step T e k :
  cleared_some T → e ∈ ds → k = bk e ∨ k = bk2 e →
  let T' := <[k := clear_entry (ht_get T k) e]> T in
  cleared_some T' ∧ wiped T' e k ∧ (∀ e' k', wiped T e' k' → wiped T' e' k') ∧ (∀ k', ¬ U k' → ht_get T' k' = ht_get T k').
Proof.
  intros [Hlen Hloc Hslot] He Hk T'.
  assert (HUk : U k) by (destruct (HU e He); by destruct Hk as [->| ->]).
  assert (Hsame : ∀ l, 0 ≤ l < 8 → slot T k l = slot t k l → same_entry (ht_get T k) e l = same_entry (ht_get t k) e l).
  { intros l Hl Hs. unfold same_entry. unfold slot in Hs. specialize (Hloc k l HUk Hl). unfold sloc in Hloc. by rewrite Hs, Hloc. }
  split_and!.
  - split.
    + intros k' Hk'. unfold T'. rewrite ht_get_insert. case_decide; [|by apply Hlen]. subst k'.
      unfold clear_entry. simpl. split; [done|by apply Hlen].
    + intros k' l Hk' Hl. unfold T'. destruct (clear_slots T k e k' l Hl) as [_ ->]. by apply Hloc.
    + intros k' l Hk' Hl. unfold T'. destruct (clear_slots T k e k' l Hl) as [-> _].
      destruct (decide (k = k')) as [<-|]; [|by apply Hslot]. destruct (same_entry (ht_get T k) e l) eqn:Es; [|by apply Hslot].
      destruct (Hslot k l HUk Hl) as [Hs|[_ Hn]]; [|by right]. right. split; [done|]. exists e.
      split; [done|]. split; [done|]. by rewrite <-Hsame.
  - intros l Hl Hl'. unfold T'. destruct (clear_slots T k e k l Hl) as [-> _]. rewrite decide_True by done.
    destruct (Hslot k l HUk Hl) as [Hs|[Hs _]]; [by rewrite (Hsame l Hl Hs), Hl'|]. rewrite Hs. by destruct (same_entry (ht_get T k) e l).
  - intros e' k' Hw l Hl Hl'. unfold T'. destruct (clear_slots T k e k' l Hl) as [-> _]. specialize (Hw l Hl Hl').
    destruct (decide (k = k')) as [<-|]; [|done]. rewrite Hw. by destruct (same_entry (ht_get T k) e l).
  - intros k' Hk'. unfold T'. rewrite ht_get_insert, decide_False; [done|]. by intros <-.
Qed.

(** What the vote of a unit tells about the second bucket. *)
Lemma vote_hit T e :
  cleared_some T → e ∈ ds → unit_ballot (same_entry (ht_get T (bk e)) e) ≠ 0 → ∃ l, 0 ≤ l < 8 ∧ slot t (bk e) l = e_sig e.
Proof.
  intros [_ _ Hslot] He Hv. destruct (HU e He) as [HU1 _].
  destruct (decide (Exists (λ l, same_entry (ht_get T (bk e)) e l = true) (seqZ 0 8))) as [Hex|Hno].
  - apply Exists_exists in Hex as (l & Hl%elem_of_seqZ & Hs%same_entry_eq). exists l. split; [lia|].
    destruct (Hslot (bk e) l HU1 ltac:(lia)) as [Heq|[H0 _]]; [rewrite <-Heq; apply Hs|].
    rewrite Forall_forall in Hds. destruct (Hds e He). rewrite <-H0. symmetry. apply Hs.
  - destruct Hv. apply unit_ballot_zero. intros l Hl. apply not_true_is_false. intros Hs.
    apply Hno, Exists_exists. exists l. split; [apply elem_of_seqZ; lia|done].
Qed.

Lemma hit_no_second T e :
  e ∈ ds → (∃ l, 0 ≤ l < 8 ∧ slot t (bk e) l = e_sig e) → wiped T e (bk e) → wiped T e (bk2 e).
Proof.
  intros He (l & Hl & Hs) Hw. rewrite Forall_forall in Hsingle, Hds. specialize (Hds e He).
  destruct (Hsingle e He) as [Hn|[Hn|Heq]].
  - by destruct (proj1 (bview_None _ _ (Hwf _) Hds) Hn l Hl Hs).
  - intros l' Hl' Hs'%same_entry_eq. by destruct (proj1 (bview_None _ _ (Hwf _) Hds) Hn l' Hl' (proj1 Hs')).
  - by rewrite <-Heq.
Qed.

(** *** The units of a kernel *)

Definition delete_unit_ok (T : table) (u : delete_unit) : Prop :=
  match d_todo u with
  | [] => True
  | e :: _ =>
      match d_pc u with
      | DVote => True
      | DClear hit => hit = true → ∃ l, 0 ≤ l < 8 ∧ slot t (bk e) l = e_sig e
      | DSecond => wiped T e (bk e)
      end
  end.

Record deletes_inv (T : table) (us : list delete_unit) : Prop := {
  dl_table : cleared_some T;
  dl_todo : ∀ i u, us !! i = Some u → ∀ e, e ∈ d_todo u → e ∈ ds;
  dl_unit : ∀ i u, us !! i = Some u → delete_unit_ok T u;
  dl_done : ∀ e, e ∈ ds → (∃ i u, us !! i = Some u ∧ e ∈ d_todo u) ∨ wiped T e (bk e) ∧ wiped T e (bk2 e);
}.

Lemma unit_ok_later T T' u :
  (∀ e k, wiped T e k → wiped T' e k) → delete_unit_ok T u → delete_unit_ok T' u.
Proof.
  intros Hw. unfold delete_unit_ok. destruct (d_todo u); [done|]. destruct (d_pc u); auto.
Qed.

(** A step of unit [i], which takes at most the first element off its list. *)
Lemma deletes_move T us i u u' T' e rest :
  deletes_inv T us → us !! i = Some u → d_todo u = e :: rest →
  cleared_some T' → (∀ e k, wiped T e k → wiped T' e k) → delete_unit_ok T' u' →
  (d_todo u' = e :: rest ∨ d_todo u' = rest ∧ wiped T' e (bk e) ∧ wiped T' e (bk2 e)) →
  deletes_inv T' (<[i := u']> us).
Proof.
  intros [Ht Htodo Hunit Hdone] Hi Hu Ht' Hw Hok Hu'. pose proof (lookup_lt_Some _ _ _ Hi).
  assert (Hsub : ∀ e', e' ∈ d_todo u' → e' ∈ d_todo u).
  { intros e' He'. rewrite Hu. destruct Hu' as [Heq|(Heq & _)]; rewrite Heq in He'; [done|by right]. }
  split; [done| | |].
  - intros j v Hj e' He'. apply list_lookup_insert_Some in Hj as [(<- & <- & _)|[_ Hj]]; [|by eapply Htodo].
    by eapply Htodo, Hsub.
  - intros j v Hj. apply list_lookup_insert_Some in Hj as [(<- & <- & _)|[_ Hj]]; [done|].
    by eapply unit_ok_later, Hunit.
  - intros e' He'. destruct (Hdone e' He') as [(j & v & Hj & Hv)|[H1 H2]]; [|by right; split; apply Hw].
    destruct (decide (i = j)) as [<-|Hne].
    2:{ left. exists j, v. by rewrite list_lookup_insert_ne. }
    rewrite Hi in Hj. injection Hj as <-. rewrite Hu in Hv.
    destruct Hu' as [Heq|(Heq & Hd)].
    { left. exists i, u'. rewrite list_lookup_insert_eq by done. by rewrite Heq. }
    apply elem_of_cons in Hv as [->|Hv]; [by right|]. left. exists i, u'.
    rewrite list_lookup_insert_eq by done. by rewrite Heq.
Qed.

Lemma delete_step_inv T us i u T' u' :
  deletes_inv T us → us !! i = Some u → delete_step T u = Some (T', u') →
  deletes_inv T' (<[i := u']> us) ∧ ∀ k, ¬ U k → ht_get T' k = ht_get T k.
Proof.
  intros Hinv Hi Hs. unfold delete_step in Hs. destruct (d_todo u) as [|e rest] eqn:Hu; [done|].
  pose proof Hinv as [Ht Htodo Hunit _].
  assert (He : e ∈ ds) by (apply (Htodo i u Hi); rewrite Hu; left).
  specialize (Hunit i u Hi) as Hok. unfold delete_unit_ok in Hok. rewrite Hu in Hok.
  destruct (d_pc u) as [|hit|]; injection Hs as <- <-.
  - split; [|done]. eapply deletes_move; try done; [|by left]. unfold delete_unit_ok. simpl.
    intros Hz%negb_true_iff%Z.eqb_neq. by eapply vote_hit.
  - destruct (clear_step T e (bk e) Ht He (or_introl eq_refl)) as (Ht' & Hw & Hmono & Hout). split; [|done].
    eapply deletes_move; try done; [by destruct hit; [unfold delete_unit_ok; destruct rest|]|].
    destruct hit; [right|by left]. split; [done|]. split; [done|]. apply (hit_no_second _ e He); [by apply Hok|done].
  - destruct (clear_step T e (bk2 e) Ht He (or_intror eq_refl)) as (Ht' & Hw & Hmono & Hout). split; [|done].
    eapply deletes_move; try done; [unfold delete_unit_ok; by destruct rest|]. right. split; [done|]. split; [by apply Hmono|done].
Qed.

Lemma deletes_finished T us :
  deletes_inv T us → forallb (λ u, is_nil (d_todo u)) us = true → ∀ e, e ∈ ds → wiped T e (bk e) ∧ wiped T e (bk2 e).
Proof.
  intros Hinv Hall e He. destruct (dl_done _ _ Hinv e He) as [(i & u & Hi & Hu)|]; [|done].
  rewrite forallb_forall in Hall. specialize (Hall u (proj1 (list_elem_of_In _ _) (list_elem_of_lookup_2 _ _ _ Hi))).
  simpl in Hall. destruct (d_todo u); [by apply elem_of_nil in Hu|done].
Qed.

(** One deletion after the other. *)
Lemma delete_elem_cleared T e :
  cleared_some T → e ∈ ds →
  let T' := hash_delete_elem T e in
  cleared_some T' ∧ wiped T' e (bk e) ∧ wiped T' e (bk2 e) ∧ ∀ e' k', wiped T e' k' → wiped T' e' k'.
Proof.
  intros Ht He. unfold hash_delete_elem.
  destruct (clear_step T e (bk e) Ht He (or_introl eq_refl)) as (Ht1 & Hw1 & Hmono1 & _). cbv zeta in *.
  set (T1 := <[bk e := _]> T) in *. destruct (negb _) eqn:Hv.
  - split; [done|]. split; [done|]. split; [|done]. apply (hit_no_second _ e He); [|done].
    apply (vote_hit T e Ht He). by apply Z.eqb_neq, negb_true_iff.
  - destruct (clear_step T1 e (bk2 e) Ht1 He (or_intror eq_refl)) as (Ht2 & Hw2 & Hmono2 & _). cbv zeta in *.
    split; [done|]. split; [by apply Hmono2|]. split; [done|]. intros e' k' Hw'. by apply Hmono2, Hmono1.
Qed.

Lemma delete_list_cleared l T :
  cleared_some T → l ⊆ ds →
  cleared_some (hash_delete T l) ∧ (∀ e, e ∈ l → wiped (hash_delete T l) e (bk e) ∧ wiped (hash_delete T l) e (bk2 e)) ∧
  ∀ e' k', wiped T e' k' → wiped (hash_delete T l) e' k'.
Proof.
  revert T. induction l as [|e l IH]; intros T Ht Hl.
  { split; [done|]. split; [by intros e ?%elem_of_nil|done]. }
  destruct (delete_elem_cleared T e Ht (Hl e ltac:(left))) as (Ht1 & H1 & H2 & Hmono1). cbv zeta in *.
  destruct (IH (hash_delete_elem T e) Ht1) as (Ht2 & Hall & Hmono2); [intros e' He'; apply Hl; by right|].
  change (hash_delete T (e :: l)) with (hash_delete (hash_delete_elem T e) l). split; [done|]. split.
  - intros e' [->|He']%elem_of_cons; [by split; apply Hmono2|by apply Hall].
  - intros e' k' Hw. by apply Hmono2, Hmono1.
Qed.
End deletes.

(** When all deletions that name slots of the buckets [U] are done, the buckets are as after
    the deletions of all workers [all], one after the other. *)
Lemma cleared_agree t (U : Z → Prop) ds all T :
  table_wf t → Forall (λ e, e_sig e ≠ 0) all → Forall (gpu_single t) all → ds ⊆ all →
  (∀ e, e ∈ all → ∀ k, U k → k = bk e ∨ k = bk2 e → e ∈ ds) →
  cleared_some t U ds T → (∀ e, e ∈ ds → wiped t T e (bk e) ∧ wiped t T e (bk2 e)) → agree U T (hash_delete t all).
Proof.
  intros Hwf Hall Hsingle Hsub Hown [Hlen Hloc Hslot] Hw k Hk. set (D := hash_delete t all).
  destruct (delete_list_cleared t (λ _, True) all Hwf Hall Hsingle (λ _ _, conj I I) all t) as ([DHlen DHloc DHslot] & DHw & _);
    [by apply cleared_start|done|]. fold D in DHlen, DHloc, DHslot, DHw.
  destruct (Hlen k Hk), (DHlen k I). apply bucket_ext; try done. intros l Hl.
  split; [|change (sloc T k l = sloc D k l); by rewrite (Hloc k l Hk Hl), (DHloc k l I Hl)].
  change (slot T k l = slot D k l). destruct (Hslot k l Hk Hl) as [Hs|[Hs (e & He & Hke & Hse)]].
  - destruct (DHslot k l I Hl) as [Hd|[Hd (e & He & Hke & Hse)]]; [congruence|].
    destruct (Hw e (Hown e He k Hk Hke)) as [Hw1 Hw2]. rewrite Hd. destruct Hke as [->| ->]; [by apply Hw1|by apply Hw2].
  - destruct (DHw e (Hsub e He)) as [Hw1 Hw2]. rewrite Hs. symmetry. destruct Hke as [->| ->]; [by apply Hw1|by apply Hw2].
Qed.

(** ** The stream of a worker

    [U] are the buckets that the worker updates, [calm] those that no other worker does. *)

Lemma list_elem_of_concat {A} (x : A) (ls : list (list A)) : x ∈ concat ls ↔ ∃ l, x ∈ l ∧ l ∈ ls.
Proof.
  induction ls as [|l ls IH]; simpl; [split; [by intros ?%elem_of_nil|by intros (l & _ & ?%elem_of_nil)]|].
  rewrite elem_of_app, IH. setoid_rewrite elem_of_cons. naive_solver.
Qed.

Lemma zsum_except {A} (f g : A → Z) (l : list A) (i : nat) x :
  l !! i = Some x → (∀ j y, j ≠ i → l !! j = Some y → f y = g y) → zsum f l - f x = zsum g l - g x.
Proof.
  assert (Hall : ∀ l : list A, (∀ j y, l !! j = Some y → f y = g y) → zsum f l = zsum g l).
  { clear l. induction l as [|y l IH]; intros Hl; [done|]. cbn [zsum foldr]. rewrite (Hl 0%nat y eq_refl). f_equal.
    apply IH. intros j. apply (Hl (S j)). }
  revert i. induction l as [|y l IH]; intros i Hi Hsame; [done|]. cbn [zsum foldr]. destruct i as [|i].
  - injection Hi as ->. specialize (Hall l (λ j z, Hsame (S j) z ltac:(lia))). unfold zsum in *. lia.
  - rewrite (Hsame 0%nat y ltac:(lia) eq_refl). specialize (IH i Hi (λ j z Hne, Hsame (S j) z ltac:(lia))). unfold zsum in *. lia.
Qed.

Definition in_block (es : list ielem_t) (k : Z) : Prop := ∃ e, e ∈ es ∧ bk e = k.

Definition delete_cost (u : delete_unit) : Z :=
  match d_todo u with
  | [] => 0
  | _ => 3 * Z.of_nat (length (d_todo u)) - match d_pc u with DVote => 0 | DClear _ => 1 | DSecond => 2 end
  end.

(** How many accesses a stream makes at most: two lookups per search, three accesses per
    deletion, the measure of [Units] for the blocks of 128 units. *)
Definition stream_cost (T : table) (st : stream) : Z :=
  zsum (λ ps, Z.of_nat (length ps)) (st_search st) + zsum delete_cost (st_delete st) +
  zsum (λ us, remaining 641 (Block T us)) (st_insert st).

Section worker.
Context (winner : list Z → Z) (t : table) (U calm : Z → Prop).
Context (xs : list selem_t) (ds all : list ielem_t) (bs : list (list ielem_t)).
Context (Hwf : table_wf t) (Hall : Forall (λ e, e_sig e ≠ 0) all) (Hsingle : Forall (gpu_single t) all).
Context (Hsub : ds ⊆ all) (HU : ∀ e, e ∈ ds → U (bk e) ∧ U (bk2 e)).
Context (Hown : ∀ e, e ∈ all → ∀ k, U k → k = bk e ∨ k = bk2 e → e ∈ ds).
Abbreviation D := (hash_delete t all).
Context (Hblock : ∀ j es, bs !! j = Some es → block_ok D es).
Context (HUb : ∀ j es e, bs !! j = Some es → e ∈ es → U (bk e)).
Context (Hdisj : ∀ j j' es es' k, bs !! j = Some es → bs !! j' = Some es' → in_block es k → in_block es' k → j = j').

(** *** The searches *)

Definition probe_ok (p : probe_t) : Prop := 0 ≤ pr_id p ∧ xs !! Z.to_nat (pr_id p) = Some (pr_elem p).
Definition answer (p : probe_t) : Z := write_out winner (ht_get t (probe_bucket p)) (s_sig (pr_elem p)) 0.

Record searches_inv (units : list (list probe_t)) (out : list Z) : Prop := {
  sr_units : ∀ i ps p, units !! i = Some ps → p ∈ ps → probe_ok p;
  sr_len : length out = (2 * length xs)%nat;
  sr_word : ∀ p, probe_ok p → calm (probe_bucket p) → out !! probe_word p = Some (answer p) ∨
    out !! probe_word p = Some 0 ∧ ∃ i ps, units !! i = Some ps ∧ p ∈ ps;
}.

Lemma probe_word_inj p p' : probe_ok p → probe_ok p' → probe_word p = probe_word p' → p = p'.
Proof.
  intros [H0 Hp] [H0' Hp'] Hw. unfold probe_word in Hw. destruct p as [i e s], p' as [i' e' s']. simpl in *.
  assert (i = i' ∧ s = s') as [<- <-] by (destruct s, s'; lia). congruence.
Qed.

Lemma write_out_twice b sig : write_out winner b sig (write_out winner b sig 0) = write_out winner b sig 0.
Proof. unfold write_out. by destruct (matching_locs b sig). Qed.

Lemma search_step_inv T units out i p ps :
  searches_inv units out → units !! i = Some (p :: ps) →
  (calm (probe_bucket p) → ht_get T (probe_bucket p) = ht_get t (probe_bucket p)) →
  searches_inv (<[i := ps]> units) (probe winner T p out).
Proof.
  intros [Hu Hlen Hword] Hi Hcalm. pose proof (lookup_lt_Some _ _ _ Hi).
  assert (Hp : probe_ok p) by (apply (Hu i _ _ Hi); left).
  assert (Hlt : (probe_word p < length out)%nat).
  { destruct Hp as [H0 Hp%lookup_lt_Some]. unfold probe_word. destruct (pr_second p); lia. }
  split.
  - intros j qs q Hj Hq. apply list_lookup_insert_Some in Hj as [(<- & <- & _)|[_ Hj]]; [|by eapply Hu].
    apply (Hu i _ _ Hi). by right.
  - unfold probe. by rewrite length_insert.
  - intros q Hq Hc. unfold probe. destruct (decide (p = q)) as [<-|Hne].
    + left. rewrite list_lookup_insert_eq by done. f_equal. rewrite (Hcalm Hc). fold (answer p).
      destruct (Hword p Hp Hc) as [->|[-> _]]; simpl; [apply write_out_twice|done].
    + rewrite list_lookup_insert_ne by (intros Hw; by apply Hne, probe_word_inj).
      destruct (Hword q Hq Hc) as [|(Hz & j & qs & Hj & Hin)]; [by left|]. right. split; [done|].
      destruct (decide (i = j)) as [<-|Hij].
      * rewrite Hi in Hj. injection Hj as <-. apply elem_of_cons in Hin as [->|Hin]; [done|].
        exists i, ps. by rewrite list_lookup_insert_eq.
      * exists j, qs. by rewrite list_lookup_insert_ne.
Qed.

Lemma searches_finished units out p :
  searches_inv units out → forallb is_nil units = true → probe_ok p → calm (probe_bucket p) →
  out !! probe_word p = Some (answer p).
Proof.
  intros Hinv Hfin Hp Hc. destruct (sr_word _ _ Hinv p Hp Hc) as [|(_ & i & ps & Hi & Hin)]; [done|].
  rewrite forallb_forall in Hfin. specialize (Hfin ps (proj1 (list_elem_of_In _ _) (list_elem_of_lookup_2 _ _ _ Hi))).
  destruct ps; [by apply elem_of_nil in Hin|done].
Qed.

(** *** The phases of the stream *)

(** The block sees a table [τ] of its own, which agrees with the real one on its buckets. *)
Definition block_run (T : table) (es : list ielem_t) (us : list unit_t) : Prop :=
  ∃ τ, agree (in_block es) T τ ∧ block_inv D es (Block τ us) ∧ length us = 128%nat.

Record waiting (T : table) (st : stream) : Prop := {
  wt_deletes : deletes_inv t U ds T (st_delete st);
  wt_insert : st_insert st = insert_units <$> bs;
  wt_table : all_searched st = false → agree U T t;
}.

Record inserting (T : table) (st : stream) : Prop := {
  in_done : all_searched st = true ∧ all_deleted st = true;
  in_blocks : Forall2 (block_run T) bs (st_insert st);
  in_rest : ∀ k, U k → (∀ es, es ∈ bs → ¬ in_block es k) → ht_get T k = ht_get D k;
}.

Record stream_inv (T : table) (st : stream) : Prop := {
  si_search : searches_inv (st_search st) (st_out st);
  si_phase : waiting T st ∨ inserting T st;
}.

Lemma block_in_U es k : es ∈ bs → in_block es k → U k.
Proof. intros (j & Hj)%list_elem_of_lookup (e & He & <-). by eapply HUb. Qed.

Lemma block_units_in T es us : block_run T es us → units_in (in_block es) us.
Proof. intros (τ & _ & Hinv & _) i u e Hi He. exists e. split; [|done]. by apply (iv_todo _ _ _ Hinv i u Hi). Qed.

Lemma block_run_agree T T' es us : agree (in_block es) T T' → block_run T es us → block_run T' es us.
Proof. intros Ha (τ & Hτ & H). exists τ. split; [|done]. by rewrite <-Ha. Qed.

Lemma units_start es : Forall (λ u, u_pc u = UStart) (insert_units es).
Proof. unfold insert_units. apply Forall_fmap, Forall_true. done. Qed.

(** The insertions start on the table of the deletions. *)
Lemma start_inserts T st :
  waiting T st → all_searched st = true → all_deleted st = true → inserting T st.
Proof.
  intros [Hd Hi _] Hs Hdel.
  assert (Ha : agree U T D).
  { apply (cleared_agree t U ds all T); try done; [apply Hd|]. by apply (deletes_finished t U ds T (st_delete st)). }
  split; [done| |by intros k Hk _; apply Ha]. rewrite Hi. apply Forall2_fmap_r, Forall_Forall2_diag, Forall_forall.
  intros es Hes. exists D. split; [|split].
  - eapply agree_sub; [|exact Ha]. by intros k; apply block_in_U.
  - apply list_elem_of_lookup in Hes as [j Hj]. exact (insert_block_inv D es (Hblock j es Hj)).
  - unfold insert_units. by rewrite !length_fmap, length_seqZ.
Qed.

(** What others do elsewhere does not matter. *)
Lemma wiped_agree T T' e k : ht_get T k = ht_get T' k → wiped t T e k → wiped t T' e k.
Proof. intros Hk Hw l Hl Hl'. unfold slot. rewrite <-Hk. by apply Hw. Qed.

Lemma deletes_agree T T' us : agree U T T' → deletes_inv t U ds T us → deletes_inv t U ds T' us.
Proof.
  intros Ha [[Hlen Hloc Hslot] Htodo Hunit Hdone].
  assert (Hw : ∀ e k, e ∈ ds → k = bk e ∨ k = bk2 e → wiped t T e k → wiped t T' e k).
  { intros e k He Hk. apply wiped_agree, Ha. destruct (HU e He). by destruct Hk as [->| ->]. }
  split; [| done| |].
  - split; intros k; [|intros l..]; intros Hk.
    + rewrite <-(Ha k Hk). by apply Hlen.
    + intros Hl. unfold sloc. rewrite <-(Ha k Hk). by apply Hloc.
    + intros Hl. unfold slot at 1 3. rewrite <-(Ha k Hk). by apply Hslot.
  - intros i u Hi. specialize (Hunit i u Hi). unfold delete_unit_ok in *. specialize (Htodo i u Hi).
    destruct (d_todo u) as [|e rest]; [done|]. destruct (d_pc u); try done. apply Hw; [apply Htodo; left|by left|done].
  - intros e He. destruct (Hdone e He) as [|[H1 H2]]; [by left|]. right. split; apply Hw; auto.
Qed.

Lemma stream_agree T T' st : agree U T T' → stream_inv T st → stream_inv T' st.
Proof.
  intros Ha [Hs Hph]. split; [done|]. destruct Hph as [[Hd Hi Ht]|[Hdone Hb Hr]].
  - left. split; [by eapply deletes_agree|done|]. intros Hn. by rewrite <-Ha, (Ht Hn).
  - right. split; [done| |by intros k Hk Hno; rewrite <-(Ha k Hk); apply Hr].
    apply Forall2_same_length_lookup. apply Forall2_same_length_lookup in Hb as [Hlen Hb]. split; [done|].
    intros j es us Hes Hus. apply (block_run_agree T); [|by eapply Hb]. eapply agree_sub; [|exact Ha].
    intros k. by apply block_in_U, (list_elem_of_lookup_2 _ j).
Qed.

Lemma stream_cost_agree T T' st : agree U T T' → stream_inv T st → stream_cost T st = stream_cost T' st.
Proof.
  intros Ha [_ Hph]. unfold stream_cost. f_equal. destruct Hph as [[_ -> _]|[_ Hb _]].
  - clear. induction bs as [|es l IH]; [done|]. rewrite fmap_cons. cbn [zsum foldr].
    rewrite (remaining_start 641 T T' _ (units_start es)). f_equal. exact IH.
  - assert (HinU : ∀ es, es ∈ bs → ∀ k, in_block es k → U k) by (intros es Hes k; by apply block_in_U).
    clear -Ha Hb HinU. induction Hb as [|es us l l' Hes _ IH]; [done|]. simpl. f_equal.
    + apply (remaining_agree _ (in_block es)); [|by eapply block_units_in].
      eapply agree_sub; [|exact Ha]. apply HinU. left.
    + apply IH. intros es' He'. apply HinU. by right.
Qed.

(** *** A step of the stream *)

Lemma searched_no_unit units i p (ps : list probe_t) : forallb is_nil units = true → units !! i = Some (p :: ps) → False.
Proof.
  intros Hall' Hi. rewrite forallb_forall in Hall'.
  by specialize (Hall' _ (proj1 (list_elem_of_In _ _) (list_elem_of_lookup_2 _ _ _ Hi))).
Qed.

Lemma deleted_no_step T us i u : forallb (λ u, is_nil (d_todo u)) us = true → us !! i = Some u → delete_step T u = None.
Proof.
  intros Hdel Hi. rewrite forallb_forall in Hdel.
  specialize (Hdel _ (proj1 (list_elem_of_In _ _) (list_elem_of_lookup_2 _ _ _ Hi))). simpl in Hdel.
  unfold delete_step. by destruct (d_todo u).
Qed.

(** A step of block [j]: its ghost table makes the same step, the others keep theirs. *)
Lemma insert_step_inv T st j us T' us' :
  inserting T st → st_insert st !! j = Some us → block_step (Block T us) (Block T' us') →
  Forall2 (block_run T') bs (<[j := us']> (st_insert st)) ∧
  (∀ k, (∀ es, es ∈ bs → ¬ in_block es k) → ht_get T' k = ht_get T k) ∧
  remaining 641 (Block T' us') < remaining 641 (Block T us) ∧
  (∀ j' us2, j' ≠ j → st_insert st !! j' = Some us2 → remaining 641 (Block T' us2) = remaining 641 (Block T us2)).
Proof.
  intros [_ Hb _] Hj Hstep. apply Forall2_same_length_lookup in Hb as [Hlen Hb].
  pose proof (lookup_lt_Some _ _ _ Hj). destruct (lookup_lt_is_Some_2 bs j) as [es Hes]; [lia|].
  destruct (Hb j es us Hes Hj) as (τ & Hτ & Hinv & H128).
  assert (Hin : units_in (in_block es) us) by (apply (block_units_in T es us); by exists τ).
  destruct (block_step_agree _ T τ us T' us' Hτ Hin Hstep) as (τ' & Hstep' & Hτ' & Hout).
  assert (Hinv' : block_inv D es (Block τ' us')) by exact (step_inv D es (Hblock j es Hes) _ Hinv _ Hstep').
  assert (Hlen' : length us' = 128%nat).
  { rewrite <-H128. destruct Hstep as [i u t1 u1 _ _ [= _ ->]|_ [= _ ->]]; [apply length_insert|apply length_fmap]. }
  assert (Hother : ∀ j' es2, j' ≠ j → bs !! j' = Some es2 → agree (in_block es2) T T').
  { intros j' es2 Hne He2 k Hk. symmetry. apply Hout. intros Hk'. by destruct Hne; eapply Hdisj. }
  split; [|split; [|split]].
  - apply Forall2_same_length_lookup. rewrite length_insert. split; [done|]. intros j' es2 us2 He2 Hu2.
    apply list_lookup_insert_Some in Hu2 as [(<- & <- & _)|[Hne Hu2]].
    + rewrite Hes in He2. injection He2 as <-. by exists τ'.
    + apply (block_run_agree T); [|by eapply Hb]. by eapply Hother.
  - intros k Hk. apply Hout, Hk. by eapply list_elem_of_lookup_2.
  - rewrite (remaining_agree 641 _ T τ us Hτ Hin).
    rewrite (remaining_agree 641 _ T' τ' us' Hτ').
    2:{ intros i u e Hi He. exists e. split; [|done]. by apply (iv_todo _ _ _ Hinv' i u Hi). }
    pose proof (step_decreases D es _ _ (Hblock j es Hes) Hinv Hstep') as Hdec. cbn [bl_units] in Hdec. by rewrite H128 in Hdec.
  - intros j' us2 Hne Hu2. pose proof (lookup_lt_Some _ _ _ Hu2). destruct (lookup_lt_is_Some_2 bs j') as [es2 He2]; [lia|].
    symmetry. apply (remaining_agree _ (in_block es2)); [by eapply Hother|]. by eapply block_units_in, Hb.
Qed.

Lemma delete_cost_step T u T' u' : delete_step T u = Some (T', u') → delete_cost u' < delete_cost u.
Proof.
  unfold delete_step, delete_cost. destruct (d_todo u) as [|e rest] eqn:Hu; [done|].
  destruct (d_pc u) as [|hit|]; intros [= <- <-]; cbn [d_todo d_pc]; rewrite ?length_cons.
  - lia.
  - destruct hit; cbn [d_todo d_pc]; rewrite ?length_cons; [destruct rest; rewrite ?length_cons|]; simpl length; lia.
  - destruct rest; rewrite ?length_cons; simpl length; lia.
Qed.

Lemma stream_step_inv T st T' st' :
  stream_inv T st → (∀ k, calm k → ¬ U k → ht_get T k = ht_get t k) → (∀ k, Decision (U k)) →
  stream_step winner T st T' st' →
  stream_inv T' st' ∧ (∀ k, ¬ U k → ht_get T' k = ht_get T k) ∧ stream_cost T' st' < stream_cost T st.
Proof.
  intros [Hs Hph] Hcalm HUdec [i p ps Hi -> ->|i u u' Hsr Hi Hstep ->|j us us' Hsr Hdel Hj Hstep ->].
  - destruct Hph as [[Hd Hins Ht]|[[Hsr _] _ _]]; [|by destruct (searched_no_unit _ _ _ _ Hsr Hi)].
    assert (Hns : all_searched st = false) by (apply not_true_is_false; intros Hsr; by eapply searched_no_unit).
    specialize (Ht Hns). split; [|split; [done|]].
    + split; [|left; by split]. apply (search_step_inv T); [done|done|]. intros Hc.
      destruct (HUdec (probe_bucket p)); [by apply Ht|by apply Hcalm].
    + unfold stream_cost. cbn [st_search st_delete st_insert]. rewrite (zsum_insert _ _ i _ ps Hi), length_cons. lia.
  - destruct Hph as [[Hd Hins Ht]|[[_ Hdel] _ _]]; [|by rewrite (deleted_no_step _ _ _ _ Hdel Hi) in Hstep].
    destruct (delete_step_inv t U ds Hwf) with (T := T) (us := st_delete st) (i := i) (u := u) (T' := T') (u' := u')
      as [Hd' Hout]; try done.
    { apply Forall_forall. intros e He. rewrite Forall_forall in Hall. by apply Hall, Hsub. }
    { apply Forall_forall. intros e He. rewrite Forall_forall in Hsingle. by apply Hsingle, Hsub. }
    split; [|split; [done|]].
    + split; [done|]. left. split; [done|done|]. intros Hn. cbn in Hn. unfold all_searched in *. simpl in Hn. congruence.
    + unfold stream_cost. cbn [st_search st_delete st_insert]. rewrite Hins, (zsum_insert _ _ i _ u' Hi).
      pose proof (delete_cost_step _ _ _ _ Hstep).
      assert (zsum (λ us, remaining 641 (Block T' us)) (insert_units <$> bs) =
              zsum (λ us, remaining 641 (Block T us)) (insert_units <$> bs)) as ->; [|lia].
      clear. induction bs as [|es l IH]; [done|]. rewrite fmap_cons. cbn [zsum foldr].
      rewrite (remaining_start 641 T' T _ (units_start es)). f_equal. exact IH.
  - assert (Hin : inserting T st) by (destruct Hph; [by apply start_inserts|done]).
    destruct (insert_step_inv T st j us T' us' Hin Hj Hstep) as (Hb & Hrest & Hdec & Hsame).
    assert (HinU : ∀ k, ¬ U k → ∀ es, es ∈ bs → ¬ in_block es k).
    { intros k Hk es Hes Hin'. by apply Hk, (block_in_U es). }
    split; [|split; [by intros k Hk; apply Hrest, HinU|]].
    + split; [done|]. right. split; [done|done|]. intros k Hk Hno. rewrite Hrest by done. by apply Hin.
    + unfold stream_cost. cbn [st_search st_delete st_insert]. rewrite (zsum_insert _ _ j _ us' Hj).
      assert (zsum (λ us, remaining 641 (Block T' us)) (st_insert st) - remaining 641 (Block T' us) =
        zsum (λ us, remaining 641 (Block T us)) (st_insert st) - remaining 641 (Block T us)); [|lia].
      exact (zsum_except (λ us, remaining 641 (Block T' us)) (λ us, remaining 641 (Block T us)) _ j us Hj Hsame).
Qed.

Lemma stream_progress T st :
  stream_inv T st → all_searched st && all_deleted st && all_inserted st = false → ∃ T' st', stream_step winner T st T' st'.
Proof.
  intros [Hs Hph] Hnd. destruct (all_searched st) eqn:Hsr.
  2:{ apply not_true_iff_false in Hsr. unfold all_searched in Hsr. rewrite forallb_forall in Hsr.
      destruct (decide (Exists (λ ps, is_nil ps = false) (st_search st))) as [Hex|Hno].
      - apply Exists_exists in Hex as (ps & (i & Hi)%list_elem_of_lookup & Hn). destruct ps as [|p ps]; [done|].
        eexists _, _. by eapply step_search.
      - destruct Hsr. intros ps Hin%list_elem_of_In. apply not_false_iff_true. intros Hf. apply Hno, Exists_exists. by exists ps. }
  destruct (all_deleted st) eqn:Hdel.
  2:{ apply not_true_iff_false in Hdel. unfold all_deleted in Hdel. rewrite forallb_forall in Hdel.
      destruct (decide (Exists (λ u, is_nil (d_todo u) = false) (st_delete st))) as [Hex|Hno].
      - apply Exists_exists in Hex as (u & (i & Hi)%list_elem_of_lookup & Hn).
        assert (∃ T' u', delete_step T u = Some (T', u')) as (T' & u' & Hstep).
        { unfold delete_step. destruct (d_todo u) as [|e rest]; [done|]. destruct (d_pc u); by eexists _, _. }
        eexists _, _. by eapply step_delete.
      - destruct Hdel. intros u Hin%list_elem_of_In. apply not_false_iff_true. intros Hf. apply Hno, Exists_exists. by exists u. }
  assert (Hin : inserting T st) by (destruct Hph; [by apply start_inserts|done]).
  simpl in Hnd. apply not_true_iff_false in Hnd. unfold all_inserted in Hnd. rewrite forallb_forall in Hnd.
  destruct (decide (Exists (λ us, forallb finished us = false) (st_insert st))) as [Hex|Hno].
  2:{ destruct Hnd. intros us Hus%list_elem_of_In. apply not_false_iff_true. intros Hf. apply Hno, Exists_exists. by exists us. }
  apply Exists_exists in Hex as (us & (j & Hj)%list_elem_of_lookup & Hn).
  pose proof (in_blocks _ _ Hin) as Hb. apply Forall2_same_length_lookup in Hb as [Hlen Hb].
  pose proof (lookup_lt_Some _ _ _ Hj). destruct (lookup_lt_is_Some_2 bs j) as [es Hes]; [lia|].
  destruct (Hb j es us Hes Hj) as (τ & Hτ & Hinv & H128).
  destruct (progress D es _ Hinv Hn) as ([τ' us'] & Hstep).
  destruct (block_step_agree (in_block es) τ T us τ' us') as (T' & Hstep' & _); [by symmetry| |done|].
  { apply (block_units_in T es us). by exists τ. }
  eexists _, _. by eapply step_insert.
Qed.

(** *** The end of the stream *)

Lemma stream_view T st k x :
  stream_inv T st → all_searched st && all_deleted st && all_inserted st = true → x ≠ 0 → U k →
  bucket_wf (ht_get T k) ∧
  (∀ e, e ∈ concat bs → bk e = k → e_sig e = x → bview (ht_get T k) !! x = Some (e_loc e)) ∧
  ((∀ e, e ∈ concat bs → bk e = k → e_sig e ≠ x) → bview (ht_get T k) !! x = bview (ht_get D k) !! x).
Proof.
  intros [_ Hph] [[Hsr Hdel]%andb_prop Hfin]%andb_prop Hx Hk.
  assert (Hin : inserting T st) by (destruct Hph; [by apply start_inserts|done]).
  assert (HDwf : table_wf D) by (apply hash_delete_wf; exact Hwf).
  destruct (decide (Exists (λ es, Exists (λ e, bk e = k) es) bs)) as [Hex|Hno].
  - apply Exists_exists in Hex as (es & (j & Hes)%list_elem_of_lookup & (e0 & He0 & Hk0)%Exists_exists).
    assert (Hek : in_block es k) by by exists e0.
    pose proof (in_blocks _ _ Hin) as Hb. apply Forall2_same_length_lookup in Hb as [Hlen Hb].
    pose proof (lookup_lt_Some _ _ _ Hes). destruct (lookup_lt_is_Some_2 (st_insert st) j) as [us Hus]; [lia|].
    destruct (Hb j es us Hes Hus) as (τ & Hτ & Hinv & _).
    assert (Hdone : all_finished (Block τ us) = true).
    { unfold all_inserted in Hfin. rewrite forallb_forall in Hfin. apply Hfin, list_elem_of_In. by eapply list_elem_of_lookup_2. }
    destruct (final_view D es _ k x (Hblock j es Hes) Hinv Hdone Hx) as [Hnew Hold]. simpl in Hnew, Hold.
    rewrite (Hτ k Hek). split; [apply Hinv|].
    assert (Hiff : ∀ e, e ∈ concat bs → bk e = k → e ∈ es).
    { intros e (es' & He & (j' & Hj')%list_elem_of_lookup)%list_elem_of_concat Hke. 
      assert (j' = j) as -> by (eapply (Hdisj j' j es' es k); try done; by exists e). congruence. }
    split.
    + intros e He Hke. apply Hnew; [by apply Hiff|done].
    + intros Hne. apply Hold. intros e He. apply Hne. apply list_elem_of_concat. exists es. split; [done|]. by eapply list_elem_of_lookup_2.
  - assert (Hnb : ∀ es, es ∈ bs → ¬ in_block es k).
    { intros es Hes (e & He & Hke). apply Hno, Exists_exists. exists es. split; [done|]. apply Exists_exists. by exists e. }
    rewrite (in_rest _ _ Hin k Hk Hnb). split; [apply HDwf|]. split; [|done].
    intros e (es & He & Hes)%list_elem_of_concat Hke. destruct (Hnb es Hes). by exists e.
Qed.
End worker.

(** ** All streams *)

(** The buckets that the kernels may write for a worker. *)
Definition updated (cfg : mega_config_t) (bf : mega_batch_buf_t) : list Z :=
  (buf_deletes bf ≫= λ e, [bk e; bk2 e]) ++ ((λ e, bk e) <$> concat (buf_blocks cfg bf)).

(** No other worker updates the bucket. *)
Definition undisturbed (cfg : mega_config_t) (bufs : list mega_batch_buf_t) (b : nat) (k : Z) : Prop :=
  ∀ b' bf', b' ≠ b → bufs !! b' = Some bf' → k ∉ updated cfg bf'.

(** No bucket is updated by two workers, nor by two insertion blocks of one. *)
Record apart (cfg : mega_config_t) (bufs : list mega_batch_buf_t) : Prop := {
  ap_workers : ∀ b bf k, bufs !! b = Some bf → k ∈ updated cfg bf → undisturbed cfg bufs b k;
  ap_blocks : ∀ bf j j' es es' k, bf ∈ bufs → buf_blocks cfg bf !! j = Some es → buf_blocks cfg bf !! j' = Some es' →
    in_block es k → in_block es' k → j = j';
}.

Definition cycle_deletes (bufs : list mega_batch_buf_t) : list ielem_t := concat (buf_deletes <$> bufs).
Definition cycle_inserts (cfg : mega_config_t) (bufs : list mega_batch_buf_t) : list ielem_t :=
  concat ((λ bf, concat (buf_blocks cfg bf)) <$> bufs).

Definition gpu_cost (s : gpu) : Z := zsum (stream_cost (g_table s)) (g_streams s).

Lemma elem_of_cycle_deletes bufs e : e ∈ cycle_deletes bufs ↔ ∃ bf, bf ∈ bufs ∧ e ∈ buf_deletes bf.
Proof.
  unfold cycle_deletes. rewrite list_elem_of_concat. setoid_rewrite list_elem_of_fmap. naive_solver.
Qed.

Lemma elem_of_cycle_inserts cfg bufs e : e ∈ cycle_inserts cfg bufs ↔ ∃ bf, bf ∈ bufs ∧ e ∈ concat (buf_blocks cfg bf).
Proof.
  unfold cycle_inserts. rewrite list_elem_of_concat. setoid_rewrite list_elem_of_fmap. naive_solver.
Qed.

Lemma updated_delete cfg bf e : e ∈ buf_deletes bf → bk e ∈ updated cfg bf ∧ bk2 e ∈ updated cfg bf.
Proof.
  intros He. unfold updated. split; apply elem_of_app; left; apply list_elem_of_bind; exists e;
    (split; [|done]); [left|right; left].
Qed.

Lemma updated_insert cfg bf e : e ∈ concat (buf_blocks cfg bf) → bk e ∈ updated cfg bf.
Proof. intros He. unfold updated. apply elem_of_app. right. apply list_elem_of_fmap. by exists e. Qed.

Lemma NoDup_fmap_part {A B} (f : A → B) (ls : list (list A)) l : NoDup (f <$> concat ls) → l ∈ ls → NoDup (f <$> l).
Proof.
  induction ls as [|l' ls IH]; intros Hnd Hl; [by apply elem_of_nil in Hl|].
  simpl in Hnd. rewrite fmap_app in Hnd. apply NoDup_app in Hnd as (H1 & _ & H2).
  apply elem_of_cons in Hl as [->|Hl]; auto.
Qed.

Lemma hash_delete_other t l k : (∀ e, e ∈ l → k ≠ bk e ∧ k ≠ bk2 e) → ht_get (hash_delete t l) k = ht_get t k.
Proof.
  revert t. induction l as [|e l IH]; intros t Hk; [done|].
  change (hash_delete t (e :: l)) with (hash_delete (hash_delete_elem t e) l).
  rewrite IH by (intros e' He'; apply Hk; by right). destruct (Hk e ltac:(left)) as [H1 H2]. unfold hash_delete_elem.
  destruct (negb _); rewrite !ht_get_insert; by rewrite ?decide_False by congruence.
Qed.

(** The units of a launch get to every element. *)
Lemma launched_unit grid n total id :
  id ∈ kernel_ids grid n total → ∃ i ids, launched_units grid n total !! i = Some ids ∧ id ∈ ids.
Proof.
  unfold kernel_ids. rewrite list_elem_of_bind. intros (u & Hid & (i & Hi)%list_elem_of_lookup).
  eexists i, _. split; [|exact Hid]. unfold launched_units. by rewrite list_lookup_fmap, Hi.
Qed.

Lemma elem_of_visited {A} (l : list A) ids x : x ∈ visited l ids ↔ ∃ i, i ∈ ids ∧ l !! Z.to_nat i = Some x.
Proof. unfold visited. apply list_elem_of_omap. Qed.

Section cycle.
Context (winner : list Z → Z) (cfg : mega_config_t) (t : table) (bufs : list mega_batch_buf_t).
Abbreviation all := (cycle_deletes bufs).
Abbreviation D := (hash_delete t all).
Context (Hgpu : gpu_ok cfg) (Hbufs : Forall (cycle_buf cfg) bufs) (Hapart : apart cfg bufs).
Context (Hwf : table_wf t) (Hall : Forall (λ e, e_sig e ≠ 0) all) (Hsingle : Forall (gpu_single t) all).
Context (Hes : Forall (λ e, e_sig e ≠ 0) (cycle_inserts cfg bufs)) (Hnd : NoDup (e_sig <$> cycle_inserts cfg bufs)).
Context (Hroom : ∀ bf es k, bf ∈ bufs → es ∈ buf_blocks cfg bf → (length (needed D es k) ≤ length (free_slots D k))%nat).

Abbreviation worker_inv b bf :=
  (stream_inv winner t (λ k, k ∈ updated cfg bf) (undisturbed cfg bufs b) (buf_searches bf) (buf_deletes bf) all
     (buf_blocks cfg bf)).

(** *** What the workers' updates satisfy *)

Lemma worker_deletes bf : bf ∈ bufs → buf_deletes bf ⊆ all.
Proof. intros Hbf e He. apply elem_of_cycle_deletes. by exists bf. Qed.

Lemma worker_own b bf e k :
  bufs !! b = Some bf → e ∈ all → k ∈ updated cfg bf → k = bk e ∨ k = bk2 e → e ∈ buf_deletes bf.
Proof.
  intros Hb (bf' & (b' & Hb')%list_elem_of_lookup & He)%elem_of_cycle_deletes Hk Hke.
  destruct (decide (b' = b)) as [->|Hne]; [congruence|].
  destruct (ap_workers _ _ Hapart b bf k Hb Hk b' bf' Hne Hb').
  destruct (updated_delete cfg bf' e He). by destruct Hke as [->| ->].
Qed.

Lemma worker_blocks bf j es : bf ∈ bufs → buf_blocks cfg bf !! j = Some es → block_ok D es.
Proof.
  intros Hbf Hj. pose proof (list_elem_of_lookup_2 _ _ _ Hj) as Hin. split.
  - by apply hash_delete_wf.
  - apply Forall_forall. intros e He. rewrite Forall_forall in Hes. apply Hes, elem_of_cycle_inserts.
    exists bf. split; [done|]. apply list_elem_of_concat. by exists es.
  - apply (NoDup_fmap_part e_sig (buf_blocks cfg bf)); [|done]. apply (NoDup_fmap_part e_sig _ _ Hnd).
    apply list_elem_of_fmap. by exists bf.
  - intros k. by apply (Hroom bf).
Qed.

Lemma worker_block_updates bf j es e : buf_blocks cfg bf !! j = Some es → e ∈ es → bk e ∈ updated cfg bf.
Proof.
  intros Hj He. apply updated_insert, list_elem_of_concat. exists es. split; [done|]. by eapply list_elem_of_lookup_2.
Qed.

(** *** The invariant *)

Record cycle_inv (s : gpu) : Prop := {
  ci_len : length (g_streams s) = length bufs;
  ci_worker : ∀ b bf st, bufs !! b = Some bf → g_streams s !! b = Some st → worker_inv b bf (g_table s) st;
  ci_rest : ∀ k, (∀ bf, bf ∈ bufs → k ∉ updated cfg bf) → ht_get (g_table s) k = ht_get t k;
}.

Lemma stream0_inv b bf : bufs !! b = Some bf → worker_inv b bf t (stream0 cfg bf).
Proof.
  intros Hb. pose proof (Forall_lookup_1 _ _ _ _ Hbufs Hb) as [[Hn Hout] Hd _ _ _]. simpl in *.
  assert (Hlen : length (buf_searches bf) = Z.to_nat (num_search_job bf)) by (unfold buf_searches; rewrite length_take; lia).
  destruct Hgpu as [Hblk [Hs1 Hs2] [Hd1 Hd2]].
  destruct (launch_covers_spec (GPU_search_thread_num cfg) (GPU_threads_per_blk cfg) (num_search_job bf))
    as [(grid & Hl & _ & Hids) _]; [done..|lia|].
  destruct (launch_covers_spec (GPU_delete_thread_num cfg) (GPU_threads_per_blk cfg) (num_delete_job bf))
    as [(grid' & _ & Hl' & Hids') _]; [done..|lia|].
  split; [|left; split].
  - unfold stream0. cbn [st_search st_out]. rewrite Hl. split.
    + intros i ps p Hi Hp. rewrite list_lookup_fmap in Hi. destruct (launched_units _ _ _ !! i) as [ids|] eqn:Hu; [|done].
      injection Hi as <-. unfold search_unit in Hp. apply list_elem_of_bind in Hp as (id & Hp & Hid).
      assert (0 ≤ id) as H0.
      { unfold launched_units in Hu. rewrite list_lookup_fmap in Hu. destruct (seqZ _ _ !! i) as [u|] eqn:Hu'; [|done].
        injection Hu as <-. apply lookup_seqZ in Hu' as [-> _]. 
        assert (0 < Z.shiftr (GPU_search_thread_num cfg) ELEM_NUM_P).
        { rewrite Z.shiftr_div_pow2 by done. change (2 ^ ELEM_NUM_P) with 8. apply Z.div_str_pos.
          pose proof (Z.div_mod (GPU_search_thread_num cfg) 32). lia. }
        apply elem_of_unit_ids in Hid as (_ & k & Hk & ->); lia. }
      destruct (buf_searches bf !! Z.to_nat id) as [x|] eqn:Hx; [|by apply elem_of_nil in Hp].
      unfold probe_ok. apply elem_of_cons in Hp as [->|[->|?%elem_of_nil]%elem_of_cons]; done.
    + rewrite length_replicate, Hlen. lia.
    + intros p [H0 Hp] _. right. pose proof (lookup_lt_Some _ _ _ Hp). split.
      { apply lookup_replicate_2. unfold probe_word. destruct (pr_second p); lia. }
      destruct (launched_unit grid (GPU_search_thread_num cfg) (num_search_job bf) (pr_id p)) as (i & ids & Hi & Hid); [apply Hids; lia|].
      exists i, (search_unit (buf_searches bf) ids). split; [by rewrite list_lookup_fmap, Hi|].
      unfold search_unit. apply list_elem_of_bind. exists (pr_id p). split; [|done]. rewrite Hp.
      destruct p as [id x []]; [right; left|left].
  - unfold stream0. cbn [st_delete]. rewrite Hl'. split.
    + by apply cleared_start.
    + intros i u Hi e He. rewrite <-list_fmap_compose, list_lookup_fmap in Hi. destruct (launched_units _ _ _ !! i) as [ids|]; [|done].
      injection Hi as <-. simpl in He. apply elem_of_visited in He as (j & _ & Hj). by eapply list_elem_of_lookup_2.
    + intros i u Hi. rewrite <-list_fmap_compose, list_lookup_fmap in Hi. destruct (launched_units _ _ _ !! i); [|done].
      injection Hi as <-. unfold delete_unit_ok. simpl. by destruct (visited _ _).
    + intros e (j & Hj)%list_elem_of_lookup. left. pose proof (lookup_lt_Some _ _ _ Hj) as Hlt. unfold buf_deletes in Hlt.
      rewrite length_take in Hlt.
      destruct (launched_unit grid' (GPU_delete_thread_num cfg) (num_delete_job bf) (Z.of_nat j)) as (i & ids & Hi & Hid); [apply Hids'; lia|].
      exists i, (DeleteUnit DVote (visited (buf_deletes bf) ids)). rewrite <-list_fmap_compose, list_lookup_fmap, Hi.
      split; [done|]. simpl. apply elem_of_visited. exists (Z.of_nat j). by rewrite Nat2Z.id.
  - done.
  - done.
Qed.

Lemma cycle0_inv : cycle_inv (gpu0 cfg t bufs).
Proof.
  split; simpl; [by rewrite length_fmap| |done]. intros b bf st Hb Hst. rewrite list_lookup_fmap, Hb in Hst.
  injection Hst as <-. by apply stream0_inv.
Qed.

Lemma worker_agree b bf b' bf' T T' :
  bufs !! b = Some bf → bufs !! b' = Some bf' → b ≠ b' →
  (∀ k, k ∉ updated cfg bf → ht_get T' k = ht_get T k) → agree (λ k, k ∈ updated cfg bf') T T'.
Proof.
  intros Hb Hb' Hne Hout k Hk. symmetry. apply Hout. by apply (ap_workers _ _ Hapart b' bf' k Hb' Hk b bf).
Qed.

Lemma streams_step_inv s s' : cycle_inv s → gpu_step winner s s' → cycle_inv s' ∧ gpu_cost s' < gpu_cost s.
Proof.
  intros [Hlen Hw Hrest] [b st T' st' Hst Hstep ->].
  pose proof (lookup_lt_Some _ _ _ Hst). destruct (lookup_lt_is_Some_2 bufs b) as [bf Hb]; [lia|].
  pose proof (list_elem_of_lookup_2 _ _ _ Hb) as Hin.
  destruct (stream_step_inv winner t (λ k, k ∈ updated cfg bf) (undisturbed cfg bufs b) (buf_searches bf) (buf_deletes bf) all
    (buf_blocks cfg bf) Hwf Hall Hsingle (worker_deletes bf Hin) (updated_delete cfg bf)
    (λ e He k, worker_own b bf e k Hb He) (λ j es, worker_blocks bf j es Hin) (worker_block_updates bf)
    (λ j j' es es' k, ap_blocks _ _ Hapart bf j j' es es' k Hin)) with (T := g_table s) (st := st) (T' := T') (st' := st')
    as (Hinv & Hout & Hcost); try done.
  { by apply Hw. }
  { intros k Hc Hk. apply Hrest. intros bf' (b' & Hb')%list_elem_of_lookup.
    destruct (decide (b' = b)) as [->|Hne]; [congruence|by eapply Hc]. }
  { intros k. apply _. }
  assert (Hagree : ∀ b' bf', bufs !! b' = Some bf' → b ≠ b' → agree (λ k, k ∈ updated cfg bf') (g_table s) T').
  { intros b' bf' Hb' Hne. by apply (worker_agree b bf b' bf'). }
  split; [split|].
  - simpl. by rewrite length_insert.
  - intros b' bf' st2 Hb' Hst2. simpl in *.
    apply list_lookup_insert_Some in Hst2 as [(<- & <- & _)|[Hne Hst2]].
    { rewrite Hb in Hb'. by injection Hb' as <-. }
    eapply stream_agree; [| |by eapply Hagree|by apply Hw].
    + apply updated_delete.
    + intros j es e. apply worker_block_updates.
  - intros k Hk. simpl. rewrite Hout by (by apply Hk). by apply Hrest.
  - unfold gpu_cost. simpl. rewrite (zsum_insert _ _ b st st' Hst).
    assert (Hsame : ∀ b' st2, b' ≠ b → g_streams s !! b' = Some st2 → stream_cost T' st2 = stream_cost (g_table s) st2).
    { intros b' st2 Hne Hst2. pose proof (lookup_lt_Some _ _ _ Hst2). destruct (lookup_lt_is_Some_2 bufs b') as [bf' Hb']; [lia|].
      symmetry. eapply stream_cost_agree; [|by eapply Hagree|by apply Hw]. intros j es e. apply worker_block_updates. }
    clear -Hst Hcost Hsame. enough (zsum (stream_cost T') (g_streams s) - stream_cost T' st =
      zsum (stream_cost (g_table s)) (g_streams s) - stream_cost (g_table s) st) by lia.
    by apply (zsum_except _ _ _ b).
Qed.

Lemma delete_cost_nonneg u : 0 ≤ delete_cost u.
Proof. unfold delete_cost. destruct (d_todo u) as [|e l]; [done|]. rewrite length_cons. destruct (d_pc u); lia. Qed.

Lemma zsum_nonneg {A} (f : A → Z) l : (∀ x, 0 ≤ f x) → 0 ≤ zsum f l.
Proof. intros Hf. induction l as [|x l IH]; simpl; [lia|]. specialize (Hf x). lia. Qed.

Lemma gpu_cost_nonneg s : 0 ≤ gpu_cost s.
Proof.
  apply zsum_nonneg. intros st. unfold stream_cost.
  pose proof (zsum_nonneg (λ ps : list probe_t, Z.of_nat (length ps)) (st_search st) (λ ps, Nat2Z.is_nonneg _)).
  pose proof (zsum_nonneg delete_cost (st_delete st) delete_cost_nonneg).
  pose proof (zsum_nonneg (λ us, remaining 641 (Block (g_table s) us)) (st_insert st) (λ us, remaining_nonneg 641 _ ltac:(lia))). lia.
Qed.

Lemma cycle_run_inv n s s' : cycle_inv s → nsteps (gpu_step winner) n s s' → cycle_inv s' ∧ Z.of_nat n + gpu_cost s' ≤ gpu_cost s.
Proof.
  intros Hs Hrun. induction Hrun as [s|n s s1 s' Hstep _ IH]; [split; [done|lia]|].
  destruct (streams_step_inv s s1 Hs Hstep) as [Hs1 Hcost]. destruct (IH Hs1) as [Hs' Hn]. split; [done|lia].
Qed.

Lemma cycle_progress s : cycle_inv s → all_done s = false → ∃ s', gpu_step winner s s'.
Proof.
  intros [Hlen Hw _] Hnot. apply not_true_iff_false in Hnot. unfold all_done in Hnot. rewrite forallb_forall in Hnot.
  destruct (decide (Exists (λ st, all_searched st && all_deleted st && all_inserted st = false) (g_streams s))) as [Hex|Hno].
  2:{ destruct Hnot. intros st Hst%list_elem_of_In. apply not_false_iff_true. intros Hf. apply Hno, Exists_exists. by exists st. }
  apply Exists_exists in Hex as (st & (b & Hst)%list_elem_of_lookup & Hn).
  pose proof (lookup_lt_Some _ _ _ Hst). destruct (lookup_lt_is_Some_2 bufs b) as [bf Hb]; [lia|].
  pose proof (list_elem_of_lookup_2 _ _ _ Hb) as Hin.
  destruct (stream_progress winner t (λ k, k ∈ updated cfg bf) (undisturbed cfg bufs b) (buf_searches bf) (buf_deletes bf) all
    (buf_blocks cfg bf) Hwf Hall Hsingle (worker_deletes bf Hin)
    (λ e He k, worker_own b bf e k Hb He) (λ j es, worker_blocks bf j es Hin) (worker_block_updates bf) (g_table s) st)
    as (T' & st' & Hstep); [by apply Hw|done|].
  eexists. by eapply step_stream.
Qed.

(** *** The end of the cycle *)

Lemma cycle_view s k x :
  cycle_inv s → all_done s = true → x ≠ 0 →
  bucket_wf (ht_get (g_table s) k) ∧
  (∀ e, e ∈ cycle_inserts cfg bufs → bk e = k → e_sig e = x → bview (ht_get (g_table s) k) !! x = Some (e_loc e)) ∧
  ((∀ e, e ∈ cycle_inserts cfg bufs → bk e = k → e_sig e ≠ x) →
     bview (ht_get (g_table s) k) !! x = bview (ht_get D k) !! x).
Proof.
  intros [Hlen Hw Hrest] Hfin Hx.
  destruct (decide (Exists (λ bf, k ∈ updated cfg bf) bufs)) as [Hex|Hno].
  - apply Exists_exists in Hex as (bf & (b & Hb)%list_elem_of_lookup & Hk). pose proof (list_elem_of_lookup_2 _ _ _ Hb) as Hin.
    pose proof (lookup_lt_Some _ _ _ Hb). destruct (lookup_lt_is_Some_2 (g_streams s) b) as [st Hst]; [lia|].
    assert (Hdone : all_searched st && all_deleted st && all_inserted st = true).
    { unfold all_done in Hfin. rewrite forallb_forall in Hfin. apply Hfin, list_elem_of_In. by eapply list_elem_of_lookup_2. }
    destruct (stream_view winner t (λ k, k ∈ updated cfg bf) (undisturbed cfg bufs b) (buf_searches bf) (buf_deletes bf) all
      (buf_blocks cfg bf) Hwf Hall Hsingle (worker_deletes bf Hin)
      (λ e He k, worker_own b bf e k Hb He) (λ j es, worker_blocks bf j es Hin) (worker_block_updates bf)
      (λ j j' es es' k, ap_blocks _ _ Hapart bf j j' es es' k Hin) (g_table s) st k x) as (H1 & H2 & H3); [by apply Hw|done|done|done|].
    assert (Hiff : ∀ e, e ∈ cycle_inserts cfg bufs → bk e = k → e ∈ concat (buf_blocks cfg bf)).
    { intros e (bf' & (b' & Hb')%list_elem_of_lookup & He)%elem_of_cycle_inserts Hke.
      destruct (decide (b' = b)) as [->|Hne]; [congruence|].
      destruct (ap_workers _ _ Hapart b bf k Hb Hk b' bf' Hne Hb'). subst k. by apply updated_insert. }
    split; [done|]. split.
    + intros e He Hke. apply H2; [by apply Hiff|done].
    + intros Hne. apply H3. intros e He. apply Hne, elem_of_cycle_inserts. by exists bf.
  - assert (Hnk : ∀ bf, bf ∈ bufs → k ∉ updated cfg bf) by (intros bf Hbf Hk; apply Hno, Exists_exists; by exists bf).
    rewrite (Hrest k Hnk). split; [apply Hwf|]. split.
    + intros e (bf & Hbf & He)%elem_of_cycle_inserts <-. by destruct (Hnk bf Hbf); apply updated_insert.
    + intros _. rewrite hash_delete_other; [done|]. intros e (bf & Hbf & He)%elem_of_cycle_deletes.
      destruct (updated_delete cfg bf e He). split; intros ->; by apply (Hnk bf Hbf).
Qed.

(** The two words of an undisturbed search. *)
Lemma cycle_words s b bf i x :
  cycle_inv s → all_done s = true → bufs !! b = Some bf → 0 ≤ i < num_search_job bf →
  search_in bf !! Z.to_nat i = Some x →
  undisturbed cfg bufs b (bucket_index (s_hash x)) → undisturbed cfg bufs b (second_index (s_hash x) (s_sig x)) →
  ∃ st, g_streams s !! b = Some st ∧ length (st_out st) = (2 * Z.to_nat (num_search_job bf))%nat ∧
    let o := hash_search_elem winner t x (0, 0) in
    st_out st !! Z.to_nat (2 * i) = Some o.1 ∧ st_out st !! Z.to_nat (2 * i + 1) = Some o.2.
Proof.
  intros [Hlen Hw _] Hfin Hb Hi Hx Hc1 Hc2.
  pose proof (Forall_lookup_1 _ _ _ _ Hbufs Hb) as [[Hn _] _ _ _ _]. simpl in Hn.
  assert (Hlen' : length (buf_searches bf) = Z.to_nat (num_search_job bf)) by (unfold buf_searches; rewrite length_take; lia).
  pose proof (lookup_lt_Some _ _ _ Hb). destruct (lookup_lt_is_Some_2 (g_streams s) b) as [st Hst]; [lia|].
  exists st. split; [done|]. destruct (Hw b bf st Hb Hst) as [Hs _].
  assert (Hdone : all_searched st = true).
  { unfold all_done in Hfin. rewrite forallb_forall in Hfin.
    specialize (Hfin st (proj1 (list_elem_of_In _ _) (list_elem_of_lookup_2 _ _ _ Hst))).
    by apply andb_prop in Hfin as [[? _]%andb_prop _]. }
  split; [rewrite (sr_len _ _ _ _ _ _ Hs), Hlen'; lia|].
  assert (Hok : ∀ d, probe_ok (buf_searches bf) (Probe i x d)).
  { intros d. split; [simpl; lia|]. simpl. unfold buf_searches. rewrite lookup_take_lt by lia. done. }
  pose proof (searches_finished winner t _ _ _ _ (Probe i x false) Hs Hdone (Hok false) Hc1) as H1.
  pose proof (searches_finished winner t _ _ _ _ (Probe i x true) Hs Hdone (Hok true) Hc2) as H2.
  unfold probe_word, answer in H1, H2. cbn [pr_id pr_second pr_elem probe_bucket] in H1, H2. rewrite Z.add_0_r in H1.
  by split.
Qed.
End cycle.

(** ** Any updates

    Without the conditions on the updates - two workers in one bucket, one signature twice -
    the table keeps its shape and its types in every order of the steps. *)

Section types.
Context (winner : list Z → Z) (Q P : Z → Prop) (HQ0 : Q 0).

Definition elem_typed (e : ielem_t) : Prop := Q (e_sig e) ∧ P (e_loc e).
Definition stream_typed (st : stream) : Prop := Forall (Forall (λ u, Forall elem_typed (u_todo u))) (st_insert st).

Lemma clear_typed t k e : table_typed Q P t → table_typed Q P (<[k := clear_entry (ht_get t k) e]> t).
Proof.
  intros Ht. apply typed_insert; [done|]. destruct (Ht k) as [? ? ? ?]. split; try done.
  unfold clear_entry. cbn [b_sig]. apply Forall_fmap, Forall_forall. intros l Hl%elem_of_seqZ.
  change ELEM_NUM with 8 in Hl. simpl. destruct (same_entry _ _ _); [done|].
  apply (typed_lane Q P t k l Ht). lia.
Qed.

Lemma delete_step_typed t u t' u' : table_typed Q P t → delete_step t u = Some (t', u') → table_typed Q P t'.
Proof.
  intros Ht Hs. unfold delete_step in Hs. destruct (d_todo u) as [|e rest]; [done|].
  destruct (d_pc u); injection Hs as <- _; [done|by apply clear_typed..].
Qed.

Lemma unit_step_typed t u t' u' :
  table_typed Q P t → Forall elem_typed (u_todo u) → unit_step t u = Some (t', u') →
  table_typed Q P t' ∧ Forall elem_typed (u_todo u').
Proof.
  intros Ht Hu Hs. unfold unit_step in Hs. destruct (u_todo u) as [|e rest] eqn:He; [done|].
  pose proof Hu as [[HQ HP] Hrest]%Forall_cons.
  destruct (u_pc u) as [| |c|c|[c|]|c|]; try discriminate; try (destruct (_ && _)); injection Hs as <- <-;
    (split; [|done]); first [done|by apply typed_insert, typed_set_sig|by apply typed_insert, typed_set_loc].
Qed.

Lemma stream_step_typed t st t' st' :
  table_typed Q P t → stream_typed st → stream_step winner t st t' st' → table_typed Q P t' ∧ stream_typed st'.
Proof.
  intros Ht Hst [i p ps _ -> ->|i u u' _ _ Hs ->|j us us' _ _ Hj Hs ->]; [done| |].
  - split; [by eapply delete_step_typed|done].
  - unfold stream_typed in *. pose proof (Forall_lookup_1 _ _ _ _ Hst Hj) as Hus.
    destruct Hs as [i u t1 u1 Hi Hs [= -> ->]|_ [= -> ->]].
    + destruct (unit_step_typed t u t1 u1 Ht (Forall_lookup_1 _ _ _ _ Hus Hi) Hs) as [Ht1 Hu1].
      split; [done|]. simpl. by apply Forall_insert, Forall_insert.
    + split; [done|]. apply Forall_insert; [done|]. apply Forall_fmap. eapply Forall_impl; [exact Hus|].
      intros u Hu. simpl. by rewrite pass_barrier_todo.
Qed.

Lemma gpu_step_typed s s' :
  table_typed Q P (g_table s) ∧ Forall stream_typed (g_streams s) → gpu_step winner s s' →
  table_typed Q P (g_table s') ∧ Forall stream_typed (g_streams s').
Proof.
  intros [Ht Hs] [b st t' st' Hb Hstep ->].
  destruct (stream_step_typed _ _ _ _ Ht (Forall_lookup_1 _ _ _ _ Hs Hb) Hstep). split; [done|]. by apply Forall_insert.
Qed.

Lemma gpu0_typed cfg t bufs :
  table_typed Q P t → Forall elem_typed (cycle_inserts cfg bufs) →
  table_typed Q P (g_table (gpu0 cfg t bufs)) ∧ Forall stream_typed (g_streams (gpu0 cfg t bufs)).
Proof.
  intros Ht Hes. split; [done|]. rewrite Forall_forall in Hes.
  apply Forall_forall. intros st (bf & -> & Hbf)%list_elem_of_fmap.
  apply Forall_forall. intros us (es & -> & Hin)%list_elem_of_fmap.
  apply Forall_forall. intros u (l & -> & (i & -> & _)%list_elem_of_fmap)%list_elem_of_fmap. cbn [u_todo]. unfold unit_elems.
  apply Forall_forall. intros e (id & _ & He%list_elem_of_lookup_2)%list_elem_of_omap.
  apply Hes, elem_of_cycle_inserts. exists bf. split; [done|]. apply list_elem_of_concat. by exists es.
Qed.
End types.

(** ** Schedules *)

(** A step of unit [i] of the search or of the deletion kernel of worker [b], of unit [u] of
    its insertion block [j], or of the block's barrier. *)
Inductive gpu_event :=
  | GSearch (b i : nat)
  | GDelete (b i : nat)
  | GInsert (b j u : nat)
  | GBarrier (b j : nat).

Definition do_gpu (winner : list Z → Z) (e : gpu_event) (s : gpu) : option gpu :=
  let set b T st := Some (Gpu T (<[b := st]> (g_streams s))) in
  let insert b j f :=
    st ← g_streams s !! b;
    if all_searched st && all_deleted st then
      us ← st_insert st !! j; '(T, us) ← (f us : option (table * list unit_t));
      set b T (Stream (st_search st) (st_out st) (st_delete st) (<[j := us]> (st_insert st)))
    else None in
  match e with
  | GSearch b i =>
      st ← g_streams s !! b; ps ← st_search st !! i;
      match ps with
      | [] => None
      | p :: ps => set b (g_table s) (Stream (<[i := ps]> (st_search st)) (probe winner (g_table s) p (st_out st))
                     (st_delete st) (st_insert st))
      end
  | GDelete b i =>
      st ← g_streams s !! b;
      if all_searched st then
        u ← st_delete st !! i; '(T, u) ← delete_step (g_table s) u;
        set b T (Stream (st_search st) (st_out st) (<[i := u]> (st_delete st)) (st_insert st))
      else None
  | GInsert b j i => insert b j (λ us, u ← us !! i; '(T, u) ← unit_step (g_table s) u; Some (T, <[i := u]> us))
  | GBarrier b j => insert b j (λ us, if may_pass us then Some (g_table s, pass_barrier <$> us) else None)
  end.

Fixpoint run_gpu (winner : list Z → Z) (es : list gpu_event) (s : gpu) : option gpu :=
  match es with
  | [] => Some s
  | e :: es => s ← do_gpu winner e s; run_gpu winner es s
  end.

Lemma option_bind_Some {A B} (f : A → option B) (m : option A) b : (m ≫= f) = Some b → ∃ a, m = Some a ∧ f a = Some b.
Proof. destruct m as [a|]; [|done]. intros H. by exists a. Qed.

Lemma do_gpu_step winner e s s' : do_gpu winner e s = Some s' → gpu_step winner s s'.
Proof.
  destruct e as [b i|b i|b j i|b j]; simpl; intros (st & Hst & H)%option_bind_Some.
  - apply option_bind_Some in H as (ps & Hps & H). destruct ps as [|p ps]; [done|]. injection H as <-.
    eapply step_stream; [exact Hst| |done]. by eapply step_search.
  - destruct (all_searched st) eqn:Hs; [|done]. apply option_bind_Some in H as (u & Hu & H).
    apply option_bind_Some in H as ([T u'] & Hstep & [= <-]). eapply step_stream; [exact Hst| |done]. by eapply step_delete.
  - destruct (_ && _) eqn:Hs; [|done]. apply andb_prop in Hs as [Hs Hd]. apply option_bind_Some in H as (us & Hus & H).
    apply option_bind_Some in H as ([T us'] & Hstep & [= <-]). eapply step_stream; [exact Hst| |done].
    eapply step_insert; try done. apply option_bind_Some in Hstep as (u & Hu & Hstep).
    apply option_bind_Some in Hstep as ([T' u'] & Hstep & [= <- <-]). by eapply step_unit.
  - destruct (_ && _) eqn:Hs; [|done]. apply andb_prop in Hs as [Hs Hd]. apply option_bind_Some in H as (us & Hus & H).
    apply option_bind_Some in H as ([T us'] & Hstep & [= <-]). eapply step_stream; [exact Hst| |done].
    eapply step_insert; try done. destruct (may_pass us) eqn:Hmay; [|done]. injection Hstep as <- <-. by eapply step_barrier.
Qed.

Lemma run_gpu_steps winner es s s' : run_gpu winner es s = Some s' → nsteps (gpu_step winner) (length es) s s'.
Proof.
  revert s. induction es as [|e es IH]; intros s H; [injection H as <-; constructor|].
  cbn [run_gpu] in H. apply option_bind_Some in H as (s1 & H1 & H). eapply nsteps_l; [by eapply do_gpu_step|by apply IH].
Qed.

(** ** Properties *)

(** C5: the streams of a cycle refine a map, whatever the order in which their units run.
    Take the buffers of all workers and an index that represents a map [m] from signatures
    to locations.  Let no bucket be updated by two workers or by two insertion blocks of
    one, no signature be inserted twice, no signature that is to be deleted lie in both of
    its buckets, and the insertions of a block have room in their first buckets when the
    deletions are done.  Then no run of the cycle is longer than [gpu_cost] of its start; no
    state it reaches is stuck before the end; at the end the table represents [m] without
    the bindings that the deletions name and then with the insertions; and every search in
    buckets that no other worker updates has in the worker's buffer the location of its
    signature in [m]: the worker's own updates come too late to disturb it. *)
Theorem streams_refine_map w kind fuel hash_of cfg t m bufs :
  let Ix := gpu_location_index w kind fuel in
  let ds := cycle_deletes bufs in
  let es := cycle_inserts cfg bufs in
  gpu_ok cfg → represents hash_of t m → Forall (cycle_buf cfg) bufs → apart cfg bufs →
  Forall (proper_elem hash_of) ds → Forall (gpu_single t) ds →
  Forall (proper_elem hash_of) es → NoDup (e_sig <$> es) →
  (∀ bf blk k, bf ∈ bufs → blk ∈ buf_blocks cfg bf →
     (length (needed (hash_delete t ds) blk k) ≤ length (free_slots (hash_delete t ds) k))%nat) →
  ∀ n s, nsteps (gpu_step (win w)) n (gpu0 cfg t bufs) s →
    Z.of_nat n ≤ gpu_cost (gpu0 cfg t bufs) ∧
    (all_done s = false → ∃ s', gpu_step (win w) s s') ∧
    (all_done s = true →
       represents hash_of (g_table s) (foldl map_insert (foldl map_delete m ds) es) ∧
       ∀ b bf i x, bufs !! b = Some bf → 0 ≤ i < num_search_job bf → num_search_job bf < 2 ^ 30 →
         search_in bf !! Z.to_nat i = Some x → s_sig x ≠ 0 → s_hash x = hash_of (s_sig x) →
         undisturbed cfg bufs b (bucket_index (s_hash x)) → undisturbed cfg bufs b (second_index (s_hash x) (s_sig x)) →
         ∃ st out, g_streams s !! b = Some st ∧ copy_back (search_out bf) (st_out st) = Ok out ∧
           result_loc out i = Ok (default 0 (m !! s_sig x))).
Proof.
  intros Ix ds es Hgpu [Hwf Hm] Hbufs Hapart Hds Hsingle Hes Hnd Hroom n s Hrun.
  assert (Hds' : Forall (λ e, e_sig e ≠ 0) ds) by (eapply Forall_impl; [exact Hds|]; by intros e [? _]).
  assert (Hes' : Forall (λ e, e_sig e ≠ 0) es) by (eapply Forall_impl; [exact Hes|]; by intros e [? _]).
  destruct (cycle_run_inv (win w) cfg t bufs Hapart Hwf Hds' Hsingle Hes' Hnd Hroom n (gpu0 cfg t bufs) s) as [Hinv Hcost];
    [by apply cycle0_inv|done|].
  split; [pose proof (gpu_cost_nonneg s); lia|]. split.
  { by apply (cycle_progress (win w) cfg t bufs Hapart Hwf Hds' Hsingle Hes' Hnd Hroom). }
  intros Hfin. split.
  - pose proof (delete_list_refines hash_of t m ds (conj Hwf Hm) Hds Hsingle) as [HDwf HDm].
    change (foldl ix_delete t ds) with (hash_delete t ds) in *.
    pose proof (λ k x, cycle_view (win w) cfg t bufs Hapart Hwf Hds' Hsingle Hes' Hnd Hroom s k x Hinv Hfin) as Hview.
    assert (Hwf' : table_wf (g_table s)) by (intros k; by apply (Hview k 1)). split; [done|].
    intros x Hx. simpl. rewrite gpu_find_view by done. specialize (HDm x Hx). simpl in HDm. rewrite gpu_find_view in HDm by done.
    destruct (Hview (bucket_index (hash_of x)) x Hx) as (_ & Hin & Hout).
    destruct (Hview (second_index (hash_of x) x) x Hx) as (_ & _ & Hout2). rewrite Forall_forall in Hes.
    destruct (decide (x ∈ e_sig <$> es)) as [(e & -> & He)%list_elem_of_fmap|Hno].
    + destruct (Hes e He) as (_ & Hl & Hh). rewrite (foldl_insert_elem (foldl map_delete m ds) es e Hnd He : foldl map_insert _ es !! _ = _).
      rewrite (Hin e He) by (done || by rewrite Hh). simpl. by rewrite (proj2 (Z.eqb_neq _ _) Hl).
    + assert (Hno' : ∀ e, e ∈ es → e_sig e ≠ x) by (intros e He <-; by apply Hno, list_elem_of_fmap_2).
      rewrite (foldl_insert_other (foldl map_delete m ds) es x Hno' : foldl map_insert _ es !! _ = _).
      by rewrite Hout, Hout2 by (intros; by apply Hno').
  - intros b bf i x Hb Hi Hmax Hx Hs Hh Hc1 Hc2.
    destruct (cycle_words (win w) cfg t bufs Hbufs s b bf i x Hinv Hfin Hb Hi Hx Hc1 Hc2) as (st & Hst & Hlen & H1 & H2).
    pose proof (cb_search _ _ (Forall_lookup_1 _ _ _ _ Hbufs Hb)) as [_ Hroom'].
    exists st, (write_run (search_out bf) 0 (st_out st)). split; [done|].
    split; [unfold copy_back; by rewrite (proj2 (Nat.leb_le _ _)) by lia|].
    rewrite <-Hm by done. rewrite <-Hh. 
    assert (Hget : ∀ k v, st_out st !! k = Some v → write_run (search_out bf) 0 (st_out st) !! k = Some v).
    { intros k v Hk. pose proof (lookup_lt_Some _ _ _ Hk). rewrite write_run_lookup by lia.
      rewrite decide_True by lia. by rewrite Nat.sub_0_r. }
    unfold result_loc. rewrite Z.shiftl_mul_pow2 by lia.
    rewrite (wrap_id 32 (i * 2 ^ 1)), (wrap_id 32 (i * 2 ^ 1 + 1)) by (unfold in_range; lia).
    replace (i * 2 ^ 1) with (2 * i) by lia.
    rewrite (arr_get_lookup _ _ _ (Z.mul_nonneg_nonneg 2 i ltac:(lia) ltac:(lia)) (Hget _ _ H1)), bind_Ok.
    rewrite (arr_get_lookup _ (2 * i + 1) _ ltac:(lia) (Hget _ _ H2)).
    change (ix_find t {| s_sig := s_sig x; s_hash := s_hash x |}) with (gpu_find w t (Selem (s_sig x) (s_hash x))).
    unfold gpu_find, found. destruct x as [sg hs]. cbn [s_sig s_hash]. by destruct (_ =? 0).
Qed.


(** ** The property with two workers

    Worker 0 deletes the key of signature 7, stores it again at another location together
    with one of signature 15, whose unit takes the same slot of the same bucket, and searches
    for the old one; worker 1 searches meanwhile, and inserts into another bucket. *)
Definition ex_hash_of (s : Z) : Z := s mod 8.
Definition ex_stream_bufs : list mega_batch_buf_t :=
  [BatchBuf [Selem 7 7] [0; 0] [Ielem 7 7 70] [Ielem 7 7 90; Ielem 15 7 150] [] [] 1 2 1 0 [BatchInsert 0 2];
   BatchBuf [Selem 9 1; Selem 7 7] [0; 0; 0; 0] [] [Ielem 10 2 100] [] [] 2 1 0 0 [BatchInsert 0 1]].
Definition ex_stream_index : table :=
  match insert_list (Ix := gpu_location_index ex_w HASH_CUCKOO 0) ∅ [Ielem 7 7 70; Ielem 9 1 91] with Ok t => t | Err _ => ∅ end.

Definition ex_schedule : list gpu_event :=
  [GSearch 0 0; GSearch 1 0; GSearch 0 0; GDelete 0 0; GSearch 1 1; GDelete 0 0;
   GInsert 0 0 0; GInsert 0 0 0; GInsert 0 0 1; GInsert 0 0 1; GInsert 0 0 0; GSearch 1 1; GInsert 0 0 1; GBarrier 0 0;
   GInsert 0 0 0; GInsert 0 0 1; GSearch 1 0; GInsert 1 0 0; GInsert 1 0 0; GInsert 0 0 1; GInsert 0 0 0; GInsert 1 0 0;
   GBarrier 1 0; GInsert 0 0 0; GBarrier 0 0; GInsert 0 0 0; GInsert 1 0 0; GInsert 0 0 0; GInsert 1 0 0].

Lemma ex_stream_represents :
  represents (Ix := gpu_location_index ex_w HASH_CUCKOO 0) ex_hash_of ex_stream_index {[9 := 91; 7 := 70]}.
Proof.
  destruct (insert_list_refines (Ix := gpu_location_index ex_w HASH_CUCKOO 0) ex_hash_of ∅ ∅ [Ielem 7 7 70; Ielem 9 1 91])
    as (t & Ht & Hr).
  - split; [exact empty_table_wf|]. intros s Hs. cbn [ix_find gpu_location_index].
    rewrite gpu_find_view by (exact empty_table_wf || done). reflexivity.
  - by repeat constructor.
  - split; [left; right; exists 0; split; [lia | vm_compute; reflexivity]|]. intros t1 H1. vm_compute in H1. injection H1 as <-.
    split; [|done]. left. right. exists 0; split; [lia | vm_compute; reflexivity].
  - assert (t = ex_stream_index) as -> by (unfold ex_stream_index; by rewrite Ht). exact Hr.
Qed.

Lemma ex_stream_cycle_bufs : Forall (cycle_buf mega_init_config) ex_stream_bufs.
Proof.
  repeat constructor; try (by vm_compute); try (simpl; lia).
Qed.

Lemma ex_updated :
  updated mega_init_config <$> ex_stream_bufs = [[7; 0; 7; 7]; [2]].
Proof. vm_compute. reflexivity. Qed.

Lemma ex_updated_lookup b bf : ex_stream_bufs !! b = Some bf →
  (b = 0%nat ∧ updated mega_init_config bf = [7; 0; 7; 7]) ∨ (b = 1%nat ∧ updated mega_init_config bf = [2]).
Proof.
  intros Hb. pose proof ex_updated as H. apply (f_equal (lookup b)) in H. rewrite list_lookup_fmap, Hb in H.
  destruct b as [|[|b]]; cbn in H; [left|right|done]; (split; [done|congruence]).
Qed.

Lemma ex_apart : apart mega_init_config ex_stream_bufs.
Proof.
  split.
  - intros b bf k Hb Hk b' bf' Hne Hb' Hk'. apply ex_updated_lookup in Hb as [[-> Hu]|[-> Hu]];
      apply ex_updated_lookup in Hb' as [[-> Hu']|[-> Hu']]; try done; rewrite Hu in Hk; rewrite Hu' in Hk'; set_solver by lia.
  - intros bf j j' es es' k Hbf Hj Hj' _ _. assert (length (buf_blocks mega_init_config bf) = 1%nat) as Hl.
    { apply elem_of_cons in Hbf as [->|[->|?%elem_of_nil]%elem_of_cons]; [..|done]; vm_compute; reflexivity. }
    apply lookup_lt_Some in Hj, Hj'. lia.
Qed.

Lemma ex_stream_room bf blk k :
  bf ∈ ex_stream_bufs → blk ∈ buf_blocks mega_init_config bf →
  let D := hash_delete ex_stream_index (cycle_deletes ex_stream_bufs) in
  (length (needed D blk k) ≤ length (free_slots D k))%nat.
Proof.
  intros Hbf Hblk D. assert (blk = [Ielem 7 7 90; Ielem 15 7 150] ∧ (k = 7 ∨ needed D blk k = []) ∨
    blk = [Ielem 10 2 100] ∧ (k = 2 ∨ needed D blk k = [])) as H.
  { assert (Hno : ∀ k0, Forall (λ e, bk e = k0) blk → k = k0 ∨ needed D blk k = []).
    { intros k0 Hk0. destruct (decide (k = k0)) as [->|Hne]; [by left|]. right. unfold needed. apply filter_none.
      intros e He [Hk _]. rewrite Forall_forall in Hk0. by rewrite <-Hk in Hne; apply Hne, Hk0. }
    apply elem_of_cons in Hbf as [->|[->|?%elem_of_nil]%elem_of_cons]; [..|done]; vm_compute in Hblk;
      apply list_elem_of_singleton in Hblk as ->; [left|right]; (split; [reflexivity|]); apply Hno; by repeat constructor. }
  destruct H as [[-> [-> | ->]]|[-> [-> | ->]]]; try apply Nat.le_0_l; apply Nat.leb_le; vm_compute; reflexivity.
Qed.

Lemma ex_schedule_ends :
  from_option all_done false (run_gpu (win ex_w) ex_schedule (gpu0 mega_init_config ex_stream_index ex_stream_bufs)) = true.
Proof. vm_compute. reflexivity. Qed.

(** The units of signatures 7 and 15 write the same slot; the searches have the old locations. *)
Lemma streams_refine_map_witness :
  ∃ s, run_gpu (win ex_w) ex_schedule (gpu0 mega_init_config ex_stream_index ex_stream_bufs) = Some s ∧ all_done s = true ∧
    gpu_find ex_w (g_table s) (Selem 7 7) = 90 ∧ gpu_find ex_w (g_table s) (Selem 15 7) = 150 ∧
    gpu_find ex_w (g_table s) (Selem 9 1) = 91 ∧ gpu_find ex_w (g_table s) (Selem 10 2) = 100 ∧
    ∃ st out, g_streams s !! 0%nat = Some st ∧ copy_back [0; 0] (st_out st) = Ok out ∧ result_loc out 0 = Ok 70.
Proof.
  pose proof ex_schedule_ends as Hfin.
  destruct (run_gpu (win ex_w) ex_schedule (gpu0 mega_init_config ex_stream_index ex_stream_bufs)) as [s|] eqn:Hrun; [|done].
  simpl in Hfin.
  exists s. split; [reflexivity|]. split; [exact Hfin|]. apply run_gpu_steps in Hrun.
  destruct (streams_refine_map ex_w HASH_CUCKOO 0 ex_hash_of mega_init_config ex_stream_index {[9 := 91; 7 := 70]} ex_stream_bufs)
    with (n := length ex_schedule) (s := s) as (_ & _ & Hend).
  - exact ex_gpu_ok.
  - exact ex_stream_represents.
  - exact ex_stream_cycle_bufs.
  - exact ex_apart.
  - by repeat constructor.
  - constructor; [|constructor]. right. left. vm_compute. reflexivity.
  - by repeat constructor.
  - refine (bool_decide_unpack _ _). vm_compute. exact I.
  - exact ex_stream_room.
  - exact Hrun.
  - destruct (Hend Hfin) as [[_ Hr] Hs]. split; [exact (Hr 7 ltac:(discriminate))|]. split; [exact (Hr 15 ltac:(discriminate))|].
    split; [exact (Hr 9 ltac:(discriminate))|]. split; [exact (Hr 10 ltac:(discriminate))|].
    destruct (Hs 0%nat (BatchBuf [Selem 7 7] [0; 0] [Ielem 7 7 70] [Ielem 7 7 90; Ielem 15 7 150] [] [] 1 2 1 0 [BatchInsert 0 2])
      0 (Selem 7 7) eq_refl ltac:(simpl; lia) ltac:(simpl; lia) eq_refl ltac:(discriminate) eq_refl) as (st & out & H1 & H2 & H3).
    + intros b' bf' Hne Hb'. apply ex_updated_lookup in Hb' as [[-> Hu]|[-> Hu]]; [done|]. rewrite Hu.
      refine (bool_decide_unpack _ _). vm_compute. exact I.
    + intros b' bf' Hne Hb'. apply ex_updated_lookup in Hb' as [[-> Hu]|[-> Hu]]; [done|]. rewrite Hu.
      refine (bool_decide_unpack _ _). vm_compute. exact I.
    + exists st, out. split; [exact H1|]. split; [exact H2|exact H3].
Defined.

(** Two workers insert the same signature into one bucket, and race for one slot. *)
Definition ex_race_bufs : list mega_batch_buf_t :=
  [BatchBuf [] [] [] [Ielem 8 5 80] [] [] 0 1 0 0 [BatchInsert 0 1];
   BatchBuf [] [] [] [Ielem 8 5 81] [] [] 0 1 0 0 [BatchInsert 0 1]].
Definition ex_race : list gpu_event :=
  [GInsert 0 0 0; GInsert 1 0 0; GInsert 0 0 0; GInsert 1 0 0; GInsert 0 0 0; GInsert 1 0 0; GBarrier 0 0; GBarrier 1 0;
   GInsert 0 0 0; GInsert 1 0 0; GInsert 1 0 0; GInsert 0 0 0].

