(* ===== verification/Service.v ===== *)
(** * The service: a map from keys to values

    What the server promises its clients, across the threads and the GPU: with [KEY_MATCH]
    and the plain Sender it is a map from keys to values.  The state of the map is spread
    over the GPU's index, the classes of slabs and the items' memory ([stores]); a SET
    packet, after the cycle of its batch, puts the key's value into the map; the packets of
    a batch of GETs, of any clients, come back as packets with the values the map has at
    the beginning of the cycle.  Everything in between is the code of the other files:
    [process_packet] ([ReceiverMatch]), the Scheduler's cycle ([Scheduler]) and the
    Sender's loop ([SenderMatch]). *)

From S2P Require Import Prelude GpuHash Config Bitmap Slabs Batch Items Packet Receiver Receive Sender SenderMatch.
From S2P Require Import ReceiverMatch Index Scheduler.

(** ** The map *)

(** The keys that are used: no two of them share a signature, and none has signature 0,
    which is an empty slot of the index. *)
Record keys_in_use (KVSIZE : Z) (hash_of : Z → Z) (U : list Z → Prop) : Prop := {
  ku_ok : ∀ key, U key → Receiver.key_ok KVSIZE key;
  ku_sig : ∀ key, U key → s_sig (elem_of_key key) ≠ 0;
  ku_hash : ∀ key, U key → s_hash (elem_of_key key) = hash_of (s_sig (elem_of_key key));
  ku_inj : ∀ k1 k2, U k1 → U k2 → s_sig (elem_of_key k1) = s_sig (elem_of_key k2) → k1 = k2;
}.

(** The item holds the key and the value. *)
Record item_holds (it : item) (key value : list Z) : Prop := {
  ih_nkey : it_nkey it = Z.of_nat (length key);
  ih_key : take (length key) (it_data it) = key;
  ih_nbytes : it_nbytes it = Z.of_nat (length value);
  ih_value : item_value it = value;
  ih_ok : value_ok it;
}.

(** The location leads to an item with the key and the value. *)
Definition located (cfg : mega_config_t) (cs : list slabclass_t) (h : heap_t) (loc : Z) (key value : list Z) : Prop :=
  loc ≠ 0 ∧ ∃ p it, gettable cfg cs loc p ∧ h !! p = Some it ∧ it_loc it = loc ∧ item_holds it key value.

Section service.
Context (cfg : mega_config_t) (KVSIZE : Z) (w : winner_t) (kind : hash_kind) (fuel : nat).
Context (hash_of : Z → Z) (U : list Z → Prop).
Context (HU : keys_in_use KVSIZE hash_of U).
Abbreviation sig_of key := (s_sig (elem_of_key key)).
Abbreviation represents := (represents (Ix := gpu_location_index w kind fuel) hash_of).

(** The index [t], the classes [cs] and the memory [h] store the map [kv] of the keys in
    use. *)
Definition stores (t : table) (cs : list slabclass_t) (h : heap_t) (kv : gmap (list Z) (list Z)) : Prop :=
  ∃ m, represents t m ∧ ∀ key, U key →
    match kv !! key with
    | None => m !! sig_of key = None
    | Some value => ∃ loc, m !! sig_of key = Some loc ∧ located cfg cs h loc key value
    end.

(** The reply a client is owed. *)
Definition kv_reply (o : option (list Z)) : list Z :=
  match o with
  | Some value => store_le 2 PROTOCOL_VALUE ++ store_le 4 (Z.of_nat (length value)) ++ value
  | None => store_le 1 PROTOCOL_GET_NOT_FOUND
  end.

(** ** Lemmas: replies *)

(** What a search finds for a key. *)
Lemma find_key t m key : represents t m → U key → gpu_find w t (elem_of_key key) = default 0 (m !! sig_of key).
Proof.
  intros [_ Hm] Hkey. rewrite <-Hm by (by apply (ku_sig _ _ _ HU)). rewrite <-(ku_hash _ _ _ HU) by done.
  by destruct (elem_of_key key).
Qed.


Lemma reply_bytes_holds it key value : item_holds it key value → reply_bytes (Some it) = kv_reply (Some value).
Proof. intros [_ _ Hn Hv _]. unfold reply_bytes, kv_reply. by rewrite Hn, Hv. Qed.

Lemma same_key_holds it key value k : item_holds it key value → slot_has key k → same_key it k = true.
Proof.
  intros [Hn Hk _ _ _] [Hs Ht]. unfold same_key. rewrite Hn, Hs, Z.eqb_refl, Nat2Z.id, Hk, Ht.
  by apply bool_decide_eq_true.
Qed.

Lemma pick_located cs h loc key value k :
  located cfg cs h loc key value → slot_has key k →
  loc_ok cfg h cs loc ∧ ∃ it, pick cfg h cs k loc = Some it ∧ item_holds it key value.
Proof.
  intros (Hl & p & it & Hg & Hit & _ & Hh) Hk. split.
  - intros _. exists p, it. split; [done|]. split; [done|apply Hh].
  - exists it. split; [|done]. unfold pick. rewrite (item_found_gettable cfg h cs loc p it) by done.
    by rewrite (same_key_holds it key value).
Qed.

Lemma pick_0 cs h k : pick cfg h cs k 0 = None.
Proof. done. Qed.

(** What the two words of a search for [key] are to the Sender. *)
Lemma answer_stored t cs h kv key j k :
  stores t cs h kv → U key → slot_has key k →
  let o := hash_search_elem (win w) t (elem_of_key key) (0, 0) in
  let r := Request j k o.1 o.2 in
  loc_ok cfg h cs o.1 ∧ (pick cfg h cs k o.1 = None → loc_ok cfg h cs o.2) ∧
  reply_bytes (answer cfg h cs r) = kv_reply (kv !! key).
Proof.
  intros (m & Hm & Hkv) Hkey Hk o r. pose proof (find_key t m key Hm Hkey) as Hf. unfold gpu_find in Hf. fold o in Hf.
  specialize (Hkv key Hkey). unfold found in Hf. unfold answer, r. cbn [rq_key rq_loc0 rq_loc1].
  destruct (kv !! key) as [value|].
  - destruct Hkv as (loc & Hloc & Hl). rewrite Hloc in Hf. cbn [default from_option id] in Hf.
    destruct (pick_located cs h loc key value k Hl Hk) as (Hok & it & Hp & Hh).
    destruct (Z.eqb_spec o.1 0) as [H0|H0].
    + rewrite Hf, H0, pick_0, Hp. split; [by intros ?|]. split; [done|]. by eapply reply_bytes_holds.
    + rewrite Hf, Hp. split; [done|]. split; [done|]. by eapply reply_bytes_holds.
  - rewrite Hkv in Hf. cbn [default from_option id] in Hf. destruct (Z.eqb_spec o.1 0) as [H0|H0]; [|done].
    rewrite H0, Hf, pick_0. split; [by intros ?|]. split; [by intros ? ?|done].
Qed.

(** ** Lemmas: a batch of GETs *)

(** What the Sender works on, for searches answered from index [t]. *)
Definition service_request (t : table) (ks : list job_key_t) (i : nat) (a : ask) : request :=
  let o := hash_search_elem (win w) t (elem_of_key a.2) (0, 0) in
  Request (ask_job i a) (default (JobKey [] 0) (ks !! i)) o.1 o.2.

Definition client_key (a : ask) : Z * Z := (c_ip a.1, c_port a.1).

Lemma gathered_match_batch t cs h kv asks bf0 bf ks ss :
  stores t cs h kv → gathered KVSIZE bf0 asks bf ks → Forall (λ a, U a.2) asks →
  searchable bf → Z.of_nat (length asks) < 2 ^ 30 →
  s_jobs ss = search_job_list bf → s_slabs ss = cs → frames_ok cfg (s_frames ss) →
  0 < io_batch_num cfg < 2 ^ 32 → eiu_hdr_len cfg = 42 →
  match_batch cfg h ks (searched_buf (win w) t bf) ss (imap (service_request t ks) asks).
Proof.
  intros Hst [_ _ _ Hnum Hc _ Hall] Hasks Hsb Hmax Hjobs Hcs Hfr Hio Hhdr.
  assert (Hf : num_search_job (searched_buf (win w) t bf) = num_search_job bf ∧
    num_compact_search_job (searched_buf (win w) t bf) = num_compact_search_job bf)
    by (unfold searched_buf; by destruct (_ =? 0)). destruct Hf as [Hf1 Hf2].
  split; try done; rewrite ?Hf1, ?Hf2, ?length_imap; try done.
  - intros i r Hr. rewrite list_lookup_imap in Hr. destruct (asks !! i) as [a|] eqn:Ha; [|done]. injection Hr as <-.
    rewrite Hjobs. by apply (Hall i a Ha).
  - intros i r Hr. rewrite list_lookup_imap in Hr. destruct (asks !! i) as [a|] eqn:Ha; [|done]. injection Hr as <-.
    destruct (Hall i a Ha) as (Hx & _ & k & Hk & Hslot). pose proof (Forall_lookup_1 _ _ _ _ Hasks Ha) as HUa.
    destruct (answer_stored t cs h kv a.2 (ask_job i a) k Hst HUa Hslot) as (H0 & H1 & _).
    destruct (searched_words (win w) t bf (Z.of_nat i) (elem_of_key a.2) Hsb) as [Hw0 Hw1].
    { lia. } { apply lookup_lt_Some in Ha. lia. } { by rewrite Nat2Z.id. }
    unfold service_request. rewrite Hk. cbn [default from_option id].
    split; cbn [rq_job rq_key rq_loc0 rq_loc1]; rewrite ?Hcs; try done.
    unfold SenderMatch.key_ok. destruct Hslot as [-> Ht]. apply (f_equal length) in Ht. rewrite length_take in Ht. lia.
Qed.

Lemma service_replies t cs h kv asks bf0 bf ks :
  stores t cs h kv → gathered KVSIZE bf0 asks bf ks → Forall (λ a, U a.2) asks →
  reply_of cfg h cs <$> imap (service_request t ks) asks = (λ a, (client_key a, kv_reply (kv !! a.2))) <$> asks.
Proof.
  intros Hst [_ _ _ _ _ _ Hall] Hasks. apply list_eq. intros i.
  rewrite !list_lookup_fmap, list_lookup_imap. destruct (asks !! i) as [a|] eqn:Ha; [|done]. cbn [fmap option_fmap option_map].
  f_equal. destruct (Hall i a Ha) as (_ & _ & k & Hk & Hslot). pose proof (Forall_lookup_1 _ _ _ _ Hasks Ha) as HUa.
  destruct (answer_stored t cs h kv a.2 (ask_job i a) k Hst HUa Hslot) as (_ & _ & Hr).
  unfold service_request, reply_of. rewrite Hk. cbn [default from_option id rq_job]. by rewrite Hr.
Qed.

(** An empty buffer of the size [mega_receiver_batch_init] gives it, with room for [n]
    searches. *)
Record room_for (n : nat) (bf0 : mega_batch_buf_t) : Prop := {
  rf_n : Z.of_nat n < batch_max_search_job cfg;
  rf_max : batch_max_search_job cfg < 2 ^ 30;
  rf_in : Z.of_nat (length (search_in bf0)) = batch_max_search_job cfg;
  rf_jobs : Z.of_nat (length (search_job_list bf0)) = batch_max_search_job cfg;
  rf_out : 2 * batch_max_search_job cfg ≤ Z.of_nat (length (search_out bf0));
  rf_updates : cycle_buf cfg bf0;
}.

Lemma gathered_cycle_buf asks bf0 bf ks :
  room_for (length asks) bf0 → gathered KVSIZE bf0 asks bf ks → cycle_buf cfg bf.
Proof.
  intros [Hn Hmax Hin Hjobs Hout [_ H2 H3 H4 H5]] [Hrest HIn _ Hnum _ _ _].
  rewrite Hrest. rewrite Hnum. split; cbn; try done. split; cbn; lia.
Qed.
(** ** Lemmas: a SET *)

(** The Sender's address computation finds an item of a class. *)
Lemma class_item_gettable s p it :
  cfg_ok cfg → slabs_wf cfg s → class_item s p → heap s !! p = Some it →
  gettable cfg (slabclass s) (it_loc it) p.
Proof.
  intros Hcfg Hs (id & pc & k & x & b & Hid & Hpc & Hk & Hx & Hb & ->) Hit.
  pose proof (sw_class Hs _ _ Hid Hpc) as Hwf. destruct (class_offset_lt _ _ _ _ _ _ _ Hcfg Hwf Hk Hx) as (? & ? & ?).
  destruct (cw_items Hwf k Hk) as (b' & Hb' & _ & Hits). unfold slab_at in *. rewrite Hb in Hb'. injection Hb' as <-.
  destruct (Hits x Hx) as (it' & Hit' & Hl & _). rewrite Hit in Hit'. injection Hit' as <-. rewrite Hl.
  pose proof (cw_count Hwf). destruct (cw_bitmap Hwf) as [Hbm _]. pose proof (wf_current _ Hbm).
  exists pc. rewrite loc_id_eq, loc_offset_eq by (done || lia). split_and!; try done; try lia.
  - by apply arr_get_lookup.
  - rewrite wrap_id by (unfold in_range; lia). lia.
  - by apply (item_at_eq cfg (mallocs s) (heap s) id).
Qed.

Lemma stored_item_holds it key value :
  Receiver.key_ok KVSIZE key → Z.of_nat (length value) = VALUE_LEN KVSIZE →
  (length (key ++ value) ≤ length (it_data it))%nat → item_holds (stored_item it key value) key value.
Proof.
  intros [Hk _] Hv Hfit. pose proof (KEY_LEN_range KVSIZE).
  assert (0 ≤ VALUE_LEN KVSIZE ≤ 1024) by (unfold VALUE_LEN; repeat case_match; lia).
  assert (Hdata : it_data (stored_item it key value) = key ++ value ++ drop (length (key ++ value)) (it_data it)).
  { unfold stored_item, write_run. cbn [it_data]. by rewrite take_0, <-app_assoc. }
  split; rewrite ?Hdata; try done.
  - apply take_app_length.
  - unfold item_value. rewrite Hdata. cbn [stored_item it_nbytes it_nkey]. rewrite !Nat2Z.id, drop_app_length.
    apply take_app_length.
  - split; rewrite ?Hdata; cbn [stored_item it_nbytes it_nkey]; unfold ETHERNET_MAX_FRAME_LEN, in_range;
      rewrite ?length_app; lia.
Qed.

(** Writing to an item that no key is stored in. *)
Lemma stores_write t cs h kv p it it' :
  stores t cs h kv → h !! p = Some it →
  (∀ key, U key → is_Some (kv !! key) → gpu_find w t (elem_of_key key) ≠ it_loc it) →
  stores t cs (<[p := it']> h) kv.
Proof.
  intros (m & Hm & Hkv) Hp Hfree. exists m. split; [done|]. intros key Hkey. specialize (Hkv key Hkey).
  destruct (kv !! key) as [value|] eqn:E; [|done]. destruct Hkv as (loc & Hloc & Hl & q & it2 & Hg & Hq & Hit2 & Hh).
  exists loc. split; [done|]. split; [done|]. exists q, it2. split; [done|]. split; [|done].
  rewrite lookup_insert_ne; [done|]. intros ->. rewrite Hp in Hq. injection Hq as ->.
  apply (Hfree key Hkey); [by rewrite E|]. by rewrite (find_key t m), Hloc, Hit2.
Qed.

(** Binding the signature of a key to an item that holds the key. *)
Lemma stores_bind t' m cs h kv key value loc :
  (∀ k, U k → match kv !! k with
    | None => m !! sig_of k = None
    | Some v => ∃ loc, m !! sig_of k = Some loc ∧ located cfg cs h loc k v end) →
  represents t' (<[sig_of key := loc]> m) → U key → located cfg cs h loc key value →
  stores t' cs h (<[key := value]> kv).
Proof.
  intros Hkv Ht' Hkey Hl. exists (<[sig_of key := loc]> m). split; [done|]. intros k Hk.
  destruct (decide (k = key)) as [->|Hne].
  - rewrite lookup_insert_eq. exists loc. by rewrite lookup_insert_eq.
  - rewrite lookup_insert_ne by done. specialize (Hkv k Hk).
    assert (sig_of k ≠ sig_of key) by (intros Heq; by apply Hne, (ku_inj _ _ _ HU)).
    destruct (kv !! k) as [v|]; [|by rewrite lookup_insert_ne].
    destruct Hkv as (loc' & Hloc' & Hl'). exists loc'. by rewrite lookup_insert_ne.
Qed.

(** A packet with one SET does what [process_set] does. *)
Definition set_prefix (hdr : list Z) : list Z := (hdr ++ store_le 2 PROTOCOL_MAGIC) ++ store_le 2 MEGA_JOB_SET.

Lemma process_set_packet_step malloc_ok garbage env jobs rfuel hdr key value rest pkt_len st keys r :
  let off := Z.of_nat (length (set_prefix hdr)) in
  length hdr = 42%nat → 44 + Z.of_nat (length (encode_set key value)) < pkt_len →
  process_set malloc_ok garbage cfg KVSIZE env rfuel (set_prefix hdr ++ set_fields key value ++ end_mark ++ rest) st 0 off =
    (st' ← r; Ok (st', Some (1, off + 6 + Z.of_nat (length (key ++ value))))) →
  process_packet_match malloc_ok garbage cfg KVSIZE env (S (S jobs)) rfuel
    (packet hdr (encode_set key value) rest) pkt_len st keys = (st' ← r; Ok (st', keys, 1)).
Proof.
  intros off Hh Hlen Hset. unfold packet. rewrite process_packet_match_header by done.
  set (pre := hdr ++ store_le 2 PROTOCOL_MAGIC) in *. cbn [process_jobs_match].
  assert (Henc : encode_set key value = store_le 2 MEGA_JOB_SET ++ set_fields key value) by done.
  rewrite Henc, <-app_assoc. rewrite (load_app pre (store_le 2 MEGA_JOB_SET) _ _ 2), bind_Ok by (done || apply length_store_le).
  change (load_le 2 (store_le 2 MEGA_JOB_SET)) with 3. cbv zeta. cbn [Z.eqb MEGA_JOB_GET MEGA_JOB_SET Pos.eqb orb].
  rewrite app_assoc. change (pre ++ store_le 2 MEGA_JOB_SET) with (set_prefix hdr).
  replace (Z.of_nat (length pre) + MEGA_JOB_TYPE_LEN) with off
    by (unfold off, set_prefix; fold pre; rewrite (length_app _ (store_le 2 MEGA_JOB_SET)), length_store_le; unfold MEGA_JOB_TYPE_LEN; lia).
  rewrite Hset. destruct r as [st'|]; [|done]. rewrite !bind_Ok. cbv beta iota.
  assert (Hend : off + 6 + Z.of_nat (length (key ++ value)) = Z.of_nat (length (set_prefix hdr ++ set_fields key value)))
    by (unfold off, set_fields; rewrite !length_app, !length_store_le; lia).
  assert (Hpkt : Z.of_nat (length (set_prefix hdr ++ set_fields key value)) < pkt_len).
  { rewrite Henc, length_app in Hlen. unfold set_prefix. rewrite !length_app, Hh, !length_store_le in *. lia. }
  rewrite Hend. destruct (Z.leb_spec pkt_len (Z.of_nat (length (set_prefix hdr ++ set_fields key value)))); [lia|].
  cbn [process_jobs_match]. rewrite app_assoc, (load_app _ end_mark rest _ 2), bind_Ok by done.
  by change (load_le 2 end_mark) with 0xFFFF.
Qed.

Lemma process_set_packet malloc_ok garbage jobs rfuel hdr key value rest pkt_len st keys i p it bf ib :
  let e := elem_of_key key in
  let blk := insert_block_id cfg (s_hash e) in
  length hdr = 42%nat → 44 + Z.of_nat (length (encode_set key value)) < pkt_len →
  Receiver.key_ok KVSIZE key → Z.of_nat (length value) = VALUE_LEN KVSIZE →
  local_item st (Z.of_nat (length (key ++ value))) i p it → (length (key ++ value) ≤ length (it_data it))%nat →
  current_buf st bf → insert_room cfg blk ib bf →
  ∃ st', process_packet_match malloc_ok garbage cfg KVSIZE quiet (S (S jobs)) (S rfuel)
      (packet hdr (encode_set key value) rest) pkt_len st keys = Ok (st', keys, 1) ∧
    heap (r_slabs st') = <[p := stored_item it key value]> (heap (r_slabs st)) ∧
    slabclass (r_slabs st') = slabclass (r_slabs st) ∧
    (slabs_wf cfg (r_slabs st) → slabs_wf cfg (r_slabs st')) ∧
    current_buf st' (add_elem blk ib p (Ielem (s_sig e) (s_hash e) (it_loc it)) bf).
Proof.
  intros e blk Hh Hlen Hkey Hval Hlocal Hfit Hcur Hroom.
  destruct (process_set_spec malloc_ok garbage cfg KVSIZE rfuel (set_prefix hdr) key value (end_mark ++ rest)
    st 0 i p it bf ib) as (st' & Hset & Hheap & Hwf & _ & Hbuf & _ & Hcls); [done..|].
  exists st'. split; [|done]. by apply (process_set_packet_step _ _ _ _ _ _ _ _ _ _ _ _ (Ok st')).
Qed.

(** ** Properties *)

(** C2: a SET updates the map.  Let the server store [kv], and let a packet come with a SET
    for a key in use and a value of the configured length, for which the Receiver has an
    item no key is stored in.  The packet is accepted; until the cycle of its batch the
    server stores [kv] still; with the cycle, in which this is the only update, it stores
    [kv] with the new value for the key. *)
Theorem set_updates_map malloc_ok garbage jobs rfuel hdr key value rest pkt_len st keys i p it bf ib t kv c bufs1 bufs2 :
  let e := elem_of_key key in
  let blk := insert_block_id cfg (s_hash e) in
  let ie := Ielem (s_sig e) (s_hash e) (it_loc it) in
  stores t (slabclass (r_slabs st)) (heap (r_slabs st)) kv →
  U key → Z.of_nat (length value) = VALUE_LEN KVSIZE →
  length hdr = 42%nat → 44 + Z.of_nat (length (encode_set key value)) < pkt_len →
  local_item st (Z.of_nat (length (key ++ value))) i p it → (length (key ++ value) ≤ length (it_data it))%nat →
  it_loc it ≠ 0 → (∀ k, U k → is_Some (kv !! k) → gpu_find w t (elem_of_key k) ≠ it_loc it) →
  current_buf st bf → insert_room cfg blk ib bf →
  cfg_ok cfg → slabs_wf cfg (r_slabs st) → class_item (r_slabs st) p →
  gpu_ok cfg → gpu_fits t ie → lone_insert cfg blk ib bf → counters_ok c →
  Forall searchable (bufs1 ++ bf :: bufs2) → Forall no_updates bufs1 → Forall no_updates bufs2 →
  ∃ st' bf' t' c' bufs',
    process_packet_match malloc_ok garbage cfg KVSIZE quiet (S (S jobs)) (S rfuel)
      (packet hdr (encode_set key value) rest) pkt_len st keys = Ok (st', keys, 1) ∧
    current_buf st' bf' ∧ stores t (slabclass (r_slabs st')) (heap (r_slabs st')) kv ∧
    gpu_cycle cfg kind (win w) (S fuel) t c (bufs1 ++ bf' :: bufs2) = Ok (t', c', bufs') ∧
    stores t' (slabclass (r_slabs st')) (heap (r_slabs st')) (<[key := value]> kv).
Proof.
  intros e blk ie Hst Hkey Hval Hh Hlen Hlocal Hfit Hloc Hfree Hcur Hroom Hcfg Hs Hitem Hgpu Hgfit Hlone Hc Hsearch H1 H2.
  pose proof (ku_ok _ _ _ HU key Hkey) as Hok.
  destruct (process_set_packet malloc_ok garbage jobs rfuel hdr key value rest pkt_len st keys i p it bf ib)
    as (st' & Hset & Hheap & Hcls & _ & Hbuf); [done..|].
  assert (Hst' : stores t (slabclass (r_slabs st)) (heap (r_slabs st')) kv)
    by (rewrite Hheap; eapply stores_write; [done|apply Hlocal|done]).
  pose proof Hst' as (m & Hr & Hkv).
  destruct (represents_insert (Ix := gpu_location_index w kind fuel) hash_of t m ie Hr) as (t' & Hins & Hr').
  { split_and!; [by apply (ku_sig _ _ _ HU)|done|by apply (ku_hash _ _ _ HU)]. }
  { done. }
  destruct (gpu_cycle_lone_insert cfg kind (win w) (S fuel) Hgpu t t' c bufs1 bufs2 blk ib p ie bf) as (c' & Hcyc); try done.
  { apply Forall_app in Hsearch as [? [Hbf ?]%Forall_cons]. apply Forall_app; split; [done|]. by constructor. }
  eexists st', _, t', c', _. split; [exact Hset|]. split; [exact Hbuf|]. rewrite Hcls. split; [done|].
  split; [exact Hcyc|]. eapply (stores_bind t' m); [done|exact Hr'|done|].
  split; [done|]. exists p, (stored_item it key value). split.
  { eapply (class_item_gettable (r_slabs st)); [done..|apply Hlocal]. }
  split; [by rewrite Hheap, lookup_insert_eq|]. split; [done|]. by apply stored_item_holds.
Qed.

(** C1: GETs read the map.  Let packets of GETs for keys in use come, from any clients, into
    an empty buffer of a worker.  They are accepted; the cycle of their batch, whatever the
    other workers' buffers hold, ends; and if the server, with the index as it was at the
    beginning of this cycle and the memory as it is when the Sender sends, stores [kv], then
    the worker's Sender ends and sends packets that hold one reply for every key asked for,
    to the client that asked and in the order of the packets and keys: the value [kv] has
    for the key, whole, or that there is none. *)
Theorem gets_read_map malloc_ok garbage jobs rfuel t cs h kv gs st keys bf0 c bufs1 bufs2 tx_burst sfuel :
  stores t cs h kv →
  Forall (gp_ok KVSIZE) gs → Forall (λ g, Forall U (gp_keys g)) gs →
  gathers KVSIZE bf0 st keys [] → room_for (total_keys gs) bf0 → (total_keys gs < jobs)%nat →
  gpu_ok cfg → counters_ok c → Forall (cycle_buf cfg) bufs1 → Forall (cycle_buf cfg) bufs2 →
  0 < io_batch_num cfg < 2 ^ 32 → eiu_hdr_len cfg = 42 → (2 * total_keys gs < sfuel)%nat →
  ∃ st' keys' bf ks,
    receive_packets_match malloc_ok garbage cfg KVSIZE quiet jobs (S rfuel) st keys (gp_memory <$> gs) = Ok (st', keys') ∧
    current_buf st' bf ∧ keys' !! Z.to_nat (receiver_buf_id (r_batch st')) = Some ks ∧
    ∃ t' c' bufs1' sb bufs2',
      gpu_cycle cfg kind (win w) (6 + fuel) t c (bufs1 ++ bf :: bufs2) = Ok (t', c', bufs1' ++ sb :: bufs2') ∧
      length bufs1' = length bufs1 ∧
      ∀ ss, s_jobs ss = search_job_list sb → s_slabs ss = cs → frames_ok cfg (s_frames ss) →
        ∃ ss' chunks ps, send_buffer_match cfg h false tx_burst ks NEITHER sfuel sb ss = Ok ss' ∧
          s_sent ss' = s_sent ss ++ chunks ∧ Forall2 packet_of (concat chunks) ps ∧
          concat (expand <$> ps) = (λ a, (client_key a, kv_reply (kv !! a.2))) <$> concat (packet_asks <$> gs).
Proof.
  intros Hst Hgs HUs Hgat Hroom Hjobs Hgpu Hc H1 H2 Hio Hhdr Hsf. pose proof Hroom as [Hn Hmax Hin Hjl Hout Hcyc0].
  destruct (receive_packets_match_gets malloc_ok garbage cfg KVSIZE bf0 ltac:(lia) Hin Hjl jobs rfuel gs st keys [] Hgs Hgat)
    as (st' & keys' & Hrecv & [Hid (bf & ks & Hb & Hks & Hg)] & Hslabs); [simpl; lia|done|]. rewrite app_nil_l in Hg.
  set (asks := concat (packet_asks <$> gs)) in *.
  assert (Hlen : length asks = total_keys gs).
  { unfold asks, total_keys. clear. induction gs as [|g gs IH]; [done|].
    rewrite !fmap_cons, concat_cons, length_app, IH. unfold packet_asks. by rewrite length_fmap. }
  assert (Hasks : Forall (λ a, U a.2) asks).
  { unfold asks. clear -HUs. induction HUs as [|g gs Hg _ IH]; [constructor|].
    rewrite fmap_cons, concat_cons. apply Forall_app. split; [|done]. by apply Forall_fmap. }
  rewrite <-Hlen in Hroom, Hn, Hsf. pose proof (gathered_cycle_buf asks bf0 bf ks Hroom Hg) as Hbf.
  destruct (gpu_cycle_total cfg kind (win w) fuel t c (bufs1 ++ bf :: bufs2) Hgpu) as (t' & c' & bufs' & Hcyc & _).
  { by destruct Hst as (m & [Hix _] & _). } { done. } { apply Forall_app. split; [done|by constructor]. }
  pose proof Hcyc as Hcyc'. apply gpu_cycle_spec in Hcyc' as [-> _]; [|done|done]. rewrite fmap_app, fmap_cons in Hcyc.
  exists st', keys', bf, ks. split; [exact Hrecv|]. split; [done|]. split; [done|].
  eexists t', c', _, _, _. split; [exact Hcyc|]. split; [by rewrite length_fmap|]. intros ss Hj Hcs Hfr.
  assert (Hj' : s_jobs ss = search_job_list bf) by (rewrite Hj; unfold searched_buf; by destruct (_ =? 0)).
  pose proof (gathered_match_batch t cs h kv asks bf0 bf ks ss Hst Hg Hasks (cb_search _ _ Hbf) ltac:(lia) Hj' Hcs Hfr Hio Hhdr)
    as Hmb.
  destruct (send_buffer_match_spec (λ _, True) cfg h tx_burst ks sfuel _ ss _ Hmb)
    as (ss' & chunks & ps & Hsend & Hsent & Hps & _ & _ & Hexp & _);
    [by apply Forall_true|rewrite length_imap; lia|].
  exists ss', chunks, ps. split; [done|]. split; [done|]. split; [done|]. rewrite Hexp, Hcs.
  by eapply service_replies.
Qed.
End service.

(** ** The properties at a small server

    The allocator of [Scheduler]'s example; a SET into the empty map. *)
Lemma ex_set_keys : keys_in_use 0 (λ _, 134678021) (λ k, k = ex_key).
Proof. split; [intros ? ->; exact ex_key_ok|by intros ? ->..|by intros ? ? -> ->]. Qed.

Lemma set_updates_map_witness :
  ∃ st' bf' t' c' bufs', process_packet_match (λ _, true) (λ _, 0) ex_cfg 0 quiet 2 1
      (packet ex_hdr (encode_set ex_key ex_value) [0; 0]) 70 ex_sstate [] = Ok (st', [], 1) ∧
    gpu_cycle ex_cfg HASH_CUCKOO (win ex_w) 1 ∅ (Counters 0 0 0 0) [bf'] = Ok (t', c', bufs') ∧
    stores ex_cfg ex_w HASH_CUCKOO 0 (λ _, 134678021) (λ k, k = ex_key) t' (slabclass (r_slabs st'))
      (heap (r_slabs st')) (<[ex_key := ex_value]> ∅).
Proof.
  destruct (set_updates_map ex_cfg 0 ex_w HASH_CUCKOO 0 (λ _, 134678021) (λ k, k = ex_key) ex_set_keys
    (λ _, true) (λ _, 0) 0 0 ex_hdr ex_key ex_value [0; 0] 70 ex_sstate [] 0 (9, 40 * 63) ex_sitem ex_sbuf ex_sib
    ∅ ∅ (Counters 0 0 0 0) [] []) as (st' & bf' & t' & c' & bufs' & Hset & _ & _ & Hcyc & Hst).
  - exists ∅. split; [apply ex_represents|]. by intros ? ->.
  - reflexivity.
  - reflexivity.
  - reflexivity.
  - by vm_compute.
  - split; [reflexivity | lia | reflexivity | exact ex_sitem_eq].
  - vm_compute. lia.
  - by vm_compute.
  - intros k _ [v Hv]. rewrite lookup_empty in Hv. discriminate Hv.
  - by split.
  - exact ex_sroom.
  - exact ex_cfg_ok.
  - exact ex_slabs1_wf.
  - exact ex_class_item.
  - exact ex_gpu_ok_small.
  - left. right. apply room_empty_table.
  - exact ex_lone_insert.
  - by split_and!; vm_compute.
  - constructor; [|constructor]. split; simpl; lia.
  - constructor.
  - constructor.
  - exists st', bf', t', c', bufs'. split; [exact Hset|]. split; [exact Hcyc|exact Hst].
Defined.

(** A store with one key; two clients ask for it, and one of them for another key, too. *)
Definition ex_other_key : list Z := seqZ 2 8.
Definition ex_used (k : list Z) : Prop := k = ex_key ∨ k = ex_other_key.
Definition ex_hash_of (s : Z) : Z := s + 67372036.
Definition ex_kv : gmap (list Z) (list Z) := <[ex_key := seqZ 9 8]> ∅.
Definition ex_index : table :=
  match hash_insert_elem HASH_CUCKOO alone 1 ∅ (Ielem 67305985 134678021 1) with Ok t => t | Err _ => ∅ end.
Definition ex_empty_buf : mega_batch_buf_t :=
  BatchBuf (replicate (Z.to_nat 32768) (Selem 0 0)) (replicate (Z.to_nat 65536) 0) [] []
    (replicate (Z.to_nat 32768) (JobSearch 0 0 0 0 0)) [] 0 0 0 0 [].
Definition ex_empty : rstate :=
  RState 0 slabs0 (Batch (replicate 3 ex_empty_buf) 0 (-1) (1, 2) (-1) (-1) [] []) 0 0.
Definition ex_job_keys : job_keys := replicate 3 (replicate (Z.to_nat 32768) (JobKey (replicate 8 0) 0)).
Definition ex_two : list get_packet :=
  [GetPacket ex_hdr [ex_key; ex_other_key] [0; 0] 72; GetPacket ex_hdr2 [ex_key] [0; 0] 60].

Lemma ex_used_keys : keys_in_use 0 ex_hash_of ex_used.
Proof.
  split.
  - intros k [->| ->]; [exact ex_key_ok|]. split; [done|]. unfold ex_other_key, byte. repeat constructor; lia.
  - by intros k [->| ->].
  - by intros k [->| ->].
  - intros k1 k2 [->| ->] [->| ->] H; try done.
Qed.

Lemma ex_stores :
  stores mega_init_config ex_w HASH_CUCKOO 0 ex_hash_of ex_used ex_index [ex_send_class] ex_send_heap ex_kv.
Proof.
  destruct (represents_insert (Ix := gpu_location_index ex_w HASH_CUCKOO 0) ex_hash_of ∅ ∅ (Ielem 67305985 134678021 1))
    as (t & Ht & Hr); [apply ex_represents|by split_and!|left; right; apply room_empty_table|].
  assert (t = ex_index) as ->.
  { unfold ex_index. change (ix_insert ∅ _) with (hash_insert_elem HASH_CUCKOO alone 1 ∅ (Ielem 67305985 134678021 1)) in Ht.
    by rewrite Ht. }
  eapply (stores_bind mega_init_config 0 ex_w HASH_CUCKOO 0 ex_hash_of ex_used ex_used_keys ex_index ∅).
  - intros k _. by rewrite !lookup_empty.
  - exact Hr.
  - by left.
  - split; [done|]. exists (0, 40), ex_item1. split; [|split; [reflexivity|split; [reflexivity|]]].
    + exists ex_send_class. split; [reflexivity|]. split; [reflexivity|]. split; [reflexivity|].
      split; [|done]. split; simpl; try done. by repeat constructor.
    + split; try reflexivity. split; simpl; unfold in_range, ETHERNET_MAX_FRAME_LEN; lia.
Qed.

Lemma ex_gathers : gathers 0 ex_empty_buf ex_empty ex_job_keys [].
Proof.
  split; [done|]. exists ex_empty_buf, (replicate (Z.to_nat 32768) (JobKey (replicate 8 0) 0)).
  split; [done|]. split; [done|]. split; try done.
  split; [unfold ex_empty_buf; cbn [search_job_list]; by rewrite !length_replicate|]. by apply Forall_replicate.
Qed.

Lemma ex_room : room_for mega_init_config 3 ex_empty_buf.
Proof.
  split; unfold ex_empty_buf, mega_init_config; cbn [batch_max_search_job search_in search_job_list search_out];
    rewrite ?length_replicate; try lia.
  by split.
Qed.

Lemma gets_read_map_witness :
  ∃ st' keys' bf ks t' c' sb l, receive_packets_match (λ _, true) (λ _, 0) mega_init_config 0 quiet 10 1 ex_empty
      ex_job_keys (gp_memory <$> ex_two) = Ok (st', keys') ∧
    gpu_cycle mega_init_config HASH_CUCKOO (win ex_w) 6 ex_index (Counters 0 0 0 0) [bf] = Ok (t', c', sb :: l) ∧
    ∃ ss' chunks ps, send_buffer_match mega_init_config ex_send_heap false (λ l, Z.of_nat (length l)) ks NEITHER 7 sb
        (Sender.ex_sstate (search_job_list sb)) = Ok ss' ∧
      s_sent ss' = chunks ∧ Forall2 packet_of (concat chunks) ps ∧
      concat (expand <$> ps) =
        [((505224219, 9251), [1; 0; 8; 0; 0; 0] ++ seqZ 9 8); ((505224219, 9251), [2]);
         ((2172682110, 34694), [1; 0; 8; 0; 0; 0] ++ seqZ 9 8)].
Proof.
  destruct (gets_read_map mega_init_config 0 ex_w HASH_CUCKOO 0 ex_hash_of ex_used ex_used_keys (λ _, true) (λ _, 0) 10 0
    ex_index [ex_send_class] ex_send_heap ex_kv ex_two ex_empty ex_job_keys ex_empty_buf (Counters 0 0 0 0) [] []
    (λ l, Z.of_nat (length l)) 7 ex_stores) as (st' & keys' & bf & ks & Hr & _ & _ & t' & c' & l1 & sb & l2 & Hc & Hl & Hs).
  - unfold ex_two, gp_ok. repeat constructor; try apply (ku_ok _ _ _ ex_used_keys); simpl; try lia; by (left + right).
  - unfold ex_two, ex_used. repeat constructor; simpl; tauto.
  - exact ex_gathers.
  - exact ex_room.
  - vm_compute. lia.
  - exact ex_gpu_ok.
  - by split_and!.
  - constructor.
  - constructor.
  - by vm_compute.
  - done.
  - vm_compute. lia.
  - destruct l1; [|discriminate Hl]. exists st', keys', bf, ks, t', c', sb, l2. split; [exact Hr|]. split; [exact Hc|].
    destruct (Hs (Sender.ex_sstate (search_job_list sb)) eq_refl eq_refl) as (ss' & chunks & ps & H1 & H2 & H3 & H4).
    { split; [reflexivity|]. repeat constructor. }
    exists ss', chunks, ps. split; [exact H1|]. split; [exact H2|]. split; [exact H3|]. rewrite H4. vm_compute. reflexivity.
Defined.
