(* ===== verification/ServiceEvict.v ===== *)
(** * The service when the memory is full

    A SET for which the Receiver has no item: [item_alloc_batch] evicts a batch of items by
    the clock, and puts a deletion for each into the buffer; the SET takes the first of
    them.  For the map of [Service] this is a SET that also forgets the keys of the evicted
    items, with the cycle of its batch: the deletions of the index and the new entry belong
    to one cycle, the deletions first. *)

From S2P Require Import Prelude GpuHash Config Bitmap Slabs Batch Items Packet Receiver Receive Sender SenderMatch.
From S2P Require Import ReceiverMatch Index Scheduler Service.

Section evict.
Context (cfg : mega_config_t) (KVSIZE : Z) (w : winner_t) (kind : hash_kind) (fuel : nat).
Context (hash_of : Z → Z) (U : list Z → Prop).
Context (HU : keys_in_use KVSIZE hash_of U).
Abbreviation sig_of key := (s_sig (elem_of_key key)).
Abbreviation stores := (stores cfg w kind fuel hash_of U).

(** The map without the keys whose items the deletions name. *)
Definition without_evicted (t : table) (ds : list ielem_t) (kv : gmap (list Z) (list Z)) : gmap (list Z) (list Z) :=
  filter (λ p, ¬ gpu_find w t (elem_of_key p.1) ∈ (e_loc <$> ds)) kv.

(** Every item in use holds a key in use, which is in one bucket at most. *)
Definition items_hold_keys (t : table) (h : heap_t) : Prop :=
  ∀ q it, h !! q = Some it → it_flags it = 0 →
    it_loc it ≠ 0 ∧ gpu_single t (job_of h q) ∧ ∃ key, U key ∧ take (length key) (it_data it) = key.

(** ** Lemmas *)

(** A deletion has the hash and the signature of the item's key. *)
Lemma item_key_elem it key :
  Receiver.key_ok KVSIZE key → take (length key) (it_data it) = key →
  item_sig it = s_sig (elem_of_key key) ∧ item_hash it = s_hash (elem_of_key key).
Proof.
  intros [Hlen Hb] Hk. pose proof (KEY_LEN_range KVSIZE) as HK.
  assert (Hd : it_data it = key ++ drop (length key) (it_data it)) by (by rewrite <-Hk at 1; rewrite take_drop).
  assert (H4 : Forall byte (take 4 key) ∧ Forall byte (take 4 (drop 4 key)))
    by (split; [by apply Forall_take|by apply Forall_take, Forall_drop]). destruct H4 as [Hb1 Hb2].
  pose proof (load_le_range 4 _ Hb1) as Hr1. pose proof (load_le_range 4 _ Hb2) as Hr2.
  assert (Hpre : ∀ l, (4 ≤ length l)%nat → load_le 4 (take 4 l) = load_le 4 l).
  { intros l Hl. rewrite <-(take_drop 4 l) at 2. by rewrite load_le_app by (rewrite length_take; lia). }
  rewrite Hpre in Hr1, Hr2 by (rewrite ?length_drop; lia). change (256 ^ Z.of_nat 4) with (2 ^ 32) in *.
  assert (Hs : item_sig it = load_le 4 key).
  { unfold item_sig. rewrite Hd, <-(take_drop 4 key), <-app_assoc at 1.
    rewrite load_le_app by (rewrite length_take; lia). apply Hpre. lia. }
  assert (Hh : item_hash it = load_le 4 (drop 4 key)).
  { unfold item_hash. rewrite Hd at 1. rewrite drop_app_le by lia.
    rewrite <-(take_drop 4 (drop 4 key)), <-app_assoc at 1.
    rewrite load_le_app by (rewrite length_take, length_drop; lia). apply Hpre. rewrite length_drop. lia. }
  unfold elem_of_key, key_elem. change (load_le 8 key) with (load_le (4 + 4) key). rewrite (load_le_split 4 4 key) by lia. change (256 ^ Z.of_nat 4) with (2 ^ 32).
  cbn [s_sig s_hash]. rewrite Hs, Hh. rewrite Z.shiftl_mul_pow2, Z.shiftr_div_pow2 by lia. split.
  - replace ((load_le 4 key + 2 ^ 32 * load_le 4 (drop 4 key)) * 2 ^ 32)
      with (load_le 4 key * 2 ^ 32 + load_le 4 (drop 4 key) * 2 ^ 64) by lia.
    unfold wrap. rewrite Z.mod_add, Z.mod_small, Z.div_mul by lia. done.
  - rewrite Z.mul_comm, Z.div_add, Z.div_small, Z.add_0_l by lia. by rewrite wrap_id.
Qed.

(** Every item number of a class leads to an item of the class. *)
Lemma victim_slab s i c o q :
  cfg_ok cfg → slabs_wf cfg s → slabclass s !! i = Some c → 0 ≤ o < sc_perslab c * sc_slabs c → item_at c o = Ok q →
  ∃ k x b, 0 ≤ k < sc_slabs c ∧ 0 ≤ x < sc_perslab c ∧ slab_at c k b ∧ q = (b, sc_size c * x) ∧
    slab_items cfg (heap s) (Z.of_nat i) c k b.
Proof.
  intros Hcfg Hs Hi Ho Hat. pose proof (sw_class Hs (Z.of_nat i) c ltac:(lia) ltac:(by rewrite Nat2Z.id)) as Hwf.
  pose proof (class_perslab _ _ _ _ _ Hcfg Hwf) as [Hps _].
  set (k := o / sc_perslab c). set (x := o mod sc_perslab c).
  assert (Heq : o = sc_perslab c * k + x) by (unfold k, x; apply Z.div_mod; lia).
  assert (Hx : 0 ≤ x < sc_perslab c) by (apply Z.mod_pos_bound; lia).
  assert (Hk : 0 ≤ k < sc_slabs c) by (split; [apply Z.div_pos; lia|apply Z.div_lt_upper_bound; lia]).
  destruct (cw_items Hwf k Hk) as (b & Hb & _ & Hits). rewrite Heq in Hat.
  rewrite (item_at_eq cfg (mallocs s) (heap s) (Z.of_nat i) c k x b) in Hat by done. injection Hat as <-.
  by exists k, x, b.
Qed.

Lemma victim_class_item s i c o q :
  cfg_ok cfg → slabs_wf cfg s → slabclass s !! i = Some c → 0 ≤ o < sc_perslab c * sc_slabs c → item_at c o = Ok q →
  class_item s q.
Proof.
  intros Hcfg Hs Hi Ho Hat. destruct (victim_slab s i c o q) as (k & x & b & Hk & Hx & Hb & -> & _); [done..|].
  exists (Z.of_nat i), c, k, x, b. split; [lia|]. by rewrite Nat2Z.id.
Qed.

Lemma victim_data s i c o q it :
  cfg_ok cfg → slabs_wf cfg s → slabclass s !! i = Some c → 0 ≤ o < sc_perslab c * sc_slabs c → item_at c o = Ok q →
  heap s !! q = Some it → Z.of_nat (length (it_data it)) = sc_size c - sizeof_item.
Proof.
  intros Hcfg Hs Hi Ho Hat Hit. destruct (victim_slab s i c o q) as (k & x & b & _ & Hx & _ & -> & Hits); [done..|].
  destruct (Hits x Hx) as (it' & Hit' & _ & _ & Hl). congruence.
Qed.

(** Locations and items of a well-formed allocator determine each other. *)
Lemma gettable_class_item s loc p :
  cfg_ok cfg → slabs_wf cfg s → gettable cfg (slabclass s) loc p → class_item s p.
Proof.
  intros Hcfg Hs (c & Hc & Hlt & Hat & _ & Hoff). apply arr_get_Ok in Hc as [Hid Hc].
  pose proof (sw_class Hs _ _ Hid Hc) as Hwf. pose proof (class_perslab _ _ _ _ _ Hcfg Hwf) as [Hps _].
  pose proof (cw_count Hwf). destruct (cw_bitmap Hwf) as [Hbm _]. pose proof (wf_current _ Hbm).
  pose proof (cw_elems Hwf). pose proof (cw_slabs Hwf). rewrite wrap_id in Hlt by (unfold in_range; nia).
  eapply victim_class_item; [done..|split; [apply Hoff|exact Hlt]|done].
Qed.

Lemma gettable_unique cs loc p q : gettable cfg cs loc p → gettable cfg cs loc q → p = q.
Proof. intros (c & Hc & _ & Hp & _) (c' & Hc' & _ & Hq & _). congruence. Qed.

(** A new bitmap leaves the items where they are. *)
Lemma class_item_bitmap s h i c bm p :
  slabclass s !! i = Some c → class_item s p →
  class_item (with_heap (with_classes s (<[i := set_bitmap c bm]> (slabclass s))) h) p.
Proof.
  intros Hi (id & pc & k & x & b & Hid & Hpc & Hk & Hx & Hb & ->).
  destruct (decide (Z.to_nat id = i)) as [<-|Hne].
  - exists id, (set_bitmap c bm), k, x, b. rewrite Hi in Hpc. injection Hpc as <-. cbn [slabclass with_heap with_classes].
    rewrite list_lookup_insert_eq by (by eapply lookup_lt_Some). done.
  - exists id, pc, k, x, b. cbn [slabclass with_heap with_classes]. by rewrite list_lookup_insert_ne.
Qed.


(** ** Lemmas: what an eviction leaves

    [s] is the allocator before, [s1] behind the eviction of the items [used], of which [q]
    is the one that the SET takes; [ds] are the deletions of the cycle. *)
Section after.
Context (t : table) (m : gmap Z Z) (kv : gmap (list Z) (list Z)) (s : slabs_t).
Context (i : nat) (c : slabclass_t) (bm : bitmap_t) (h' : heap_t) (victims : list Z) (used : list ptr) (q : ptr).
Let s1 := with_heap (with_classes s (<[i := set_bitmap c bm]> (slabclass s))) h'.
Context (ds : list ielem_t) (it2 : item).
Context (Hcfg : cfg_ok cfg) (Hs : slabs_wf cfg s) (Hs1 : slabs_wf cfg s1) (Hc : slabclass s !! i = Some c).
Context (Hev : evicts c victims (heap s) h' [] used (Some q)).
Context (Hrange : Forall (λ o, 0 ≤ o < sc_perslab c * sc_slabs c) victims).
Context (Hds : ∀ d, d ∈ ds ↔ d ∈ (job_of (heap s) <$> used)).
Context (Hhold : items_hold_keys t (heap s)).
Context (Hm : Index.represents (Ix := gpu_location_index w kind fuel) hash_of t m).
Context (Hkv : ∀ key, U key → match kv !! key with
  | None => m !! sig_of key = None
  | Some value => ∃ loc, m !! sig_of key = Some loc ∧ located cfg (slabclass s) (heap s) loc key value
  end).

Lemma used_item u : u ∈ used → ∃ it, heap s !! u = Some it ∧ it_flags it = 0 ∧ class_item s u ∧
  job_of (heap s) u = Ielem (item_sig it) (item_hash it) (it_loc it).
Proof.
  intros Hu. destruct (ev_used _ _ _ _ _ _ _ Hev u Hu) as (it & nx & o & Hit & Hf & _ & Ho & Hat).
  exists it. split; [done|]. split; [done|]. split.
  - apply (victim_class_item s i c o); try done. exact (proj1 (Forall_forall _ _) Hrange o Ho).
  - unfold job_of. by rewrite Hit.
Qed.

Lemma head_used : q ∈ used.
Proof.
  pose proof (ev_chain _ _ _ _ _ _ _ Hev) as Hch. rewrite app_nil_r in Hch.
  destruct (reverse used) as [|u l] eqn:E; [done|]. destruct Hch as ([= <-] & _).
  apply elem_of_reverse. rewrite E. by left.
Qed.

(** The deletions are fit for the index. *)
Lemma deletions_proper : Forall (proper_elem hash_of) ds ∧ Forall (gpu_single t) ds.
Proof.
  split; apply Forall_forall; intros d (u & -> & Hu)%Hds%list_elem_of_fmap;
    destruct (used_item u Hu) as (it & Hit & Hf & _ & Hj); destruct (Hhold u it Hit Hf) as (Hloc & Hsingle & k & Hk & Htk).
  - rewrite Hj. destruct (item_key_elem it k) as [H1 H2]; [by apply (ku_ok KVSIZE hash_of U HU)|done|].
    split_and!; simpl; [|done|]; rewrite ?H2, H1; [by apply (ku_sig KVSIZE hash_of U HU)|by apply (ku_hash KVSIZE hash_of U HU)].
  - done.
Qed.

(** The entry of a key whose item has been evicted. *)
Lemma evicted_entry key value loc p it :
  U key → m !! sig_of key = Some loc → gettable cfg (slabclass s) loc p → heap s !! p = Some it → it_loc it = loc →
  item_holds it key value →
  (loc ∈ (e_loc <$> ds) → p ∈ used ∧ foldl map_delete m ds !! sig_of key = None) ∧
  (¬ loc ∈ (e_loc <$> ds) → ¬ p ∈ used ∧ foldl map_delete m ds !! sig_of key = Some loc).
Proof.
  intros Hkey Hloc Hg Hit Hitl Hh. rewrite (map_deletes_lookup hash_of). split.
  - intros (d & -> & Hd)%list_elem_of_fmap. pose proof Hd as Hd2. apply Hds, list_elem_of_fmap in Hd2 as (u & -> & Hu).
    destruct (used_item u Hu) as (itu & Hitu & Hf & Hcu & Hj). rewrite Hj in *. cbn [e_loc] in *.
    assert (p = u) as <-.
    { eapply gettable_unique; [exact Hg|]. by apply (class_item_gettable cfg s). }
    split; [done|]. rewrite decide_True; [done|]. apply Exists_exists. eexists. split; [exact Hd|].
    cbn [e_sig e_loc]. rewrite Hit in Hitu. injection Hitu as <-. split; [|done].
    apply (item_key_elem it key); [by apply (ku_ok KVSIZE hash_of U HU)|apply Hh].
  - intros Hn. split.
    + intros Hp. apply Hn. destruct (used_item p Hp) as (itp & Hitp & _ & _ & Hj). rewrite Hit in Hitp. injection Hitp as <-.
      apply list_elem_of_fmap. exists (job_of (heap s) p). split; [by rewrite Hj|]. apply Hds, list_elem_of_fmap. by exists p.
    + rewrite decide_False; [done|]. intros (d & Hd & _ & Hl)%Exists_exists. apply Hn, list_elem_of_fmap.
      exists d. split; [congruence|done].
Qed.

(** The index after the deletions, with the room it had. *)
Lemma after_deletes e :
  gpu_fits t e →
  Index.represents (Ix := gpu_location_index w kind fuel) hash_of (hash_delete t ds) (foldl map_delete m ds) ∧
  gpu_fits (hash_delete t ds) e.
Proof.
  intros Hfit. destruct deletions_proper as [Hp Hsingle].
  split; [exact (delete_list_refines (Ix := gpu_location_index w kind fuel) hash_of t m ds Hm Hp Hsingle)|].
  apply gpu_fits_deletes; [apply Hm| |done]. eapply Forall_impl; [exact Hp|]. by intros d (? & _).
Qed.

Lemma evicted_map key : U key →
  match without_evicted t ds kv !! key with
  | None => foldl map_delete m ds !! sig_of key = None
  | Some value => ∃ loc, foldl map_delete m ds !! sig_of key = Some loc ∧
      located cfg (slabclass s1) (<[q := it2]> h') loc key value
  end.
Proof.
  intros Hkey. specialize (Hkv key Hkey). unfold without_evicted.
  destruct (kv !! key) as [value|] eqn:E.
  2:{ rewrite map_lookup_filter_None_2 by (by left). rewrite (map_deletes_lookup hash_of). by case_decide. }
  destruct Hkv as (loc & Hloc & Hl0 & p & it & Hg & Hit & Hitl & Hh).
  assert (Hf : gpu_find w t (elem_of_key key) = loc)
    by (by rewrite (find_key KVSIZE w kind fuel hash_of U HU t m key Hm Hkey), Hloc).
  destruct (evicted_entry key value loc p it Hkey Hloc Hg Hit Hitl Hh) as [Hin Hout].
  destruct (decide (loc ∈ (e_loc <$> ds))) as [Hd|Hd].
  - rewrite map_lookup_filter_None_2; [by apply Hin|]. right. intros v _. simpl. rewrite Hf. tauto.
  - rewrite (map_lookup_filter_Some_2 _ _ _ value) by (done || (simpl; by rewrite Hf)).
    destruct (Hout Hd) as [Hp Hdel]. exists loc. split; [done|]. split; [done|].
    assert (Hh1 : h' !! p = Some it) by (by rewrite (ev_other _ _ _ _ _ _ _ Hev)).
    exists p, it. split; [|split; [|done]].
    + rewrite <-Hitl. apply (class_item_gettable cfg s1); try done.
      apply class_item_bitmap; [done|]. by eapply gettable_class_item.
    + rewrite lookup_insert_ne; [done|]. intros Heq. apply Hp. rewrite <-Heq. apply head_used.
Qed.
End after.

(** The deletions of the cycle are the jobs of the evicted items. *)
Lemma deletes_of_jobs bf bf0 jobs :
  gpu_ok cfg → num_delete_job bf = 0 → delete_room cfg bf (evict_batch_size cfg + 63) →
  Z.of_nat (length jobs) ≤ evict_batch_size cfg + 63 →
  let bf' := set_deletes bf0 (write_run (delete_in bf) (Z.to_nat (num_delete_job bf)) jobs)
               (num_delete_job bf + Z.of_nat (length jobs)) in
  deletable cfg bf' ∧ ∀ d, d ∈ gpu_deletes cfg bf' ↔ d ∈ jobs.
Proof.
  intros Hgpu H0 (_ & Hroom & Hmax & Hlen) Hjobs bf'. rewrite H0 in Hroom.
  assert (Hd : delete_in bf' = jobs ++ drop (length jobs) (delete_in bf)) by (unfold bf'; simpl; by rewrite H0).
  assert (Hn : num_delete_job bf' = Z.of_nat (length jobs)) by (unfold bf'; simpl; lia).
  assert (Hl : 0 ≤ num_delete_job bf' ≤ Z.of_nat (length (delete_in bf'))) by (rewrite Hd, Hn, length_app; lia).
  split; [right; split; [done|]; rewrite Hn, wrap_id by (unfold in_range; lia); lia|].
  intros d. rewrite elem_of_gpu_deletes by done. by rewrite Hd, Hn, Nat2Z.id, take_app_length.
Qed.

Lemma searchable_updated bufs1 bf bufs2 blk ib p e d n :
  Forall searchable (bufs1 ++ bf :: bufs2) → Forall searchable (bufs1 ++ set_deletes (add_elem blk ib p e bf) d n :: bufs2).
Proof. intros [? [Hbf ?]%Forall_cons]%Forall_app. apply Forall_app; split; [done|]. by constructor. Qed.

(** The SET takes the item [q], when the Receiver has had a new list of items. *)
Lemma refilled_set_packet malloc_ok garbage jobs rfuel hdr key value rest pkt_len st keys i n s1 js q itq bf ib :
  let e := elem_of_key key in
  let blk := insert_block_id cfg (s_hash e) in
  let size := Z.of_nat (length (key ++ value)) in
  let bf1 := set_deletes bf (write_run (delete_in bf) (Z.to_nat (num_delete_job bf)) js)
               (num_delete_job bf + Z.of_nat (length js)) in
  length hdr = 42%nat → 44 + Z.of_nat (length (encode_set key value)) < pkt_len →
  Receiver.key_ok KVSIZE key → Z.of_nat (length value) = VALUE_LEN KVSIZE →
  slab_index 7 (local_slab_size (r_batch st)) 0 size = Ok i → 0 ≤ i < 8 →
  local_slab (r_batch st) !! Z.to_nat i = Some None →
  item_alloc_batch malloc_ok garbage cfg quiet (S rfuel) size (r_reads st) (r_slabs st) (r_batch st) =
    Ok (n, s1, append_deletes (r_batch st) (receiver_buf_id (r_batch st)) bf js, Some q) →
  heap s1 !! q = Some itq → (length (key ++ value) ≤ length (it_data itq))%nat →
  current_buf st bf → insert_room cfg blk ib bf →
  ∃ st', process_packet_match malloc_ok garbage cfg KVSIZE quiet (S (S jobs)) (S rfuel)
      (packet hdr (encode_set key value) rest) pkt_len st keys = Ok (st', keys, 1) ∧
    heap (r_slabs st') = <[q := stored_item itq key value]> (heap s1) ∧ slabclass (r_slabs st') = slabclass s1 ∧
    current_buf st' (add_elem blk ib q (Ielem (s_sig e) (s_hash e) (it_loc itq)) bf1).
Proof.
  intros e blk size bf1 Hh Hlen Hok Hval Hidx Hi Hslot Halloc Hq Hfit [Hid Hbf] Hroom.
  pose proof (KEY_LEN_range KVSIZE). pose proof (proj1 Hok) as Hkl.
  assert (Hsmall : VALUE_LEN KVSIZE < 2 ^ 20) by (unfold VALUE_LEN; repeat case_match; lia).
  pose proof (lookup_lt_Some _ _ _ Hslot) as Hlt. pose proof (lookup_lt_Some _ _ _ Hbf) as Hltb.
  set (b1 := append_deletes _ _ _ _) in *. set (st1 := refilled st i n s1 b1 (Some q)).
  destruct (process_set_spec malloc_ok garbage cfg KVSIZE rfuel (set_prefix hdr) key value (end_mark ++ rest)
    st1 0 i q itq bf1 ib) as (st' & Hset & Hheap & _ & _ & Hbuf & _ & Hcls); try done.
  { split; [exact Hidx|done| |exact Hq]. unfold st1. simpl. by apply list_lookup_insert_eq. }
  { split; [exact Hid|]. unfold st1, b1, append_deletes. simpl. by apply list_lookup_insert_eq. }
  { destruct Hroom. by split. }
  exists st'. split; [|done]. apply (process_set_packet_step _ _ _ _ _ _ _ _ _ _ _ _ _ _ (Ok st')); [done..|].
  rewrite (process_set_refill malloc_ok garbage cfg KVSIZE _ _ _ _ _ _ _ _ i n s1 b1 q); [exact Hset|lia|lia|done..].
Qed.

(** ** Properties *)

(** C3: a SET when the memory is full.  Let the server store [kv], with every item in use
    holding a key in use, and let a packet come with a SET for a key in use when the
    Receiver has no item for it and the allocator no memory.  The clock sweeps over victims.
    If all of them are in lists of free items, the program ends.  Otherwise the packet is
    accepted, and the cycle of its batch, in which this is the only update, leaves the
    server with [kv] without the keys whose items have been evicted and with the new value
    for the SET's key. *)
Theorem evicting_set_updates_map malloc_ok garbage jobs rfuel hdr key value rest pkt_len st keys i j cl bf ib t kv cn bufs1 bufs2 :
  let e := elem_of_key key in
  let blk := insert_block_id cfg (s_hash e) in
  let size := Z.of_nat (length (key ++ value)) in
  stores t (slabclass (r_slabs st)) (heap (r_slabs st)) kv → items_hold_keys t (heap (r_slabs st)) →
  U key → Z.of_nat (length value) = VALUE_LEN KVSIZE →
  length hdr = 42%nat → 44 + Z.of_nat (length (encode_set key value)) < pkt_len →
  slab_index 7 (local_slab_size (r_batch st)) 0 size = Ok i → 0 ≤ i < 8 →
  local_slab (r_batch st) !! Z.to_nat i = Some None →
  evict_ready cfg (S rfuel) (r_slabs st) (r_batch st) j cl bf →
  list_find (λ p, sizeof_item + size ≤ sc_size p) (slabclass (r_slabs st)) = Some (j, cl) →
  insert_room cfg blk ib bf → lone_insert cfg blk ib bf →
  gpu_ok cfg → gpu_fits t (Ielem (s_sig e) (s_hash e) 0) → counters_ok cn →
  Forall searchable (bufs1 ++ bf :: bufs2) → Forall no_updates bufs1 → Forall no_updates bufs2 →
  let res := process_packet_match malloc_ok garbage cfg KVSIZE quiet (S (S jobs)) (S rfuel)
               (packet hdr (encode_set key value) rest) pkt_len st keys in
  ∃ victims bm', swept cfg (S rfuel) cl victims bm' ∧
    ((res = Err Exit ∧
       ∀ o q it, o ∈ victims → item_at cl o = Ok q → heap (r_slabs st) !! q = Some it → it_flags it ≠ 0) ∨
     ∃ st' bf' t' c' bufs',
       res = Ok (st', keys, 1) ∧ current_buf st' bf' ∧
       gpu_cycle cfg kind (win w) (S fuel) t cn (bufs1 ++ bf' :: bufs2) = Ok (t', c', bufs') ∧
       stores t' (slabclass (r_slabs st')) (heap (r_slabs st'))
         (<[key := value]> (without_evicted t (gpu_deletes cfg bf') kv))).
Proof.
  intros e blk size (m & Hm & Hkv) Hhold Hkey Hval Hh Hlen Hidx Hi Hslot Hready Hfind Hroom Hlone Hgpu Hfit Hcn Hsearch H1 H2 res.
  pose proof (ku_ok KVSIZE hash_of U HU key Hkey) as Hok. pose proof (KEY_LEN_range KVSIZE).
  assert (Hsmall : VALUE_LEN KVSIZE < 2 ^ 20) by (unfold VALUE_LEN; repeat case_match; lia).
  pose proof (proj1 Hok) as Hklen.
  assert (Hsize : 0 ≤ size < 2 ^ 31) by (unfold size; rewrite length_app; lia).
  set (s := r_slabs st) in *. set (off := Z.of_nat (length (set_prefix hdr))).
  assert (Hj : (j < 8)%nat).
  { eapply find_class; [apply Hready|exact Hfind|unfold sizeof_item; lia]. }
  destruct (item_alloc_evicts_spec malloc_ok garbage cfg rfuel size (r_reads st) s (r_batch st) j cl bf Hready Hsize Hfind)
    as (victims & bm' & Hsw & [[Herr Hfree]|(n' & h' & used & q & Halloc & Hs1 & Hev & Hrange)]);
    exists victims, bm'; (split; [exact Hsw|]).
  { left. split; [|exact Hfree]. unfold res. apply (process_set_packet_step _ _ _ _ _ _ _ _ _ _ _ _ _ _ (Err Exit)); [done..|].
    apply (process_set_alloc_error _ _ _ _ _ _ _ _ _ _ _ _ i); done || lia. }
  right. pose proof Hready as [Hcfg _ _ Hs _ Hc _ _ _ Hid Hbf Hdroom].
  pose proof (head_used s cl h' victims used q Hev) as Hq.
  destruct (ev_used _ _ _ _ _ _ _ Hev q Hq) as (it0 & nx & o & Hit0 & Hf0 & Hit1 & Ho & Hat).
  pose proof (victim_data s j cl o q it0 Hcfg Hs Hc (proj1 (Forall_forall _ _) Hrange o Ho) Hat Hit0) as Hdata.
  apply list_find_Some in Hfind as (_ & Hbig & _).
  destruct (refilled_set_packet malloc_ok garbage jobs rfuel hdr key value rest pkt_len st keys i n' _ _ q (evicted it0 nx) bf ib
    Hh Hlen Hok Hval Hidx Hi Hslot Halloc Hit1) as (st' & Hset & Hheap & Hcls & Hbuf);
    [cbn [evicted it_data set_next set_flags]; unfold size in *; lia|done|done|].
  destruct (deletes_of_jobs bf (add_elem blk ib q (Ielem (s_sig e) (s_hash e) (it_loc it0)) bf) (job_of (heap s) <$> used)
    Hgpu (proj1 (li_quiet _ _ _ _ Hlone)) Hdroom) as [Hdel Hds].
  { rewrite length_fmap. pose proof (ev_len _ _ _ _ _ _ _ Hev). pose proof (swept_length _ _ _ _ _ _ _ _ _ Hready Hj Hsw). lia. }
  destruct (after_deletes t m s j cl h' victims used q _ Hcfg Hs Hc Hev Hrange Hds Hhold Hm _ Hfit) as [Hr Hfit'].
  set (ds := gpu_deletes cfg _) in *. set (ie := Ielem (s_sig e) (s_hash e) (it_loc it0)).
  destruct (Hhold q it0 Hit0 Hf0) as (Hl0 & _).
  destruct (represents_insert (Ix := gpu_location_index w kind fuel) hash_of (hash_delete t ds) _ ie Hr) as (t' & Hins & Hr').
  { split_and!; [by apply (ku_sig KVSIZE hash_of U HU)|done|by apply (ku_hash KVSIZE hash_of U HU)]. }
  { exact Hfit'. }
  destruct (gpu_cycle_one_insert cfg kind (win w) (S fuel) Hgpu t t' cn bufs1 bufs2 blk ib q ie bf _ _ Hlone Hcn
    (searchable_updated _ _ _ _ _ _ _ _ _ Hsearch) H1 H2 Hdel Hins) as (cn' & Hcyc).
  eexists st', _, t', cn', _. split; [exact Hset|]. split; [exact Hbuf|]. split; [exact Hcyc|].
  rewrite Hcls, Hheap.
  eapply (stores_bind cfg KVSIZE w kind fuel hash_of U HU t' (foldl map_delete m ds)); [|exact Hr'|done|].
  { intros k. eapply (evicted_map t m kv s j cl bm' h' victims used q ds); try done. }
  split; [done|]. exists q, (stored_item (evicted it0 nx) key value). split; [|split; [|split; [done|]]].
  - apply (class_item_gettable cfg (with_heap _ h') q (evicted it0 nx)); [done|exact Hs1| |done].
    apply class_item_bitmap; [done|]. eapply victim_class_item; [done..| |done]. by apply (proj1 (Forall_forall _ _) Hrange).
  - apply lookup_insert_eq.
  - apply (stored_item_holds KVSIZE); [done..|]. cbn [evicted it_data set_next set_flags]. unfold size in *. lia.
Qed.
End evict.

(** ** The property at a small server

    The allocator of [Items]' example, without memory: a slab of 64 items, all of which but
    the one with location 0 hold versions of one key; the index has the one at location 1.
    A SET comes for another key. *)
Definition ex_version (it : item) : item :=
  if it_loc it =? 0 then it else set_flags (stored_item it ex_key (seqZ 9 8)) 0.
Definition ex_full : slabs_t := with_full (with_heap ex_slabs1 (ex_version <$> heap ex_slabs1)).
Definition ex_full_class : slabclass_t := default ex_class (head (slabclass ex_full)).
Definition ex_ebuf : mega_batch_buf_t :=
  BatchBuf [] [] (replicate 4096 (Ielem 0 0 0)) (replicate 4096 (Ielem 0 0 0)) [] (replicate (Z.to_nat 32768) None) 0 0 0 0
    [ex_sib].
Definition ex_estate : rstate :=
  RState 0 ex_full
    (Batch (replicate 3 ex_ebuf) 0 (-1) (1, 2) (-1) (-1) (replicate 8 None) [40; 80; 160; 320; 640; 1280; 2560; 5120]) 0 0.

Lemma ex_items_16 : map_Forall (λ _ it, length (it_data it) = 16%nat) (heap ex_slabs1).
Proof. apply (bool_decide_unpack _). vm_compute. exact I. Qed.

#[local] Opaque ex_slabs1.

Lemma ex_full_wf : slabs_wf ex_cfg ex_full.
Proof.
  apply slabs_wf_full, slabs_wf_items; [apply ex_slabs1_wf|].
  intros q. rewrite lookup_fmap. destruct (heap ex_slabs1 !! q) as [it|] eqn:E; simpl; [|done].
  pose proof (ex_items_16 q it E) as Hl. simpl in Hl. unfold ex_version. destruct (it_loc it =? 0); [by split_and!|].
  split; [reflexivity|]. split; [reflexivity|]. cbn [set_flags stored_item it_data]. apply write_run_length.
  rewrite Hl. vm_compute. lia.
Qed.

#[local] Opaque ex_full.

Lemma ex_full_find :
  list_find (λ p, sizeof_item + 16 ≤ sc_size p) (slabclass ex_full) = Some (0%nat, ex_full_class).
Proof. vm_compute. reflexivity. Qed.

Lemma ex_full_ready : evict_ready ex_cfg 1024 ex_full (r_batch ex_estate) 0 ex_full_class ex_ebuf.
Proof.
  refine (Build_evict_ready ex_cfg 1024 ex_full (r_batch ex_estate) 0 ex_full_class ex_ebuf ex_cfg_ok _ _ ex_full_wf _ _ _ _ _ _ eq_refl _);
    try (vm_compute; reflexivity).
  - by vm_compute.
  - vm_compute. discriminate.
  - by vm_compute.
  - unfold delete_room. split_and!; vm_compute; done.
Qed.

Lemma ex_hold : items_hold_keys ex_used ex_index (heap ex_full).
Proof.
  assert (H : map_Forall (λ _ it, it_flags it = 0 → it_loc it ≠ 0 ∧ item_sig it = 67305985 ∧ item_hash it = 134678021 ∧
    take 8 (it_data it) = ex_key) (heap ex_full)) by (refine (bool_decide_unpack _ _); vm_compute; exact I).
  intros q it Hit Hf. destruct (H q it Hit Hf) as (Hl & Hs & Hh & Hk). split; [done|]. split.
  - unfold job_of. rewrite Hit. unfold gpu_single. cbn [e_sig e_hash]. rewrite Hs, Hh. right. left. by vm_compute.
  - exists ex_key. split; [by left|exact Hk].
Qed.

Lemma ex_version_located : located ex_cfg (slabclass ex_full) (heap ex_full) 1 ex_key (seqZ 9 8).
Proof.
  split; [done|]. destruct (heap ex_full !! (9, 40)) as [it|] eqn:E; [|by vm_compute in E].
  exists (9, 40), it. assert (Hl : it_loc it = 1) by (vm_compute in E; by injection E as <-). split.
  - rewrite <-Hl. apply class_item_gettable; [exact ex_cfg_ok|exact ex_full_wf| |exact E].
    eexists 0, _, 0, 1, 9. split; [lia|]. split; [vm_compute; reflexivity|].
    split; [vm_compute; by split|]. split; [vm_compute; by split|]. by split; vm_compute.
  - split; [exact E|]. split; [exact Hl|]. vm_compute in E. injection E as <-.
    split; try reflexivity. split; simpl; unfold in_range, ETHERNET_MAX_FRAME_LEN; lia.
Qed.

Lemma ex_full_stores :
  stores ex_cfg ex_w HASH_CUCKOO 0 ex_hash_of ex_used ex_index (slabclass ex_full) (heap ex_full) ex_kv.
Proof.
  destruct ex_stores as (m & Hm & Hkv). exists m. split; [exact Hm|]. intros k Hk. specialize (Hkv k Hk).
  unfold ex_kv in *. destruct (decide (k = ex_key)) as [->|Hne].
  - rewrite lookup_insert_eq in *. destruct Hkv as (loc & Hloc & Hl). exists loc. split; [exact Hloc|].
    assert (loc = 1) as ->; [|exact ex_version_located].
    pose proof (find_key 0 ex_w HASH_CUCKOO 0 ex_hash_of ex_used ex_used_keys _ _ _ Hm Hk) as Hf.
    rewrite Hloc in Hf. vm_compute in Hf. congruence.
  - rewrite lookup_insert_ne, lookup_empty in * by done. exact Hkv.
Qed.

Lemma ex_einsert : insert_room ex_cfg 0 ex_sib ex_ebuf ∧ lone_insert ex_cfg 0 ex_sib ex_ebuf.
Proof.
  destruct ex_sroom as [? ? ? ? ? ? ?], ex_lone_insert as [? ? ? ? ?]. by split; split.
Qed.

Definition ex_set_result : result (rstate * job_keys * Z) :=
  process_packet_match (λ _, true) (λ _, 0) ex_cfg 0 quiet 2 1024
    (packet ex_hdr (encode_set ex_other_key ex_value) [0; 0]) 70 ex_estate [].

(** The first key is among the evicted ones. *)
Lemma ex_evicted :
  match ex_set_result with
  | Ok (st', _, _) =>
      match buf (r_batch st') !! Z.to_nat (receiver_buf_id (r_batch st')) with
      | Some bf => bool_decide (1 ∈ (e_loc <$> gpu_deletes ex_cfg bf))
      | None => false
      end
  | Err _ => false
  end = true.
Proof. vm_compute. reflexivity. Qed.

Lemma ex_kv_without ds : 1 ∈ (e_loc <$> ds) → without_evicted ex_w ex_index ds ex_kv = ∅.
Proof.
  intros H. apply map_eq. intros k. rewrite lookup_empty. apply map_lookup_filter_None_2.
  destruct (decide (k = ex_key)) as [->|Hne].
  - right. intros v _. change (gpu_find ex_w ex_index (elem_of_key (ex_key, v).1)) with
      (gpu_find ex_w ex_index (elem_of_key ex_key)).
    replace (gpu_find ex_w ex_index (elem_of_key ex_key)) with 1 by (vm_compute; reflexivity). tauto.
  - left. unfold ex_kv. by rewrite lookup_insert_ne, lookup_empty.
Qed.

Lemma evicting_set_updates_map_witness :
  ∃ st' bf' t' c' bufs', ex_set_result = Ok (st', [], 1) ∧
    gpu_cycle ex_cfg HASH_CUCKOO (win ex_w) 1 ex_index (Counters 0 0 0 0) [bf'] = Ok (t', c', bufs') ∧
    stores ex_cfg ex_w HASH_CUCKOO 0 ex_hash_of ex_used t' (slabclass (r_slabs st')) (heap (r_slabs st'))
      {[ex_other_key := ex_value]}.
Proof.
  destruct (evicting_set_updates_map ex_cfg 0 ex_w HASH_CUCKOO 0 ex_hash_of ex_used ex_used_keys (λ _, true) (λ _, 0) 0 1023
    ex_hdr ex_other_key ex_value [0; 0] 70 ex_estate [] 0 0 ex_full_class ex_ebuf ex_sib ex_index ex_kv (Counters 0 0 0 0) [] [])
    as (v & bm & _ & [[H _]|(st' & bf' & t' & c' & bufs' & Hset & Hcur & Hcyc & Hst)]).
  - exact ex_full_stores.
  - exact ex_hold.
  - by right.
  - reflexivity.
  - reflexivity.
  - reflexivity.
  - reflexivity.
  - lia.
  - reflexivity.
  - exact ex_full_ready.
  - exact ex_full_find.
  - exact (proj1 ex_einsert).
  - exact (proj2 ex_einsert).
  - exact ex_gpu_ok_small.
  - left. right. exists 0. split; [lia|vm_compute; reflexivity].
  - by split_and!; vm_compute.
  - constructor; [|constructor]. split; simpl; lia.
  - constructor.
  - constructor.
  - pose proof ex_evicted as E. unfold ex_set_result in E. rewrite H in E. discriminate E.
  - exists st', bf', t', c', bufs'. split; [exact Hset|]. split; [exact Hcyc|].
    pose proof ex_evicted as E. unfold ex_set_result in E. rewrite Hset, (proj2 Hcur) in E.
    apply bool_decide_eq_true_1 in E. rewrite (ex_kv_without _ E) in Hst. exact Hst.
Defined.
