(* ===== verification/Server.v ===== *)
(** * The server: all threads on one state

    [Rotation] moves the buffers, [Scheduler] runs the kernels on them, [Receiver]
    and [Items] fill them.  This file puts the threads together: the Scheduler
    with its GPU cycle, one Sender and one Receiver per worker, on the shared
    batches and the index.  A step of a Receiver is a read of [receiver_buf_id] or
    the code between two reads, for the three kinds of jobs; in particular a
    Receiver may still be writing to a buffer the Scheduler has taken meanwhile,
    and it takes its job back when it notices.  A Sender that sends the replies counts the
    jobs of its buffer down ([SvSend]); the loops of the threads as they are
    written are in [SchedulerMain], [SenderMain] and [ReceiverMain]. *)

From S2P Require Import Prelude GpuHash Config Slabs Batch Rotation Items Packet Receiver Sender.
From S2P Require Import Index Scheduler.

(** ** The Receivers (mega_recv.c, items.c) *)

(** A job on its way into the current buffer. *)
Inductive rjob :=
  | JSearch (compact : bool) (cl : client_t) (sig : Z)
  | JInsert (p : ptr) (it : item) (sig : Z)
  | JDelete (it : item).

(** What has to be taken back when the buffer was switched. *)
Inductive rundo := UCompact (c0 : Z) | UPlain | UInsert (blk : Z) | UNone.

Inductive recv_pc :=
  | RIdle                                  (** between two jobs *)
  | RTry (j : rjob)                        (** at [again], [reinsert] *)
  | RRead (j : rjob) (id : Z)              (** has read [receiver_buf_id] *)
  | RAdded (j : rjob) (id : Z) (u : rundo).  (** has stored the job *)

Section server.
Context (cfg : mega_config_t) (kind : hash_kind) (w : winner_t) (fuel : nat) (d : Z).

(** The code between the two reads.  [None]: the Receiver leaves the job. *)
Definition search_body (compact : bool) (cl : client_t) (sig : Z) (bf : mega_batch_buf_t)
    : result (mega_batch_buf_t * option rundo) :=
  if u32 (batch_max_search_job cfg - 1) <=? u32 (num_search_job bf) then Ok (bf, None)
  else
    bf' ← (if compact then search_compact cl sig bf else search_plain cl sig bf);
    Ok (bf', Some (if compact then UCompact (num_compact_search_job bf) else UPlain)).

Definition insert_body (p : ptr) (it : item) (sig : Z) (bf : mega_batch_buf_t)
    : result (mega_batch_buf_t * option rundo) :=
  let e := key_elem sig in
  let blk := insert_block_id cfg (s_hash e) in
  if u32 (Z.shiftl (batch_max_insert_job cfg - 1) (bits_insert_buf cfg)) <=? u32 (num_insert_job bf)
  then Ok (bf, None)
  else
    ib ← arr_get (insert_buf bf) blk;
    if batch_max_insert_job cfg <=? u32 (bi_num_insert_job ib + 1) then Ok (bf, None)
    else bf ← insert_job cfg blk p it (s_sig e) (s_hash e) bf; Ok (bf, Some (UInsert blk)).

Definition delete_body (it : item) (bf : mega_batch_buf_t)
    : result (mega_batch_buf_t * option rundo) :=
  if batch_max_delete_job cfg <=? u32 (num_delete_job bf) then Ok (bf, None)
  else
    l ← arr_set (delete_in bf) (num_delete_job bf) (Ielem (item_sig it) (item_hash it) (it_loc it));
    if batch_max_delete_job cfg <=? u32 (num_delete_job bf + 1)
    then Ok (set_deletes bf l (num_delete_job bf), None)
    else
      _ ← assert_ (num_delete_job bf + 1 <? batch_max_delete_job cfg);
      Ok (set_deletes bf l (num_delete_job bf + 1), Some UNone).

Definition job_body (j : rjob) : mega_batch_buf_t → result (mega_batch_buf_t * option rundo) :=
  match j with
  | JSearch compact cl sig => search_body compact cl sig
  | JInsert p it sig => insert_body p it sig
  | JDelete it => delete_body it
  end.

Definition job_undo (u : rundo) : mega_batch_buf_t → result mega_batch_buf_t :=
  match u with
  | UCompact c0 => undo_compact c0
  | UPlain => undo_plain
  | UInsert blk => undo_insert blk
  | UNone => λ bf, Ok bf
  end.

(** The delete job that went to the old buffer stays there. *)
Definition take_back (u : rundo) (id : Z) (b : mega_batch_t) : result mega_batch_t :=
  match u with UNone => Ok b | _ => upd_buf b id (job_undo u) end.

Definition recv_worker (b : mega_batch_t) (pc : recv_pc) : result (mega_batch_t * recv_pc) :=
  match pc with
  | RIdle => Ok (b, RIdle)
  | RTry j => Ok (b, RRead j (receiver_buf_id b))
  | RRead j id =>
      bf ← arr_get (buf b) id;
      '(bf, u) ← job_body j bf;
      bufs ← arr_set (buf b) id bf;
      Ok (set_buf b bufs, match u with Some u => RAdded j id u | None => RIdle end)
  | RAdded j id u =>
      if id =? receiver_buf_id b then Ok (b, RIdle)
      else b ← take_back u id b; Ok (b, RTry j)
  end.

(** A job from its first read of [receiver_buf_id] on, by the steps of the
    Receiver, while the others change the batch between the steps: the number of
    reads, the batch, and whether the job is in the batch. *)
Fixpoint drive (env : nat → mega_batch_t → mega_batch_t) (tries : nat) (j : rjob) (n : nat)
    (b : mega_batch_t) : result (nat * mega_batch_t * bool) :=
  match tries with
  | O => Err OutOfFuel
  | S tries =>
      let b := env n b in
      '(b, pc) ← recv_worker b (RRead j (receiver_buf_id b));
      match pc with
      | RAdded _ _ _ =>
          '(b, pc) ← recv_worker (env (S n) b) pc;
          match pc with
          | RIdle => Ok (S (S n), b, true)
          | _ => drive env tries j (S (S n)) b
          end
      | _ => Ok (S n, b, false)
      end
  end.

(** ** The state of the server *)

(** [starts] records the index at the beginning of every cycle so far, the latest
    first; the code has no such variable. *)
Record server := Server {
  sys : system;
  receivers : list recv_pc;
  index : table;
  stats : counters;
  starts : list table;
}.

Definition with_sys (s : server) (y : system) : server :=
  Server y (receivers s) (index s) (stats s) (starts s).

Definition recv_step (i : Z) (s : server) : result server :=
  b ← arr_get (batch_set (sys s)) i;
  pc ← arr_get (receivers s) i;
  '(b, pc) ← recv_worker b pc;
  l ← arr_set (batch_set (sys s)) i b;
  pcs ← arr_set (receivers s) i pc;
  Ok (Server (System l (senders (sys s)) (sched (sys s))) pcs (index s) (stats s) (starts s)).

(** The next job of a Receiver, from the packets. *)
Definition job_step (i : Z) (j : rjob) (s : server) : result server :=
  pc ← arr_get (receivers s) i;
  match pc with
  | RIdle =>
      pcs ← arr_set (receivers s) i (RTry j);
      Ok (Server (sys s) pcs (index s) (stats s) (starts s))
  | _ => Ok s
  end.

(** Sending the replies: the Sender counts the jobs of its buffer down; [jobs] is what
    they are then. *)
Definition set_jobs (jobs : list mega_job_search_t) (bf : mega_batch_buf_t) : mega_batch_buf_t :=
  set_search bf (search_in bf) (num_search_job bf) jobs (num_compact_search_job bf).

Definition send_step (i : Z) (jobs : list mega_job_search_t) (s : server) : result server :=
  b ← arr_get (batch_set (sys s)) i;
  t ← arr_get (senders (sys s)) i;
  match t with
  | TWork =>
      b ← upd_buf b (sender_buf_id b) (λ bf, Ok (set_jobs jobs bf));
      l ← arr_set (batch_set (sys s)) i b;
      Ok (with_sys s (System l (senders (sys s)) (sched (sys s))))
  | _ => Ok s
  end.

(** Buffer [g] of every batch, and the buffers stored back; [cudaMemcpyAsync]
    writes to the [search_out] of the buffer itself. *)
Fixpoint take_bufs (g : Z) (l : list mega_batch_t) : result (list mega_batch_buf_t) :=
  match l with
  | [] => Ok []
  | b :: l => bf ← arr_get (buf b) g; bufs ← take_bufs g l; Ok (bf :: bufs)
  end.

Fixpoint store_bufs (g : Z) (l : list mega_batch_t) (bufs : list mega_batch_buf_t)
    : result (list mega_batch_t) :=
  match l, bufs with
  | b :: l, bf :: bufs =>
      a ← arr_set (buf b) g bf; l ← store_bufs g l bufs; Ok (set_buf b a :: l)
  | l, _ => Ok l
  end.

(** [mega_scheduler], between [mega_gpu_get_batch] and [mega_gpu_give_to_sender]. *)
Definition cycle_step (s : server) : result server :=
  g ← mega_gpu_get_batch_result (sys s);
  bufs ← take_bufs g (batch_set (sys s));
  '(t, c, bufs) ← gpu_cycle cfg kind (win w) (6 + fuel) (index s) (stats s) bufs;
  l ← store_bufs g (batch_set (sys s)) bufs;
  y ← sched_step d (System l (senders (sys s)) (sched (sys s)));
  Ok (Server y (receivers s) t c (index s :: starts s)).

Definition scheduler_step (s : server) : result server :=
  match sched (sys s) with
  | SRun => cycle_step s
  | _ => y ← sched_step d (sys s); Ok (with_sys s y)
  end.

Inductive server_event :=
  | SvSched
  | SvSender (i : Z)
  | SvJob (i : Z) (j : rjob)
  | SvRecv (i : Z)
  | SvSend (i : Z) (jobs : list mega_job_search_t).

Definition do_server (e : server_event) (s : server) : result server :=
  match e with
  | SvSched => scheduler_step s
  | SvSender i => y ← sender_step i (sys s); Ok (with_sys s y)
  | SvJob i j => job_step i j s
  | SvRecv i => recv_step i s
  | SvSend i jobs => send_step i jobs s
  end.

Fixpoint run_server (es : list server_event) (s : server) : result server :=
  match es with [] => Ok s | e :: es => s ← do_server e s; run_server es s end.

(** The Receivers have initialised the batches, nothing was received. *)
Definition server0 (bs : list mega_batch_t) (t : table) : server :=
  Server (system0 bs) (replicate (length bs) RIdle) t (Counters 0 0 0 0) [].

(** ** What the kernels need of the buffers

    [cycle_buf], with room for the results of all searches. *)
Record buf_inv (bf : mega_batch_buf_t) : Prop := {
  bi_cycle : cycle_buf cfg bf;
  bi_insert : 0 ≤ num_insert_job bf < 2 ^ 31;
  bi_room : 2 * Z.of_nat (length (search_in bf)) ≤ Z.of_nat (length (search_out bf)) ∧
    Z.of_nat (length (search_in bf)) < 2 ^ 30;
}.

Record server_cfg_ok : Prop := {
  sc_gpu : gpu_ok cfg;
  sc_insert : u32 (batch_max_insert_job cfg * INSERT_BLOCK) < 2 ^ 31;
}.

Context (Hcfg : server_cfg_ok).

(** Only the searches of a buffer change. *)
Lemma buf_inv_searches bf l n jobs c :
  buf_inv bf → length l = length (search_in bf) → 0 ≤ n ≤ Z.of_nat (length l) →
  buf_inv (set_search bf l n jobs c).
Proof.
  intros [[Hs Hd Hmd Hmi Hi] Hn [Hr1 Hr2]] Hl Hnl. split; simpl; rewrite ?Hl; [|lia..].
  split; simpl; try done. split; simpl; lia.
Qed.

Lemma buf_inv_inserts bf l jobs n ibs :
  buf_inv bf → length l = length (insert_in bf) →
  0 ≤ n < 2 ^ 31 → u32 n ≤ u32 (batch_max_insert_job cfg * INSERT_BLOCK) →
  Forall (λ ib, 0 ≤ bi_insert_in ib ∧ 0 ≤ bi_num_insert_job ib ∧
    bi_insert_in ib + bi_num_insert_job ib ≤ Z.of_nat (length l)) ibs →
  buf_inv (set_insert bf l jobs n ibs).
Proof.
  intros [[Hs Hd Hmd Hmi Hi] Hn Hr] Hl Hn' Hmax Hibs. split; simpl; try done.
Qed.

Lemma dec_clip_range n m : 0 ≤ n ≤ m → 0 ≤ dec_clip n ≤ m.
Proof. intros. unfold dec_clip. cmp_cases. Qed.

Lemma search_body_ok compact cl sig bf bf' u :
  buf_inv bf → search_body compact cl sig bf = Ok (bf', u) → buf_inv bf'.
Proof.
  intros Hbf H. unfold search_body in H. destruct (_ <=? _); [by inv_ok|].
  destruct (cb_search _ _ (bi_cycle _ Hbf)) as [Hn _].
  apply bind_Ok_inv in H as (bf1 & H & [= <- _]). destruct compact.
  - unfold search_compact in H. apply bind_Ok_inv in H as (job & _ & H).
    apply bind_Ok_inv in H as ([jobs c] & _ & H). apply bind_Ok_inv in H as (l & Hl & [= <-]).
    apply arr_set_Ok in Hl as [? ->].
    apply buf_inv_searches; rewrite ?length_insert; try done. lia.
  - unfold search_plain in H. apply bind_Ok_inv in H as (jobs & _ & H).
    apply bind_Ok_inv in H as (l & Hl & [= <-]). apply arr_set_Ok in Hl as [? ->].
    apply buf_inv_searches; rewrite ?length_insert; try done. lia.
Qed.

Lemma insert_body_ok p it sig bf bf' u :
  buf_inv bf → insert_body p it sig bf = Ok (bf', u) → buf_inv bf'.
Proof.
  intros Hbf H. unfold insert_body in H. destruct (_ <=? _); [by inv_ok|].
  apply bind_Ok_inv in H as (ib0 & _ & H). destruct (_ <=? _); [by inv_ok|].
  apply bind_Ok_inv in H as (bf1 & H & [= <- _]). unfold insert_job in H.
  set (e := key_elem sig) in *. set (blk := insert_block_id cfg (s_hash e)) in *.
  apply bind_Ok_inv in H as (ib & [Hblk Hib]%arr_get_Ok & H).
  apply bind_Ok_inv in H as (jobs & _ & H). apply bind_Ok_inv in H as (l & Hl & H).
  apply bind_Ok_inv in H as (ibs & Hibs & H). apply bind_Ok_inv in H as (u1 & _ & H).
  apply bind_Ok_inv in H as (u2 & Hmax%assert_Ok%Z.leb_le & [= <-]).
  apply arr_set_Ok in Hl as [Hl ->]. apply arr_set_Ok in Hibs as [_ ->].
  destruct Hbf as [Hc Hn Hr]. pose proof (cb_insert _ _ Hc) as Hi.
  destruct (Forall_lookup_1 _ _ _ _ Hi Hib) as (H1 & H2 & H3).
  rewrite (wrap_id 32 (num_insert_job bf + 1)) in Hmax by (unfold in_range; lia).
  apply buf_inv_inserts; rewrite ?length_insert; try done.
  - pose proof (sc_insert Hcfg). lia.
  - rewrite wrap_id; [done|unfold in_range; lia].
  - apply Forall_insert; [done|]. simpl. lia.
Qed.

Lemma delete_body_ok it bf bf' u :
  buf_inv bf → delete_body it bf = Ok (bf', u) → buf_inv bf'.
Proof.
  intros Hbf H. unfold delete_body in H. destruct (_ <=? _); [by inv_ok|].
  apply bind_Ok_inv in H as (l & [Hl ->]%arr_set_Ok & H).
  destruct Hbf as [[Hs Hd Hmd Hmi Hi] Hn Hr].
  destruct (Z.leb_spec (batch_max_delete_job cfg) (u32 (num_delete_job bf + 1))) as [Hm|Hm].
  - injection H as <- _. split; simpl; try done. split; simpl; by rewrite ?length_insert.
  - apply bind_Ok_inv in H as (u1 & _ & [= <- _]). split; simpl; try done.
    split; simpl; rewrite ?length_insert; try done. lia.
Qed.

Lemma job_body_ok j bf bf' u : buf_inv bf → job_body j bf = Ok (bf', u) → buf_inv bf'.
Proof.
  intros Hbf H. destruct j; [by eapply search_body_ok|by eapply insert_body_ok|by eapply delete_body_ok].
Qed.

Lemma undo_insert_ok blk bf bf' : buf_inv bf → undo_insert blk bf = Ok bf' → buf_inv bf'.
Proof.
  intros Hbf H. unfold undo_insert in H. apply bind_Ok_inv in H as (ib & [Hblk Hib]%arr_get_Ok & H).
  apply bind_Ok_inv in H as (ibs & Hibs & [= <-]). apply arr_set_Ok in Hibs as [_ ->].
  destruct Hbf as [Hc Hn Hr] eqn:E. pose proof (cb_insert _ _ Hc) as Hi.
  destruct (Forall_lookup_1 _ _ _ _ Hi Hib) as (H1 & H2 & H3).
  pose proof (dec_clip_range (bi_num_insert_job ib) (bi_num_insert_job ib)).
  pose proof (dec_clip_range (num_insert_job bf) (num_insert_job bf)).
  pose proof (cb_max_insert _ _ Hc) as Hmax. rewrite wrap_id in Hmax by (unfold in_range; lia).
  apply buf_inv_inserts; try done; [lia| |].
  - rewrite wrap_id by (unfold in_range; lia). lia.
  - apply Forall_insert; [exact Hi|]. simpl. lia.
Qed.

Lemma job_undo_ok uu bf bf' : buf_inv bf → job_undo uu bf = Ok bf' → buf_inv bf'.
Proof.
  intros Hbf H. destruct (cb_search _ _ (bi_cycle _ Hbf)) as [Hn _]. destruct uu as [c0| |blk|]; simpl in H.
  - unfold undo_compact in H. apply bind_Ok_inv in H as (job & _ & H).
    apply bind_Ok_inv in H as (jobs & _ & [= <-]).
    apply buf_inv_searches; try done. by apply dec_clip_range.
  - injection H as <-. apply buf_inv_searches; try done. by apply dec_clip_range.
  - by eapply undo_insert_ok.
  - by injection H as <-.
Qed.

Lemma take_back_upd u id b b' :
  take_back u id b = Ok b' → b' = b ∨ upd_buf b id (job_undo u) = Ok b'.
Proof. destruct u; simpl; auto. intros [= ->]. by left. Qed.

(** A job that is taken back takes no other search's answer with it. *)
Lemma job_undo_answers t uu bf bf' :
  job_undo uu bf = Ok bf' → answers w t bf → 0 ≤ num_search_job bf → answers w t bf'.
Proof.
  intros H Ha Hn. pose proof (dec_clip_range (num_search_job bf) (num_search_job bf)).
  destruct uu as [c0| |blk|]; simpl in H.
  - unfold undo_compact in H. apply bind_Ok_inv in H as (job & _ & H).
    apply bind_Ok_inv in H as (jobs & _ & [= <-]). intros i x Hi Hx. apply Ha; simpl in *; [lia|done].
  - injection H as <-. intros i x Hi Hx. apply Ha; simpl in *; [lia|done].
  - unfold undo_insert in H. apply bind_Ok_inv in H as (ib & _ & H).
    apply bind_Ok_inv in H as (ibs & _ & [= <-]). exact Ha.
  - by injection H as <-.
Qed.

Lemma refresh_buf_inv bf dl : buf_inv bf → buf_inv (mega_sender_refresh_buffer bf dl).
Proof.
  intros [[Hs Hd Hmd Hmi Hi] Hn Hr]. unfold mega_sender_refresh_buffer.
  split; simpl; [|by destruct (dl =? 0)|done].
  assert (0 ≤ u32 (num_delete_job bf)) by (apply Z.mod_pos_bound; lia).
  assert (0 ≤ u32 (batch_max_insert_job cfg * INSERT_BLOCK)) by (apply Z.mod_pos_bound; lia).
  split; simpl; try (destruct (dl =? 0); simpl; done || lia).
  - split; simpl; lia.
  - destruct (dl =? 0); [change (u32 0) with 0; lia|done].
  - destruct (dl =? 0); [|done]. apply Forall_fmap. eapply Forall_impl; [exact Hi|].
    intros ib (? & ? & ?). simpl. lia.
Qed.

Lemma searched_buf_inv t bf : buf_inv bf → buf_inv (searched_buf (win w) t bf).
Proof.
  intros [Hc Hn [Hr1 Hr2]]. pose proof (searched_cycle_buf cfg (win w) t bf Hc) as Hc'.
  split; [done|..]; unfold searched_buf in *; destruct (_ =? 0); try done.
  simpl. destruct (cb_search _ _ Hc) as [H1 H2]. rewrite write_run_length; [done|].
  rewrite length_words. unfold hash_search. rewrite length_fmap, length_take. lia.
Qed.

(** ** The answers a worker's buffers hold *)

(** The searches of buffer [id] have the answers of the [k]th last cycle. *)
Definition id_answers (k : nat) (ss : list table) (b : mega_batch_t) (id : Z) : Prop :=
  ∃ t bf, ss !! k = Some t ∧ buf b !! Z.to_nat id = Some bf ∧ answers w t bf.

(** The cycle the Sender's buffer was in: the last one, or the one before while the
    Scheduler still holds the buffer of the last one. *)
Definition sender_cycle (p : bool) (b : mega_batch_t) : nat :=
  if p && negb (gpu_buf_id b =? -1) && negb (gpu_buf_id b =? sender_buf_id b) then 1 else 0.

Record worker_answers (p : bool) (ss : list table) (b : mega_batch_t) (t : sender_pc) : Prop := {
  wa_gpu : p = true → gpu_buf_id b ≠ -1 → id_answers 0 ss b (gpu_buf_id b);
  wa_sender : sender_buf_id b ≠ -1 → t ≠ TGiven →
    id_answers (sender_cycle p b) ss b (sender_buf_id b);
}.

Lemma worker_answers_change r pc ss b t :
  worker_inv r b t (phase_of pc (pc_index pc)) → worker_answers (cycle_done pc) ss b t →
  worker_answers (cycle_done pc) ss (sched_change d pc b) t.
Proof.
  intros Hinv [Hg Hs]. pose proof (cur_range r).
  destruct pc as [i|i id|i id| |i|i|i]; simpl in *; try (by split).
  - unfold mega_gpu_get_available_buf_id. destruct (available_buf_id b). by split.
  - rewrite Z.ltb_irrefl, Z.eqb_refl in Hinv. inversion Hinv as [| | | |Hr Hgb| |]; subst.
    split; [done|]. intros _ _. simpl. unfold sender_cycle. simpl.
    rewrite Z.eqb_refl, andb_false_r. apply Hg; [done|lia].
  - rewrite Z.ltb_irrefl, Z.eqb_refl in Hinv. inversion Hinv as [| | | | |Hr Hgb Hside|]; subst.
    split; [done|]. intros Hne Ht. specialize (Hs Hne Ht). simpl in *. unfold sender_cycle in *.
    assert (sender_buf_id b = cur r) as Hsb by (by destruct Hside).
    rewrite Hgb, Hsb, Z.eqb_refl, andb_false_r in Hs. rewrite Hsb. exact Hs.
Qed.

(** Replacing one buffer. *)
Lemma worker_answers_upd r ph p ss b t id bf bf' :
  worker_inv r b t ph → 0 ≤ id → buf b !! Z.to_nat id = Some bf →
  (p = true ∧ gpu_buf_id b = id ∨ t ≠ TGiven ∧ sender_buf_id b = id →
    ∀ x, answers w x bf → answers w x bf') →
  worker_answers p ss b t → worker_answers p ss (set_buf b (<[Z.to_nat id := bf']> (buf b))) t.
Proof.
  intros Hinv Hid Hbf Himp [Hg Hs]. destruct (worker_inv_range _ _ _ _ Hinv) as (Hgr & Hsr & _).
  assert (Hupd : ∀ k a, 0 ≤ a → (a = id → ∀ x, answers w x bf → answers w x bf') →
    id_answers k ss b a → id_answers k ss (set_buf b (<[Z.to_nat id := bf']> (buf b))) a).
  { intros k a Ha Hx (x & bfa & Hk & Hb & Hans). destruct (decide (a = id)) as [->|Hne].
    - rewrite Hbf in Hb. injection Hb as <-. exists x, bf'. simpl.
      rewrite list_lookup_insert_eq by (by eapply lookup_lt_Some). split_and!; auto.
    - exists x, bfa. simpl. by rewrite list_lookup_insert_ne by lia. }
  split; simpl.
  - intros Hp Hne. apply Hupd; auto; lia.
  - intros Hne Ht. apply Hupd; auto; lia.
Qed.

Lemma give_available_eq b b' :
  give_available b = Ok b' → ∃ bf, 0 ≤ sender_buf_id b ∧
    buf b !! Z.to_nat (sender_buf_id b) = Some bf ∧ gpu_buf_id b' = gpu_buf_id b ∧
    buf b' = <[Z.to_nat (sender_buf_id b) := mega_sender_refresh_buffer bf (delay b)]> (buf b).
Proof.
  intros H. unfold give_available in H. apply bind_Ok_inv in H as (bf & [H0 Hbf]%arr_get_Ok & H).
  apply bind_Ok_inv in H as (bufs & [_ ->]%arr_set_Ok & H). exists bf.
  destruct (available_buf_id _) as [a0 a1]. repeat case_match; by simplify_eq.
Qed.

Lemma sender_worker_answers r ph p ss b t b' t' :
  worker_inv r b t ph → sender_worker b t = Ok (b', t') →
  worker_answers p ss b t → worker_answers p ss b' t'.
Proof.
  intros Hinv H Ha. destruct t; simpl in H.
  - injection H as <- <-. destruct Ha as [Hg Hs]. split; [done|]. intros Hne _. by apply Hs.
  - apply bind_Ok_inv in H as (b1 & H & [= <- <-]).
    destruct (give_available_eq _ _ H) as (bf & H0 & Hbf & Hg' & Hb').
    split; [|done]. rewrite Hg'. intros Hp Hne.
    destruct Ha as [Hg _]. specialize (Hg Hp Hne). destruct Hg as (x & bfg & Hk & Hbg & Hans).
    destruct (worker_inv_range _ _ _ _ Hinv) as (Hgr & _).
    destruct (decide (gpu_buf_id b = sender_buf_id b)) as [Heq|Hneq].
    + exists x, (mega_sender_refresh_buffer bf (delay b)). rewrite Hb', Heq.
      rewrite list_lookup_insert_eq by (by eapply lookup_lt_Some). split_and!; try done.
      intros i y Hi. simpl in Hi. lia.
    + exists x, bfg. rewrite Hb', list_lookup_insert_ne by lia. done.
  - injection H as <- <-. destruct Ha as [Hg Hs]. split; [done|]. done.
Qed.

(** A step of a Receiver that is in time. *)
Definition in_time (b : mega_batch_t) (pc : recv_pc) : Prop :=
  match pc with RRead _ id => id = receiver_buf_id b | _ => True end.

Lemma recv_worker_answers r pc j p ss b t b' pc' rp :
  worker_inv r b t (phase_of pc j) → p = cycle_done pc → in_time b rp →
  Forall buf_inv (buf b) → recv_worker b rp = Ok (b', pc') →
  worker_answers p ss b t → worker_answers p ss b' t.
Proof.
  intros Hinv Hp Htime Hb H Ha. destruct rp as [|jb|jb id|jb id u]; simpl in H; [by inv_ok..| |].
  - apply bind_Ok_inv in H as (bf & [H0 Hbf]%arr_get_Ok & H).
    apply bind_Ok_inv in H as ([bf' u] & _ & H).
    apply bind_Ok_inv in H as (bufs & [_ ->]%arr_set_Ok & [= <- _]).
    eapply worker_answers_upd; [done..| |done]. simpl in Htime. subst id p.
    destruct (worker_inv_range _ _ _ _ Hinv) as (_ & _ & _ & Hne).
    intros [[Hp Hg]|[_ Hs]]; [|done]. by apply (worker_inv_done _ _ _ _ _ Hinv Hp) in Hg.
  - destruct (_ =? _); [by inv_ok|]. apply bind_Ok_inv in H as (b1 & H & [= <- _]).
    apply take_back_upd in H as [->|H]; [done|]. unfold upd_buf in H. apply bind_Ok_inv in H as (bf & [H0 Hbf]%arr_get_Ok & H).
    apply bind_Ok_inv in H as (bf' & Hu & H). apply bind_Ok_inv in H as (bufs & [_ ->]%arr_set_Ok & [= <-]).
    eapply worker_answers_upd; [done..| |done]. intros _ x Hx. eapply job_undo_answers; [done..|].
    apply (cb_search cfg), (bi_cycle bf). by eapply Forall_lookup_1.
Qed.

(** ** The invariant of the server *)

Record server_inv (timely : bool) (n r : Z) (s : server) : Prop := {
  sv_sys : system_inv n r (sys s);
  sv_recv : Z.of_nat (length (receivers s)) = n;
  sv_index : table_shape (index s);
  sv_stats : counters_ok (stats s);
  sv_bufs : Forall (λ b, Forall buf_inv (buf b)) (batch_set (sys s));
  sv_answers : timely = true → ∀ i b t, batch_set (sys s) !! i = Some b →
    senders (sys s) !! i = Some t →
    worker_answers (cycle_done (sched (sys s))) (starts s) b t;
}.

(** *** The steps of the workers *)

Lemma set_buf_id b : set_buf b (buf b) = b.
Proof. by destruct b. Qed.

Lemma recv_worker_ok b rp b' rp' :
  Forall buf_inv (buf b) → recv_worker b rp = Ok (b', rp') →
  same_control b b' ∧ Forall buf_inv (buf b').
Proof.
  intros Hb H.
  assert (Hsame : same_control b b) by (exists (buf b); by rewrite set_buf_id).
  destruct rp as [|jb|jb id|jb id u]; simpl in H; [by inv_ok..| |].
  - apply bind_Ok_inv in H as (bf & [H0 Hbf]%arr_get_Ok & H).
    apply bind_Ok_inv in H as ([bf' u] & Hjob & H).
    apply bind_Ok_inv in H as (bufs & [_ ->]%arr_set_Ok & [= <- <-]).
    split; [eexists; by rewrite length_insert|].
    apply Forall_insert; [done|]. eapply job_body_ok; [by eapply Forall_lookup_1|done].
  - destruct (_ =? _); [by inv_ok|]. apply bind_Ok_inv in H as (b1 & H & [= <- <-]).
    apply take_back_upd in H as [->|H]; [done|]. unfold upd_buf in H. apply bind_Ok_inv in H as (bf & [H0 Hbf]%arr_get_Ok & H).
    apply bind_Ok_inv in H as (bf' & Hu & H). apply bind_Ok_inv in H as (bufs & [_ ->]%arr_set_Ok & [= <-]).
    split; [eexists; by rewrite length_insert|].
    apply Forall_insert; [done|]. eapply job_undo_ok; [by eapply Forall_lookup_1|done].
Qed.

Lemma sender_worker_bufs b t b' t' :
  sender_worker b t = Ok (b', t') → Forall buf_inv (buf b) → Forall buf_inv (buf b').
Proof.
  intros H Hb. destruct t; simpl in H; [by injection H as <- _| |by injection H as <- _].
  apply bind_Ok_inv in H as (b1 & H & [= <- _]).
  destruct (give_available_eq _ _ H) as (bf & _ & Hbf & _ & ->).
  apply Forall_insert; [done|]. by eapply refresh_buf_inv, Forall_lookup_1.
Qed.

Lemma lookup_batch n r s i b :
  system_inv n r s → batch_set s !! i = Some b →
  ∃ t, senders s !! i = Some t ∧ worker_inv r b t (phase_of (sched s) (Z.of_nat i)).
Proof.
  intros Hinv Hb. pose proof (lookup_lt_Some _ _ _ Hb) as Hlt.
  destruct (lookup_lt_is_Some_2 (senders s) i) as [t Ht]; [by rewrite (si_senders _ _ _ Hinv)|].
  exists t. split; [done|]. apply (si_worker _ _ _ Hinv (Z.of_nat i)); rewrite ?Nat2Z.id; done || lia.
Qed.

Lemma recv_step_inv timely n r i s s' :
  server_inv timely n r s → recv_step i s = Ok s' →
  (timely = true → ∀ b rp, batch_set (sys s) !! Z.to_nat i = Some b →
    receivers s !! Z.to_nat i = Some rp → in_time b rp) →
  server_inv timely n r s'.
Proof.
  intros [Hsys Hrecv Hidx Hst Hbufs Hans] H Htime. unfold recv_step in H.
  apply bind_Ok_inv in H as (b & [Hi Hb]%arr_get_Ok & H).
  apply bind_Ok_inv in H as (rp & [_ Hrp]%arr_get_Ok & H).
  apply bind_Ok_inv in H as ([b' rp'] & Hw & H).
  apply bind_Ok_inv in H as (l & [_ ->]%arr_set_Ok & H).
  apply bind_Ok_inv in H as (pcs & [_ ->]%arr_set_Ok & [= <-]).
  pose proof (Forall_lookup_1 _ _ _ _ Hbufs Hb) as Hbb.
  destruct (recv_worker_ok b rp b' rp') as (Hsame & Hbb'); [done..|].
  split; simpl; try done.
  - apply system_inv_bufs; [done|]. rewrite <-(list_insert_id _ _ _ Hb) at 1.
    apply Forall2_insert; [|done]. apply Forall_Forall2_diag, Forall_forall.
    intros b0 _. exists (buf b0). by rewrite set_buf_id.
  - by rewrite length_insert.
  - by apply Forall_insert.
  - intros Ht j bj t Hbj Htj. destruct (decide (j = Z.to_nat i)) as [->|Hne].
    2:{ rewrite list_lookup_insert_ne in Hbj by done. by eapply Hans. }
    rewrite list_lookup_insert_eq in Hbj by (by eapply lookup_lt_Some). injection Hbj as <-.
    destruct (lookup_batch _ _ _ _ _ Hsys Hb) as (t' & Ht' & Hinv).
    rewrite Htj in Ht'. injection Ht' as <-.
    eapply recv_worker_answers; [exact Hinv|done|by apply Htime|exact Hbb|exact Hw|by eapply Hans].
Qed.

Lemma sender_step_inv timely n r i s :
  server_inv timely n r s → 0 ≤ i < n →
  ∃ y, sender_step i (sys s) = Ok y ∧ server_inv timely n r (with_sys s y).
Proof.
  intros [Hsys Hrecv Hidx Hst Hbufs Hans] Hi.
  destruct (sender_step_ok n r i _ Hsys Hi) as (y & H & Hy & Hpc). exists y. split; [done|].
  unfold sender_step in H. apply bind_Ok_inv in H as (b & [_ Hb]%arr_get_Ok & H).
  apply bind_Ok_inv in H as (t & [_ Ht]%arr_get_Ok & H).
  apply bind_Ok_inv in H as ([b' t'] & Hw & H).
  apply bind_Ok_inv in H as (l & [_ ->]%arr_set_Ok & H).
  apply bind_Ok_inv in H as (ts & [_ ->]%arr_set_Ok & [= <-]).
  split; simpl in *; try done.
  - apply Forall_insert; [done|]. eapply sender_worker_bufs; [done|exact (Forall_lookup_1 _ _ _ _ Hbufs Hb)].
  - intros Htm j bj tj Hbj Htj. destruct (decide (j = Z.to_nat i)) as [->|Hne].
    2:{ rewrite list_lookup_insert_ne in Hbj by done. rewrite list_lookup_insert_ne in Htj by done.
      by eapply Hans. }
    rewrite list_lookup_insert_eq in Hbj by (by eapply lookup_lt_Some).
    rewrite list_lookup_insert_eq in Htj by (by eapply lookup_lt_Some).
    injection Hbj as <-. injection Htj as <-.
    destruct (lookup_batch _ _ _ _ _ Hsys Hb) as (t2 & Ht2 & Hinv).
    rewrite Ht in Ht2. injection Ht2 as <-.
    eapply sender_worker_answers; [exact Hinv|exact Hw|by eapply Hans].
Qed.

Lemma job_step_inv timely n r i j s s' :
  server_inv timely n r s → job_step i j s = Ok s' → server_inv timely n r s'.
Proof.
  intros Hs H. unfold job_step in H. apply bind_Ok_inv in H as (rp & _ & H).
  destruct rp; try (by injection H as <-). apply bind_Ok_inv in H as (pcs & [_ ->]%arr_set_Ok & [= <-]).
  destruct Hs as [Hsys Hrecv Hidx Hst Hbufs Hans]. split; simpl; try done.
  by rewrite length_insert.
Qed.

Lemma send_step_inv timely n r i jobs s s' :
  server_inv timely n r s → send_step i jobs s = Ok s' → server_inv timely n r s'.
Proof.
  intros Hs H. unfold send_step in H. apply bind_Ok_inv in H as (b & [Hi Hb]%arr_get_Ok & H).
  apply bind_Ok_inv in H as (t & [_ Ht]%arr_get_Ok & H). destruct t; try (by injection H as <-).
  apply bind_Ok_inv in H as (b' & H1 & H). apply bind_Ok_inv in H as (l & [_ ->]%arr_set_Ok & [= <-]).
  unfold upd_buf in H1. apply bind_Ok_inv in H1 as (bf & [H0 Hbf]%arr_get_Ok & H1).
  rewrite bind_Ok in H1. apply bind_Ok_inv in H1 as (bufs & [_ ->]%arr_set_Ok & [= <-]).
  destruct Hs as [Hsys Hrecv Hidx Hst Hbufs Hans].
  pose proof (Forall_lookup_1 _ _ _ _ Hbufs Hb) as Hbb. simpl in Hbb.
  pose proof (Forall_lookup_1 _ _ _ _ Hbb Hbf) as Hbi.
  destruct (cb_search _ _ (bi_cycle _ Hbi)) as [Hn _].
  split; simpl; try done.
  - apply system_inv_bufs; [by destruct (sys s)|]. rewrite <-(list_insert_id _ _ _ Hb) at 1.
    apply Forall2_insert; [|eexists; split; [done|by rewrite length_insert]].
    apply Forall_Forall2_diag, Forall_forall. intros b0 _. exists (buf b0). by rewrite set_buf_id.
  - apply Forall_insert; [done|]. simpl. apply Forall_insert; [done|]. by apply buf_inv_searches.
  - intros Htm j bj tj Hbj Htj. destruct (decide (j = Z.to_nat i)) as [->|Hne].
    2:{ rewrite list_lookup_insert_ne in Hbj by done. by eapply Hans. }
    rewrite list_lookup_insert_eq in Hbj by (by eapply lookup_lt_Some). injection Hbj as <-.
    destruct (lookup_batch _ _ _ _ _ Hsys Hb) as (t' & Ht' & Hinv).
    rewrite Htj in Ht'. injection Ht' as <-.
    eapply worker_answers_upd; [exact Hinv|done|exact Hbf| |by eapply Hans]. intros _ x Hx. exact Hx.
Qed.

(** *** The steps of the Scheduler *)

Lemma sched_change_buf pc b : buf (sched_change d pc b) = buf b.
Proof.
  destruct pc; simpl; try done. unfold mega_gpu_get_available_buf_id. by destruct (available_buf_id b).
Qed.


Lemma worker_answers_next r b t ss :
  worker_inv r b t After → worker_answers true ss b t → worker_answers false ss b t.
Proof.
  intros Hinv [_ Hs]. split; [done|]. intros Hne Ht. specialize (Hs Hne Ht).
  inversion Hinv as [| | | | | |Hr Hg Hside]; subst. unfold sender_cycle in *.
  by rewrite Hg in Hs.
Qed.

Lemma move_step_inv timely n r r' s y :
  server_inv timely n r s → sched_step d (sys s) = Ok y → system_inv n r' y → sched (sys s) ≠ SRun →
  server_inv timely n r' (with_sys s y).
Proof.
  intros [Hsys Hrecv Hidx Hst Hbufs Hans] H Hy Hpc.
  destruct (sched_step_effect _ _ _ _ _ Hsys Hpc H) as [->|Hb Ht Hmove|i b Hi Hidx' Hb Hl Ht Hdone].
  - by split.
  - split; simpl; try done; [by rewrite Hb|]. intros Htm j bj tj. rewrite Hb, Ht. intros Hbj Htj.
    specialize (Hans Htm j bj tj Hbj Htj). destruct (lookup_batch _ _ _ _ _ Hsys Hbj) as (t & Ht' & Hinv).
    rewrite Htj in Ht'. injection Ht' as <-.
    destruct Hmove as [[E1 E2]|[E1 E2]]; rewrite E1 in Hans, Hinv; rewrite E2; [done|].
    simpl in Hinv. rewrite (proj2 (Z.ltb_lt _ _)) in Hinv.
    + by eapply worker_answers_next.
    + pose proof (lookup_lt_Some _ _ _ Hbj). pose proof (si_batches _ _ _ Hsys). lia.
  - split; simpl; try done.
    + rewrite Hl. apply Forall_insert; [done|]. rewrite sched_change_buf.
      exact (Forall_lookup_1 _ _ _ _ Hbufs Hb).
    + intros Htm j bj tj. rewrite Hl, Ht, Hdone. intros Hbj Htj.
      destruct (decide (j = Z.to_nat i)) as [->|Hne].
      2:{ rewrite list_lookup_insert_ne in Hbj by done. by eapply Hans. }
      rewrite list_lookup_insert_eq in Hbj by (by eapply lookup_lt_Some). injection Hbj as <-.
      destruct (lookup_batch _ _ _ _ _ Hsys Hb) as (t & Ht' & Hinv).
      rewrite Htj in Ht'. injection Ht' as <-. rewrite Z2Nat.id in Hinv by lia. rewrite <-Hidx' in Hinv.
      eapply worker_answers_change; [exact Hinv|by eapply Hans].
Qed.

(** *** A cycle *)

Definition cycled (g : Z) (t : table) (b b' : mega_batch_t) : Prop :=
  ∃ bf, buf b !! Z.to_nat g = Some bf ∧
    b' = set_buf b (<[Z.to_nat g := searched_buf (win w) t bf]> (buf b)).

Lemma take_bufs_ok g l :
  0 ≤ g → Forall (λ b, g < Z.of_nat (length (buf b))) l → Forall (λ b, Forall buf_inv (buf b)) l →
  ∃ bufs, take_bufs g l = Ok bufs ∧ Forall buf_inv bufs ∧
    ∀ t, ∃ l', store_bufs g l (searched_buf (win w) t <$> bufs) = Ok l' ∧ Forall2 (cycled g t) l l'.
Proof.
  intros Hg Hl. induction Hl as [|b l Hb _ IH]; intros Hinv.
  { exists []. split; [done|]. split; [done|]. intros t. by exists []. }
  apply Forall_cons in Hinv as [Hbi Hinv]. destruct (IH Hinv) as (bufs & Htake & Hbufs & Hstore).
  destruct (arr_get_in_bounds (buf b) g) as (bf & Hget & Hbf); [lia|].
  exists (bf :: bufs). cbn [take_bufs]. rewrite Hget, bind_Ok, Htake, bind_Ok. split; [done|]. split.
  - constructor; [exact (Forall_lookup_1 _ _ _ _ Hbi Hbf)|done].
  - intros t. destruct (Hstore t) as (l' & Hl' & Hcyc). rewrite fmap_cons. cbn [store_bufs].
    rewrite arr_set_in_bounds, bind_Ok, Hl', bind_Ok by lia.
    eexists. split; [done|]. constructor; [by exists bf|done].
Qed.

Lemma cycled_answers r g t ss b b' sp :
  0 ≤ g → worker_inv r b sp Held → gpu_buf_id b = g → sender_buf_id b ≠ g →
  Forall buf_inv (buf b) → cycled g t b b' →
  worker_answers false ss b sp → worker_answers true (t :: ss) b' sp.
Proof.
  intros Hg Hinv Hgpu Hsnd Hb (bf & Hbf & ->) [_ Hs].
  pose proof (Forall_lookup_1 _ _ _ _ Hb Hbf) as Hbi.
  split; simpl.
  - rewrite Hgpu. intros _ _. exists t, (searched_buf (win w) t bf). simpl.
    rewrite list_lookup_insert_eq by (by eapply lookup_lt_Some). split_and!; [done..|].
    destruct (bi_room _ Hbi). pose proof (cb_search _ _ (bi_cycle _ Hbi)) as Hsr.
    apply searched_answers; [done|]. destruct Hsr. lia.
  - intros Hne Ht. destruct (Hs Hne Ht) as (x & bfs & Hx & Hbs & Ha).
    destruct (worker_inv_range _ _ _ _ Hinv) as (_ & Hsr & _).
    unfold sender_cycle. simpl. rewrite Hgpu, (proj2 (Z.eqb_neq g (-1))), (proj2 (Z.eqb_neq _ _)) by (done || lia).
    exists x, bfs. simpl. rewrite list_lookup_insert_ne by lia. done.
Qed.

Lemma cycle_step_inv timely n r s :
  server_inv timely n r s → sched (sys s) = SRun → 0 < n →
  ∃ s' r', cycle_step s = Ok s' ∧ server_inv timely n r' s'.
Proof.
  intros [Hsys Hrecv Hidx Hst Hbufs Hans] Hpc Hn.
  destruct (run_gpu n r _ Hsys Hpc Hn) as [Hg Hall]. pose proof (cur_range r) as Hcur.
  destruct (take_bufs_ok (cur r) (batch_set (sys s))) as (bufs & Htake & Hbi & Hstore); [lia| |done|].
  { apply Forall_lookup_2. intros i b Hb. destruct (lookup_batch _ _ _ _ _ Hsys Hb) as (t & Ht & _).
    destruct (Hall i b t Hb Ht) as (Hl & _). lia. }
  destruct (gpu_cycle_shape cfg kind (win w) fuel (index s) (stats s) bufs (sc_gpu Hcfg) Hidx Hst)
    as (t' & c' & bufs' & Hcyc & Ht').
  { eapply Forall_impl; [exact Hbi|]. intros bf. apply bi_cycle. }
  pose proof Hcyc as Hspec. apply gpu_cycle_spec in Hspec as [-> Hc']; [|apply Hcfg|done].
  destruct (Hstore (index s)) as (l' & Hl' & Hcycled).
  unfold cycle_step. rewrite Hg, bind_Ok, Htake, bind_Ok, Hcyc, bind_Ok. cbv beta iota.
  rewrite Hl', bind_Ok. unfold sched_step. cbn [sched batch_set]. rewrite Hpc, bind_Ok.
  assert (Hsame : Forall2 same_control (batch_set (sys s)) l').
  { eapply Forall2_impl; [exact Hcycled|]. intros b b' (bf & _ & ->). eexists. split; [done|].
    by rewrite length_insert. }
  pose proof (system_inv_bufs _ _ _ _ Hsys Hsame) as Hsys'. rewrite Hpc in Hsys'.
  destruct (sched_step_ok n r d _ Hsys') as (y & r' & [= <-] & Hy & _); [lia|].
  eexists _, r'. split; [done|]. split; simpl; try done.
  - rewrite Hc'. apply count_ok.
  - apply Forall_lookup_2. intros i b' Hb'.
    destruct (Forall2_lookup_r _ _ _ _ _ Hcycled Hb') as (b & Hb & bf & Hbf & ->). simpl.
    pose proof (Forall_lookup_1 _ _ _ _ Hbufs Hb) as Hbb. simpl in Hbb.
    apply Forall_insert; [done|]. by eapply searched_buf_inv, Forall_lookup_1.
  - intros Htm i b' t Hb' Ht.
    destruct (Forall2_lookup_r _ _ _ _ _ Hcycled Hb') as (b & Hb & Hbc).
    destruct (lookup_batch _ _ _ _ _ Hsys Hb) as (t2 & Ht2 & Hinv). rewrite Ht in Ht2. injection Ht2 as <-.
    rewrite Hpc in Hinv. specialize (Hans Htm i b t Hb Ht). rewrite Hpc in Hans.
    destruct (Hall i b t Hb Ht) as (_ & Hgb & Hsb).
    eapply cycled_answers; [|exact Hinv|exact Hgb|exact Hsb| |exact Hbc|exact Hans]; [lia|].
    exact (Forall_lookup_1 _ _ _ _ Hbufs Hb).
Qed.

(** ** Runs *)

(** No Receiver stores a job in a buffer that was switched since it read
    [receiver_buf_id]. *)
Definition event_in_time (e : server_event) (s : server) : Prop :=
  match e with
  | SvRecv i =>
      match batch_set (sys s) !! Z.to_nat i, receivers s !! Z.to_nat i with
      | Some b, Some rp => in_time b rp
      | _, _ => True
      end
  | _ => True
  end.

#[local] Instance event_in_time_dec e s : Decision (event_in_time e s).
Proof.
  destruct e as [| | |i|]; simpl; try apply _. destruct (_ !! _) as [b|]; [|apply _].
  destruct (_ !! _) as [[]|]; simpl; apply _.
Defined.

Inductive server_step (timely : bool) (s s' : server) : Prop :=
  | server_event_step e : (timely = true → event_in_time e s) →
      do_server e s = Ok s' → server_step timely s s'.

Inductive server_reach (timely : bool) (bs : list mega_batch_t) (t : table) : server → Prop :=
  | server_reach_init : server_reach timely bs t (server0 bs t)
  | server_reach_step s s' : server_reach timely bs t s → server_step timely s s' →
      server_reach timely bs t s'.

Definition server_ready (b : mega_batch_t) : Prop := batch_ready b ∧ Forall buf_inv (buf b).

Lemma server0_inv timely bs t :
  Forall server_ready bs → table_shape t → server_inv timely (Z.of_nat (length bs)) 0 (server0 bs t).
Proof.
  intros Hbs Ht. split; simpl; try done.
  - apply system0_inv. eapply Forall_impl; [exact Hbs|]. by intros b [? _].
  - by rewrite length_replicate.
  - eapply Forall_impl; [exact Hbs|]. by intros b [_ ?].
  - intros _ i b sp Hb _. destruct (Forall_lookup_1 _ _ _ _ Hbs Hb) as [(_ & _ & Hs & _ & Hg) _].
    by split; rewrite ?Hg, ?Hs.
Qed.

Lemma scheduler_step_inv timely n r s :
  server_inv timely n r s → 0 < n →
  ∃ s' r', scheduler_step s = Ok s' ∧ server_inv timely n r' s'.
Proof.
  intros Hs Hn. destruct (decide (sched (sys s) = SRun)) as [Hpc|Hpc].
  - unfold scheduler_step. rewrite Hpc. by eapply cycle_step_inv.
  - destruct (sched_step_ok n r d (sys s)) as (y & r' & Hy & Hinv & _); [apply Hs|lia|].
    exists (with_sys s y), r'. split; [|by eapply move_step_inv].
    unfold scheduler_step. rewrite Hy. by destruct (sched (sys s)).
Qed.

Lemma server_reach_inv timely bs t s :
  Forall server_ready bs → bs ≠ [] → table_shape t → server_reach timely bs t s →
  ∃ r, server_inv timely (Z.of_nat (length bs)) r s.
Proof.
  intros Hbs Hne Ht. assert (0 < Z.of_nat (length bs)) by (destruct bs; [done|simpl; lia]).
  induction 1 as [|s s' Hs [r IH] [e Htime Hstep]]; [exists 0; by apply server0_inv|].
  destruct e as [|i|i j|i|i jobs]; simpl in Hstep.
  - destruct (scheduler_step_inv _ _ _ _ IH) as (s1 & r' & H1 & Hinv); [done|].
    rewrite H1 in Hstep. injection Hstep as <-. by exists r'.
  - apply bind_Ok_inv in Hstep as (y & Hy & [= <-]). exists r.
    assert (0 ≤ i < Z.of_nat (length bs)) as Hi.
    { pose proof Hy as H0. unfold sender_step in H0. apply bind_Ok_inv in H0 as (b & [Hi Hb]%arr_get_Ok & _).
      apply lookup_lt_Some in Hb. pose proof (si_batches _ _ _ (sv_sys _ _ _ _ IH)). lia. }
    destruct (sender_step_inv _ _ _ i _ IH Hi) as (y' & Hy' & Hinv).
    rewrite Hy in Hy'. by injection Hy' as <-.
  - exists r. by eapply job_step_inv.
  - exists r. eapply recv_step_inv; [done|done|]. intros Htm b rp Hb Hrp.
    specialize (Htime Htm). simpl in Htime. by rewrite Hb, Hrp in Htime.
  - exists r. by eapply send_step_inv.
Qed.

Lemma working_sender r b ph : worker_inv r b TWork ph → sender_buf_id b ≠ -1.
Proof.
  intros H. pose proof (cur_range r). pose proof (cur_range (r + 2)).
  assert (Hside : ∀ q a, sender_side q a b TWork → sender_buf_id b = a).
  { intros q a Hs. by inversion Hs. }
  destruct H as [Hr Hg Hs|Hr Hg Hs|Hr Hg Hs|Hr Hg Hs|Hr Hg Hs ? ?|Hr Hg Hs|Hr Hg Hs]; try done;
    rewrite (Hside _ _ Hs); lia.
Qed.

(** The state after a list of events that are in order. *)
Fixpoint run_ok (timely : bool) (es : list server_event) (s : server) : bool :=
  match es with
  | [] => true
  | e :: es =>
      (negb timely || bool_decide (event_in_time e s)) &&
      match do_server e s with Ok s => run_ok timely es s | Err _ => false end
  end.

Lemma run_server_reach timely bs t es s s' :
  server_reach timely bs t s → run_ok timely es s = true → run_server es s = Ok s' →
  server_reach timely bs t s'.
Proof.
  revert s. induction es as [|e es IH]; intros s Hs Hok Hrun; simpl in *; [by injection Hrun as <-|].
  apply andb_prop in Hok as [Htime Hok].
  destruct (do_server e s) as [s1|] eqn:Hstep; [|done].
  rewrite bind_Ok in Hrun. apply (IH s1); [|done|done].
  eapply server_reach_step; [done|]. eapply server_event_step; [|done].
  intros ->. by apply bool_decide_eq_true in Htime.
Qed.

(** What a Sender finds in its buffer. *)
Lemma sees_answers bs t s i b :
  Forall server_ready bs → bs ≠ [] → table_shape t → server_reach true bs t s →
  batch_set (sys s) !! i = Some b → senders (sys s) !! i = Some TWork →
  ∃ t' bf, t' ∈ take 2 (starts s) ∧ buf b !! Z.to_nat (sender_buf_id b) = Some bf ∧
    ∀ k x, 0 ≤ k < num_search_job bf → search_in bf !! Z.to_nat k = Some x →
      result_loc (search_out bf) k = Ok (gpu_find w t' x).
Proof.
  intros Hbs Hne Ht Hs Hb Hsnd. destruct (server_reach_inv _ _ _ _ Hbs Hne Ht Hs) as [r Hinv].
  destruct (lookup_batch _ _ _ _ _ (sv_sys _ _ _ _ Hinv) Hb) as (sp & Hsp & Hw).
  rewrite Hsnd in Hsp. injection Hsp as <-. apply working_sender in Hw.
  destruct (sv_answers _ _ _ _ Hinv eq_refl i b TWork Hb Hsnd) as [_ Ha].
  destruct (Ha Hw) as (t' & bf & Ht' & Hbf & Hans); [done|].
  exists t', bf. split; [|done]. apply (list_elem_of_lookup_2 _ (sender_cycle (cycle_done (sched (sys s))) b)).
  rewrite lookup_take_lt; [done|]. unfold sender_cycle. destruct (_ && _); lia.
Qed.

(** The Receivers' initialisation establishes what the theorems assume. *)
Lemma server_init_ready uninit cs :
  0 ≤ batch_max_search_job cfg < 2 ^ 30 → 0 < batch_max_delete_job cfg →
  0 ≤ batch_max_insert_job cfg → 0 ≤ num_insert_buf cfg →
  server_ready (mega_receiver_batch_init uninit cfg cs).
Proof.
  intros Hs Hd Hi Hn. split; [by split_and!|]. apply Forall_replicate.
  assert (0 ≤ u32 (batch_max_insert_job cfg * INSERT_BLOCK)) by (apply Z.mod_pos_bound; lia).
  split; simpl; rewrite ?length_fmap, ?length_seqZ, ?length_replicate; [|lia..].
  split; simpl; rewrite ?length_fmap, ?length_seqZ, ?length_replicate; try (change (u32 0) with 0; lia).
  - split; simpl; rewrite ?length_fmap, ?length_seqZ, ?length_replicate; lia.
  - apply Forall_fmap, Forall_forall. intros j Hj%elem_of_seqZ. simpl. nia.
Qed.

(** *** The Receiver's loops and its steps *)

Lemma arr_set_same {A} (l : list A) id a : arr_get l id = Ok a → arr_set l id a = Ok l.
Proof.
  intros [H0 Ha]%arr_get_Ok. pose proof (lookup_lt_Some _ _ _ Ha).
  rewrite arr_set_in_bounds by lia. by rewrite list_insert_id.
Qed.

Definition attempts (n n' : nat) : Z := Z.of_nat (n' - n) / 2.

Lemma attempts_again n n' : (S (S n) ≤ n')%nat → attempts n n' = attempts (S (S n)) n' + 1.
Proof.
  intros H. unfold attempts. rewrite <-Z.div_add by lia. f_equal. lia.
Qed.

Lemma attempts_none n : attempts n (S n) = 0.
Proof. unfold attempts. by replace (S n - n)%nat with 1%nat by lia. Qed.

Lemma attempts_one n : attempts n (S (S n)) = 1.
Proof. unfold attempts. by replace (S (S n) - n)%nat with 2%nat by lia. Qed.

Lemma drive_reads env tries j n b n' b' ok : drive env tries j n b = Ok (n', b', ok) → (n ≤ n')%nat.
Proof.
  revert n b. induction tries as [|tries IH]; intros n b H; [done|]. cbn [drive] in H.
  apply bind_Ok_inv in H as ([b1 pc] & _ & H). destruct pc; try (injection H as <- _ _; lia).
  apply bind_Ok_inv in H as ([b2 pc2] & _ & H). destruct pc2; try (injection H as <- _ _; lia);
    apply IH in H; lia.
Qed.

Lemma add_delete_steps env tries n b it :
  add_delete_job cfg env tries n b (loc_offset (it_loc it)) it =
  ('(n, b, ok) ← drive env tries (JDelete it) n b; Ok (n, b, negb ok)).
Proof.
  revert n b. induction tries as [|tries IH]; intros n b; [done|].
  cbn [add_delete_job drive recv_worker]. set (b0 := env n b). cbn [job_body]. unfold delete_body.
  destruct (arr_get (buf b0) (receiver_buf_id b0)) as [bf|] eqn:Hbf; [|done]. rewrite !bind_Ok.
  destruct (_ <=? _). { rewrite bind_Ok, (arr_set_same _ _ _ Hbf), bind_Ok. by rewrite set_buf_id. }
  destruct (arr_set (delete_in bf) _ _) as [l|]; [|done]. rewrite !bind_Ok, Z.eqb_refl. cbn [assert_].
  rewrite !bind_Ok. destruct (_ <=? _).
  { rewrite !bind_Ok. by destruct (arr_set (buf b0) _ _). }
  apply arr_get_Ok in Hbf as [H0 Hbf]. pose proof (lookup_lt_Some _ _ _ Hbf).
  rewrite arr_set_in_bounds, !bind_Ok by lia. destruct (assert_ _); [|done].
  rewrite !bind_Ok, arr_set_in_bounds, !bind_Ok by lia.
  cbn [recv_worker take_back]. destruct (_ =? _); [done|]. cbn [negb]. rewrite !bind_Ok. apply IH.
Qed.

Lemma upd_buf_get b id bf f :
  arr_get (buf b) id = Ok bf →
  upd_buf b id f = (bf ← f bf; Ok (set_buf b (<[Z.to_nat id := bf]> (buf b)))).
Proof.
  intros Hbf. unfold upd_buf. rewrite Hbf, bind_Ok. apply arr_get_Ok in Hbf as [H0 Hbf].
  pose proof (lookup_lt_Some _ _ _ Hbf). destruct (f bf); [|done].
  by rewrite !bind_Ok, arr_set_in_bounds, bind_Ok by lia.
Qed.

Lemma recv_worker_read b j id :
  recv_worker b (RRead j id) =
  (bf ← arr_get (buf b) id;
   '(bf, u) ← job_body j bf;
   Ok (set_buf b (<[Z.to_nat id := bf]> (buf b)), match u with Some u => RAdded j id u | None => RIdle end)).
Proof.
  cbn [recv_worker]. destruct (arr_get (buf b) id) as [bf|] eqn:Hbf; [|done]. rewrite !bind_Ok.
  apply arr_get_Ok in Hbf as [H0 Hbf]. pose proof (lookup_lt_Some _ _ _ Hbf).
  destruct (job_body j bf) as [[bf' u]|]; [|done]. rewrite !bind_Ok. cbv beta iota.
  by rewrite arr_set_in_bounds, bind_Ok by lia.
Qed.

Lemma set_buf_same b id bf :
  arr_get (buf b) id = Ok bf → set_buf b (<[Z.to_nat id := bf]> (buf b)) = b.
Proof. intros [_ Hbf]%arr_get_Ok. rewrite list_insert_id by done. apply set_buf_id. Qed.

Lemma add_search_steps env tries compact st kk cl sig :
  add_search cfg env tries compact st kk cl sig =
  ('(n, b, ok) ← drive env tries (JSearch compact cl sig) (r_reads st) (r_batch st);
   let a := attempts (r_reads st) n in
   Ok (RState n (r_slabs st) b (r_search_jobs st + a) (r_insert_jobs st),
       if (ok : bool) then Some (kk + a) else None)).
Proof.
  revert st kk. induction tries as [|tries IH]; intros st kk; [done|].
  cbn [add_search drive]. set (b0 := env (r_reads st) (r_batch st)).
  rewrite recv_worker_read. cbn [job_body]. unfold search_body.
  destruct (arr_get (buf b0) (receiver_buf_id b0)) as [bf|] eqn:Hbf; [|done]. rewrite !bind_Ok.
  destruct (_ <=? _).
  { rewrite !bind_Ok, (set_buf_same _ _ _ Hbf), attempts_none. by rewrite Z.add_0_r. }
  rewrite (upd_buf_get b0 _ _ _ Hbf).
  replace ((if compact then search_compact cl sig else search_plain cl sig) bf)
    with (if compact then search_compact cl sig bf else search_plain cl sig bf) by (by destruct compact).
  destruct (if compact then search_compact cl sig bf else search_plain cl sig bf) as [bf1|]; [|done].
  rewrite !bind_Ok. set (b1 := set_buf b0 _). cbn [recv_worker]. cbv beta iota.
  change (r_reads (count_search (with_batch st (S (r_reads st)) b0))) with (S (r_reads st)).
  set (b2 := env (S (r_reads st)) b1). destruct (_ =? _).
  { cbn [negb]. rewrite !bind_Ok. by rewrite attempts_one. }
  cbn [negb].
  replace (take_back (if compact then UCompact (num_compact_search_job bf) else UPlain) (receiver_buf_id b0) b2)
    with (upd_buf b2 (receiver_buf_id b0)
      (if compact then undo_compact (num_compact_search_job bf) else undo_plain)) by (by destruct compact).
  destruct (upd_buf b2 _ _) as [b3|]; [|done]. rewrite !bind_Ok. rewrite IH.
  cbn [r_reads r_batch with_batch count_search r_slabs r_search_jobs r_insert_jobs].
  destruct (drive _ _ _ _ _) as [[[n' b'] ok]|] eqn:Hd; [|done]. rewrite !bind_Ok. cbv beta iota zeta.
  apply drive_reads in Hd. rewrite (attempts_again (r_reads st) n') by done.
  f_equal. f_equal; [f_equal; lia|]. destruct ok; [f_equal; lia|done].
Qed.

Lemma add_insert_steps env tries st p it sig :
  let e := key_elem sig in
  add_insert cfg env tries st (insert_block_id cfg (s_hash e)) p it (s_sig e) (s_hash e) =
  ('(n, b, ok) ← drive env tries (JInsert p it sig) (r_reads st) (r_batch st);
   if (ok : bool) then Ok (with_batch st n b, true)
   else st ← clear_flags (with_batch st n b) p; Ok (st, false)).
Proof.
  intros e. revert st. induction tries as [|tries IH]; intros st; [done|].
  cbn [add_insert drive]. set (b0 := env (r_reads st) (r_batch st)).
  rewrite recv_worker_read. cbn [job_body]. unfold insert_body. fold e.
  set (blk := insert_block_id cfg (s_hash e)) in *.
  destruct (arr_get (buf b0) (receiver_buf_id b0)) as [bf|] eqn:Hbf; [|done]. rewrite !bind_Ok.
  destruct (_ <=? _); [by rewrite !bind_Ok, (set_buf_same _ _ _ Hbf)|].
  destruct (arr_get (insert_buf bf) blk) as [ib|]; [|done]. rewrite !bind_Ok.
  destruct (_ <=? _); [by rewrite !bind_Ok, (set_buf_same _ _ _ Hbf)|].
  rewrite (upd_buf_get b0 _ _ _ Hbf). destruct (insert_job _ _ _ _ _ _ _) as [bf1|]; [|done].
  rewrite !bind_Ok. set (b1 := set_buf b0 _). cbn [recv_worker take_back job_undo]. cbv beta iota.
  change (r_reads (with_batch st (S (r_reads st)) b0)) with (S (r_reads st)).
  set (b2 := env (S (r_reads st)) b1). destruct (_ =? _); [by cbn [negb]; rewrite !bind_Ok|].
  cbn [negb]. destruct (upd_buf b2 _ _) as [b3|]; [|done]. rewrite !bind_Ok. apply IH.
Qed.

(** ** Properties *)

(** C11: the server never stops.  Whatever the Receivers store in the buffers and
    whenever they do - also in a buffer the Scheduler has just taken - the Scheduler's
    next step, which may be a whole GPU cycle, and the next step of every Sender
    succeed: no assertion fails, no array is overrun, the kernels end; and the index
    keeps its shape, eight signatures and eight locations in every bucket.  More is not
    kept: two SETs of one key in an interval can fill two slots of a bucket
    ([Units.same_signature_stored_twice]).  The kernels of a cycle run in the order of
    their launches here; [GpuHash.units_keep_types] has the shape, and the end, of every
    unit under any interference of the others. *)
Theorem server_never_stops bs t s :
  Forall server_ready bs → bs ≠ [] → table_shape t → server_reach false bs t s →
  (∃ s', do_server SvSched s = Ok s') ∧
  (∀ i, 0 ≤ i < Z.of_nat (length bs) → ∃ s', do_server (SvSender i) s = Ok s') ∧
  table_shape (index s).
Proof.
  intros Hbs Hne Ht Hs. destruct (server_reach_inv _ _ _ _ Hbs Hne Ht Hs) as [r Hinv]. split_and!.
  - destruct (scheduler_step_inv _ _ _ _ Hinv) as (s' & r' & H & _); [|by exists s'].
    destruct bs; [done|simpl; lia].
  - intros i Hi. destruct (sender_step_inv _ _ _ i _ Hinv Hi) as (y & H & _).
    simpl. rewrite H, bind_Ok. by eexists.
  - apply Hinv.
Qed.

(** C7: a Sender replies with the answers of the index.  When no Receiver is late, a
    Sender that starts to work on a buffer finds in it, for every search that any
    Receiver has put there, the location that the index had for the key at the
    beginning of the cycle of that buffer, which is one of the last two cycles. *)
Theorem sender_sees_answers bs t s i b :
  Forall server_ready bs → bs ≠ [] → table_shape t → server_reach true bs t s →
  batch_set (sys s) !! i = Some b → senders (sys s) !! i = Some TWork →
  ∃ t' bf, t' ∈ take 2 (starts s) ∧ buf b !! Z.to_nat (sender_buf_id b) = Some bf ∧
    ∀ k x, 0 ≤ k < num_search_job bf → search_in bf !! Z.to_nat k = Some x →
      result_loc (search_out bf) k = Ok (gpu_find w t' x).
Proof. apply sees_answers. Qed.

End server.

(** A Receiver that is late: it reads that buffer 0 is current, the Scheduler takes
    the buffer, runs the kernels and gives it to the Sender, and the Sender starts
    before the Receiver goes on, stores its search and, in its next step, would take
    it back. *)
Definition late_run (j : rjob) : list server_event :=
  [SvJob 0 j; SvRecv 0] ++ replicate 7 SvSched ++ [SvSender 0; SvRecv 0].

(** The same job in time. *)
Definition timely_run (j : rjob) : list server_event :=
  [SvJob 0 j; SvRecv 0; SvRecv 0; SvRecv 0] ++ replicate 7 SvSched ++ [SvSender 0].

(** ** The properties at one worker *)

Definition ex_vbuf : mega_batch_buf_t :=
  BatchBuf [Selem 0 0; Selem 0 0] [5; 0; 0; 0] [Ielem 0 0 0] [Ielem 0 0 0]
    (replicate 3 (JobSearch 0 0 0 0 0)) [] 0 0 0 0 [BatchInsert 0 0].
Definition ex_vbatch : mega_batch_t := Batch (replicate 3 ex_vbuf) 0 (-1) (1, 2) (-1) (-1) [] [].
Definition ex_job : rjob := JSearch true (Client 1 2 3) 0x0000000700000007.
Abbreviation ex_run es :=
  (run_server mega_init_config HASH_CUCKOO ex_w 0 0 es (server0 [ex_vbatch] ∅)).

Lemma ex_vready : Forall (server_ready mega_init_config) [ex_vbatch].
Proof.
  constructor; [|constructor]. split; [by split_and!|]. apply (Forall_replicate _ 3).
  split; simpl; [|lia|lia]. split; simpl; try lia; try by vm_compute.
  repeat constructor; simpl; lia.
Qed.

Lemma ex_server_cfg : server_cfg_ok mega_init_config.
Proof. split; [exact ex_gpu_ok|by vm_compute]. Qed.

(** The Sender's buffer has a search whose answer is what was left in the memory. *)
Lemma late_search_unanswered :
  ∃ s b bf, ex_run (late_run ex_job) = Ok s ∧ batch_set (sys s) = [b] ∧
    senders (sys s) = [TWork] ∧ buf b !! Z.to_nat (sender_buf_id b) = Some bf ∧
    num_search_job bf = 1 ∧ search_in bf !! 0%nat = Some (Selem 7 7) ∧
    result_loc (search_out bf) 0 = Ok 5 ∧ ∀ t, t ∈ starts s → gpu_find ex_w t (Selem 7 7) = 0.
Proof.
  eexists _, _, _. split; [vm_compute; reflexivity|]. split; [reflexivity|]. split; [reflexivity|].
  split; [reflexivity|]. split; [reflexivity|]. split; [reflexivity|]. split; [reflexivity|].
  intros t [->|[]%not_elem_of_nil]%elem_of_cons. reflexivity.
Qed.

Definition ex_late : server :=
  match ex_run (late_run ex_job) with Ok s => s | Err _ => server0 [] ∅ end.
Definition ex_timely : server :=
  match ex_run (timely_run ex_job) with Ok s => s | Err _ => server0 [] ∅ end.

Lemma server_never_stops_witness :
  ∃ s', do_server mega_init_config HASH_CUCKOO ex_w 0 0 (SvSender 0) ex_late = Ok s'.
Proof.
  apply (server_never_stops mega_init_config HASH_CUCKOO ex_w 0 0 ex_server_cfg [ex_vbatch] ∅ ex_late
    ex_vready ltac:(done) empty_table_shape); [|done].
  eapply (run_server_reach _ _ _ _ _ _ _ _ (late_run ex_job)); [apply server_reach_init| |vm_compute; reflexivity].
  by vm_compute.
Defined.

Lemma sender_sees_answers_witness :
  ∃ t' bf, t' ∈ take 2 (starts ex_timely) ∧
    (buf <$> batch_set (sys ex_timely)) !! 0%nat ≫= (.!! 0%nat) = Some bf ∧ num_search_job bf = 1 ∧
    result_loc (search_out bf) 0 = Ok (gpu_find ex_w t' (Selem 7 7)).
Proof.
  destruct (batch_set (sys ex_timely)) as [|b l] eqn:Eb; [by vm_compute in Eb|].
  destruct (sender_sees_answers mega_init_config HASH_CUCKOO ex_w 0 0 ex_server_cfg [ex_vbatch] ∅
    ex_timely 0 b ex_vready ltac:(done) empty_table_shape) as (t' & bf & Ht' & Hbf & Hans).
  - eapply (run_server_reach _ _ _ _ _ _ _ _ (timely_run ex_job));
      [apply server_reach_init| |vm_compute; reflexivity].
    by vm_compute.
  - by rewrite Eb.
  - by vm_compute.
  - vm_compute in Eb. injection Eb as <- <-. vm_compute in Hbf. injection Hbf as <-.
    eexists t', _. split; [exact Ht'|]. split; [reflexivity|]. split; [reflexivity|].
    by apply (Hans 0 (Selem 7 7)).
Defined.
