(* ===== verification/SchedulerMain.v ===== *)
(** * The Scheduler's thread (src/src/mega_scheduler.c)

    [mega_scheduler_init] and [mega_scheduler_main] as they are written: the table of
    pointers to the buffers, and the loop that collects the batches, runs the kernels and
    hands the buffers to the Senders, one access to the shared fields after the other.
    Between two accesses the other threads change the state: [env n] is what they do
    before the [n]th access, for any function [env].  [Server] has the same as steps of a
    transition system; the theorem says that the loop never fails and that its states are
    reachable ones, so that what [Server] says about reachable states holds of the code's
    loop. *)

From S2P Require Import Prelude GpuHash Config Slabs Batch Rotation Items Packet Receiver Receive Sender.
From S2P Require Import Index Scheduler Server.

(** ** mega_scheduler_init *)

(** [g->bufs]: the entry [g->bufs[i][j]] points to buffer [i] of batch [j]. *)
Definition bufs_table (cpu_worker_num : Z) : list (list (Z * Z)) :=
  (λ i, (λ j, (j, i)) <$> seqZ 0 cpu_worker_num) <$> seqZ 0 3.

Definition mega_scheduler_init (CPU_AFFINITY : bool) (sched_setaffinity : Z → Z) (core_id : Z)
    (cfg : mega_config_t) : result (list (list (Z * Z))) :=
  _ ← set_affinity CPU_AFFINITY sched_setaffinity core_id;
  Ok (bufs_table (cpu_worker_num cfg)).

(** [buf = g.bufs[gpu_buf_id][id]], in [batch_set]. *)
Definition buf_pointer (tbl : list (list (Z * Z))) (g id : Z) : result (Z * Z) :=
  row ← arr_get tbl g; arr_get row id.
Definition read_buf (l : list mega_batch_t) (p : Z * Z) : result mega_batch_buf_t :=
  b ← arr_get l p.1; arr_get (buf b) p.2.
Definition write_buf (l : list mega_batch_t) (p : Z * Z) (bf : mega_batch_buf_t) : result (list mega_batch_t) :=
  b ← arr_get l p.1; a ← arr_set (buf b) p.2 bf; arr_set l p.1 (set_buf b a).

Fixpoint fetch_bufs (tbl : list (list (Z * Z))) (g : Z) (ids : list Z) (l : list mega_batch_t)
    : result (list mega_batch_buf_t) :=
  match ids with
  | [] => Ok []
  | id :: ids =>
      p ← buf_pointer tbl g id; bf ← read_buf l p; bufs ← fetch_bufs tbl g ids l; Ok (bf :: bufs)
  end.

Fixpoint put_bufs (tbl : list (list (Z * Z))) (g : Z) (ids : list Z) (bufs : list mega_batch_buf_t)
    (l : list mega_batch_t) : result (list mega_batch_t) :=
  match ids, bufs with
  | id :: ids, bf :: bufs =>
      p ← buf_pointer tbl g id; l ← write_buf l p bf; put_bufs tbl g ids bufs l
  | _, _ => Ok l
  end.

(** ** Without USE_LOCK *)

(** [mega_gpu_get_available_buf_id] without [USE_LOCK]: the second slot does not move up. *)
Definition mega_gpu_get_available_buf_id_unlocked (b : mega_batch_t) : result (mega_batch_t * Z) :=
  let '(a0, a1) := available_buf_id b in
  if negb (a0 =? -1) then Ok (set_available b (-1, a1), a0)
  else if negb (a1 =? -1) then Ok (set_available b (a0, -1), a1)
  else Err AssertFail.

(** ** The loop *)

(** What the threads share, with the places of the other threads. *)
Record shared := Shared {
  sh_batches : list mega_batch_t;
  sh_senders : list sender_pc;
  sh_receivers : list recv_pc;
}.

Definition upd_batch {A} (sh : shared) (i : Z) (f : mega_batch_t → result (mega_batch_t * A)) : result (shared * A) :=
  b ← arr_get (sh_batches sh) i;
  '(b, a) ← f b;
  l ← arr_set (sh_batches sh) i b;
  Ok (Shared l (sh_senders sh) (sh_receivers sh), a).

Section scheduler_main.
Context (cfg : mega_config_t) (kind : hash_kind) (w : winner_t) (fuel : nat).
(** The other threads, and how often the Scheduler looks for a Sender's -1. *)
Context (env : nat → shared → shared) (spins : nat).
(** How many cycles have no insertions and deletions, between two that have. *)
Context (NUM_SCHED_INS_DEL : Z).

(** [mega_gpu_get_batch], for the workers [ids]; [n] counts the accesses. *)
Fixpoint mega_gpu_get_batch (ids : list Z) (n : nat) (sh : shared) : result (nat * shared) :=
  match ids with
  | [] => Ok (n, sh)
  | i :: ids =>
      '(sh, available_buf_id) ← upd_batch (env n sh) i (λ b,
        _ ← assert_ (gpu_buf_id b =? -1); Ok (mega_gpu_get_available_buf_id b));
      '(sh, _) ← upd_batch (env (1 + n) sh) i (λ b, Ok (set_gpu b (receiver_buf_id b), ()));
      '(sh, _) ← upd_batch (env (2 + n) sh) i (λ b, Ok (set_receiver b available_buf_id, ()));
      mega_gpu_get_batch ids (3 + n) sh
  end.

(** [while (batch->sender_buf_id != -1)] *)
Fixpoint wait_sender (spins : nat) (i : Z) (n : nat) (sh : shared) : result (nat * shared) :=
  match spins with
  | O => Err OutOfFuel
  | S spins =>
      let sh := env n sh in
      b ← arr_get (sh_batches sh) i;
      if negb (sender_buf_id b =? -1) then wait_sender spins i (S n) sh else Ok (S n, sh)
  end.

Fixpoint mega_gpu_give_to_sender (sched_ins_del : Z) (ids : list Z) (n : nat) (sh : shared)
    : result (nat * shared) :=
  match ids with
  | [] => Ok (n, sh)
  | i :: ids =>
      '(n, sh) ← wait_sender spins i n sh;
      '(sh, _) ← upd_batch sh i (λ b, Ok (set_delay b (delay_of sched_ins_del NUM_SCHED_INS_DEL), ()));
      '(sh, _) ← upd_batch (env n sh) i (λ b, Ok (set_sender b (gpu_buf_id b), ()));
      '(sh, _) ← upd_batch (env (1 + n) sh) i (λ b, Ok (set_gpu b (-1), ()));
      mega_gpu_give_to_sender sched_ins_del ids (2 + n) sh
  end.

(** The kernels of a cycle: searches in every one, deletions and insertions when
    [sched_ins_del] is down to 0. *)
Definition gpu_cycle_period (sched_ins_del : Z) (t : table) (c : counters) (bufs : list mega_batch_buf_t)
    : result (table * counters * list mega_batch_buf_t * Z) :=
  let c := add_batches c (cpu_worker_num cfg) in
  '(c, bufs) ← search_all cfg (win w) t c bufs;
  if (0 <? NUM_SCHED_INS_DEL) && (0 <? sched_ins_del) then Ok (t, c, bufs, sched_ins_del - 1)
  else
    _ ← assert_ (negb (0 <? NUM_SCHED_INS_DEL) || (sched_ins_del =? 0));
    let sched_ins_del := if 0 <? NUM_SCHED_INS_DEL then NUM_SCHED_INS_DEL else sched_ins_del in
    '(c, t) ← update_all (gpu_delete cfg) t c bufs;
    '(c, t) ← update_all (gpu_insert cfg kind (6 + fuel)) t c bufs;
    Ok (t, c, bufs, sched_ins_del).

(** The body of [for (;;)] behind the wait for the time point. *)
Definition scheduler_loop (tbl : list (list (Z * Z))) (n : nat) (sh : shared) (t : table) (c : counters)
    (sched_ins_del : Z) : result (nat * shared * table * counters * Z) :=
  let ids := seqZ 0 (cpu_worker_num cfg) in
  '(n, sh) ← mega_gpu_get_batch ids n sh;
  let sh := env n sh in
  b ← arr_get (sh_batches sh) (cpu_worker_num cfg - 1);
  let gpu_buf_id := gpu_buf_id b in
  bufs ← fetch_bufs tbl gpu_buf_id ids (sh_batches sh);
  '(t, c, bufs, sched_ins_del) ← gpu_cycle_period sched_ins_del t c bufs;
  l ← put_bufs tbl gpu_buf_id ids bufs (sh_batches sh);
  '(n, sh) ← mega_gpu_give_to_sender sched_ins_del ids (S n) (Shared l (sh_senders sh) (sh_receivers sh));
  Ok (n, sh, t, c, sched_ins_del).

Fixpoint scheduler_loops (rounds : nat) (tbl : list (list (Z * Z))) (n : nat) (sh : shared) (t : table)
    (c : counters) (sched_ins_del : Z) : result (nat * shared * table * counters * Z) :=
  match rounds with
  | O => Ok (n, sh, t, c, sched_ins_del)
  | S rounds =>
      '(n, sh, t, c, sched_ins_del) ← scheduler_loop tbl n sh t c sched_ins_del;
      scheduler_loops rounds tbl n sh t c sched_ins_del
  end.

(** The first rounds of the endless loop, from an empty table. *)
Definition mega_scheduler_main (rounds : nat) (CPU_AFFINITY : bool) (sched_setaffinity : Z → Z) (core_id : Z)
    (sh : shared) : result (nat * shared * table * counters * Z) :=
  _ ← assert_ (cpu_worker_num cfg <=? 16);
  tbl ← mega_scheduler_init CPU_AFFINITY sched_setaffinity core_id cfg;
  scheduler_loops rounds tbl 0 sh ∅ (Counters 0 0 0 0) NUM_SCHED_INS_DEL.
End scheduler_main.

(** ** Lemmas: the table of pointers *)

Lemma buf_pointer_eq n g id : 0 ≤ g < 3 → 0 ≤ id < n → buf_pointer (bufs_table n) g id = Ok (id, g).
Proof.
  intros Hg Hid. unfold buf_pointer, bufs_table.
  rewrite (arr_get_lookup _ g ((λ j, (j, g)) <$> seqZ 0 n)), bind_Ok
    by (lia || (rewrite list_lookup_fmap, lookup_seqZ_lt by lia; simpl; by rewrite Z2Nat.id by lia)).
  apply arr_get_lookup; [lia|]. rewrite list_lookup_fmap, lookup_seqZ_lt by lia. simpl. by rewrite Z2Nat.id by lia.
Qed.

(** Through the table the Scheduler reads and writes the buffers [Server] gives it. *)
Lemma fetch_bufs_eq n g l i :
  0 ≤ g < 3 → 0 ≤ i → i ≤ n → n = Z.of_nat (length l) →
  fetch_bufs (bufs_table n) g (seqZ i (n - i)) l = take_bufs g (drop (Z.to_nat i) l).
Proof.
  intros Hg Hi Hle Hn. remember (Z.to_nat (n - i)) as k eqn:Hk. revert i Hi Hle Hk.
  induction k as [|k IH]; intros i Hi Hle Hk.
  { replace i with n by lia. rewrite drop_ge by lia. replace (n - n) with 0 by lia. done. }
  destruct (lookup_lt_is_Some_2 l (Z.to_nat i)) as [b Hb]; [lia|].
  rewrite (drop_S l b) by done. rewrite seqZ_cons by lia. cbn [fetch_bufs take_bufs].
  rewrite buf_pointer_eq, bind_Ok by lia. unfold read_buf. cbn [fst snd].
  rewrite (arr_get_lookup _ _ _ Hi Hb), bind_Ok. destruct (arr_get (buf b) g); [|done].
  rewrite !bind_Ok. replace (Z.pred (n - i)) with (n - Z.succ i) by lia. rewrite IH by lia.
  by replace (Z.to_nat (Z.succ i)) with (S (Z.to_nat i)) by lia.
Qed.

Lemma put_bufs_eq n g bufs l1 l2 i :
  0 ≤ g < 3 → i = Z.of_nat (length l1) → n = Z.of_nat (length (l1 ++ l2)) →
  put_bufs (bufs_table n) g (seqZ i (n - i)) bufs (l1 ++ l2) = (l ← store_bufs g l2 bufs; Ok (l1 ++ l)).
Proof.
  intros Hg. revert bufs l1 i. induction l2 as [|b l2 IH]; intros bufs l1 i -> Hn;
    rewrite length_app in Hn; cbn [length] in Hn.
  { replace (n - Z.of_nat (length l1)) with 0 by lia. cbn. by destruct bufs. }
  rewrite seqZ_cons by lia. destruct bufs as [|bf bufs]; [done|]. cbn [put_bufs store_bufs].
  rewrite buf_pointer_eq, bind_Ok by lia. unfold write_buf. cbn [fst snd].
  rewrite (arr_get_lookup _ _ b), bind_Ok by (lia || rewrite Nat2Z.id; by apply list_lookup_middle).
  destruct (arr_set (buf b) g bf) as [a|]; [|done]. rewrite !bind_Ok.
  rewrite arr_set_in_bounds, bind_Ok by (rewrite length_app; simpl; lia).
  rewrite Nat2Z.id, insert_app_r_alt, Nat.sub_diag by lia. cbn [insert list_insert].
  rewrite (app_assoc l1 [set_buf b a] l2 : l1 ++ set_buf b a :: l2 = _).
  replace (Z.pred (n - Z.of_nat (length l1))) with (n - Z.of_nat (length (l1 ++ [set_buf b a])))
    by (rewrite length_app; simpl; lia).
  replace (Z.succ (Z.of_nat (length l1))) with (Z.of_nat (length (l1 ++ [set_buf b a])))
    by (rewrite length_app; simpl; lia).
  rewrite (IH bufs (l1 ++ [set_buf b a])) by (rewrite !length_app; simpl; lia).
  destruct (store_bufs g l2 bufs); [|done]. rewrite !bind_Ok. by rewrite <-app_assoc.
Qed.

(** With [NUM_SCHED_INS_DEL = 0] every cycle has all kernels. *)
Lemma gpu_cycle_period_0 cfg kind w fuel t c bufs :
  gpu_cycle_period cfg kind w fuel 0 0 t c bufs =
  ('(t, c, bufs) ← gpu_cycle cfg kind (win w) (6 + fuel) t c bufs; Ok (t, c, bufs, 0)).
Proof.
  unfold gpu_cycle_period, gpu_cycle. cbn [Z.ltb Z.compare andb orb negb assert_].
  destruct (search_all _ _ _ _ _) as [[c1 bufs1]|]; [|done]. rewrite !bind_Ok. cbv beta iota zeta.
  destruct (update_all (gpu_delete cfg) _ _ _) as [[c2 t2]|]; [|done]. rewrite !bind_Ok.
  by destruct (update_all (gpu_insert _ _ _) _ _ _) as [[c3 t3]|].
Qed.

(** ** Lemmas: the loop and the steps of the Scheduler *)

Definition shared_of (s : server) : shared := Shared (batch_set (sys s)) (senders (sys s)) (receivers s).
Definition put (s : server) (sh : shared) : server :=
  Server (System (sh_batches sh) (sh_senders sh) (sched (sys s))) (sh_receivers sh) (index s) (stats s) (starts s).

Lemma shared_put s sh : shared_of (put s sh) = sh.
Proof. by destruct sh. Qed.

(** The Scheduler has moved from [s] to [s'] without touching the index. *)
Record moved (s s' : server) (pc : sched_pc) : Prop := {
  mv_sched : sched (sys s') = pc;
  mv_index : index s' = index s;
  mv_stats : stats s' = stats s;
  mv_starts : starts s' = starts s;
}.

Lemma moved_trans s1 s2 s3 pc pc' : moved s1 s2 pc → moved s2 s3 pc' → moved s1 s3 pc'.
Proof. intros [] []. split; congruence. Qed.

Section refinement.
Context (cfg : mega_config_t) (kind : hash_kind) (w : winner_t) (fuel : nat).
Context (env : nat → shared → shared) (spins : nat).
(** [I] is kept by the steps of the Scheduler and by what the others do. *)
Context (I : server → Prop).
Hypothesis I_step : ∀ s, I s → ∃ s', scheduler_step cfg kind w fuel 0 s = Ok s' ∧ I s'.
Hypothesis I_env : ∀ n s, I s → I (put s (env n (shared_of s))).
Hypothesis I_batches : ∀ s, I s → Z.of_nat (length (batch_set (sys s))) = cpu_worker_num cfg ∧
  Forall (λ b, length (buf b) = 3%nat) (batch_set (sys s)).
Hypothesis workers : 0 < cpu_worker_num cfg.
(** Every Sender gives its buffer back while the Scheduler waits for it. *)
Hypothesis senders_return : ∀ n s i, I s → sched (sys s) = SWait i → 0 ≤ i < cpu_worker_num cfg →
  ∃ r, wait_sender env spins i n (shared_of s) = Ok r.

(** The step at [pc] is this update of batch [i]. *)
Definition step_is {A} (pc : sched_pc) (i : Z) (f : mega_batch_t → result (mega_batch_t * A)) (pc' : A → sched_pc) : Prop :=
  ∀ l ts, Z.of_nat (length l) = cpu_worker_num cfg →
    sched_step 0 (System l ts pc) =
    (b ← arr_get l i; '(b, a) ← f b; set_batch (System l ts pc) i b (pc' a)).

(** One access is one step. *)
Lemma access_step {A} s i (f : mega_batch_t → result (mega_batch_t * A)) (pc' : A → sched_pc) :
  I s → sched (sys s) ≠ SRun →
  sched_step 0 (sys s) = (b ← arr_get (batch_set (sys s)) i; '(b, a) ← f b; set_batch (sys s) i b (pc' a)) →
  ∃ s' a, upd_batch (shared_of s) i f = Ok (shared_of s', a) ∧ I s' ∧ moved s s' (pc' a).
Proof.
  intros Hs Hpc Heq. destruct (I_step s Hs) as (s' & Hstep & Hs').
  assert (H : (y ← sched_step 0 (sys s); Ok (with_sys s y)) = Ok s')
    by (unfold scheduler_step in Hstep; by destruct (sched (sys s))).
  destruct s as [[l ts pc] rs t c st]. cbn [sys sched batch_set senders] in *. rewrite Heq in H. clear Heq.
  unfold upd_batch. cbn [shared_of sh_batches sh_senders sh_receivers sys batch_set senders receivers].
  revert H. unfold set_batch. cbn [batch_set senders].
  destruct (arr_get _ i) as [b|]; [|done]. rewrite !bind_Ok.
  destruct (f b) as [[b' a]|]; [|done]. rewrite !bind_Ok.
  destruct (arr_set _ i b') as [l'|]; [|done]. rewrite !bind_Ok. intros [= <-].
  exists (Server (System l' ts (pc' a)) rs t c st), a. by split_and!.
Qed.

(** The same behind what the others do. *)
Lemma access_env {A} n s i pc (f : mega_batch_t → result (mega_batch_t * A)) (pc' : A → sched_pc) :
  step_is pc i f pc' → sched (sys s) = pc → pc ≠ SRun → I s →
  ∃ s' a, upd_batch (env n (shared_of s)) i f = Ok (shared_of s', a) ∧ I s' ∧ moved s s' (pc' a).
Proof.
  intros Heq <- Hpc Hs. rewrite <-(shared_put s (env n (shared_of s))).
  destruct (access_step (put s (env n (shared_of s))) i f pc') as (s' & a & ? & ? & []);
    [by apply I_env|done| |by exists s', a].
  apply Heq. by destruct (I_batches _ (I_env n s Hs)).
Qed.

(** The test that ends a loop. *)
Lemma test_step s pc :
  I s → sched (sys s) ≠ SRun → sched_step 0 (sys s) = Ok (System (batch_set (sys s)) (senders (sys s)) pc) →
  ∃ s', shared_of s' = shared_of s ∧ I s' ∧ moved s s' pc.
Proof.
  intros Hs Hpc Heq. destruct (I_step s Hs) as (s' & Hstep & Hs').
  assert (H : (y ← sched_step 0 (sys s); Ok (with_sys s y)) = Ok s')
    by (unfold scheduler_step in Hstep; by destruct (sched (sys s))).
  rewrite Heq, bind_Ok in H. injection H as <-. by exists (with_sys s (System (batch_set (sys s)) (senders (sys s)) pc)).
Qed.

(** *** mega_gpu_get_batch *)

Lemma get_is i : i < cpu_worker_num cfg →
  step_is (SGet i) i (λ b, _ ← assert_ (gpu_buf_id b =? -1); Ok (mega_gpu_get_available_buf_id b)) (STaken i).
Proof.
  intros Hi l ts Hl. unfold sched_step. cbn [sched batch_set]. rewrite Hl, (proj2 (Z.ltb_lt _ _)) by done.
  destruct (arr_get l i) as [b|]; [|done]. rewrite !bind_Ok. destruct (assert_ _); [|done].
  rewrite !bind_Ok. by destruct (mega_gpu_get_available_buf_id b).
Qed.

Lemma taken_is i id : step_is (STaken i id) i (λ b, Ok (set_gpu b (receiver_buf_id b), ())) (λ _, SSwitch i id).
Proof. by intros l ts _. Qed.
Lemma switch_is i id : step_is (SSwitch i id) i (λ b, Ok (set_receiver b id, ())) (λ _, SGet (i + 1)).
Proof. by intros l ts _. Qed.

Lemma get_batch_steps n s i :
  I s → sched (sys s) = SGet i → 0 ≤ i ≤ cpu_worker_num cfg →
  ∃ n' s', mega_gpu_get_batch env (seqZ i (cpu_worker_num cfg - i)) n (shared_of s) = Ok (n', shared_of s') ∧
    I s' ∧ moved s s' SRun.
Proof.
  intros Hs Hpc Hi. remember (Z.to_nat (cpu_worker_num cfg - i)) as k eqn:Hk.
  revert n s i Hs Hpc Hi Hk. induction k as [|k IH]; intros n s i Hs Hpc Hi Hk.
  { replace i with (cpu_worker_num cfg) in * by lia. rewrite Z.sub_diag.
    destruct (test_step s SRun Hs) as (s' & Hsh & Hs' & Hmv); [by rewrite Hpc| |].
    - unfold sched_step. rewrite Hpc. destruct (I_batches s Hs) as [-> _]. by rewrite Z.ltb_irrefl.
    - exists n, s'. by rewrite Hsh. }
  rewrite seqZ_cons by lia. cbn [mega_gpu_get_batch].
  destruct (access_env n s i _ _ _ (get_is i ltac:(lia)) Hpc) as (s1 & id & -> & H1 & Hm1); [done..|].
  rewrite bind_Ok. cbv beta iota.
  destruct (access_env (1 + n) s1 i _ _ _ (taken_is i id) (mv_sched _ _ _ Hm1)) as (s2 & [] & -> & H2 & Hm2); [done..|].
  rewrite bind_Ok. cbv beta iota.
  destruct (access_env (2 + n) s2 i _ _ _ (switch_is i id) (mv_sched _ _ _ Hm2)) as (s3 & [] & -> & H3 & Hm3); [done..|].
  rewrite bind_Ok. cbv beta iota.
  destruct (IH (3 + n)%nat s3 (i + 1)) as (n' & s4 & H & H4 & Hm4); [done|apply Hm3|lia|lia|].
  exists n', s4. replace (Z.pred (cpu_worker_num cfg - i)) with (cpu_worker_num cfg - (i + 1)) by lia.
  split; [exact H|]. split; [done|].
  exact (moved_trans _ _ _ _ _ Hm1 (moved_trans _ _ _ _ _ Hm2 (moved_trans _ _ _ _ _ Hm3 Hm4))).
Qed.

(** *** mega_gpu_give_to_sender *)

Lemma wait_steps k n s i n' sh' :
  I s → sched (sys s) = SWait i → wait_sender env k i n (shared_of s) = Ok (n', sh') →
  ∃ s' b, sh' = shared_of s' ∧ I s' ∧ moved s s' (SWait i) ∧
    arr_get (batch_set (sys s')) i = Ok b ∧ sender_buf_id b = -1.
Proof.
  revert n s. induction k as [|k IH]; intros n s Hs Hpc H; [done|]. cbn [wait_sender] in H.
  pose proof (I_env n s Hs) as H0. rewrite <-(shared_put s (env n (shared_of s))) in H.
  set (s0 := put s (env n (shared_of s))) in *.
  apply bind_Ok_inv in H as (b & Hb & H). destruct (Z.eqb_spec (sender_buf_id b) (-1)) as [Hsnd|_]; simpl in H.
  - injection H as <- <-. exists s0, b. by split_and!.
  - destruct (IH (S n) s0 H0 Hpc H) as (s' & b' & -> & HI & Hm & Hb' & Hs').
    exists s', b'. split; [done|]. split; [done|]. split; [by destruct Hm; split|done].
Qed.

Lemma delay_step s i b :
  I s → sched (sys s) = SWait i → i < cpu_worker_num cfg →
  arr_get (batch_set (sys s)) i = Ok b → sender_buf_id b = -1 →
  ∃ s', upd_batch (shared_of s) i (λ b, Ok (set_delay b (delay_of 0 0), ())) = Ok (shared_of s', ()) ∧
    I s' ∧ moved s s' (SGive i).
Proof.
  intros Hs Hpc Hi Hb Hsnd.
  destruct (access_step s i (λ b, Ok (set_delay b (delay_of 0 0), ())) (λ _, SGive i))
    as (s' & [] & ? & ? & ?); [done|by rewrite Hpc| |by exists s'].
  destruct (I_batches s Hs) as [Hl _]. unfold sched_step. rewrite Hpc, Hl, (proj2 (Z.ltb_lt _ _)) by done.
  by rewrite Hb, !bind_Ok, Hsnd.
Qed.

Lemma give_is i : step_is (SGive i) i (λ b, Ok (set_sender b (gpu_buf_id b), ())) (λ _, SGiven i).
Proof. by intros l ts _. Qed.
Lemma given_is i : step_is (SGiven i) i (λ b, Ok (set_gpu b (-1), ())) (λ _, SWait (i + 1)).
Proof. by intros l ts _. Qed.

Lemma give_steps n s i :
  I s → sched (sys s) = SWait i → 0 ≤ i ≤ cpu_worker_num cfg →
  ∃ n' s', mega_gpu_give_to_sender env spins 0 0 (seqZ i (cpu_worker_num cfg - i)) n (shared_of s) =
      Ok (n', shared_of s') ∧ I s' ∧ moved s s' (SGet 0).
Proof.
  intros Hs Hpc Hi. remember (Z.to_nat (cpu_worker_num cfg - i)) as k eqn:Hk.
  revert n s i Hs Hpc Hi Hk. induction k as [|k IH]; intros n s i Hs Hpc Hi Hk.
  { replace i with (cpu_worker_num cfg) in * by lia. rewrite Z.sub_diag.
    destruct (test_step s (SGet 0) Hs) as (s' & Hsh & Hs' & Hmv); [by rewrite Hpc| |].
    - unfold sched_step. rewrite Hpc. destruct (I_batches s Hs) as [-> _]. by rewrite Z.ltb_irrefl.
    - exists n, s'. by rewrite Hsh. }
  rewrite seqZ_cons by lia. cbn [mega_gpu_give_to_sender].
  destruct (senders_return n s i Hs Hpc) as [[n1 sh1] Hw]; [lia|]. rewrite Hw, bind_Ok. cbv beta iota.
  destruct (wait_steps _ _ _ _ _ _ Hs Hpc Hw) as (s1 & b & -> & H1 & Hm1 & Hb & Hsnd).
  destruct (delay_step s1 i b H1 (mv_sched _ _ _ Hm1)) as (s2 & -> & H2 & Hm2); [lia|done|done|].
  rewrite bind_Ok. cbv beta iota.
  destruct (access_env n1 s2 i _ _ _ (give_is i) (mv_sched _ _ _ Hm2)) as (s3 & [] & -> & H3 & Hm3); [done..|].
  rewrite bind_Ok. cbv beta iota.
  destruct (access_env (1 + n1) s3 i _ _ _ (given_is i) (mv_sched _ _ _ Hm3)) as (s4 & [] & -> & H4 & Hm4); [done..|].
  rewrite bind_Ok. cbv beta iota.
  destruct (IH (2 + n1)%nat s4 (i + 1)) as (n' & s5 & H & H5 & Hm5); [done|apply Hm4|lia|lia|].
  exists n', s5. replace (Z.pred (cpu_worker_num cfg - i)) with (cpu_worker_num cfg - (i + 1)) by lia.
  split; [exact H|]. split; [done|].
  exact (moved_trans _ _ _ _ _ Hm1 (moved_trans _ _ _ _ _ Hm2
    (moved_trans _ _ _ _ _ Hm3 (moved_trans _ _ _ _ _ Hm4 Hm5)))).
Qed.

(** *** The kernels *)

Lemma cycle_steps s :
  I s → sched (sys s) = SRun →
  ∃ g bufs t c bufs' l s',
    (b ← arr_get (batch_set (sys s)) (cpu_worker_num cfg - 1); Ok (gpu_buf_id b)) = Ok g ∧
    fetch_bufs (bufs_table (cpu_worker_num cfg)) g (seqZ 0 (cpu_worker_num cfg)) (batch_set (sys s)) = Ok bufs ∧
    gpu_cycle cfg kind (win w) (6 + fuel) (index s) (stats s) bufs = Ok (t, c, bufs') ∧
    put_bufs (bufs_table (cpu_worker_num cfg)) g (seqZ 0 (cpu_worker_num cfg)) bufs' (batch_set (sys s)) = Ok l ∧
    s' = Server (System l (senders (sys s)) (SWait 0)) (receivers s) t c (index s :: starts s) ∧ I s'.
Proof.
  intros Hs Hpc. destruct (I_step s Hs) as (s' & Hstep & Hs'). destruct (I_batches s Hs) as [Hl Hbufs].
  unfold scheduler_step in Hstep. rewrite Hpc in Hstep. unfold cycle_step in Hstep.
  apply bind_Ok_inv in Hstep as (g & Hg & Hstep). apply bind_Ok_inv in Hstep as (bufs & Htake & Hstep).
  apply bind_Ok_inv in Hstep as ([[t c] bufs'] & Hcyc & Hstep). apply bind_Ok_inv in Hstep as (l & Hstore & Hstep).
  unfold sched_step in Hstep. cbn [sched] in Hstep. rewrite Hpc, bind_Ok in Hstep. injection Hstep as <-.
  unfold mega_gpu_get_batch_result in Hg. rewrite Hl in Hg.
  assert (Hgr : 0 ≤ g < 3).
  { destruct (batch_set (sys s)) as [|b l0]; [simpl in Hl; lia|].
    apply Forall_cons in Hbufs as [Hb _]. cbn [take_bufs] in Htake.
    apply bind_Ok_inv in Htake as (bf & [Hg0 Hbf]%arr_get_Ok & _). apply lookup_lt_Some in Hbf. lia. }
  exists g, bufs, t, c, bufs', l. eexists. split_and!; [done| |done| |done|done].
  - replace (cpu_worker_num cfg) with (cpu_worker_num cfg - 0) at 2 by lia.
    rewrite fetch_bufs_eq by lia. by rewrite drop_0.
  - pose proof (put_bufs_eq (cpu_worker_num cfg) g bufs' [] (batch_set (sys s)) 0 Hgr eq_refl (eq_sym Hl)) as H.
    rewrite Z.sub_0_r in H. cbn [app] in H. rewrite H, Hstore. done.
Qed.

(** *** Rounds *)

Lemma loop_steps n s :
  I s → sched (sys s) = SGet 0 →
  ∃ n' s', scheduler_loop cfg kind w fuel env spins 0 (bufs_table (cpu_worker_num cfg)) n (shared_of s)
      (index s) (stats s) 0 = Ok (n', shared_of s', index s', stats s', 0) ∧
    I s' ∧ sched (sys s') = SGet 0 ∧ starts s' = index s :: starts s.
Proof.
  intros Hs Hpc. unfold scheduler_loop.
  destruct (get_batch_steps n s 0 Hs Hpc) as (n1 & s1 & H & H1 & Hm1); [lia|].
  rewrite Z.sub_0_r in H. rewrite H, bind_Ok. cbv beta iota zeta. clear H.
  rewrite <-(shared_put s1 (env n1 (shared_of s1))). pose proof (I_env n1 s1 H1) as H2.
  set (s2 := put s1 (env n1 (shared_of s1))) in *.
  destruct (cycle_steps s2 H2 (mv_sched _ _ _ Hm1)) as (g & bufs & t & c & bufs' & l & s3 & Hg & Hf & Hc & Hp & Hs3 & H3).
  cbn [shared_of sh_batches sh_senders sh_receivers].
  apply bind_Ok_inv in Hg as (b & -> & [= <-]). rewrite bind_Ok, Hf, bind_Ok, gpu_cycle_period_0.
  destruct Hm1 as [_ Hi Hst Hss].
  change (index s2) with (index s1) in *. change (stats s2) with (stats s1) in *. change (starts s2) with (starts s1) in *.
  rewrite Hi, Hst in Hc. rewrite Hc, !bind_Ok. cbv beta iota zeta. rewrite Hp, bind_Ok.
  destruct (give_steps (S n1) s3 0) as (n' & s' & H & H' & Hm); [done|by rewrite Hs3|lia|].
  rewrite Z.sub_0_r in H. exists n', s'. destruct Hm as [Hm1 Hm2 Hm3 Hm4]. split_and!.
  - replace (Shared l (senders (sys s2)) (receivers s2)) with (shared_of s3) by (by rewrite Hs3).
    rewrite H, bind_Ok, Hm2, Hm3, Hs3. done.
  - done.
  - done.
  - rewrite Hm4, Hs3. cbn [starts]. by rewrite Hss, Hi.
Qed.

Lemma loops_steps k n s :
  I s → sched (sys s) = SGet 0 →
  ∃ n' s', scheduler_loops cfg kind w fuel env spins 0 k (bufs_table (cpu_worker_num cfg)) n (shared_of s)
      (index s) (stats s) 0 = Ok (n', shared_of s', index s', stats s', 0) ∧
    I s' ∧ sched (sys s') = SGet 0 ∧ length (starts s') = (k + length (starts s))%nat.
Proof.
  revert n s. induction k as [|k IH]; intros n s Hs Hpc; [by exists n, s|]. cbn [scheduler_loops].
  destruct (loop_steps n s Hs Hpc) as (n1 & s1 & -> & H1 & Hpc1 & Hst). rewrite bind_Ok. cbv beta iota.
  destruct (IH n1 s1 H1 Hpc1) as (n' & s' & -> & H' & Hpc' & Hl).
  exists n', s'. split_and!; try done. rewrite Hl, Hst. simpl. lia.
Qed.
End refinement.

(** ** Other settings *)

(** Without [USE_LOCK] the workers fall out of step: two workers that differ only in
    whether the Sender has put its buffer back give the Scheduler different buffers, while
    with the lock both give the same one. *)
Lemma unlocked_workers_differ b :
  available_buf_id b = (-1, 2) →
  (∃ b1, mega_gpu_get_available_buf_id_unlocked b = Ok (b1, 2)) ∧
  (∃ b2, mega_gpu_get_available_buf_id_unlocked (set_available b (0, 2)) = Ok (b2, 0)) ∧
  (mega_gpu_get_available_buf_id (set_available b (2, -1))).2 = 2 ∧
  (mega_gpu_get_available_buf_id (set_available b (2, 0))).2 = 2.
Proof.
  intros Ha. unfold mega_gpu_get_available_buf_id_unlocked. rewrite Ha.
  split; [by eexists|]. split; [by eexists|]. done.
Qed.

(** [sched_ins_del] before the [k]th cycle. *)
Fixpoint ins_del_before (N : Z) (k : nat) : Z :=
  match k with
  | O => N
  | S k => if 0 <? ins_del_before N k then ins_del_before N k - 1 else N
  end.

Lemma ins_del_before_eq N k : 0 < N → ins_del_before N k = N - Z.of_nat k mod (N + 1).
Proof.
  intros HN. induction k as [|k IH]; [simpl; rewrite Z.mod_0_l; lia|].
  cbn [ins_del_before]. rewrite IH. pose proof (Z.mod_pos_bound (Z.of_nat k) (N + 1)).
  replace (Z.of_nat (S k)) with (Z.of_nat k + 1) by lia.
  rewrite <-(Z.add_mod_idemp_l (Z.of_nat k)) by lia. destruct (Z.ltb_spec 0 (N - Z.of_nat k mod (N + 1))).
  - rewrite (Z.mod_small (_ + 1)) by lia. lia.
  - replace (Z.of_nat k mod (N + 1) + 1) with (N + 1) by lia. rewrite Z.mod_same; lia.
Qed.

(** With a period that is a multiple of 3 the insertions and deletions of only one of the
    three buffers reach the index: the others' are never looked at. *)
Theorem period_of_three_skips_buffers cfg kind w fuel N k t c bufs t' c' bufs' i :
  0 < N → (N + 1) mod 3 = 0 → cur (Z.of_nat k) ≠ 2 →
  gpu_cycle_period cfg kind w fuel N (ins_del_before N k) t c bufs = Ok (t', c', bufs', i) →
  t' = t ∧ i = ins_del_before N (S k).
Proof.
  intros HN H3 Hcur H. assert (Hpos : 0 < ins_del_before N k).
  { rewrite ins_del_before_eq by done. pose proof (Z.mod_pos_bound (Z.of_nat k) (N + 1)).
    destruct (decide (Z.of_nat k mod (N + 1) = N)) as [Heq|]; [|lia]. exfalso. apply Hcur. unfold cur.
    pose proof (Z.div_mod (Z.of_nat k) (N + 1)). pose proof (Z.div_mod (N + 1) 3).
    set (q := (N + 1) / 3) in *. set (r := Z.of_nat k / (N + 1)) in *.
    replace (Z.of_nat k) with (2 + (q * r + q - 1) * 3) by nia. rewrite Z.mod_add by lia. done. }
  unfold gpu_cycle_period in H. apply bind_Ok_inv in H as ([c1 bufs1] & _ & H).
  cbn [ins_del_before]. rewrite !(proj2 (Z.ltb_lt _ _)) in * by done. cbn [andb] in H. by injection H as <- _ _ <-.
Qed.

(** ** Properties *)

(** What the other threads may do: they lead from reachable states to reachable ones. *)
Definition env_reach (reach : server → Prop) (env : nat → shared → shared) : Prop :=
  ∀ n s, reach s → reach (put s (env n (shared_of s))).

(** Every Sender gives its buffer back while the Scheduler looks [spins] times. *)
Definition senders_return (cfg : mega_config_t) (reach : server → Prop) (env : nat → shared → shared) (spins : nat) : Prop :=
  ∀ n s i, reach s → sched (sys s) = SWait i → 0 ≤ i < cpu_worker_num cfg →
    ∃ r, wait_sender env spins i n (shared_of s) = Ok r.

(** The rounds of [mega_scheduler_main] as steps of the server. *)
Lemma scheduler_main_steps cfg kind w fuel env spins timely CPU_AFFINITY sched_setaffinity core_id bs rounds :
  server_cfg_ok cfg → Forall (server_ready cfg) bs → bs ≠ [] →
  Z.of_nat (length bs) = cpu_worker_num cfg → cpu_worker_num cfg ≤ 16 →
  set_affinity CPU_AFFINITY sched_setaffinity core_id = Ok () →
  env_reach (server_reach cfg kind w fuel 0 timely bs ∅) env →
  senders_return cfg (server_reach cfg kind w fuel 0 timely bs ∅) env spins →
  ∃ n s, mega_scheduler_main cfg kind w fuel env spins 0 rounds CPU_AFFINITY sched_setaffinity core_id
      (Shared bs (replicate (length bs) TWait) (replicate (length bs) RIdle)) =
    Ok (n, shared_of s, index s, stats s, 0) ∧
    server_reach cfg kind w fuel 0 timely bs ∅ s ∧ sched (sys s) = SGet 0 ∧ length (starts s) = rounds.
Proof.
  intros Hcfg Hbs Hne Hlen Hmax Haff Henv Hret.
  assert (0 < Z.of_nat (length bs)) as Hpos by (destruct bs; [done|simpl; lia]).
  unfold mega_scheduler_main, mega_scheduler_init.
  rewrite assert_true, bind_Ok, Haff, !bind_Ok by (apply Z.leb_le; lia).
  destruct (loops_steps cfg kind w fuel env spins (server_reach cfg kind w fuel 0 timely bs ∅)) with
    (k := rounds) (n := 0%nat) (s := server0 bs (∅ : table)) as (n & s & H & Hs & Hpc & Hst); try done.
  - intros s Hs. destruct (server_reach_inv cfg kind w fuel 0 Hcfg _ _ _ _ Hbs Hne empty_table_shape Hs) as [r Hinv].
    destruct (scheduler_step_inv cfg kind w fuel 0 Hcfg _ _ _ _ Hinv Hpos) as (s' & r' & Hstep & _).
    exists s'. split; [done|]. eapply server_reach_step; [exact Hs|]. by eapply (server_event_step _ _ _ _ _ _ _ _ SvSched).
  - intros s Hs. destruct (server_reach_inv cfg kind w fuel 0 Hcfg _ _ _ _ Hbs Hne empty_table_shape Hs) as [r Hinv].
    pose proof (sv_sys _ _ _ _ _ _ Hinv) as Hsys. split; [by rewrite (si_batches _ _ _ Hsys)|].
    apply Forall_lookup_2. intros i b Hb. destruct (lookup_batch _ _ _ _ _ Hsys Hb) as (t & Ht & _).
    apply (si_worker _ _ _ Hsys (Z.of_nat i) b t); rewrite ?Nat2Z.id; done || lia.
  - lia.
  - apply server_reach_init.
  - exists n, s. rewrite Nat.add_0_r in Hst. by split_and!.
Qed.

(** C13: the Scheduler's loop runs and refines its steps.  Whatever the Senders and the
    Receivers do between any two accesses, [mega_scheduler_main] does every round of its
    loop - it reads and writes the buffers through the pointer table, no assertion fails
    and no array is overrun - as long as the Senders give their buffers back; and the
    states it reaches are states of the server of [Server], one cycle per round, so that
    the theorems about those hold of them. *)
Theorem scheduler_main_refines cfg kind w fuel env spins timely CPU_AFFINITY sched_setaffinity core_id bs rounds :
  server_cfg_ok cfg → Forall (server_ready cfg) bs → bs ≠ [] →
  Z.of_nat (length bs) = cpu_worker_num cfg → cpu_worker_num cfg ≤ 16 →
  set_affinity CPU_AFFINITY sched_setaffinity core_id = Ok () →
  env_reach (server_reach cfg kind w fuel 0 timely bs ∅) env →
  senders_return cfg (server_reach cfg kind w fuel 0 timely bs ∅) env spins →
  ∃ n s, mega_scheduler_main cfg kind w fuel env spins 0 rounds CPU_AFFINITY sched_setaffinity core_id
      (Shared bs (replicate (length bs) TWait) (replicate (length bs) RIdle)) =
    Ok (n, shared_of s, index s, stats s, 0) ∧
    server_reach cfg kind w fuel 0 timely bs ∅ s ∧ sched (sys s) = SGet 0 ∧ length (starts s) = rounds.
Proof. apply scheduler_main_steps. Qed.

(** ** Senders that give their buffers back

    Between two accesses of the Scheduler every Sender takes three steps. *)

Fixpoint all_senders (ids : list Z) (y : system) : result system :=
  match ids with [] => Ok y | i :: ids => y ← sender_steps 3 i y; all_senders ids y end.
Definition senders_env (n : nat) (sh : shared) : shared :=
  match all_senders (seqZ 0 (Z.of_nat (length (sh_batches sh)))) (System (sh_batches sh) (sh_senders sh) (SGet 0)) with
  | Ok y => Shared (batch_set y) (senders y) (sh_receivers sh)
  | Err _ => sh
  end.

(** A Sender's step looks neither at the Scheduler nor at other batches. *)
Lemma sender_step_local i l ts pc pc' y :
  sender_step i (System l ts pc) = Ok y →
  sched y = pc ∧ sender_step i (System l ts pc') = Ok (System (batch_set y) (senders y) pc') ∧
  ∀ j, j ≠ i → 0 ≤ i → 0 ≤ j → batch_set y !! Z.to_nat j = l !! Z.to_nat j.
Proof.
  unfold sender_step. cbn [batch_set senders sched]. intros H.
  apply bind_Ok_inv in H as (b & -> & H). apply bind_Ok_inv in H as (t & -> & H).
  apply bind_Ok_inv in H as ([b' t'] & Hw & H). apply bind_Ok_inv in H as (l' & Hl & H).
  apply bind_Ok_inv in H as (ts' & Hts & [= <-]).
  rewrite !bind_Ok, Hw, bind_Ok. cbv beta iota. rewrite Hl, bind_Ok, Hts, !bind_Ok.
  split; [done|]. split; [done|]. intros j Hj Hi0 Hj0. apply arr_set_Ok in Hl as [_ ->]. cbn [batch_set].
  apply list_lookup_insert_ne. lia.
Qed.

Lemma sender_steps_local k i l ts pc pc' y :
  sender_steps k i (System l ts pc) = Ok y →
  sched y = pc ∧ sender_steps k i (System l ts pc') = Ok (System (batch_set y) (senders y) pc') ∧
  ∀ j, j ≠ i → 0 ≤ i → 0 ≤ j → batch_set y !! Z.to_nat j = l !! Z.to_nat j.
Proof.
  revert l ts. induction k as [|k IH]; intros l ts H; [by injection H as <-|].
  cbn [sender_steps] in *. apply bind_Ok_inv in H as ([l1 ts1 pc1] & H1 & H).
  destruct (sender_step_local _ _ _ _ pc' _ H1) as (Hp & -> & Hl). cbn [sched batch_set senders] in *. subst pc1.
  rewrite bind_Ok. destruct (IH _ _ H) as (Hpc & Heq & Hl'). split; [done|]. split; [done|].
  intros j Hj Hi0 Hj0. by rewrite Hl', Hl.
Qed.

Lemma all_senders_local ids l ts pc pc' y :
  all_senders ids (System l ts pc) = Ok y → Forall (Z.le 0) ids →
  sched y = pc ∧ all_senders ids (System l ts pc') = Ok (System (batch_set y) (senders y) pc') ∧
  ∀ j, j ∉ ids → 0 ≤ j → batch_set y !! Z.to_nat j = l !! Z.to_nat j.
Proof.
  revert l ts. induction ids as [|i ids IH]; intros l ts H Hids; [by injection H as <-|].
  apply Forall_cons in Hids as [Hi Hids]. cbn [all_senders] in *.
  apply bind_Ok_inv in H as ([l1 ts1 pc1] & H1 & H).
  destruct (sender_steps_local _ _ _ _ _ pc' _ H1) as (Hp & -> & Hl). cbn [sched batch_set senders] in *. subst pc1.
  rewrite bind_Ok. destruct (IH _ _ H Hids) as (Hpc & Heq & Hl'). split; [done|]. split; [done|].
  intros j [Hj Hj']%not_elem_of_cons Hj0. by rewrite Hl', Hl.
Qed.

Section senders_env.
Context (cfg : mega_config_t) (kind : hash_kind) (w : winner_t) (fuel : nat) (Hcfg : server_cfg_ok cfg).
Context (timely : bool) (bs : list mega_batch_t).
Hypothesis bs_ready : Forall (server_ready cfg) bs.
Hypothesis bs_some : bs ≠ [].
Abbreviation reach := (server_reach cfg kind w fuel 0 timely bs ∅).

Lemma sender_steps_reach k i s y :
  reach s → 0 ≤ i < Z.of_nat (length bs) → sender_steps k i (sys s) = Ok y → reach (with_sys s y).
Proof.
  intros Hs Hi. revert s Hs. induction k as [|k IH]; intros s Hs H; cbn [sender_steps] in H.
  { injection H as <-. by destruct s. }
  apply bind_Ok_inv in H as (y1 & H1 & H). apply (IH (with_sys s y1)) in H; [done|].
  eapply server_reach_step; [exact Hs|]. apply (server_event_step _ _ _ _ _ _ _ _ (SvSender i)); [done..|].
  simpl. by rewrite H1.
Qed.

Lemma all_senders_ok ids s :
  reach s → NoDup ids → Forall (λ i, 0 ≤ i < Z.of_nat (length bs)) ids →
  ∃ y, all_senders ids (sys s) = Ok y ∧ reach (with_sys s y) ∧
    ∀ i, i ∈ ids → ∃ b, arr_get (batch_set y) i = Ok b ∧ sender_buf_id b = -1.
Proof.
  revert s. induction ids as [|i ids IH]; intros s Hs Hnd Hids.
  { exists (sys s). split; [done|]. split; [by destruct s|]. by intros i ?%not_elem_of_nil. }
  apply NoDup_cons in Hnd as [Hi Hnd]. apply Forall_cons in Hids as [Hlt Hids]. cbn [all_senders].
  destruct (server_reach_inv cfg kind w fuel 0 Hcfg _ _ _ _ bs_ready bs_some empty_table_shape Hs) as [r Hinv].
  destruct (sender_gives_back _ r i (sys s) 3 (sv_sys _ _ _ _ _ _ Hinv)) as (y & b & Hy & _ & _ & Hb & Hsnd); [lia| |].
  { intros b t _ _. unfold rank. destruct (_ =? _), t; lia. }
  rewrite Hy, bind_Ok. destruct (IH (with_sys s y)) as (y' & Hy' & Hr & Hall); [by eapply sender_steps_reach|done..|].
  cbn [with_sys sys] in Hy'. exists y'. split; [done|]. split; [exact Hr|].
  intros j [->|Hj]%elem_of_cons; [|by apply Hall]. exists b. split; [|done].
  destruct y as [l ts pc]. destruct (all_senders_local ids l ts pc pc y' Hy') as (_ & _ & Hl).
  { eapply Forall_impl; [exact Hids|]. simpl. lia. }
  apply arr_get_Ok in Hb as [_ Hb]. apply arr_get_lookup; [lia|]. by rewrite Hl by (done || lia).
Qed.

Lemma senders_env_steps s :
  reach s → ∃ y, (∀ n, put s (senders_env n (shared_of s)) = with_sys s y) ∧ reach (with_sys s y) ∧
    ∀ i, 0 ≤ i < Z.of_nat (length bs) → ∃ b, arr_get (batch_set y) i = Ok b ∧ sender_buf_id b = -1.
Proof.
  intros Hs. destruct (server_reach_inv cfg kind w fuel 0 Hcfg _ _ _ _ bs_ready bs_some empty_table_shape Hs) as [r Hinv].
  pose proof (si_batches _ _ _ (sv_sys _ _ _ _ _ _ Hinv)) as Hlen.
  assert (Hids : Forall (λ i, 0 ≤ i < Z.of_nat (length bs)) (seqZ 0 (Z.of_nat (length bs))))
    by (apply Forall_forall; intros i Hi%elem_of_seqZ; lia).
  destruct (all_senders_ok (seqZ 0 (Z.of_nat (length bs))) s) as (y & Hy & Hr & Hall); [done|apply NoDup_seqZ|done|].
  exists y. split; [|split; [done|intros i Hi; apply Hall, elem_of_seqZ; lia]].
  intros n. unfold senders_env. destruct s as [[l ts pc] rs t c st].
  cbn [shared_of sh_batches sh_senders sys batch_set senders] in *. rewrite Hlen.
  destruct (all_senders_local _ _ _ _ (SGet 0) _ Hy) as (Hpc & -> & _).
  { eapply Forall_impl; [exact Hids|]. simpl. lia. }
  unfold put, with_sys. simpl. rewrite <-Hpc. by destruct y.
Qed.

Lemma senders_env_reach : env_reach reach senders_env.
Proof. intros n s Hs. destruct (senders_env_steps s Hs) as (y & -> & Hr & _). done. Qed.

Lemma senders_env_return : cpu_worker_num cfg = Z.of_nat (length bs) → senders_return cfg reach senders_env 1.
Proof.
  intros Hn n s i Hs Hpc Hi. rewrite Hn in Hi. destruct (senders_env_steps s Hs) as (y & Hput & _ & Hall).
  destruct (Hall i Hi) as (b & Hb & Hsnd). cbn [wait_sender]. specialize (Hput n).
  rewrite <-(shared_put s (senders_env n (shared_of s))), Hput. cbn [shared_of sh_batches with_sys sys].
  rewrite Hb, bind_Ok, Hsnd. by eexists.
Qed.
End senders_env.

(** ** The property at one worker *)

Definition with_workers (c : mega_config_t) (n : Z) : mega_config_t := {|
  interval := interval c;
  num_queue_per_port := num_queue_per_port c;
  cpu_worker_num := n;
  eiu_hdr_len := eiu_hdr_len c;
  ethernet_hdr_len := ethernet_hdr_len c;
  io_batch_num := io_batch_num c;
  ifindex0 := ifindex0 c;
  ifindex1 := ifindex1 c;
  bits_insert_buf := bits_insert_buf c;
  num_insert_buf := num_insert_buf c;
  batch_max_search_job := batch_max_search_job c;
  batch_max_insert_job := batch_max_insert_job c;
  batch_max_delete_job := batch_max_delete_job c;
  cfg_perslab_bits := cfg_perslab_bits c;
  slabclass_max_elem_num := slabclass_max_elem_num c;
  loc_bits := loc_bits c;
  slab_id_bits := slab_id_bits c;
  evict := evict c;
  evict_batch_size := evict_batch_size c;
  GPU_search_thread_num := GPU_search_thread_num c;
  GPU_delete_thread_num := GPU_delete_thread_num c;
  GPU_threads_per_blk := GPU_threads_per_blk c;
  scheduler_num := scheduler_num c;
  item_max_size := item_max_size c;
  cfg_mem_limit := cfg_mem_limit c;
  factor := factor c;
  prealloc := prealloc c;
  local_ip_addr := local_ip_addr c;
  local_udp_port := local_udp_port c;
|}.
Definition ex_one : mega_config_t := with_workers mega_init_config 1.

Lemma ex_one_ok : server_cfg_ok ex_one.
Proof. split; [by destruct ex_gpu_ok; split|by vm_compute]. Qed.

Lemma ex_one_ready : Forall (server_ready ex_one) [ex_vbatch].
Proof.
  constructor; [|constructor]. split; [by split_and!|]. apply (Forall_replicate _ 3).
  split; simpl; [|lia|lia]. split; simpl; try lia; try by vm_compute.
  repeat constructor; simpl; lia.
Qed.

Lemma scheduler_main_refines_witness :
  ∃ n s, mega_scheduler_main ex_one HASH_CUCKOO ex_w 0 senders_env 1 0 5 true (λ _, 0) 15
      (Shared [ex_vbatch] [TWait] [RIdle]) = Ok (n, shared_of s, index s, stats s, 0) ∧
    server_reach ex_one HASH_CUCKOO ex_w 0 0 false [ex_vbatch] ∅ s ∧ length (starts s) = 5%nat.
Proof.
  destruct (scheduler_main_refines ex_one HASH_CUCKOO ex_w 0 senders_env 1 false true (λ _, 0) 15 [ex_vbatch] 5
    ex_one_ok ex_one_ready) as (n & s & H & Hs & _ & Hst);
    [discriminate | reflexivity | change (1 ≤ 16); lia | reflexivity | | |].
  - exact (senders_env_reach ex_one HASH_CUCKOO ex_w 0 ex_one_ok false _ ex_one_ready ltac:(discriminate)).
  - exact (senders_env_return ex_one HASH_CUCKOO ex_w 0 ex_one_ok false _ ex_one_ready ltac:(discriminate) eq_refl).
  - exists n, s. split; [exact H|]. split; [exact Hs | exact Hst].
Defined.
