(* ===== verification/SenderMain.v ===== *)
(** * The Sender's thread (src/src/mega_send.c)

    The loop of [mega_sender_sendloop] as it is written: wait for a buffer, send the
    replies, make the buffer look new and give it back.  Sending is any of the versions of
    [Sender] and [SenderMatch]; it is one step, during which the other threads wait, as a
    cycle of the Scheduler is in [Server].  Between two other accesses they change the
    state as [env] says.  The theorem says that the loop does what the steps of [Server]
    do, and what it sends. *)

From S2P Require Import Prelude GpuHash Config Slabs Batch Rotation Items Packet Receiver Sender.
From S2P Require Import Index Scheduler Server.

(** ** The loop *)

(** One access of the Sender of worker [i] to its batch; the place [t] the Sender is at
    afterwards is only there for the other threads' sake. *)
Definition on_batch (i : Z) (f : mega_batch_t → result mega_batch_t) (t : sender_pc) (s : server) : result server :=
  b ← arr_get (batch_set (sys s)) i;
  b ← f b;
  l ← arr_set (batch_set (sys s)) i b;
  ts ← arr_set (senders (sys s)) i t;
  Ok (with_sys s (System l ts (sched (sys s)))).

Section sender_main.
Context (env : nat → server → server) (spins : nat) (NOT_FORWARD : bool).
(** What is sent for a buffer, from the Sender's own state. *)
Context (send : mega_batch_buf_t → sstate → result sstate) (i : Z).

(** [mega_sender_get_buffer] *)
Fixpoint mega_sender_get_buffer (spins : nat) (n : nat) (s : server) : result (nat * server) :=
  match spins with
  | O => Err OutOfFuel
  | S spins =>
      let s := env n s in
      b ← arr_get (batch_set (sys s)) i;
      if sender_buf_id b =? -1 then mega_sender_get_buffer spins (S n) s
      else s ← on_batch i Ok TWork s; Ok (S n, s)
  end.

(** [mega_sender_give_available_buffer] *)
Definition mega_sender_give_available_buffer (n : nat) (s : server) : result (nat * server) :=
  s ← on_batch i give_available TGiven (env n s);
  s ← on_batch i (λ b, Ok (set_sender b (-1))) TWait (env (S n) s);
  Ok (S (S n), s).

(** The buffer with the jobs as the loop leaves them. *)
Definition store_jobs (jobs : list mega_job_search_t) (b : mega_batch_t) : result mega_batch_t :=
  upd_buf b (sender_buf_id b) (λ bf, Ok (set_jobs jobs bf)).

Definition sender_loop (n : nat) (s : server) (st : sstate) : result (nat * server * sstate) :=
  '(n, s) ← mega_sender_get_buffer spins n s;
  let s := env n s in
  b ← arr_get (batch_set (sys s)) i;
  bf ← arr_get (buf b) (sender_buf_id b);
  if NOT_FORWARD || (num_search_job bf =? 0) then
    '(n, s) ← mega_sender_give_available_buffer (S n) s; Ok (n, s, st)
  else
    st ← send bf (with_jobs st (search_job_list bf));
    s ← on_batch i (store_jobs (s_jobs st)) TWork s;
    _ ← assert_ (negb (delay b =? -1));
    '(n, s) ← mega_sender_give_available_buffer (S n) s;
    Ok (n, s, st).
End sender_main.

(** ** Lemmas: the delay

    The Scheduler has written [delay] before a Sender sees its buffer. *)

Definition delay_ok (d : Z) (s : system) : Prop :=
  ∀ j b, batch_set s !! j = Some b → sender_buf_id b ≠ -1 ∨ sched s = SGive (Z.of_nat j) → delay b = d.

Lemma set_batch_delay d s i b' pc' s' :
  set_batch s i b' pc' = Ok s' → delay_ok d s →
  (sender_buf_id b' ≠ -1 ∨ pc' = SGive i → delay b' = d) → (∀ k, pc' = SGive k → k = i) →
  delay_ok d s'.
Proof.
  intros H Hd Hb' Hpc. unfold set_batch in H. apply bind_Ok_inv in H as (l & [Hi ->]%arr_set_Ok & [= <-]).
  intros j b. cbn [batch_set sched]. destruct (decide (j = Z.to_nat i)) as [->|Hne].
  - rewrite list_lookup_insert_eq by lia. intros [= <-]. rewrite Z2Nat.id by lia. exact Hb'.
  - rewrite list_lookup_insert_ne by done. intros Hb [Hs|Hs]; [by apply (Hd j); [|left]|].
    apply Hpc in Hs. lia.
Qed.

Lemma set_batch_lookup s i b : arr_get (batch_set s) i = Ok b → batch_set s !! Z.to_nat i = Some b ∧ Z.of_nat (Z.to_nat i) = i.
Proof. intros [Hi Hb]%arr_get_Ok. split; [done|lia]. Qed.

Lemma sched_step_delay d s s' : sched_step d s = Ok s' → delay_ok d s → delay_ok d s'.
Proof.
  intros H Hd. unfold sched_step in H. destruct (sched s) as [i|i id|i id| |i|i|i] eqn:Hpc.
  - destruct (_ <? _).
    + apply bind_Ok_inv in H as (b & [Hb Hi]%set_batch_lookup & H). apply bind_Ok_inv in H as (u & _ & H).
      destruct (mega_gpu_get_available_buf_id b) as [b' id] eqn:E.
      unfold mega_gpu_get_available_buf_id in E. destruct (available_buf_id b). injection E as <- <-.
      eapply set_batch_delay; [exact H|done| |done]. intros [Hs|Hs]; [|done]. apply (Hd _ _ Hb). by left.
    + injection H as <-. intros j b Hb [Hs|Hs]; [|done]. apply (Hd j b Hb). by left.
  - apply bind_Ok_inv in H as (b & [Hb Hi]%set_batch_lookup & H).
    eapply set_batch_delay; [exact H|done| |done]. intros [Hs|Hs]; [|done]. apply (Hd _ _ Hb). by left.
  - apply bind_Ok_inv in H as (b & [Hb Hi]%set_batch_lookup & H).
    eapply set_batch_delay; [exact H|done| |done]. intros [Hs|Hs]; [|done]. apply (Hd _ _ Hb). by left.
  - injection H as <-. intros j b Hb [Hs|Hs]; [|done]. apply (Hd j b Hb). by left.
  - destruct (_ <? _).
    + apply bind_Ok_inv in H as (b & _ & H). destruct (negb _).
      * by injection H as <-.
      * eapply set_batch_delay; [exact H|done|done|]. by intros k [= ->].
    + injection H as <-. intros j b Hb [Hs|Hs]; [|done]. apply (Hd j b Hb). by left.
  - apply bind_Ok_inv in H as (b & [Hb Hi]%set_batch_lookup & H).
    eapply set_batch_delay; [exact H|done| |done]. intros _. apply (Hd _ _ Hb). right. by rewrite Hpc, Hi.
  - apply bind_Ok_inv in H as (b & [Hb Hi]%set_batch_lookup & H).
    eapply set_batch_delay; [exact H|done| |done]. intros [Hs|Hs]; [|done]. apply (Hd _ _ Hb). by left.
Qed.

(** A worker's step that leaves [delay] and does not set [sender_buf_id]. *)
Lemma insert_delay d s i b b' ts :
  delay_ok d s → batch_set s !! i = Some b → delay b' = delay b →
  sender_buf_id b' = sender_buf_id b ∨ sender_buf_id b' = -1 →
  delay_ok d (System (<[i := b']> (batch_set s)) ts (sched s)).
Proof.
  intros Hd Hb Hdl Hs j bj. cbn [batch_set sched]. destruct (decide (j = i)) as [->|Hne].
  - rewrite list_lookup_insert_eq by (by eapply lookup_lt_Some). intros [= <-] Hj. rewrite Hdl.
    apply (Hd i b Hb). destruct Hj as [Hj|Hj]; [|by right]. left. destruct Hs; congruence.
  - rewrite list_lookup_insert_ne by done. apply Hd.
Qed.

Lemma give_available_delay b b' : give_available b = Ok b' → delay b' = delay b.
Proof.
  unfold give_available. intros H. inv_ok. destruct (available_buf_id _). repeat case_match; by simplify_eq.
Qed.

Lemma store_bufs_control g l bufs l' :
  store_bufs g l bufs = Ok l' → Forall2 (λ b b', ∃ a, b' = set_buf b a) l l'.
Proof.
  assert (Hrefl : ∀ l : list mega_batch_t, Forall2 (λ b b', ∃ a, b' = set_buf b a) l l).
  { intros l0. apply Forall_Forall2_diag, Forall_forall. intros b _. exists (buf b). by rewrite set_buf_id. }
  revert bufs l'. induction l as [|b l IH]; intros bufs l' H; [injection H as <-; apply Hrefl|].
  destruct bufs as [|bf bufs]; [injection H as <-; apply Hrefl|]. cbn [store_bufs] in H.
  apply bind_Ok_inv in H as (a & _ & H). apply bind_Ok_inv in H as (l1 & H1 & [= <-]).
  constructor; [by eexists|by eapply IH].
Qed.

Section refinement.
Context (cfg : mega_config_t) (kind : hash_kind) (w : winner_t) (fuel : nat) (d : Z) (Hcfg : server_cfg_ok cfg).
Context (timely : bool) (bs : list mega_batch_t) (t0 : table).
Hypothesis bs_ready : Forall (server_ready cfg) bs.
Hypothesis bs_some : bs ≠ [].
Hypothesis t0_wf : table_shape t0.

Abbreviation reach := (server_reach cfg kind w fuel d timely bs t0).

Lemma reach_inv s : reach s → ∃ r, server_inv cfg w timely (Z.of_nat (length bs)) r s.
Proof. by apply server_reach_inv. Qed.

Lemma server_delay s : reach s → delay_ok d (sys s).
Proof.
  induction 1 as [|s s' Hs IH [e _ Hstep]].
  { intros j b. unfold server0, system0. cbn [sys batch_set sched]. intros Hb [Hsnd|Hsnd]; [|done].
    by destruct (Forall_lookup_1 _ _ _ _ bs_ready Hb) as [(_ & _ & ? & _) _]. }
  destruct (reach_inv s Hs) as [r Hinv]. destruct e as [|i|i j|i|i jobs]; simpl in Hstep.
  - unfold scheduler_step in Hstep. destruct (decide (sched (sys s) = SRun)) as [Hpc|Hpc].
    + rewrite Hpc in Hstep. unfold cycle_step in Hstep.
      apply bind_Ok_inv in Hstep as (g & _ & Hstep). apply bind_Ok_inv in Hstep as (bufs & _ & Hstep).
      apply bind_Ok_inv in Hstep as ([[t c] bufs'] & _ & Hstep). apply bind_Ok_inv in Hstep as (l & Hl & Hstep).
      apply bind_Ok_inv in Hstep as (y & Hy & [= <-]). eapply sched_step_delay; [exact Hy|].
      intros j b'. cbn [batch_set sched]. intros Hb'.
      destruct (Forall2_lookup_r _ _ _ _ _ (store_bufs_control _ _ _ _ Hl) Hb') as (b & Hb & a & ->). exact (IH j b Hb).
    + assert (∃ y, sched_step d (sys s) = Ok y ∧ s' = with_sys s y) as (y & Hy & ->).
      { destruct (sched (sys s)); try done; apply bind_Ok_inv in Hstep as (y & Hy & [= <-]); by exists y. }
      by eapply sched_step_delay.
  - apply bind_Ok_inv in Hstep as (y & Hy & [= <-]). unfold sender_step in Hy.
    apply bind_Ok_inv in Hy as (b & [_ Hb]%arr_get_Ok & Hy). apply bind_Ok_inv in Hy as (t & _ & Hy).
    apply bind_Ok_inv in Hy as ([b' t'] & Hw & Hy). apply bind_Ok_inv in Hy as (l & [_ ->]%arr_set_Ok & Hy).
    apply bind_Ok_inv in Hy as (ts & _ & [= <-]). apply (insert_delay _ _ _ b); [done|done|..].
    + destruct t; simpl in Hw; [by injection Hw as <- _| |by injection Hw as <- _].
      apply bind_Ok_inv in Hw as (b1 & H1 & [= <- _]). by apply give_available_delay.
    + destruct t; simpl in Hw; [injection Hw as <- _; by left| |injection Hw as <- _; by right].
      apply bind_Ok_inv in Hw as (b1 & H1 & [= <- _]). left. by apply give_available_sender.
  - unfold job_step in Hstep. apply bind_Ok_inv in Hstep as (rp & _ & Hstep).
    destruct rp; try (by injection Hstep as <-). by apply bind_Ok_inv in Hstep as (pcs & _ & [= <-]).
  - unfold recv_step in Hstep.
    apply bind_Ok_inv in Hstep as (b & [_ Hb]%arr_get_Ok & Hstep).
    apply bind_Ok_inv in Hstep as (rp & [_ Hrp]%arr_get_Ok & Hstep).
    apply bind_Ok_inv in Hstep as ([b' rp'] & Hw & Hstep).
    apply bind_Ok_inv in Hstep as (l & [_ ->]%arr_set_Ok & Hstep).
    apply bind_Ok_inv in Hstep as (pcs & _ & [= <-]).
    destruct (recv_worker_ok cfg Hcfg b rp b' rp') as ((a & -> & _) & _).
    { exact (Forall_lookup_1 _ _ _ _ (sv_bufs _ _ _ _ _ _ Hinv) Hb). }
    { done. }
    apply (insert_delay _ _ _ b); [done|done|done|by left].
  - unfold send_step in Hstep. apply bind_Ok_inv in Hstep as (b & [_ Hb]%arr_get_Ok & Hstep).
    apply bind_Ok_inv in Hstep as (t & _ & Hstep). destruct t; try (by injection Hstep as <-).
    apply bind_Ok_inv in Hstep as (b' & Hu & Hstep).
    apply bind_Ok_inv in Hstep as (l & [_ ->]%arr_set_Ok & [= <-]).
    unfold upd_buf in Hu. apply bind_Ok_inv in Hu as (bf & _ & Hu). rewrite bind_Ok in Hu.
    apply bind_Ok_inv in Hu as (bufs & _ & [= <-]).
    apply (insert_delay _ _ _ b); [done|done|done|by left].
Qed.

(** *** The accesses of one Sender *)

Section one_sender.
Context (i : Z) (Hi : 0 ≤ i < Z.of_nat (length bs)).

Definition own_pc (s : server) (t : sender_pc) : Prop := senders (sys s) !! Z.to_nat i = Some t.

Lemma own_batch s : reach s → ∃ b, arr_get (batch_set (sys s)) i = Ok b ∧ batch_set (sys s) !! Z.to_nat i = Some b.
Proof.
  intros Hs. destruct (reach_inv s Hs) as [r Hinv].
  destruct (arr_get_in_bounds (batch_set (sys s)) i) as (b & Hb & Hb'); [|by exists b].
  rewrite (si_batches _ _ _ (sv_sys _ _ _ _ _ _ Hinv)). done.
Qed.

(** A step of the Sender in [Rotation] is an access. *)
Lemma sender_access s t f t' :
  reach s → own_pc s t →
  (∀ b, batch_set (sys s) !! Z.to_nat i = Some b → sender_worker b t = (b ← f b; Ok (b, t'))) →
  ∃ s', on_batch i f t' s = Ok s' ∧ reach s' ∧ own_pc s' t'.
Proof.
  intros Hs Ht Hf. destruct (reach_inv s Hs) as [r Hinv].
  destruct (sender_step_inv cfg w _ _ _ i _ Hinv Hi) as (y & Hy & _).
  assert (Hr : reach (with_sys s y)).
  { eapply server_reach_step; [exact Hs|]. apply (server_event_step _ _ _ _ _ _ _ _ (SvSender i)); [done..|].
    simpl. by rewrite Hy. }
  exists (with_sys s y). unfold sender_step in Hy. unfold on_batch.
  destruct (own_batch s Hs) as (b & Hb & Hb'). rewrite Hb, !bind_Ok. rewrite Hb, bind_Ok in Hy.
  rewrite (arr_get_lookup _ _ t), bind_Ok, (Hf b Hb') in Hy by (done || lia).
  revert Hy. destruct (f b) as [b1|]; [|done]. rewrite !bind_Ok. cbv beta iota. intros Hy.
  apply bind_Ok_inv in Hy as (l & -> & Hy). apply bind_Ok_inv in Hy as (ts & Hts & [= <-]).
  rewrite bind_Ok, Hts, bind_Ok. split; [done|]. split; [done|].
  apply arr_set_Ok in Hts as [Hlt ->]. unfold own_pc. simpl. apply list_lookup_insert_eq. lia.
Qed.

(** Sending the replies is [SvSend]. *)
Lemma send_access s b bf jobs :
  reach s → own_pc s TWork → batch_set (sys s) !! Z.to_nat i = Some b →
  arr_get (buf b) (sender_buf_id b) = Ok bf →
  ∃ s', on_batch i (store_jobs jobs) TWork s = Ok s' ∧ reach s' ∧ own_pc s' TWork.
Proof.
  intros Hs Ht Hb Hbf. destruct (own_batch s Hs) as (b0 & Hb0 & Hb0'). rewrite Hb in Hb0'. injection Hb0' as <-.
  assert (Hbi : Z.of_nat (length (batch_set (sys s))) > i) by (apply lookup_lt_Some in Hb; lia).
  assert (Hti : Z.of_nat (length (senders (sys s))) > i) by (apply lookup_lt_Some in Ht; lia).
  assert (Hu : ∃ b', store_jobs jobs b = Ok b').
  { unfold store_jobs, upd_buf. rewrite Hbf, !bind_Ok. apply arr_get_Ok in Hbf as [H0 Hbf].
    apply lookup_lt_Some in Hbf. rewrite arr_set_in_bounds, bind_Ok by lia. by eexists. }
  destruct Hu as [b' Hu]. unfold on_batch. rewrite Hb0, bind_Ok, Hu, bind_Ok, (arr_set_in_bounds (batch_set (sys s))), bind_Ok by lia.
  rewrite (arr_set_in_bounds (senders _)), bind_Ok, (list_insert_id (senders _)) by (done || lia).
  eexists. split; [done|]. split; [|done].
  eapply server_reach_step; [exact Hs|]. apply (server_event_step _ _ _ _ _ _ _ _ (SvSend i jobs)); [done..|].
  simpl. unfold send_step. rewrite Hb0, bind_Ok, (arr_get_lookup _ _ TWork), bind_Ok by (done || lia).
  unfold store_jobs in Hu. rewrite Hu, bind_Ok, arr_set_in_bounds, bind_Ok by lia. done.
Qed.

(** *** The loop *)

Context (env : nat → server → server) (spins : nat) (NOT_FORWARD : bool).
Context (send : mega_batch_buf_t → sstate → result sstate).
(** The others lead to reachable states and do not move this Sender. *)
Hypothesis env_others : ∀ n s, reach s → reach (env n s) ∧ ∀ t, own_pc s t → own_pc (env n s) t.

Lemma get_buffer_steps k n s r :
  reach s → own_pc s TWait → mega_sender_get_buffer env i k n s = Ok r → reach r.2 ∧ own_pc r.2 TWork.
Proof.
  revert n s. induction k as [|k IH]; intros n s Hs Ht H; [done|]. cbn [mega_sender_get_buffer] in H.
  destruct (env_others n s Hs) as [He Hte]. specialize (Hte _ Ht).
  destruct (own_batch _ He) as (b & Hb & Hb'). rewrite Hb, bind_Ok in H.
  destruct (Z.eqb_spec (sender_buf_id b) (-1)) as [Hm|Hm]; [by eapply IH|].
  destruct (sender_access (env n s) TWait Ok TWork He Hte) as (s' & H1 & Hr & Hp).
  { intros b0 Hb0. rewrite Hb' in Hb0. injection Hb0 as <-. simpl. by rewrite (proj2 (Z.eqb_neq _ _)). }
  rewrite H1, bind_Ok in H. by injection H as <-.
Qed.

Lemma give_buffer_steps n s :
  reach s → own_pc s TWork →
  ∃ n' s', mega_sender_give_available_buffer env i n s = Ok (n', s') ∧ reach s' ∧ own_pc s' TWait.
Proof.
  intros Hs Ht. unfold mega_sender_give_available_buffer.
  destruct (env_others n s Hs) as [He Hte]. specialize (Hte _ Ht).
  destruct (sender_access _ TWork give_available TGiven He Hte) as (s1 & -> & H1 & Ht1); [done|]. rewrite bind_Ok.
  destruct (env_others (S n) s1 H1) as [He1 Hte1]. specialize (Hte1 _ Ht1).
  destruct (sender_access _ TGiven (λ b, Ok (set_sender b (-1))) TWait He1 Hte1) as (s2 & -> & H2 & Ht2); [done|].
  rewrite bind_Ok. by exists (S (S n)), s2.
Qed.

(** What the Sender works on: the buffer it has taken, in some reachable state. *)
Definition taken_buf (s : server) (b : mega_batch_t) (bf : mega_batch_buf_t) : Prop :=
  reach s ∧ own_pc s TWork ∧ batch_set (sys s) !! Z.to_nat i = Some b ∧
  arr_get (buf b) (sender_buf_id b) = Ok bf.

Lemma taken_buf_exists s : reach s → own_pc s TWork → ∃ b bf, taken_buf s b bf ∧ delay b = d.
Proof.
  intros Hs Ht. destruct (own_batch s Hs) as (b & Hb & Hb'). destruct (reach_inv s Hs) as [r Hinv].
  destruct (lookup_batch _ _ _ _ _ (sv_sys _ _ _ _ _ _ Hinv) Hb') as (t & Ht' & Hw).
  unfold own_pc in Ht. rewrite Ht in Ht'. injection Ht' as <-.
  pose proof (working_sender _ _ _ Hw) as Hne. destruct (worker_inv_range _ _ _ _ Hw) as (_ & Hr & _).
  destruct (si_worker _ _ _ (sv_sys _ _ _ _ _ _ Hinv) i b TWork) as [Hl _]; [lia|done|done|].
  destruct (arr_get_in_bounds (buf b) (sender_buf_id b)) as (bf & Hbf & _); [lia|].
  exists b, bf. split; [by split_and!|]. apply (server_delay s Hs _ _ Hb'). by left.
Qed.

Lemma sender_loop_spec n s st r :
  reach s → own_pc s TWait → d ≠ -1 → mega_sender_get_buffer env i spins n s = Ok r →
  (∀ b bf, taken_buf (env r.1 r.2) b bf → num_search_job bf ≠ 0 → NOT_FORWARD = false →
    ∃ st', send bf (with_jobs st (search_job_list bf)) = Ok st') →
  ∃ n' s' st' b bf, sender_loop env spins NOT_FORWARD send i n s st = Ok (n', s', st') ∧
    reach s' ∧ own_pc s' TWait ∧ taken_buf (env r.1 r.2) b bf ∧
    if NOT_FORWARD || (num_search_job bf =? 0) then st' = st
    else send bf (with_jobs st (search_job_list bf)) = Ok st'.
Proof.
  intros Hs Ht Hd Hget Hsend. destruct r as [n1 s0]. unfold sender_loop. rewrite Hget, bind_Ok.
  destruct (get_buffer_steps _ _ _ _ Hs Ht Hget) as [H0 Ht0]. cbn [snd] in H0, Ht0. cbv beta iota zeta.
  cbn [fst snd] in Hsend |- *.
  destruct (env_others n1 s0 H0) as [H1 Ht1]. specialize (Ht1 _ Ht0). set (s1 := env n1 s0) in *.
  destruct (taken_buf_exists s1 H1 Ht1) as (b & bf & Htaken & Hdl). pose proof Htaken as (_ & _ & Hb & Hbf).
  rewrite (arr_get_lookup _ _ b), bind_Ok, Hbf, bind_Ok by (done || lia).
  destruct (NOT_FORWARD || (num_search_job bf =? 0)) eqn:Hskip.
  - destruct (give_buffer_steps (S n1) s1 H1 Ht1) as (n' & s' & -> & Hs' & Ht'). rewrite bind_Ok.
    exists n', s', st, b, bf. by rewrite Hskip.
  - apply orb_false_iff in Hskip as [Hnf Hnum%Z.eqb_neq].
    destruct (Hsend b bf Htaken Hnum Hnf) as [st' Hst']. rewrite Hst', bind_Ok.
    destruct (send_access s1 b bf (s_jobs st') H1 Ht1 Hb Hbf) as (s2 & -> & H2 & Ht2). rewrite bind_Ok, Hdl.
    rewrite assert_true, bind_Ok by (by apply negb_true_iff, Z.eqb_neq).
    destruct (give_buffer_steps (S n1) s2 H2 Ht2) as (n' & s' & -> & Hs' & Ht'). rewrite bind_Ok.
    exists n', s', st', b, bf. by rewrite Hnf, (proj2 (Z.eqb_neq _ _) Hnum).
Qed.
End one_sender.
End refinement.

(** ** Properties *)

(** C14: the Sender's loop refines its steps and sends the answers.  Once a buffer comes,
    and if its replies can be sent, one round of [mega_sender_sendloop] - for any behaviour
    of the other threads between its accesses - ends with the buffer given back: the
    assertion on [delay] holds, no array is overrun, the state is one the server of
    [Server] reaches, and the Sender waits again.  What was sent is what [send] makes of the
    buffer it had taken; if no Receiver is late, the results in that buffer are those of
    the index at the beginning of one of the last two cycles. *)
Theorem sender_loop_refines cfg kind w fuel d timely bs t0 i env spins NOT_FORWARD send n s st r :
  let reach := server_reach cfg kind w fuel d timely bs t0 in
  let s1 := env r.1 r.2 in
  server_cfg_ok cfg → Forall (server_ready cfg) bs → bs ≠ [] → table_shape t0 →
  0 ≤ i < Z.of_nat (length bs) → d ≠ -1 →
  (∀ n s, reach s → reach (env n s) ∧ ∀ t, own_pc i s t → own_pc i (env n s) t) →
  reach s → own_pc i s TWait → mega_sender_get_buffer env i spins n s = Ok r →
  (∀ b bf, batch_set (sys s1) !! Z.to_nat i = Some b → arr_get (buf b) (sender_buf_id b) = Ok bf →
    num_search_job bf ≠ 0 → NOT_FORWARD = false → ∃ st', send bf (with_jobs st (search_job_list bf)) = Ok st') →
  ∃ n' s' st' b bf, sender_loop env spins NOT_FORWARD send i n s st = Ok (n', s', st') ∧
    reach s' ∧ own_pc i s' TWait ∧
    batch_set (sys s1) !! Z.to_nat i = Some b ∧ arr_get (buf b) (sender_buf_id b) = Ok bf ∧
    (if NOT_FORWARD || (num_search_job bf =? 0) then st' = st
     else send bf (with_jobs st (search_job_list bf)) = Ok st') ∧
    (timely = true → ∃ t', t' ∈ take 2 (starts s1) ∧ answers w t' bf).
Proof.
  intros reach s1 Hcfg Hbs Hne Ht0 Hi Hd Henv Hs Ht Hget Hsend.
  destruct (sender_loop_spec cfg kind w fuel d Hcfg timely bs t0 Hbs Hne Ht0 i Hi env spins NOT_FORWARD send Henv
    n s st r Hs Ht Hd Hget) as (n' & s' & st' & b & bf & Hloop & Hs' & Ht' & (Hr1 & Hp1 & Hb & Hbf) & Hst).
  { intros b bf (_ & _ & Hb & Hbf). by apply (Hsend b bf). }
  exists n', s', st', b, bf. split_and!; try done. intros ->.
  destruct (sees_answers cfg kind w fuel d Hcfg bs t0 s1 _ b Hbs Hne Ht0 Hr1 Hb Hp1) as (t' & bf' & Ht'' & Hbf' & Hans).
  exists t'. split; [done|]. apply arr_get_Ok in Hbf as [_ Hbf]. rewrite Hbf' in Hbf. by injection Hbf as <-.
Qed.

(** ** The property at one worker *)

(** A search is in the buffer; the Scheduler takes seven steps before the Sender looks for
    a buffer the first time, and nobody does anything later. *)
Definition ex_start : server :=
  match ex_run [SvJob 0 ex_job; SvRecv 0; SvRecv 0; SvRecv 0] with Ok s => s | Err _ => server0 [] ∅ end.
Definition sched_env (n : nat) (s : server) : server :=
  match n with
  | O => match run_server mega_init_config HASH_CUCKOO ex_w 0 0 (replicate 7 SvSched) s with Ok s' => s' | Err _ => s end
  | _ => s
  end.
Definition ex_sent : sstate := SState [] [] (replicate 2 (Frame 0 0 0 0 0 0 (replicate (Z.to_nat 1514) 0))) (SenderStat 0 0 0 0 0) [].
Definition ex_send (bf : mega_batch_buf_t) (st : sstate) : result sstate :=
  send_buffer mega_init_config ∅ false (λ l, Z.of_nat (length l)) PREFETCH_BATCH true 10 bf st.
Definition ex_taken : nat * server :=
  match mega_sender_get_buffer sched_env 0 1 0 ex_start with Ok r => r | Err _ => (0%nat, ex_start) end.

Lemma sched_step_senders d s s' : sched_step d s = Ok s' → senders s' = senders s.
Proof.
  intros H. unfold sched_step, set_batch in H.
  destruct (sched s); repeat match type of H with
    | (if ?c then _ else _) = _ => destruct c
    | (_ ≫= _) = _ => apply bind_Ok_inv in H as (? & _ & H)
    | (let '(_, _) := ?x in _) = _ => destruct x
    end; by injection H as <-.
Qed.

Lemma sched_own s s' : do_server mega_init_config HASH_CUCKOO ex_w 0 0 SvSched s = Ok s' → senders (sys s') = senders (sys s).
Proof.
  simpl. unfold scheduler_step. intros H.
  assert (Hmove : ∀ y, sched_step 0 (sys s) = Ok y → senders (sys (with_sys s y)) = senders (sys s))
    by (intros y; apply sched_step_senders).
  destruct (sched (sys s)) eqn:Hpc; try (apply bind_Ok_inv in H as (y & Hy & [= <-]); by apply Hmove).
  unfold cycle_step in H. apply bind_Ok_inv in H as (g & _ & H). apply bind_Ok_inv in H as (bufs & _ & H).
  apply bind_Ok_inv in H as ([[t c] bufs'] & _ & H). apply bind_Ok_inv in H as (l & _ & H).
  apply bind_Ok_inv in H as (y & Hy & [= <-]). by apply sched_step_senders in Hy.
Qed.

Abbreviation reach1 := (server_reach mega_init_config HASH_CUCKOO ex_w 0 0 true [ex_vbatch] ∅).

Lemma run_sched_own k s s' :
  reach1 s → run_server mega_init_config HASH_CUCKOO ex_w 0 0 (replicate k SvSched) s = Ok s' →
  reach1 s' ∧ senders (sys s') = senders (sys s).
Proof.
  revert s. induction k as [|k IH]; intros s Hs H; [by injection H as <-|].
  cbn [replicate run_server] in H. apply bind_Ok_inv in H as (s1 & H1 & H).
  assert (reach1 s1) as Hs1.
  { eapply server_reach_step; [exact Hs|]. by apply (server_event_step _ _ _ _ _ _ _ _ SvSched). }
  destruct (IH s1 Hs1 H) as [Hr ->]. split; [done|]. by apply sched_own.
Qed.

Lemma sched_env_ok n s : reach1 s → reach1 (sched_env n s) ∧ ∀ t, own_pc 0 s t → own_pc 0 (sched_env n s) t.
Proof.
  intros Hs. unfold sched_env, own_pc. destruct n; [|done]. destruct (run_server _ _ _ _ _ _ _) as [s'|] eqn:E; [|done].
  destruct (run_sched_own 7 s s' Hs E) as [Hr ->]. done.
Qed.

Lemma ex_start_reach : reach1 ex_start.
Proof.
  eapply (run_server_reach _ _ _ _ _ _ _ _ [SvJob 0 ex_job; SvRecv 0; SvRecv 0; SvRecv 0]); [apply server_reach_init|by vm_compute|].
  vm_compute. reflexivity.
Qed.

Lemma sender_loop_refines_witness :
  ∃ n s st, sender_loop sched_env 1 false ex_send 0 0 ex_start ex_sent = Ok (n, s, st) ∧
    reach1 s ∧ own_pc 0 s TWait.
Proof.
  destruct (sender_loop_refines mega_init_config HASH_CUCKOO ex_w 0 0 true [ex_vbatch] ∅ 0 sched_env 1 false ex_send
    0 ex_start ex_sent ex_taken ex_server_cfg ex_vready ltac:(discriminate) empty_table_shape ltac:(simpl; lia)
    ltac:(discriminate) sched_env_ok ex_start_reach) as (n & s & st & b & bf & H & Hr & Hp & _).
  - vm_compute. reflexivity.
  - vm_compute. reflexivity.
  - intros b bf Hb Hbf _ _. vm_compute in Hb. injection Hb as <-. vm_compute in Hbf. injection Hbf as <-.
    eexists. vm_compute. reflexivity.
  - exists n, s, st. split; [exact H|]. split; [exact Hr | exact Hp].
Defined.
