(* ===== verification/ReceiverMain.v ===== *)
(** * The Receiver's thread (src/src/mega_recv.c)

    [mega_receiver_main] behind its initialisation: the preloading of the index by the
    first Receiver, then the endless loop, over the packets of the network card or over
    those of the load generator.  [Receiver] and [Items] say what the thread does with its
    batch while the others change it between two reads of [receiver_buf_id]; [Server] has
    the same as steps of a transition system.  The properties say that the
    thread comes to an end with its packets when the other threads let it: a packet
    ([process_packet_ends]) and any number of them ([receiver_read_ends]), well-formed or
    not, with all retries, early returns and evictions, as long as the switches of the
    buffer leave one of any [W] rounds of a retry alone ([settles]); the bound of the fuel
    is explicit.  [receiver_main_refines] is the bridge to
    [Server]: what the thread does is a run of that system's steps. *)

From S2P Require Import Prelude Bitmap GpuHash Config Slabs Batch Rotation Items Packet Receiver Receive Zipf LoadGen.
From S2P Require Import Sender Index Scheduler Server.

(** ** The thread *)

(** Where the packets of the endless loop come from. *)
Inductive packet_source :=
  | Network (bursts : list (list (list Z * Z)))
  | Generator (theta : double) (NUM_DEFINED_GET NUM_DEFINED_SET : Z) (pkt : list Z) (rounds : nat).

Section thread.
Context (malloc_ok : Z → bool) (garbage : ptr → Z) (cfg : mega_config_t) (KVSIZE : Z).
Context (env : nat → mega_batch_t → mega_batch_t) (compact NOT_COLLECT : bool) (jobs fuel : nat).
Abbreviation process := (process_packet malloc_ok garbage cfg KVSIZE env jobs fuel compact).

(** [mega_receiver_local_read], with its first [rounds] packets; [pkt] is the memory of the
    packet buffer. *)
Definition mega_receiver_local_read (theta : double) (NUM_DEFINED_GET NUM_DEFINED_SET unique_id : Z)
    (pkt : list Z) (rounds : nat) (cs : mega_receiver_t * rstate) : result (mega_receiver_t * rstate) :=
  cnt ← preload_cnt KVSIZE;
  '(pkt, g) ← local_read_init cfg NUM_DEFINED_GET NUM_DEFINED_SET unique_id cnt theta pkt;
  '(_, _, total, st) ← local_read cfg KVSIZE process NUM_DEFINED_GET NUM_DEFINED_SET unique_id cnt rounds pkt g
    (recv_packets cs.1, recv_bytes cs.1) cs.2;
  Ok (ReceiverStat total.1 total.2, st).

(** [mega_receiver_main] behind [mega_receiver_init]. *)
Definition mega_receiver_main (PRELOAD : bool) (unique_id : Z) (preload_fuel : nat) (preload_pkt : list Z)
    (src : packet_source) (cs : mega_receiver_t * rstate) : result (mega_receiver_t * rstate) :=
  st ← (if PRELOAD && (unique_id =? 0) then
          cnt ← preload_cnt KVSIZE;
          '(st, _) ← preload cfg KVSIZE process preload_fuel unique_id cnt preload_pkt cs.2;
          Ok st
        else Ok cs.2);
  match src with
  | Network bursts =>
      mega_receiver_read malloc_ok garbage cfg KVSIZE env compact NOT_COLLECT jobs fuel bursts (cs.1, st)
  | Generator theta gets sets pkt rounds => mega_receiver_local_read theta gets sets unique_id pkt rounds (cs.1, st)
  end.

(** ** What the thread does with its batch

    It puts jobs into it, as [drive] does, and changes the lists of free items, which the
    other threads do not look at. *)

Inductive recv_run : nat → mega_batch_t → nat → mega_batch_t → Prop :=
  | run_done n b : recv_run n b n b
  | run_job n b tries j n1 b1 ok n2 b2 :
      drive cfg env tries j n b = Ok (n1, b1, ok) → recv_run n1 b1 n2 b2 → recv_run n b n2 b2
  | run_slab n b l n2 b2 : recv_run n (set_local_slab b l) n2 b2 → recv_run n b n2 b2.

Definition ran (st st' : rstate) : Prop := recv_run (r_reads st) (r_batch st) (r_reads st') (r_batch st').

Lemma recv_run_trans n b n1 b1 n2 b2 : recv_run n b n1 b1 → recv_run n1 b1 n2 b2 → recv_run n b n2 b2.
Proof. induction 1; eauto using recv_run. Qed.

#[export] Instance ran_preorder : PreOrder ran.
Proof. split; [intros st; apply run_done|]. intros s1 s2 s3. apply recv_run_trans. Qed.

Lemma drive_run tries j n b n' b' ok : drive cfg env tries j n b = Ok (n', b', ok) → recv_run n b n' b'.
Proof. intros H. eapply run_job; [exact H|apply run_done]. Qed.

Lemma slab_run n b l : recv_run n b n (set_local_slab b l).
Proof. apply (run_slab n b l), run_done. Qed.

(** *** Evictions *)

(** The assertion on the offset only stops the thread. *)
Lemma add_delete_run tries n b offset it r :
  add_delete_job cfg env tries n b offset it = Ok r → recv_run n b r.1.1 r.1.2.
Proof.
  intros H. destruct (Z.eqb_spec offset (loc_offset (it_loc it))) as [->|Hne].
  - rewrite add_delete_steps in H. apply bind_Ok_inv in H as ([[n' b'] ok] & Hd & [= <-]).
    by eapply drive_run.
  - destruct tries as [|tries]; [done|]. cbn [add_delete_job] in H.
    apply bind_Ok_inv in H as (bf & Hbf & H). destruct (_ <=? _) eqn:Hfull.
    + injection H as <-. eapply (drive_run 1 (JDelete it) _ _ _ _ false). cbn [drive].
      rewrite recv_worker_read, Hbf, bind_Ok. cbn [job_body]. unfold delete_body. rewrite Hfull, bind_Ok.
      by rewrite (set_buf_same _ _ _ Hbf), bind_Ok.
    + apply bind_Ok_inv in H as (l & _ & H). apply bind_Ok_inv in H as (u & Ha%assert_Ok%Z.eqb_eq & _). done.
Qed.

Lemma evict_items_run tries p offsets n h b it_list cnt r :
  evict_items cfg env tries p offsets n h b it_list cnt = Ok r → recv_run n b r.1.1.1.1 r.1.1.2.
Proof.
  revert n h b it_list cnt. induction offsets as [|offset offsets IH]; intros n h b it_list cnt H.
  { injection H as <-. apply run_done. }
  cbn [evict_items] in H. apply bind_Ok_inv in H as (u & _ & H). apply bind_Ok_inv in H as (q & _ & H).
  destruct (h !! q) as [it|]; [|done]. destruct (negb _); [by eapply IH|].
  apply bind_Ok_inv in H as ([[n1 b1] stop] & Hd & H). apply add_delete_run in Hd. cbn [fst snd] in Hd.
  destruct stop; [by injection H as <-|]. eapply recv_run_trans; [exact Hd|by eapply IH].
Qed.

Lemma item_alloc_once_run tries ntotal id n s b r :
  item_alloc_once malloc_ok garbage cfg env tries ntotal id n s b = Ok r → recv_run n b r.1.1.1 r.1.2.
Proof.
  unfold item_alloc_once. intros H. destruct (memory_full s).
  - destruct (negb _); [done|]. apply bind_Ok_inv in H as (p & _ & H).
    apply bind_Ok_inv in H as ([[bm offs] num] & _ & H). apply bind_Ok_inv in H as (u & _ & H).
    apply bind_Ok_inv in H as (cs & _ & H). apply bind_Ok_inv in H as ([[[[n1 h1] b1] l1] cnt] & He & H).
    apply evict_items_run in He. destruct (_ =? _); [done|]. by injection H as <-.
  - apply bind_Ok_inv in H as ([s1 l1] & _ & [= <-]). apply run_done.
Qed.

Lemma item_alloc_run tries kvsize n s b r :
  item_alloc_batch malloc_ok garbage cfg env tries kvsize n s b = Ok r → recv_run n b r.1.1.1 r.1.2.
Proof.
  unfold item_alloc_batch. intros H. apply bind_Ok_inv in H as (id & _ & H).
  destruct (_ || _); [injection H as <-; apply run_done|]. revert H. generalize 2%nat. intros k. revert n s b.
  induction k as [|k IH]; intros n s b H; [done|]. cbn [item_alloc_loop] in H.
  apply bind_Ok_inv in H as ([[[n1 s1] b1] l1] & Ho & H). apply item_alloc_once_run in Ho. cbn [fst snd] in Ho.
  destruct l1; [by injection H as <-|]. eapply recv_run_trans; [exact Ho|by eapply IH].
Qed.

(** *** Packets *)

Lemma clear_flags_ran st p st' : clear_flags st p = Ok st' → ran st st'.
Proof. unfold clear_flags. intros H. apply bind_Ok_inv in H as (s & _ & [= <-]). apply run_done. Qed.

Lemma add_search_ran tries st kk cl sig st' r : add_search cfg env tries compact st kk cl sig = Ok (st', r) → ran st st'.
Proof.
  rewrite add_search_steps. intros H. apply bind_Ok_inv in H as ([[n b] ok] & Hd & [= <- _]). by eapply drive_run.
Qed.

Lemma add_insert_ran tries st p it sig st' ok :
  add_insert cfg env tries st (insert_block_id cfg (s_hash (key_elem sig))) p it (s_sig (key_elem sig))
    (s_hash (key_elem sig)) = Ok (st', ok) → ran st st'.
Proof.
  rewrite add_insert_steps. intros H. apply bind_Ok_inv in H as ([[n b] ok'] & Hd & H). apply drive_run in Hd.
  destruct ok'; [by injection H as <- _|]. apply bind_Ok_inv in H as (st1 & Hc & [= <- _]).
  apply clear_flags_ran in Hc. by etrans; [|exact Hc].
Qed.

Lemma batch_alloc_ran tries st size st' r : batch_alloc malloc_ok garbage cfg env tries st size = Ok (st', r) → ran st st'.
Proof.
  unfold batch_alloc. intros H. apply bind_Ok_inv in H as (i & _ & H). destruct (_ =? _); [injection H as <- _; done|].
  apply bind_Ok_inv in H as (slot & _ & H). apply bind_Ok_inv in H as (st1 & Halloc & H).
  assert (Hran : ran st st1).
  { destruct slot; [by injection Halloc as <-|].
    apply bind_Ok_inv in Halloc as ([[[n s] b] l] & Ha & Halloc). apply item_alloc_run in Ha.
    apply bind_Ok_inv in Halloc as (slabs & _ & [= <-]). eapply recv_run_trans; [exact Ha|apply slab_run]. }
  apply bind_Ok_inv in H as (slot' & _ & H). destruct slot' as [p|]; [|done].
  destruct (heap (r_slabs st1) !! p) as [it|]; [|done]. apply bind_Ok_inv in H as (slabs & _ & H).
  apply bind_Ok_inv in H as (s & _ & [= <- _]). etrans; [exact Hran|apply slab_run].
Qed.

Lemma process_get_ran tries pkt st kk ptr cl st' r : process_get cfg KVSIZE env tries compact pkt st kk ptr cl = Ok (st', r) → ran st st'.
Proof.
  unfold process_get. intros H. apply bind_Ok_inv in H as (nkey & _ & H). destruct (negb _); [by injection H as <- _|].
  apply bind_Ok_inv in H as (sig & _ & H). apply bind_Ok_inv in H as ([st1 r1] & Ha & [= <- _]). by eapply add_search_ran.
Qed.

Lemma process_set_ran tries pkt st kk ptr st' r :
  process_set malloc_ok garbage cfg KVSIZE env tries pkt st kk ptr = Ok (st', r) → ran st st'.
Proof.
  unfold process_set. intros H. apply bind_Ok_inv in H as (nkey & _ & H). apply bind_Ok_inv in H as (nbyte & _ & H).
  apply bind_Ok_inv in H as ([st1 p] & Ha & H). apply batch_alloc_ran in Ha. etrans; [exact Ha|].
  destruct p as [p|]; [|by injection H as <- _].
  apply bind_Ok_inv in H as (bytes & _ & H). apply bind_Ok_inv in H as (s & _ & H).
  change (ran st1 st') with (ran (with_r_slabs st1 s) st'). set (st2 := with_r_slabs st1 s) in *.
  destruct (_ || _).
  { apply bind_Ok_inv in H as (st3 & Hc & [= <- _]). by eapply clear_flags_ran. }
  apply bind_Ok_inv in H as (sig & _ & H). destruct (heap (r_slabs st2) !! p) as [it|]; [|done].
  apply bind_Ok_inv in H as ([st3 ok] & Hi & [= <- _]). by apply add_insert_ran in Hi.
Qed.

Lemma process_ran pkt pkt_len st st' r : process pkt pkt_len st = Ok (st', r) → ran st st'.
Proof.
  unfold process_packet. intros H. apply bind_Ok_inv in H as (eth & _ & H).
  apply bind_Ok_inv in H as (ip & _ & H). apply bind_Ok_inv in H as (port & _ & H).
  apply bind_Ok_inv in H as (magic & _ & H). destruct (negb _); [by injection H as <- _|].
  revert H. generalize (off_payload + MEGA_MAGIC_NUM_LEN), 0, (Client eth ip port). generalize jobs.
  intros k ptr kk cl. revert st kk ptr. induction k as [|k IH]; intros st kk ptr H; [done|]. cbn [process_jobs] in H.
  apply bind_Ok_inv in H as (ty & _ & H). destruct (ty =? 0xFFFF); [by injection H as <- _|].
  destruct (_ || _); [|by injection H as <- _]. apply bind_Ok_inv in H as ([st1 res] & Hjob & H).
  assert (Hran : ran st st1) by (destruct (_ =? _); [by eapply process_get_ran|by eapply process_set_ran]).
  etrans; [exact Hran|]. destruct res as [[kk1 ptr1]|]; [|by injection H as <- _].
  destruct (_ <=? _); [by injection H as <- _|]. by eapply IH.
Qed.

(** *** The loops over the packets *)

Lemma read_ran bursts cs cs' :
  mega_receiver_read malloc_ok garbage cfg KVSIZE env compact NOT_COLLECT jobs fuel bursts cs = Ok cs' → ran cs.2 cs'.2.
Proof.
  revert cs. induction bursts as [|ms bursts IH]; intros cs H; [by injection H as <-|]. cbn [mega_receiver_read] in H.
  apply bind_Ok_inv in H as (cs1 & H1 & H). apply IH in H. etrans; [|exact H]. clear H IH.
  unfold receive_burst in H1. change (ran cs.2 cs1.2) with (ran (count_packets cs.1 (Z.of_nat (length ms)), cs.2).2 cs1.2).
  revert H1. generalize (count_packets cs.1 (Z.of_nat (length ms)), cs.2). clear cs. induction ms as [|m ms IH]; intros cs H.
  { by injection H as <-. }
  cbn [receive_packets] in H. apply bind_Ok_inv in H as (cs2 & H2 & H). apply IH in H. etrans; [|exact H].
  unfold receive_packet in H2. destruct NOT_COLLECT; [by injection H2 as <-|].
  apply bind_Ok_inv in H2 as ([st r] & Hp & [= <-]). by eapply process_ran.
Qed.

Lemma preload_ran k id cnt pkt st st' m : preload cfg KVSIZE process k id cnt pkt st = Ok (st', m) → ran st st'.
Proof.
  unfold preload. intros H. apply bind_Ok_inv in H as (pkt1 & _ & H). apply bind_Ok_inv in H as (u & _ & H).
  apply bind_Ok_inv in H as (st1 & H & [= <- _]). revert pkt1 st H. generalize 1.
  induction k as [|k IH]; intros key pkt1 st H; cbn [preload_loop] in H; (destruct (_ <? _); [|by injection H as <-]); [done|].
  apply bind_Ok_inv in H as ([[pkt2 len] key2] & _ & H). apply bind_Ok_inv in H as ([st2 r] & Hp & H).
  apply process_ran in Hp. etrans; [exact Hp|by eapply IH].
Qed.

Lemma local_read_ran gets sets id cnt rounds pkt g total st pkt' g' total' st' :
  local_read cfg KVSIZE process gets sets id cnt rounds pkt g total st = Ok (pkt', g', total', st') → ran st st'.
Proof.
  revert pkt g total st. induction rounds as [|k IH]; intros pkt g total st H; [by injection H as <- <- <- <-|].
  cbn [local_read] in H. apply bind_Ok_inv in H as ([[[pkt1 g1] total1] st1] & H1 & H).
  etrans; [|by eapply IH]. unfold local_packet in H1. apply bind_Ok_inv in H1 as (pkt2 & _ & H1).
  apply bind_Ok_inv in H1 as ([[[pkt3 ptr] len] g2] & _ & H1). apply bind_Ok_inv in H1 as (pkt4 & _ & H1).
  apply bind_Ok_inv in H1 as ([st2 r] & Hp & [= <- <- <- <-]). by eapply process_ran.
Qed.

Lemma receiver_main_ran PRELOAD id k ppkt src cs cs' :
  mega_receiver_main PRELOAD id k ppkt src cs = Ok cs' → ran cs.2 cs'.2.
Proof.
  unfold mega_receiver_main. intros H. apply bind_Ok_inv in H as (st & Hpre & H).
  assert (Hran : ran cs.2 st).
  { destruct (_ && _); [|by injection Hpre as <-]. apply bind_Ok_inv in Hpre as (cnt & _ & Hpre).
    apply bind_Ok_inv in Hpre as ([st1 m] & Hp & [= <-]). by eapply preload_ran. }
  etrans; [exact Hran|]. destruct src as [bursts|theta gets sets pkt rounds]; [by apply read_ran in H|].
  unfold mega_receiver_local_read in H. apply bind_Ok_inv in H as (cnt & _ & H).
  apply bind_Ok_inv in H as ([pkt1 g] & _ & H). apply bind_Ok_inv in H as ([[[pkt2 g2] total] st2] & Hl & [= <-]).
  by eapply local_read_ran.
Qed.
End thread.

(** ** Batches up to the lists of free items

    [local_slab] is the Receiver's own; [Server] does not follow it. *)

Definition same_batch (b c : mega_batch_t) : Prop := set_local_slab b [] = set_local_slab c [].

#[export] Instance same_batch_equivalence : Equivalence same_batch.
Proof. split; unfold same_batch; congruence. Qed.

Lemma same_batch_slab b c l : same_batch b c → same_batch b (set_local_slab c l).
Proof. done. Qed.

(** A Receiver's step does not look at them. *)
Lemma recv_worker_slab cfg b pc l :
  recv_worker cfg (set_local_slab b l) pc =
  ('(b', pc') ← recv_worker cfg b pc; Ok (set_local_slab b' l, pc')).
Proof.
  destruct pc as [|j|j id|j id u]; [done|done| |]; cbn [recv_worker].
  - change (buf (set_local_slab b l)) with (buf b). destruct (arr_get (buf b) id); [|done]. rewrite !bind_Ok.
    destruct (job_body cfg j a) as [[bf u]|]; [|done]. rewrite !bind_Ok. cbv beta iota. by destruct (arr_set _ _ _).
  - change (receiver_buf_id (set_local_slab b l)) with (receiver_buf_id b). destruct (_ =? _); [done|].
    destruct u; cbn [take_back]; unfold upd_buf; change (buf (set_local_slab b l)) with (buf b); try done;
      (destruct (arr_get (buf b) id); [|done]; rewrite !bind_Ok; destruct (job_undo _ a); [|done];
       rewrite !bind_Ok; by destruct (arr_set _ _ _)).
Qed.

(** It writes to the buffers only. *)
Lemma recv_worker_control cfg b pc b' pc' : recv_worker cfg b pc = Ok (b', pc') → ∃ a, b' = set_buf b a.
Proof.
  destruct pc as [|j|j id|j id u]; cbn [recv_worker]; intros H.
  1-2: injection H as <- _; exists (buf b); by rewrite set_buf_id.
  - apply bind_Ok_inv in H as (bf & _ & H).
    apply bind_Ok_inv in H as ([bf' u] & _ & H). apply bind_Ok_inv in H as (a & _ & [= <- _]). by exists a.
  - destruct (_ =? _); [injection H as <- _; exists (buf b); by rewrite set_buf_id|].
    apply bind_Ok_inv in H as (b1 & H & [= <- _]).
    apply take_back_upd in H as [->|H]; [exists (buf b); by rewrite set_buf_id|].
    unfold upd_buf in H. apply bind_Ok_inv in H as (bf & _ & H). apply bind_Ok_inv in H as (bf' & _ & H).
    apply bind_Ok_inv in H as (a & _ & [= <-]). by exists a.
Qed.

Lemma same_batch_eq b c : same_batch b c → c = set_local_slab b (local_slab c).
Proof. unfold same_batch. destruct b, c. unfold set_local_slab. simpl. by intros [= -> -> -> -> -> -> ->]. Qed.

Lemma recv_worker_same cfg b c pc b' pc' :
  same_batch c b → recv_worker cfg b pc = Ok (b', pc') →
  ∃ c', recv_worker cfg c pc = Ok (c', pc') ∧ same_batch c' b'.
Proof.
  intros Hs H. symmetry in Hs. rewrite (same_batch_eq _ _ Hs), recv_worker_slab, H, bind_Ok.
  eexists. split; [done|]. by symmetry; apply same_batch_slab.
Qed.

(** ** The thread as steps of the server *)

(** The steps of Receiver [i], and those of all others. *)
Definition own_event (i : nat) (e : server_event) : bool :=
  match e with SvJob k _ | SvRecv k => k =? Z.of_nat i | _ => false end.

Section refinement.
Context (cfg : mega_config_t) (kind : hash_kind) (w : winner_t) (fuel : nat) (d : Z).
Context (timely : bool) (bs : list mega_batch_t) (t0 : table).
Context (i : nat).

Abbreviation reach := (server_reach cfg kind w fuel d timely bs t0).
Abbreviation event e s s' := (do_server cfg kind w fuel d e s = Ok s').

Inductive others : server → server → Prop :=
  | others_none s : others s s
  | others_event s s1 s2 e : own_event i e = false → (timely = true → event_in_time e s) →
      event e s s1 → others s1 s2 → others s s2.

(** The others neither leave the reachable states nor touch where Receiver [i] is. *)
Lemma others_reach s s' : others s s' → reach s → reach s' ∧ receivers s' !! i = receivers s !! i.
Proof.
  induction 1 as [|s s1 s2 e Hown Htime He _ IH]; [done|]. intros Hs.
  destruct IH as [Hr ->]. { eapply server_reach_step; [exact Hs|]. by eapply server_event_step. }
  split; [done|]. destruct e as [|k|k j|k|k l]; cbn [do_server] in He.
  - unfold scheduler_step, cycle_step in He. destruct (sched (sys s));
      repeat match type of He with
      | (let '(_, _) := ?x in _) = _ => destruct x
      | (_ ≫= _) = _ => apply bind_Ok_inv in He as (? & _ & He)
      end; by injection He as <-.
  - by apply bind_Ok_inv in He as (y & _ & [= <-]).
  - unfold job_step in He. apply bind_Ok_inv in He as (rp & [Hk _]%arr_get_Ok & He).
    destruct rp; try (by injection He as <-). apply bind_Ok_inv in He as (pcs & [_ ->]%arr_set_Ok & [= <-]).
    cbn [own_event] in Hown. apply Z.eqb_neq in Hown. simpl. apply list_lookup_insert_ne. lia.
  - unfold recv_step in He. apply bind_Ok_inv in He as (b & [Hk _]%arr_get_Ok & He).
    apply bind_Ok_inv in He as (rp & _ & He). apply bind_Ok_inv in He as ([b' rp'] & _ & He).
    apply bind_Ok_inv in He as (l & _ & He). apply bind_Ok_inv in He as (pcs & [_ ->]%arr_set_Ok & [= <-]).
    cbn [own_event] in Hown. apply Z.eqb_neq in Hown. simpl. apply list_lookup_insert_ne. lia.
  - unfold send_step in He. apply bind_Ok_inv in He as (b & _ & He). apply bind_Ok_inv in He as (t & _ & He).
    destruct t; try (by injection He as <-). apply bind_Ok_inv in He as (b' & _ & He).
    by apply bind_Ok_inv in He as (l' & _ & [= <-]).
Qed.

(** Batch [i] of the server, as the thread sees it. *)
Definition holds (s : server) (b : mega_batch_t) : Prop :=
  ∃ c, batch_set (sys s) !! i = Some c ∧ same_batch c b.

(** [env] is what the others do: [R n] describes the server before the [n]th access. *)
Context (env : nat → mega_batch_t → mega_batch_t) (R : nat → server → Prop).

Record coupled : Prop := {
  (** the others' turn; they do not look at the lists of free items *)
  cp_env : ∀ n s b, reach s → R n s → holds s b → ∃ s', others s s' ∧ R (S n) s' ∧ holds s' (env n b);
  (** the Receiver's own steps *)
  cp_own : ∀ n s e s', reach s → R n s → own_event i e = true → event e s s' → R n s';
}.
Hypothesis Hcoupled : coupled.

(** Receiver [i] is at [pc], its batch is [b], and [n] accesses are behind it. *)
Record at_access (n : nat) (s : server) (pc : recv_pc) (b : mega_batch_t) : Prop := {
  aa_reach : reach s;
  aa_coupled : R n s;
  aa_pc : receivers s !! i = Some pc;
  aa_batch : holds s b;
}.

Lemma env_turn n s pc b : at_access n s pc b → ∃ s', at_access (S n) s' pc (env n b).
Proof.
  intros [Hr HR Hpc Hb]. destruct (cp_env Hcoupled n s b Hr HR Hb) as (s' & Ho & HR' & Hb').
  destruct (others_reach _ _ Ho Hr) as [Hr' Hrp]. exists s'. split; try done. by rewrite Hrp.
Qed.

Lemma own_step n s pc b b' pc' :
  at_access n s pc b → in_time b pc → recv_worker cfg b pc = Ok (b', pc') → ∃ s', at_access n s' pc' b'.
Proof.
  intros [Hr HR Hpc (c & Hc & Hs)] Htime Hw. destruct (recv_worker_same _ _ _ _ _ _ Hs Hw) as (c' & Hw' & Hs').
  pose proof (lookup_lt_Some _ _ _ Hc). pose proof (lookup_lt_Some _ _ _ Hpc).
  assert (He : ∃ s', event (SvRecv (Z.of_nat i)) s s' ∧ receivers s' !! i = Some pc' ∧ holds s' b').
  { simpl. unfold recv_step.
    rewrite (arr_get_lookup (batch_set _) _ c), bind_Ok by (rewrite ?Nat2Z.id; done || lia).
    rewrite (arr_get_lookup (receivers s) _ pc), bind_Ok by (rewrite ?Nat2Z.id; done || lia).
    rewrite Hw', bind_Ok. cbv beta iota. rewrite (arr_set_in_bounds (batch_set _)), bind_Ok by lia.
    rewrite arr_set_in_bounds, bind_Ok by lia. eexists. split; [done|]. rewrite Nat2Z.id. cbn [receivers].
    split; [by apply list_lookup_insert_eq|]. exists c'. cbn [sys batch_set]. split; [by apply list_lookup_insert_eq|done]. }
  destruct He as (s' & He & Hpc' & Hb'). exists s'. split; try done.
  - eapply server_reach_step; [exact Hr|]. eapply server_event_step; [|exact He]. intros _. simpl.
    rewrite Nat2Z.id, Hc, Hpc. destruct pc; try done. simpl in Htime |- *. unfold same_batch in Hs.
    destruct c, b. by injection Hs as -> -> -> -> -> -> ->.
  - eapply (cp_own Hcoupled); [exact Hr|exact HR| |exact He]. simpl. by rewrite Z.eqb_refl.
Qed.

Lemma new_job n s j b : at_access n s RIdle b → ∃ s', at_access n s' (RTry j) b.
Proof.
  intros [Hr HR Hpc Hb]. pose proof (lookup_lt_Some _ _ _ Hpc).
  assert (He : event (SvJob (Z.of_nat i) j) s
    (Server (sys s) (<[i := RTry j]> (receivers s)) (index s) (stats s) (starts s))).
  { simpl. unfold job_step. rewrite (arr_get_lookup (receivers s) _ RIdle), bind_Ok by (rewrite ?Nat2Z.id; done || lia).
    by rewrite arr_set_in_bounds, Nat2Z.id by lia. }
  eexists. split; [|..].
  - eapply server_reach_step; [exact Hr|]. by eapply server_event_step; [|exact He].
  - eapply (cp_own Hcoupled); [exact Hr|exact HR| |exact He]. simpl. by rewrite Z.eqb_refl.
  - by apply list_lookup_insert_eq.
  - exact Hb.
Qed.

Lemma drive_steps tries j n b n' b' ok s :
  drive cfg env tries j n b = Ok (n', b', ok) → at_access n s (RTry j) b → ∃ s', at_access n' s' RIdle b'.
Proof.
  revert n b s. induction tries as [|tries IH]; intros n b s H Hs; [done|]. cbn [drive] in H.
  destruct (env_turn _ _ _ _ Hs) as [s1 H1].
  destruct (own_step _ _ _ _ _ _ H1 I eq_refl) as [s2 H2].
  apply bind_Ok_inv in H as ([b1 pc] & Hw & H).
  destruct (own_step _ _ _ _ _ _ H2 eq_refl Hw) as [s3 H3].
  destruct pc as [|j'|j' id|j' id u].
  1-3: rewrite recv_worker_read in Hw; apply bind_Ok_inv in Hw as (bf & _ & Hw);
    apply bind_Ok_inv in Hw as ([bf' u] & _ & Hw); destruct u; try discriminate.
  { injection H as <- <- <-. by exists s3. }
  apply bind_Ok_inv in H as ([b2 pc2] & Hw2 & H). destruct (env_turn _ _ _ _ H3) as [s4 H4].
  destruct (own_step _ _ _ _ _ _ H4 I Hw2) as [s5 H5].
  assert (j' = j) as ->.
  { rewrite recv_worker_read in Hw. apply bind_Ok_inv in Hw as (bf & _ & Hw).
    apply bind_Ok_inv in Hw as ([bf' u'] & _ & Hw). destruct u'; try discriminate. by injection Hw. }
  destruct pc2 as [|j2|j2 id2|j2 id2 u2]; [injection H as <- <- <-; by exists s5| | |];
    cbn [recv_worker] in Hw2; (destruct (id =? _); [discriminate|]);
    apply bind_Ok_inv in Hw2 as (b3 & _ & [= -> ->]). by eapply IH.
Qed.

Lemma recv_run_steps n b n' b' s :
  recv_run cfg env n b n' b' → at_access n s RIdle b → ∃ s', at_access n' s' RIdle b'.
Proof.
  intros Hrun. revert s. induction Hrun as [n b|n b tries j n1 b1 ok n2 b2 Hd _ IH|n b l n2 b2 _ IH]; intros s Hs.
  - by exists s.
  - destruct (new_job _ _ j _ Hs) as [s1 H1]. destruct (drive_steps _ _ _ _ _ _ _ _ Hd H1) as [s2 H2]. by eapply IH.
  - apply (IH s). destruct Hs as [Hr HR Hpc (c & Hc & Hs)]. split; try done. exists c. by split.
Qed.
End refinement.

(** ** The end of the retries

    A job is tried again only when the buffer was switched in between. *)

Section retries.
Context (cfg : mega_config_t) (env : nat → mega_batch_t → mega_batch_t).

Lemma job_body_fuel j bf : fuel_free (job_body cfg j bf).
Proof.
  destruct j; simpl; unfold search_body, insert_body, delete_body, search_compact, search_plain, insert_job; fuel_free.
Qed.

Lemma take_back_fuel u id b : fuel_free (take_back u id b).
Proof. destruct u; simpl; unfold upd_buf, undo_compact, undo_plain, undo_insert; fuel_free. Qed.

Lemma recv_worker_fuel b pc : fuel_free (recv_worker cfg b pc).
Proof.
  destruct pc as [|j|j id|j id u]; simpl; [done|done| |].
  - apply fuel_free_bind; [apply fuel_free_arr_get|intros bf].
    apply fuel_free_bind; [apply job_body_fuel|intros [bf' u]]. fuel_free.
  - destruct (_ =? _); [done|]. apply fuel_free_bind; [apply take_back_fuel|done].
Qed.

(** From access [N] on the buffer is not switched any more. *)
Definition calm_from (N : nat) : Prop := ∀ m b, (N ≤ m)%nat → receiver_buf_id (env m b) = receiver_buf_id b.

(** Of any [W] rounds of a retry loop there is one in which the buffer is not switched
    between the two accesses; it may be switched for ever. *)
Definition settles (W : nat) : Prop :=
  ∀ n, ∃ k, (k < W)%nat ∧ ∀ b, receiver_buf_id (env (n + 2 * k + 1) b) = receiver_buf_id b.

Lemma calm_settles N : calm_from N → settles (S N).
Proof. intros Hcalm n. exists N. split; [lia|]. intros b. apply Hcalm. lia. Qed.

(** The round [k] after which the loop is left. *)
Lemma drive_round k tries j n b :
  (∀ b, receiver_buf_id (env (n + 2 * k + 1) b) = receiver_buf_id b) → (k < tries)%nat →
  fuel_free (drive cfg env tries j n b).
Proof.
  revert tries n b. induction k as [|k IH]; intros [|tries] n b Hk Ht; [lia| |lia|]; cbn [drive];
    (destruct (recv_worker cfg (env n b) _) as [[b1 pc]|e] eqn:Hw;
      [|intros [= ->]; by apply (recv_worker_fuel _ _ Hw)]);
    rewrite bind_Ok; cbv beta iota; (destruct pc as [|j1|j1 id1|j1 id u]; try done);
    (destruct (recv_worker cfg (env (S n) _) _) as [[b2 pc2]|e] eqn:Hw2;
      [|intros [= ->]; by apply (recv_worker_fuel _ _ Hw2)]);
    rewrite bind_Ok; cbv beta iota.
  - destruct (recv_worker_control _ _ _ _ _ Hw) as (a & ->).
    rewrite recv_worker_read in Hw. apply bind_Ok_inv in Hw as (bf & _ & Hw).
    apply bind_Ok_inv in Hw as ([bf' u'] & _ & Hw). destruct u' as [u'|]; [|discriminate].
    injection Hw as _ _ Hid _. replace (n + 2 * 0 + 1)%nat with (S n) in Hk by lia.
    cbn [recv_worker] in Hw2. rewrite Hk in Hw2. change (receiver_buf_id (set_buf _ _)) with (receiver_buf_id (env n b)) in Hw2.
    rewrite <-Hid, Z.eqb_refl in Hw2. by injection Hw2 as _ <-.
  - assert (Hnext : ∀ b, receiver_buf_id (env (S (S n) + 2 * k + 1) b) = receiver_buf_id b).
    { intros c. rewrite <-(Hk c). do 2 f_equal. lia. }
    destruct pc2; try done; apply IH; done || lia.
Qed.

Context (W tries : nat) (Hset : settles W) (Htries : (W ≤ tries)%nat).

Lemma drive_ends j n b : fuel_free (drive cfg env tries j n b).
Proof. destruct (Hset n) as (k & Hk & Hround). apply (drive_round k); [done|lia]. Qed.

Lemma add_search_ends compact st kk cl sig : fuel_free (add_search cfg env tries compact st kk cl sig).
Proof. rewrite add_search_steps. apply fuel_free_bind; [apply drive_ends|]. by intros [[n' b'] ok]. Qed.

Lemma add_insert_ends st p it sig :
  fuel_free (add_insert cfg env tries st (insert_block_id cfg (s_hash (key_elem sig))) p it (s_sig (key_elem sig))
    (s_hash (key_elem sig))).
Proof.
  rewrite add_insert_steps. apply fuel_free_bind; [apply drive_ends|]. intros [[n' b'] ok].
  destruct ok; [done|]. unfold clear_flags, write_item. fuel_free.
Qed.

(** The assertion on the offset fails in the first round. *)
Lemma add_delete_ends n b offset it : fuel_free (add_delete_job cfg env tries n b offset it).
Proof.
  destruct (Z.eqb_spec offset (loc_offset (it_loc it))) as [->|Hne].
  { rewrite add_delete_steps. apply fuel_free_bind; [apply drive_ends|]. by intros [[n' b'] ok]. }
  destruct (Hset 0%nat) as (k & Hk & _). destruct tries as [|tries']; [lia|]. cbn [add_delete_job].
  apply fuel_free_bind; [fuel_free|]. intros bf. destruct (_ <=? _); [done|].
  apply fuel_free_bind; [fuel_free|]. intros l. by rewrite (proj2 (Z.eqb_neq _ _) Hne).
Qed.
End retries.

(** ** The end of a packet

    The allocator's invariant is what makes the loops of an eviction end: the walk of the
    clock over the bitmap, the second pass of [item_alloc_batch]. *)

#[export] Hint Extern 1 (fuel_free (load _ _ _)) => (unfold load, bytes_at; fuel_free) : fuel_free.

Lemma slab_index_fuel n sizes i size : fuel_free (slab_index n sizes i size).
Proof. revert i. induction n as [|n IH]; intros i; [done|]. cbn [slab_index]. fuel_free. Qed.

Lemma write_item_ends cfg s p f :
  slabs_wf cfg s → (∀ it, heap s !! p = Some it → ends (same_item it) (f it)) → ends (slabs_wf cfg) (write_item s p f).
Proof.
  intros Hs Hf. unfold write_item. destruct (heap s !! p) as [it|] eqn:Hp; [|done]. specialize (Hf it eq_refl).
  eapply ends_bind; [exact Hf|]. intros it' _ Hsame. apply slabs_wf_items; [done|]. by eapply same_items_insert.
Qed.

Lemma store_item_ends nkey nbyte bytes it : ends (same_item it) (store_item nkey nbyte bytes it).
Proof.
  unfold store_item. destruct (Nat.ltb_spec (length (it_data it)) (length bytes)); [done|].
  split_and!; [done|done|]. simpl. apply write_run_length. lia.
Qed.

Lemma clear_flags_ends cfg st p : slabs_wf cfg (r_slabs st) → ends (λ st', slabs_wf cfg (r_slabs st')) (clear_flags st p).
Proof.
  intros Hs. unfold clear_flags. eapply ends_bind; [by apply write_item_ends|]. by intros s' _ Hs'.
Qed.

Section packets.
Context (malloc_ok : Z → bool) (garbage : ptr → Z) (cfg : mega_config_t) (KVSIZE : Z).
Context (env : nat → mega_batch_t → mega_batch_t) (compact : bool) (W fuel : nat).
Context (Hcfg : cfg_ok cfg) (Hbatch : 0 < evict_batch_size cfg ≤ 512) (Hset : settles env W).
(** One round per retry, and one per word of the largest bitmap and two per victim. *)
Context (Hretries : (W ≤ fuel)%nat) (Hwords : 2 ^ 23 + 1024 ≤ Z.of_nat fuel).

Lemma evict_items_ends p offsets n h b it_list cnt :
  (it_list = None → cnt = 0) →
  ends (λ r, same_items h r.1.1.1.2 ∧ (r.1.2 = None → r.2 = 0)) (evict_items cfg env fuel p offsets n h b it_list cnt).
Proof.
  revert n h b it_list cnt. induction offsets as [|offset offsets IH]; intros n h b it_list cnt H0.
  { split; [apply same_items_refl|done]. }
  cbn [evict_items]. apply ends_free_bind; [apply fuel_free_assert|]. intros u _.
  apply ends_free_bind; [unfold item_at; fuel_free|]. intros q _.
  destruct (h !! q) as [it|] eqn:Hq; [|done]. destruct (negb _); [by apply IH|]. set (h1 := <[q := _]> h).
  assert (Hsame : same_items h h1) by (by eapply same_items_insert).
  apply ends_free_bind; [by apply (add_delete_ends cfg env W)|]. intros [[n1 b1] stop] _.
  destruct stop; [by split|]. eapply ends_mono; [by apply IH|]. intros r [H1 H2]. split; [|done].
  by eapply same_items_trans.
Qed.

(** The walk of the clock over the bitmap of a class. *)
Lemma evict_batch_ends p h m id :
  class_wf cfg m h id p →
  ends (λ r, bitmap_wf r.1.1 ∧ bm_offset_mask r.1.1 = all_ones64 ∧ bm_size r.1.1 = bm_size (sc_bitmap p) ∧
      bm_current_size r.1.1 = bm_current_size (sc_bitmap p))
    (bitmap_evict_batch fuel (sc_bitmap p) (replicate (Z.to_nat (EVICT_BATCH_SIZE + 63)) 0) (evict_batch_size cfg)).
Proof.
  intros Hwf. destruct (cw_bitmap Hwf) as [Hbm Hmask]. pose proof (cw_elems Hwf) as He.
  destruct (Z.eqb_spec (bm_current_size (sc_bitmap p)) 0) as [H0|H0].
  { unfold bitmap_evict_batch. by rewrite H0. }
  assert (Hzero : (zero_words (bm_map (sc_bitmap p)) ≤ length (bm_map (sc_bitmap p)))%nat) by apply length_filter.
  pose proof (wf_len _ Hbm). pose proof (wf_current _ Hbm). change (EVICT_BATCH_SIZE + 63) with 575.
  destruct (bitmap_evict_batch_eq fuel (sc_bitmap p) (replicate (Z.to_nat 575) 0) (evict_batch_size cfg))
    as (m' & out & w & _ & -> & _ & _ & Hbm'); try done; rewrite ?length_replicate; lia.
Qed.

Lemma item_alloc_once_ends ntotal id n s b :
  slabs_wf cfg s → 0 ≤ id → ntotal ≠ 0 →
  ends (λ r, slabs_wf cfg r.1.1.2 ∧ (r.2 = None → memory_full s = false ∧ memory_full r.1.1.2 = true))
    (item_alloc_once malloc_ok garbage cfg env fuel ntotal id n s b).
Proof.
  intros Hs Hid Hn. unfold item_alloc_once. destruct (memory_full s) eqn:Hfull.
  - destruct (negb _); [done|]. apply ends_free_bind; [fuel_free|]. intros p [_ Hp]%arr_get_Ok.
    eapply ends_bind; [by eapply evict_batch_ends, (sw_class Hs id p)|].
    intros [[bm offs] num] _ (Hbm & Hmask & Hsz & Hcur). apply ends_free_bind; [fuel_free|]. intros u _.
    apply ends_free_bind; [fuel_free|]. intros cs [_ ->]%arr_set_Ok.
    eapply ends_bind; [by apply evict_items_ends|]. intros [[[[n1 h1] b1] l1] cnt] _ [Hsame Hcnt]. cbn [fst snd] in *.
    destruct (Z.eqb_spec cnt 0) as [|Hne]; [done|]. split; [|by intros ->%Hcnt].
    apply slabs_wf_items; [|done]. by apply slabs_wf_bitmap.
  - pose proof (slabs_alloc_batch_spec malloc_ok garbage cfg s ntotal Hcfg Hs Hfull Hn) as Hspec.
    destruct (list_find _ _) as [[i p]|]; [|by rewrite Hspec].
    destruct Hspec as (s' & r & -> & Hs' & _ & Hr). split; [done|]. intros Hnone. cbn [snd fst] in *. subst r.
    split; [done|apply Hr].
Qed.

Lemma item_alloc_batch_ends kvsize n s b :
  slabs_wf cfg s → ends (λ r, slabs_wf cfg r.1.1.2) (item_alloc_batch malloc_ok garbage cfg env fuel kvsize n s b).
Proof.
  intros Hs. unfold item_alloc_batch. apply ends_free_bind.
  { rewrite slabs_clsid_find by (apply Hs || by eapply slabs_wf_available).
    case_decide; [done|]. by destruct (list_find _ _) as [[i p]|]. }
  intros id Hid. destruct (_ || _) eqn:Hchk; [done|]. assert (Hid0 : 0 ≤ id) by (unfold POWER_SMALLEST in Hchk; lia).
  assert (Hn : u32 (sizeof_item + kvsize) ≠ 0).
  { intros H0. unfold slabs_clsid in Hid. rewrite H0 in Hid. injection Hid as <-. lia. }
  cbn [item_alloc_loop]. eapply ends_bind; [by apply item_alloc_once_ends|].
  intros [[[n1 s1] b1] l1] _ [Hs1 Hnone]. cbn [fst snd] in *. destruct l1; [done|]. destruct (Hnone eq_refl) as [_ Hfull].
  eapply ends_bind; [by apply item_alloc_once_ends|].
  intros [[[n2 s2] b2] l2] _ [Hs2 Hnone2]. cbn [fst snd] in *. destruct l2; [done|].
  destruct (Hnone2 eq_refl) as [Hfull' _]. congruence.
Qed.

Lemma batch_alloc_ends st size :
  slabs_wf cfg (r_slabs st) →
  ends (λ r, slabs_wf cfg (r_slabs r.1)) (batch_alloc malloc_ok garbage cfg env fuel st size).
Proof.
  intros Hs. unfold batch_alloc. apply ends_free_bind; [apply slab_index_fuel|]. intros i _.
  destruct (_ =? _); [done|]. apply ends_free_bind; [fuel_free|]. intros slot _.
  apply (ends_bind (λ st', slabs_wf cfg (r_slabs st'))).
  { destruct slot; [done|]. eapply ends_bind; [by apply item_alloc_batch_ends|].
    intros [[[n s] b] l] _ Hs1. apply ends_free_bind; [fuel_free|]. by intros slabs _. }
  intros st1 _ Hs1. apply ends_free_bind; [fuel_free|]. intros [p|] _; [|done].
  destruct (heap (r_slabs st1) !! p); [|done]. apply ends_free_bind; [fuel_free|]. intros slabs _.
  eapply ends_bind; [by apply write_item_ends|]. by intros s _ Hs2.
Qed.

Lemma process_get_ends pkt st kk ptr cl :
  slabs_wf cfg (r_slabs st) →
  ends (λ r, slabs_wf cfg (r_slabs r.1)) (process_get cfg KVSIZE env fuel compact pkt st kk ptr cl).
Proof.
  intros Hs. unfold process_get. apply ends_free_bind; [fuel_free|]. intros nkey _.
  destruct (negb _); [done|]. apply ends_free_bind; [fuel_free|]. intros sig _.
  apply ends_free_bind; [by apply (add_search_ends cfg env W)|]. intros [st1 r] H.
  rewrite add_search_steps in H. apply bind_Ok_inv in H as ([[n b] ok] & _ & [= <- _]). done.
Qed.

Lemma process_set_ends pkt st kk ptr :
  slabs_wf cfg (r_slabs st) →
  ends (λ r, slabs_wf cfg (r_slabs r.1)) (process_set malloc_ok garbage cfg KVSIZE env fuel pkt st kk ptr).
Proof.
  intros Hs. unfold process_set. apply ends_free_bind; [fuel_free|]. intros nkey _.
  apply ends_free_bind; [fuel_free|]. intros nbyte _.
  eapply ends_bind; [by apply batch_alloc_ends|]. intros [st1 [p|]] _ Hs1; [|done]. cbn [fst] in Hs1.
  apply ends_free_bind; [unfold bytes_at; fuel_free|]. intros bytes _.
  eapply ends_bind; [apply write_item_ends; [done|intros; apply store_item_ends]|]. intros s _ Hs2.
  destruct (_ || _). { eapply ends_bind; [by apply (clear_flags_ends cfg)|]. by intros st2 _ Hs3. }
  apply ends_free_bind; [fuel_free|]. intros sig _. destruct (heap _ !! p) as [it|]; [|done].
  apply ends_free_bind; [by apply (add_insert_ends cfg env W)|]. intros [st2 ok] H.
  rewrite add_insert_steps in H. apply bind_Ok_inv in H as ([[n b] ok'] & _ & H).
  destruct ok'; [by injection H as <- _|]. apply bind_Ok_inv in H as (st3 & Hclear & [= <- _]).
  pose proof (clear_flags_ends cfg (with_batch (count_insert (with_r_slabs st1 s)) n b) p Hs2) as Hends.
  by rewrite Hclear in Hends.
Qed.

Lemma process_jobs_ends pkt pkt_len cl :
  Forall byte pkt → ∀ jobs st kk ptr,
  Z.max 1 (pkt_len - ptr) ≤ Z.of_nat jobs → slabs_wf cfg (r_slabs st) →
  ends (λ r, slabs_wf cfg (r_slabs r.1))
    (process_jobs malloc_ok garbage cfg KVSIZE env jobs fuel compact pkt pkt_len st kk ptr cl).
Proof.
  intros Hpkt. induction jobs as [|jobs IH]; intros st kk ptr Hj Hs; [lia|].
  cbn [process_jobs]. apply ends_free_bind; [fuel_free|]. intros t _.
  destruct (t =? 0xFFFF); [done|]. destruct (_ || _); [|done].
  apply (ends_bind (λ r, slabs_wf cfg (r_slabs r.1))).
  { destruct (t =? MEGA_JOB_GET); [by apply process_get_ends|by apply process_set_ends]. }
  intros [st1 [[kk1 ptr1]|]] Hjob Hs1; [|done].
  assert (ptr + MEGA_JOB_TYPE_LEN ≤ ptr1) as Hptr.
  { destruct (t =? MEGA_JOB_GET); [apply process_get_ptr in Hjob; [lia|done]|apply process_set_ptr in Hjob; lia]. }
  unfold MEGA_JOB_TYPE_LEN in Hptr. destruct (Z.leb_spec pkt_len ptr1); [done|]. apply IH; [lia|done].
Qed.

Lemma process_ends jobs pkt pkt_len st :
  Forall byte pkt → Z.max 1 pkt_len ≤ Z.of_nat jobs → slabs_wf cfg (r_slabs st) →
  ends (λ r, slabs_wf cfg (r_slabs r.1))
    (process_packet malloc_ok garbage cfg KVSIZE env jobs fuel compact pkt pkt_len st).
Proof.
  intros Hpkt Hj Hs. unfold process_packet. do 4 (apply ends_free_bind; [fuel_free|]; intros ? _).
  destruct (negb _); [done|]. apply process_jobs_ends; [done| |done].
  change (off_payload + MEGA_MAGIC_NUM_LEN) with 44. lia.
Qed.

(** The loop over the bursts of the network card. *)
Lemma read_ends NOT_COLLECT jobs bursts cs :
  Forall (Forall (λ m, Forall byte m.1 ∧ Z.max 1 m.2 ≤ Z.of_nat jobs)) bursts → slabs_wf cfg (r_slabs cs.2) →
  ends (λ cs', slabs_wf cfg (r_slabs cs'.2))
    (mega_receiver_read malloc_ok garbage cfg KVSIZE env compact NOT_COLLECT jobs fuel bursts cs).
Proof.
  intros Hb. revert cs. induction Hb as [|ms bursts Hms _ IH]; intros cs Hs; [done|]. cbn [mega_receiver_read].
  apply (ends_bind (λ cs', slabs_wf cfg (r_slabs cs'.2))); [|by intros cs1 _ ?; apply IH].
  unfold receive_burst. generalize (count_packets cs.1 (Z.of_nat (length ms))). intros c. revert c Hs.
  generalize cs.2. clear cs IH. induction Hms as [|m ms [Hm Hl] _ IH]; intros st c Hs; [done|]. cbn [receive_packets].
  apply (ends_bind (λ cs', slabs_wf cfg (r_slabs cs'.2))).
  - unfold receive_packet. destruct NOT_COLLECT; [done|].
    eapply ends_bind; [by apply process_ends|]. by intros [st1 r] _ Hs1.
  - intros [c1 st1] _ Hs1. by apply IH.
Qed.
End packets.

(** ** Properties *)

(** C35: the retries end.  When the Scheduler has switched the Receiver's buffer for the
    last time, at the latest after [N] accesses, the loops that put a search, an insertion
    or a deletion into the current buffer end, whatever else happens: [N + 1] rounds are
    enough fuel. *)
Theorem retries_end cfg env N k compact st kk cl sig p it n b :
  let e := key_elem sig in
  calm_from env N →
  add_search cfg env (S N + k) compact st kk cl sig ≠ Err OutOfFuel ∧
  add_insert cfg env (S N + k) st (insert_block_id cfg (s_hash e)) p it (s_sig e) (s_hash e) ≠ Err OutOfFuel ∧
  add_delete_job cfg env (S N + k) n b (loc_offset (it_loc it)) it ≠ Err OutOfFuel.
Proof.
  intros e Hcalm%calm_settles. split_and!.
  - apply (add_search_ends cfg env (S N)); [done|lia].
  - apply (add_insert_ends cfg env (S N)); [done|lia].
  - apply (add_delete_ends cfg env (S N)); [done|lia].
Qed.

(** C36: a packet ends.  Whatever its bytes are, whatever the other threads do to the batch -
    the Scheduler may switch the buffer for ever, if only one of any [W] rounds of a retry
    falls between two switches - and however full memory and buffers are, [process_packet]
    ends, with a result or with an error of its own (a failed assertion, an access out of
    bounds, an exit): [pkt_len] iterations of the loop over the jobs, [W] rounds of every
    retry and [2^23 + 1024] steps of the clock are enough.  A result leaves the allocator
    well-formed, so that the next packet ends as well. *)
Theorem process_packet_ends malloc_ok garbage cfg KVSIZE env compact W jobs fuel pkt pkt_len st :
  cfg_ok cfg → 0 < evict_batch_size cfg ≤ 512 → settles env W →
  (W ≤ fuel)%nat → 2 ^ 23 + 1024 ≤ Z.of_nat fuel → Z.max 1 pkt_len ≤ Z.of_nat jobs →
  Forall byte pkt → slabs_wf cfg (r_slabs st) →
  match process_packet malloc_ok garbage cfg KVSIZE env jobs fuel compact pkt pkt_len st with
  | Ok (st', _) => slabs_wf cfg (r_slabs st')
  | Err e => e ≠ OutOfFuel
  end.
Proof.
  intros Hcfg Hbatch Hset Hretries Hwords Hj Hpkt Hs.
  pose proof (process_ends malloc_ok garbage cfg KVSIZE env compact W fuel Hcfg Hbatch Hset Hretries Hwords
    jobs pkt pkt_len st Hpkt Hj Hs) as H.
  by destruct (process_packet _ _ _ _ _ _ _ _ _ _ _) as [[st' r]|].
Qed.

(** The Receiver's thread refines its steps.  Let [env] be what the other threads do
    to the batch of Receiver [i] - from any reachable state of the server that [R] allows
    before the [n]th access, steps of Scheduler, Senders and other Receivers lead to one
    whose batch is [env n] of what it was.  Then [mega_receiver_main], with the preloading
    and any number of packets, of the network or of the load generator, when it meets no
    error, is a run of the Receiver's steps between theirs: it ends in a state that the
    server of [Server] reaches, with the thread's batch (but for its lists of free items)
    and no job half stored. *)
Theorem receiver_main_refines malloc_ok garbage cfg KVSIZE env compact NOT_COLLECT jobs fuel kind w kfuel d timely bs t0
    i R PRELOAD preload_fuel preload_pkt src c st c' st' s :
  coupled cfg kind w kfuel d timely bs t0 i env R →
  at_access cfg kind w kfuel d timely bs t0 i R (r_reads st) s RIdle (r_batch st) →
  mega_receiver_main malloc_ok garbage cfg KVSIZE env compact NOT_COLLECT jobs fuel PRELOAD (Z.of_nat i) preload_fuel
    preload_pkt src (c, st) = Ok (c', st') →
  ∃ s', at_access cfg kind w kfuel d timely bs t0 i R (r_reads st') s' RIdle (r_batch st').
Proof.
  intros Hc Hs H. apply receiver_main_ran in H. by eapply recv_run_steps.
Qed.

(** C15: the Receiver's loop.  With other threads as above that are those of the server, any
    finite part of the endless loop of [mega_receiver_read] over the bursts of the network
    card ends.  If no packet ended the program with an error, the allocator is well-formed
    and the thread has done steps of the server's Receiver: its batch (but for the lists of
    free items) is that of a state which the server reaches, with no job half stored. *)
Theorem receiver_read_ends malloc_ok garbage cfg KVSIZE env compact NOT_COLLECT W jobs fuel kind w kfuel d timely bs t0
    i R bursts c st s :
  cfg_ok cfg → 0 < evict_batch_size cfg ≤ 512 → settles env W →
  (W ≤ fuel)%nat → 2 ^ 23 + 1024 ≤ Z.of_nat fuel →
  Forall (Forall (λ m, Forall byte m.1 ∧ Z.max 1 m.2 ≤ Z.of_nat jobs)) bursts → slabs_wf cfg (r_slabs st) →
  coupled cfg kind w kfuel d timely bs t0 i env R →
  at_access cfg kind w kfuel d timely bs t0 i R (r_reads st) s RIdle (r_batch st) →
  match mega_receiver_read malloc_ok garbage cfg KVSIZE env compact NOT_COLLECT jobs fuel bursts (c, st) with
  | Ok (_, st') => slabs_wf cfg (r_slabs st') ∧
      ∃ s', at_access cfg kind w kfuel d timely bs t0 i R (r_reads st') s' RIdle (r_batch st')
  | Err e => e ≠ OutOfFuel
  end.
Proof.
  intros Hcfg Hbatch Hset Hretries Hwords Hb Hs Hc Hat.
  pose proof (read_ends malloc_ok garbage cfg KVSIZE env compact W fuel Hcfg Hbatch Hset Hretries Hwords
    NOT_COLLECT jobs bursts (c, st) Hb Hs) as H.
  destruct (mega_receiver_read _ _ _ _ _ _ _ _ _ _ _) as [[c' st']|] eqn:Hread; [|done]. split; [done|].
  apply read_ran in Hread. by eapply recv_run_steps.
Qed.

(** ** The property with a switch of the buffer

    One worker; the Scheduler takes the buffer after the first access, so that the
    Receiver takes its search back and stores it in the next buffer. *)

Definition switch (b : mega_batch_t) : mega_batch_t :=
  let '(b, id) := mega_gpu_get_available_buf_id b in set_receiver (set_gpu b (receiver_buf_id b)) id.
Definition switch_env (n : nat) (b : mega_batch_t) : mega_batch_t := if (n =? 1)%nat then switch b else b.
Definition before_switch (n : nat) (s : server) : Prop :=
  (n ≤ 1)%nat → sched (sys s) = SGet 0 ∧ ∃ c, batch_set (sys s) = [c] ∧ gpu_buf_id c = -1.

Lemma switch_same b c : same_batch c b → same_batch (switch c) (switch b).
Proof.
  intros Hs. rewrite (same_batch_eq _ _ Hs). destruct c. unfold switch, mega_gpu_get_available_buf_id. simpl.
  by destruct (available_buf_id).
Qed.

Lemma switch_coupled : coupled mega_init_config HASH_CUCKOO ex_w 0 0 true [ex_vbatch] ∅ 0 switch_env before_switch.
Proof.
  split.
  - intros n s b Hr HR (c & Hc & Hs). unfold switch_env. destruct (Nat.eqb_spec n 1) as [->|Hn].
    2:{ exists s. split; [apply others_none|]. split; [|by exists c]. intros Hle. apply HR. lia. }
    destruct (HR ltac:(lia)) as (Hpc & c' & Hl & Hg). destruct s as [[l ts pc] rs t cs st]. cbn [sys batch_set sched] in *.
    subst. simpl in Hc. injection Hc as ->. apply switch_same in Hs. revert Hs.
    destruct c as [bf rid sid [a0 a1] gid dl ls lsz]. cbn [gpu_buf_id] in Hg. subst gid.
    unfold switch. cbn [mega_gpu_get_available_buf_id available_buf_id]. intros Hs.
    eexists. split; [|split].
    + do 3 (eapply others_event with (e := SvSched); [done|done|reflexivity|]). apply others_none.
    + intros Hle. lia.
    + eexists. split; [reflexivity|exact Hs].
  - intros n s e s' Hr HR Hown He Hle. destruct (HR Hle) as (Hpc & c & Hl & Hg). destruct e as [| |k j|k|]; try done.
    + simpl in He. unfold job_step in He. apply bind_Ok_inv in He as (rp & _ & He).
      destruct rp; try (injection He as <-; by split; [|exists c]).
      apply bind_Ok_inv in He as (pcs & _ & [= <-]). by split; [|exists c].
    + simpl in He. unfold recv_step in He. rewrite Hl in He. apply bind_Ok_inv in He as (b & [_ Hb]%arr_get_Ok & He).
      apply bind_Ok_inv in He as (rp & _ & He). apply bind_Ok_inv in He as ([b' rp'] & Hw & He).
      apply bind_Ok_inv in He as (l & [Hlt ->]%arr_set_Ok & He). apply bind_Ok_inv in He as (pcs & _ & [= <-]).
      split; [done|]. simpl in Hlt. replace k with 0 in * by lia. injection Hb as <-. exists b'. split; [done|].
      destruct (recv_worker_control _ _ _ _ _ Hw) as (a & ->). done.
Qed.

Definition ex_bursts : list (list (list Z * Z)) := [[(packet ex_hdr (gets [ex_key]) [0; 0], 58)]].
Definition ex_receiver : mega_receiver_t * rstate := (ReceiverStat 0 0, RState 0 slabs0 ex_vbatch 0 0).

(** Four accesses, two attempts, one search in the second buffer. *)
Lemma ex_receiver_main :
  ∃ c st s, mega_receiver_main (λ _, true) (λ _, 0) mega_init_config 0 switch_env true false 5 2 false 0 0 []
      (Network ex_bursts) ex_receiver = Ok (c, st) ∧
    at_access mega_init_config HASH_CUCKOO ex_w 0 0 true [ex_vbatch] ∅ 0 before_switch 4 s RIdle (r_batch st) ∧
    num_search_job <$> buf (r_batch st) = [0; 1; 0] ∧ r_search_jobs st = 2.
Proof.
  destruct (mega_receiver_main (λ _, true) (λ _, 0) mega_init_config 0 switch_env true false 5 2 false 0 0 []
    (Network ex_bursts) ex_receiver) as [[c st]|e] eqn:E; [|by vm_compute in E].
  destruct (receiver_main_refines (λ _, true) (λ _, 0) mega_init_config 0 switch_env true false 5 2 HASH_CUCKOO ex_w 0 0
    true [ex_vbatch] ∅ 0 before_switch false 0 [] (Network ex_bursts) (ReceiverStat 0 0) ex_receiver.2 c st
    (server0 [ex_vbatch] ∅) switch_coupled) as [s Hs].
  - split; [apply server_reach_init| |done|by exists ex_vbatch]. intros _. split; [done|]. by exists ex_vbatch.
  - exact E.
  - vm_compute in E. injection E as <- <-. eexists _, _, s. split; [reflexivity|]. split; [exact Hs|]. by split.
Qed.

(** A SET, and a job of an unknown type. *)
Definition ex_set_packet : list Z := packet ex_hdr (encode_set ex_key [7] ++ store_le 2 9) [0; 0].

Lemma switch_settles : settles switch_env 2.
Proof.
  intros n. destruct n as [|n]; [exists 1%nat|exists 0%nat]; (split; [lia|]); intros b; unfold switch_env.
  - done.
  - by destruct (Nat.eqb_spec (S n + 2 * 0 + 1) 1); [lia|].
Qed.

(** What start-up leaves to the Receiver. *)
Lemma ex_init_slabs : ∃ s, slabs_init (λ _, true) mega_init_config slabs0 (2 ^ 30) (double_of_Z 2) false = Ok s ∧
  slabs_wf mega_init_config s.
Proof.
  destruct (slabs_init_spec (λ _, true) mega_init_config (2 ^ 30)) as (s & Hs & Hwf & _); [by split|done|done|].
  by exists s.
Qed.

Lemma process_packet_ends_witness :
  ∃ s, slabs_init (λ _, true) mega_init_config slabs0 (2 ^ 30) (double_of_Z 2) false = Ok s ∧
    process_packet (λ _, true) (λ _, 0) mega_init_config 0 switch_env 100 (Z.to_nat (2 ^ 23 + 1024)) true
      ex_set_packet 80 (RState 0 s ex_vbatch 0 0) ≠ Err OutOfFuel.
Proof.
  destruct ex_init_slabs as (s & Hs & Hwf). exists s. split; [exact Hs|].
  pose proof (process_packet_ends (λ _, true) (λ _, 0) mega_init_config 0 switch_env true 2 100
    (Z.to_nat (2 ^ 23 + 1024)) ex_set_packet 80 (RState 0 s ex_vbatch 0 0) ltac:(by split) ltac:(done)
    switch_settles ltac:(lia) ltac:(lia) ltac:(lia)) as H.
  destruct (process_packet _ _ _ _ _ _ _ _ _ _ _) as [[st' r]|e].
  - discriminate.
  - intros [= ->]. apply H; [|exact Hwf|reflexivity]. refine (bool_decide_unpack _ _). vm_compute. exact I.
Defined.

Lemma receiver_read_ends_witness :
  ∃ s, slabs_init (λ _, true) mega_init_config slabs0 (2 ^ 30) (double_of_Z 2) false = Ok s ∧
    mega_receiver_read (λ _, true) (λ _, 0) mega_init_config 0 switch_env true false 100 (Z.to_nat (2 ^ 23 + 1024))
      (ex_bursts ++ [[(ex_set_packet, 80)]]) (ReceiverStat 0 0, RState 0 s ex_vbatch 0 0) ≠ Err OutOfFuel.
Proof.
  destruct ex_init_slabs as (s & Hs & Hwf). exists s. split; [exact Hs|].
  pose proof (receiver_read_ends (λ _, true) (λ _, 0) mega_init_config 0 switch_env true false 2 100
    (Z.to_nat (2 ^ 23 + 1024)) HASH_CUCKOO ex_w 0 0 true [ex_vbatch] ∅ 0 before_switch
    (ex_bursts ++ [[(ex_set_packet, 80)]]) (ReceiverStat 0 0) (RState 0 s ex_vbatch 0 0) (server0 [ex_vbatch] ∅)
    ltac:(by split) ltac:(done) switch_settles ltac:(lia) ltac:(lia)) as H.
  destruct (mega_receiver_read _ _ _ _ _ _ _ _ _ _ _) as [[c' st']|e].
  - discriminate.
  - intros [= ->]. apply H; [|exact Hwf|exact switch_coupled| |reflexivity].
    + repeat constructor; try (refine (bool_decide_unpack _ _); vm_compute; exact I); simpl; lia.
    + split; [apply server_reach_init| |done|by exists ex_vbatch]. intros _. split; [done|]. by exists ex_vbatch.
Defined.

Lemma retries_end_witness :
  add_search mega_init_config switch_env 3 true ex_receiver.2 0 (Client 1 2 3) 7 ≠ Err OutOfFuel.
Proof.
  apply (retries_end mega_init_config switch_env 2 0 true ex_receiver.2 0 (Client 1 2 3) 7 (0, 0) ex_small_item 0 ex_vbatch).
  intros m b Hm. unfold switch_env. by destruct m as [|[|m]]; [lia|lia|].
Defined.
