(* ===== verification/Dpdk.v ===== *)
(** * Ports and queues (src/src/dpdk.c)

    The initialisation of the network interfaces, used when [LOCAL_TEST] is not
    defined, as the sequence of the calls of DPDK's interface it makes, and the wait
    for the links.  What DPDK answers is a parameter: [fails] says which calls do
    not succeed, [link_status] what the ports report. *)

From S2P Require Import Prelude.

(** ** check_all_ports_link_status *)

Definition MAX_CHECK_TIME : Z := 90.

(** What the function did: the ports it asked, the calls of [rte_delay_ms] and the
    iterations of the outer loop. *)
Record link_trace := LinkTrace { queries : list Z; delays : Z; passes : Z }.

Section link.
Context (link_status : Z → Z → Z) (port_num port_mask : Z).

(** The loop over the ports in iteration [count]; [true] when [all_ports_up] is still 1. *)
Fixpoint link_ports (fuel : nat) (count portid : Z) (print_flag : bool) (qs : list Z)
    : result (list Z * bool) :=
  match fuel with
  | O => Err OutOfFuel
  | S fuel =>
      if portid <? port_num then
        if 31 <=? portid then Err UndefinedShift
        else if Z.land port_mask (Z.shiftl 1 portid) =? 0
        then link_ports fuel count (u8 (portid + 1)) print_flag qs
        else
          let qs := qs ++ [portid] in
          if print_flag then link_ports fuel count (u8 (portid + 1)) print_flag qs
          else if link_status count portid =? 0 then Ok (qs, false)
          else link_ports fuel count (u8 (portid + 1)) print_flag qs
      else Ok (qs, true)
  end.

Fixpoint link_loop (fuel : nat) (count : Z) (print_flag : bool) (tr : link_trace)
    : result link_trace :=
  match fuel with
  | O => Err OutOfFuel
  | S fuel =>
      if count <=? MAX_CHECK_TIME then
        '(qs, all_ports_up) ← link_ports 256 count 0 print_flag (queries tr);
        let tr := LinkTrace qs (delays tr) (passes tr + 1) in
        if print_flag then Ok tr
        else
          let tr := if (all_ports_up : bool) then tr else LinkTrace qs (delays tr + 1) (passes tr) in
          let print_flag := all_ports_up || (count =? MAX_CHECK_TIME - 1) in
          link_loop fuel (u8 (count + 1)) print_flag tr
      else Ok tr
  end.

Definition check_all_ports_link_status (fuel : nat) : result link_trace :=
  link_loop fuel 0 false (LinkTrace [] 0 0).
End link.

(** ** mega_init_dpdk *)

Inductive dpdk_call :=
  | MempoolCreate (i : Z)        (** the pool [recv_pktmbuf_pool[i]] *)
  | SendMempoolCreate
  | PciProbe
  | DevConfigure (portid nb_rx nb_tx : Z)
  | RxQueueSetup (portid queue_id pool : Z)
  | TxQueueSetup (portid queue_id : Z)
  | DevStart (portid : Z)
  | PromiscuousEnable (portid : Z).

Section init.
Context (fails : dpdk_call → bool) (two_ports : bool) (NUM_QUEUE nb_ports : Z).

Definition call (tr : list dpdk_call) (c : dpdk_call) : result (list dpdk_call) :=
  if fails c then Err Exit else Ok (tr ++ [c]).

(** [sprintf(str, "%d", i)] writes to ten characters. *)
Fixpoint create_pools (fuel : nat) (i : Z) (tr : list dpdk_call) : result (list dpdk_call) :=
  match fuel with
  | O => Err OutOfFuel
  | S fuel =>
      if i <? NUM_QUEUE * nb_ports then
        if 10 ^ 9 <=? i then Err OutOfBounds
        else tr ← call tr (MempoolCreate i); create_pools fuel (i + 1) tr
      else Ok tr
  end.

(** [queue_id] is a [uint8_t], [NUM_QUEUE] an [int]. *)
Fixpoint setup_queues (fuel : nat) (portid queue_id : Z) (tr : list dpdk_call) : result (list dpdk_call) :=
  match fuel with
  | O => Err OutOfFuel
  | S fuel =>
      if queue_id <? NUM_QUEUE then
        let pool := queue_id + portid * NUM_QUEUE in
        if NUM_QUEUE * nb_ports <=? pool then Err OutOfBounds
        else
          tr ← call tr (RxQueueSetup portid queue_id pool);
          tr ← call tr (TxQueueSetup portid queue_id);
          setup_queues fuel portid (u8 (queue_id + 1)) tr
      else Ok tr
  end.

Fixpoint init_ports (fuel qfuel : nat) (portid : Z) (tr : list dpdk_call) : result (list dpdk_call) :=
  match fuel with
  | O => Err OutOfFuel
  | S fuel =>
      if portid <? nb_ports then
        tr ← call tr (DevConfigure portid NUM_QUEUE NUM_QUEUE);
        tr ← setup_queues qfuel portid 0 tr;
        tr ← call tr (DevStart portid);
        tr ← call tr (PromiscuousEnable portid);
        init_ports fuel qfuel (u8 (portid + 1)) tr
      else Ok tr
  end.

(** The calls made before the wait for the links; [nb_ports] is what
    [rte_eth_dev_count] returns. *)
Definition mega_init_dpdk (fuel : nat) : result (list dpdk_call) :=
  _ ← assert_ (nb_ports =? if two_ports then 2 else 1);
  tr ← create_pools fuel 0 [];
  tr ← call tr SendMempoolCreate;
  tr ← call tr PciProbe;
  init_ports 3 fuel 0 tr.
End init.

(** ** Lemmas *)

Lemma link_ports_mask_0 link_status port_num fuel count portid flag qs :
  0 ≤ portid ≤ port_num → port_num ≤ 31 → port_num - portid < Z.of_nat fuel →
  link_ports link_status port_num 0 fuel count portid flag qs = Ok (qs, true).
Proof.
  revert portid. induction fuel as [|fuel IH]; intros portid H0 Hn Hf; [lia|]. cbn [link_ports].
  destruct (Z.ltb_spec portid port_num); [|done]. destruct (Z.leb_spec 31 portid); [lia|].
  rewrite Z.land_0_l. cbn [Z.eqb]. rewrite wrap_id by (unfold in_range; lia). apply IH; lia.
Qed.

Lemma link_ports_total link_status port_num mask fuel count portid flag qs :
  0 ≤ portid ≤ port_num → port_num ≤ 31 → port_num - portid < Z.of_nat fuel →
  ∃ qs' up, link_ports link_status port_num mask fuel count portid flag qs = Ok (qs', up).
Proof.
  revert portid qs. induction fuel as [|fuel IH]; intros portid qs H0 Hn Hf; [lia|]. cbn [link_ports].
  destruct (Z.ltb_spec portid port_num); [|by eexists _, _]. destruct (Z.leb_spec 31 portid); [lia|].
  rewrite wrap_id by (unfold in_range; lia).
  destruct (_ =? 0); [apply IH; lia|]. destruct flag; [apply IH; lia|].
  destruct (_ =? 0); [by eexists _, _|apply IH; lia].
Qed.

Lemma link_loop_total link_status port_num mask fuel count flag tr :
  0 ≤ count ≤ 91 → 0 ≤ port_num ≤ 31 → 91 - count < Z.of_nat fuel →
  ∃ tr', link_loop link_status port_num mask fuel count flag tr = Ok tr' ∧
    delays tr ≤ delays tr' ≤ delays tr + (91 - count) ∧ passes tr' ≤ passes tr + (91 - count).
Proof.
  revert count flag tr. induction fuel as [|fuel IH]; intros count flag tr Hc Hp Hf; [lia|].
  cbn [link_loop]. change MAX_CHECK_TIME with 90.
  destruct (Z.leb_spec count 90); [|exists tr; split; [done|lia]].
  destruct (link_ports_total link_status port_num mask 256 count 0 flag (queries tr)) as (qs & up & ->); [lia..|].
  rewrite bind_Ok. destruct flag; [eexists; split; [done|simpl; lia]|].
  rewrite wrap_id by (unfold in_range; lia).
  match goal with |- ∃ _, link_loop _ _ _ _ _ ?f ?tr1 = _ ∧ _ =>
    destruct (IH (count + 1) f tr1) as (tr' & -> & Hd & Hps); [lia..|] end.
  exists tr'. split; [done|]. destruct up; simpl in *; lia.
Qed.

(** The pools and the set-up of the queues, when every call succeeds. *)
Definition queue_calls (portid n q : Z) : list dpdk_call :=
  [RxQueueSetup portid q (q + portid * n); TxQueueSetup portid q].

Section succeed.
Context (fails : dpdk_call → bool) (n nb : Z) (Hok : ∀ c, fails c = false).

Lemma call_ok tr c : call fails tr c = Ok (tr ++ [c]).
Proof. unfold call. by rewrite Hok. Qed.

Lemma create_pools_ok k i fuel tr :
  0 ≤ i → n * nb = i + Z.of_nat k → n * nb < 10 ^ 9 → (k < fuel)%nat →
  create_pools fails n nb fuel i tr = Ok (tr ++ (MempoolCreate <$> seqZ i (Z.of_nat k))).
Proof.
  revert i tr fuel. induction k as [|k IH]; intros i tr [|fuel] Hi Hk Hn Hf; try lia; cbn [create_pools].
  - destruct (Z.ltb_spec i (n * nb)); [lia|]. by rewrite app_nil_r.
  - destruct (Z.ltb_spec i (n * nb)); [|lia]. destruct (Z.leb_spec (10 ^ 9) i); [lia|].
    rewrite call_ok, bind_Ok, IH by lia. rewrite (seqZ_cons i), fmap_cons, <-app_assoc by lia.
    by rewrite Nat2Z.inj_succ, Z.pred_succ, Z.add_1_r.
Qed.

Lemma setup_queues_ok k portid q fuel tr :
  0 ≤ q → n = q + Z.of_nat k → n ≤ 255 → 0 ≤ portid < nb → (k < fuel)%nat →
  setup_queues fails n nb fuel portid q tr =
    Ok (tr ++ concat (queue_calls portid n <$> seqZ q (Z.of_nat k))).
Proof.
  revert q tr fuel. induction k as [|k IH]; intros q tr [|fuel] Hq Hk Hn Hp Hf; try lia; cbn [setup_queues].
  - destruct (Z.ltb_spec q n); [lia|]. by rewrite app_nil_r.
  - destruct (Z.ltb_spec q n); [|lia]. destruct (Z.leb_spec (n * nb) (q + portid * n)); [nia|].
    rewrite call_ok, bind_Ok, call_ok, bind_Ok, wrap_id by (unfold in_range; lia).
    rewrite IH by lia. rewrite (seqZ_cons q), fmap_cons, concat_cons by lia.
    rewrite Nat2Z.inj_succ, Z.pred_succ, Z.add_1_r. unfold queue_calls at 2. by rewrite <-!app_assoc.
Qed.
End succeed.

Definition port_calls (n portid : Z) : list dpdk_call :=
  [DevConfigure portid n n] ++ concat (queue_calls portid n <$> seqZ 0 n) ++
  [DevStart portid; PromiscuousEnable portid].

Lemma setup_queues_forever fails n nb fuel q tr :
  (∀ c, fails c = false) → 256 ≤ n → 1 ≤ nb → 0 ≤ q < 256 →
  setup_queues fails n nb fuel 0 q tr = Err OutOfFuel.
Proof.
  intros Hok Hn Hnb. revert q tr. induction fuel as [|fuel IH]; intros q tr Hq; [done|]. cbn [setup_queues].
  destruct (Z.ltb_spec q n); [|lia]. destruct (Z.leb_spec (n * nb) (q + 0 * n)); [nia|].
  rewrite !call_ok, bind_Ok, call_ok, bind_Ok by done. apply IH. apply (wrap_range 8). lia.
Qed.

Lemma mega_init_dpdk_spec fails NUM_QUEUE fuel :
  (∀ c, fails c = false) → 0 ≤ NUM_QUEUE < 2 ^ 16 → (Z.to_nat NUM_QUEUE < fuel)%nat →
  mega_init_dpdk fails false NUM_QUEUE 1 fuel =
    if NUM_QUEUE <=? 255
    then Ok ((MempoolCreate <$> seqZ 0 NUM_QUEUE) ++ [SendMempoolCreate; PciProbe] ++
             port_calls NUM_QUEUE 0)
    else Err OutOfFuel.
Proof.
  intros Hok Hn Hf. unfold mega_init_dpdk. cbn [Z.eqb Pos.eqb assert_]. rewrite bind_Ok.
  rewrite (create_pools_ok fails NUM_QUEUE 1 Hok (Z.to_nat NUM_QUEUE)), bind_Ok by lia.
  rewrite !call_ok, bind_Ok, call_ok, bind_Ok by done. rewrite Z2Nat.id by lia.
  cbn [init_ports]. cbn [Z.ltb Z.compare]. rewrite call_ok, bind_Ok by done.
  destruct (Z.leb_spec NUM_QUEUE 255).
  - rewrite (setup_queues_ok fails NUM_QUEUE 1 Hok (Z.to_nat NUM_QUEUE)), bind_Ok by lia.
    rewrite !call_ok, bind_Ok, call_ok, bind_Ok by done. rewrite Z2Nat.id by lia.
    change (u8 (0 + 1) <? 1) with false. cbv iota. unfold port_calls. by rewrite <-!app_assoc.
  - by rewrite setup_queues_forever by (done || lia).
Qed.

(** ** Properties *)

(** The wait for the links.  With at most 31 ports it ends after at most 91
    iterations and 91 pauses of 100 ms, whatever the ports report; but
    [mega_init_dpdk] calls it with the mask 0, so that it skips every port: it never
    asks for a link, never pauses, and takes the links to be up. *)
Theorem link_check_skips_ports link_status port_num mask fuel :
  0 ≤ port_num ≤ 31 → (92 ≤ fuel)%nat →
  (∃ tr, check_all_ports_link_status link_status port_num mask fuel = Ok tr ∧
     delays tr ≤ 91 ∧ passes tr ≤ 91) ∧
  check_all_ports_link_status link_status port_num 0 fuel = Ok (LinkTrace [] 0 2).
Proof.
  intros Hp Hf. split.
  - destruct (link_loop_total link_status port_num mask fuel 0 false (LinkTrace [] 0 0))
      as (tr & H & Hd & Hps); [lia..|]. exists tr. simpl in *. split; [exact H | lia].
  - destruct fuel as [|[|fuel]]; [lia..|]. unfold check_all_ports_link_status. cbn [link_loop].
    change (0 <=? MAX_CHECK_TIME) with true. cbv iota.
    rewrite link_ports_mask_0 by lia. rewrite bind_Ok. cbn [orb queries delays passes].
    change (u8 (0 + 1) <=? MAX_CHECK_TIME) with true. cbv iota.
    by rewrite link_ports_mask_0 by lia.
Qed.

(** The queues.  With one port, up to 255 queues and calls that succeed, the
    initialisation creates one pool for every queue and sets up every queue once
    with its own pool, between the configuration and the start of the port.  With
    256 queues or more the 8-bit queue number wraps around and the loop never ends. *)
Theorem mega_init_dpdk_queues fails NUM_QUEUE fuel :
  (∀ c, fails c = false) → 0 ≤ NUM_QUEUE < 2 ^ 16 → (Z.to_nat NUM_QUEUE < fuel)%nat →
  mega_init_dpdk fails false NUM_QUEUE 1 fuel =
    if NUM_QUEUE <=? 255
    then Ok ((MempoolCreate <$> seqZ 0 NUM_QUEUE) ++ [SendMempoolCreate; PciProbe] ++
             port_calls NUM_QUEUE 0)
    else Err OutOfFuel.
Proof. apply mega_init_dpdk_spec. Qed.

Lemma link_check_skips_ports_witness :
  check_all_ports_link_status (λ _ _, 0) 1 0 92 = Ok (LinkTrace [] 0 2) ∧
  check_all_ports_link_status (λ _ _, 0) 1 1 92 = Ok (LinkTrace (replicate 91 0) 90 91).
Proof.
  split; [|vm_compute; reflexivity].
  apply (link_check_skips_ports (λ _ _, 0) 1 0 92); lia.
Defined.

Lemma mega_init_dpdk_queues_witness :
  mega_init_dpdk (λ _, false) false 2 1 3 =
    Ok [MempoolCreate 0; MempoolCreate 1; SendMempoolCreate; PciProbe; DevConfigure 0 2 2;
        RxQueueSetup 0 0 0; TxQueueSetup 0 0; RxQueueSetup 0 1 1; TxQueueSetup 0 1; DevStart 0;
        PromiscuousEnable 0].
Proof. apply (mega_init_dpdk_queues (λ _, false) 2 3); [done | lia | simpl; lia]. Defined.
