(* ===== verification/Main.v ===== *)
(** * Start-up (src/src/mega.c)

    [main]: the configuration and the options, the network ports unless [LOCAL_TEST]
    is defined, the allocator, one Receiver and one Sender thread per worker, the
    wait for the Receivers, the Scheduler.  Threads are the contexts they are
    started with; what the system answers ([pthread_create], DPDK, [malloc], the
    bytes of fresh memory) is a parameter. *)

From S2P Require Import Prelude GpuHash Config Slabs Batch Rotation Dpdk.

(** ** Contexts (mega_context.h) *)

Record mega_context_t := Context {
  cx_batch : Z;          (** [&(batch_set[cx_batch])] *)
  cx_core_id : Z;
  cx_queue_id : Z;
  cx_initialized : Z;
  cx_unique_id : Z;
  cx_ifindex : Z;
}.

(** The macro that places the threads on cores; [CPU_AFFINITY] is defined with
    the first five only. *)
Inductive affinity := AFFINITY_1 | AFFINITY_2 | AFFINITY_3 | AFFINITY_4 | AFFINITY_5 | AFFINITY_NONE.
#[export] Instance affinity_eq_dec : EqDecision affinity.
Proof. solve_decision. Defined.

Section launch.
(** [uninit_core] and [uninit_initialized]: the fields of a context after [malloc]. *)
Context (two_ports : bool) (aff : affinity) (uninit_core uninit_initialized : Z → Z).
Context (cfg : mega_config_t).

Definition sender_core (i : Z) : Z :=
  let n := cpu_worker_num cfg in
  match aff with
  | AFFINITY_1 => s32 (i + n + 8)
  | AFFINITY_2 | AFFINITY_3 => s32 (i + 24)
  | AFFINITY_4 => let start := s32 (if n mod 2 =? 0 then n + 1 else n + 2) in s32 (i + start)
  | AFFINITY_5 => s32 (i * 2 + 13)
  | AFFINITY_NONE => uninit_core i
  end.

Definition receiver_core (i : Z) : Z :=
  match aff with
  | AFFINITY_1 | AFFINITY_2 | AFFINITY_3 => s32 (i + 8)
  | AFFINITY_4 => let start := 1 in s32 (i + start)
  | AFFINITY_5 => s32 (i * 2 + 1)
  | AFFINITY_NONE => uninit_core i
  end.

Definition scheduler_core : Z :=
  match aff with AFFINITY_4 => 0 | AFFINITY_1 => 15 | AFFINITY_2 => 31 | _ => 0 end.

(** The port and the queue of worker [i]. *)
Definition port_queue (i : Z) : Z * Z :=
  if two_ports then
    if i <? cpu_worker_num cfg / 2 then (ifindex0 cfg, i)
    else (ifindex1 cfg, s32 (i - cpu_worker_num cfg / 2))
  else (ifindex0 cfg, i).

Definition context (core : Z) (i : Z) : mega_context_t :=
  Context i core (port_queue i).2 (uninit_initialized i) i (port_queue i).1.

(** [mega_launch_senders] returns -1 when a thread cannot be created. *)
Fixpoint launch_senders (thread_ok : Z → bool) (ids : list Z) : list mega_context_t * Z :=
  match ids with
  | [] => ([], 0)
  | i :: ids =>
      if thread_ok i then
        let '(l, r) := launch_senders thread_ok ids in (context (sender_core i) i :: l, r)
      else ([], -1)
  end.
Definition mega_launch_senders (thread_ok : Z → bool) : list mega_context_t * Z :=
  launch_senders thread_ok (seqZ 0 (cpu_worker_num cfg)).

(** [receiver_context_set]; a thread that cannot be created is reported only, so
    that its context stays as it is. *)
Definition mega_launch_receivers : list mega_context_t :=
  (λ i, context (receiver_core i) i) <$> seqZ 0 (cpu_worker_num cfg).

Definition mega_launch_scheduler : result Z :=
  _ ← assert_ (scheduler_num cfg =? 1); Ok scheduler_core.
End launch.

(** ** mega_parse_option *)

(** What [getopt_long] returns, with the value of [atoi(optarg)]. *)
Inductive opt := OptI (arg : Z) | OptN (arg : Z) | OptOther.

(** The configuration with another interval, number of queues and number of workers. *)
Definition with_start (c : mega_config_t) (itv queues workers : Z) : mega_config_t := {|
  interval := itv;
  num_queue_per_port := queues;
  cpu_worker_num := workers;
  eiu_hdr_len := eiu_hdr_len c;
  ethernet_hdr_len := ethernet_hdr_len c;
  io_batch_num := io_batch_num c;
  ifindex0 := ifindex0 c;
  ifindex1 := ifindex1 c;
  bits_insert_buf := bits_insert_buf c;
  num_insert_buf := num_insert_buf c;
  batch_max_search_job := batch_max_search_job c;
  batch_max_insert_job := batch_max_insert_job c;
  batch_max_delete_job := batch_max_delete_job c;
  cfg_perslab_bits := cfg_perslab_bits c;
  slabclass_max_elem_num := slabclass_max_elem_num c;
  loc_bits := loc_bits c;
  slab_id_bits := slab_id_bits c;
  evict := evict c;
  evict_batch_size := evict_batch_size c;
  GPU_search_thread_num := GPU_search_thread_num c;
  GPU_delete_thread_num := GPU_delete_thread_num c;
  GPU_threads_per_blk := GPU_threads_per_blk c;
  scheduler_num := scheduler_num c;
  item_max_size := item_max_size c;
  cfg_mem_limit := cfg_mem_limit c;
  factor := factor c;
  prealloc := prealloc c;
  local_ip_addr := local_ip_addr c;
  local_udp_port := local_udp_port c;
|}.
Definition with_interval (c : mega_config_t) (itv : Z) : mega_config_t :=
  with_start c itv (num_queue_per_port c) (cpu_worker_num c).
Definition with_num_queue (c : mega_config_t) (queues : Z) : mega_config_t :=
  with_start c (interval c) queues (cpu_worker_num c).

Definition parse_one (cfg : mega_config_t) (o : opt) : mega_config_t :=
  match o with
  | OptI arg => with_interval cfg (u32 arg)
  | OptN arg => with_num_queue cfg (u32 arg)
  | OptOther => cfg
  end.
Definition mega_parse_option (cfg : mega_config_t) (opts : list opt) : mega_config_t :=
  foldl parse_one cfg opts.

(** ** main *)

(** The field [initialized] of Receiver [i] in round [k] of the wait: what the fresh
    memory held until round [t i], in which the Receiver has set it to 1. *)
Definition init_field (uninit_initialized : Z → Z) (t : Z → nat) (k : nat) (i : Z) : Z :=
  if (k <? t i)%nat then uninit_initialized i else 1.

(** The loop that counts the contexts with [initialized == 1]. *)
Definition ready (init : nat → Z → Z) (n : Z) (k : nat) : Z :=
  Z.of_nat (length (filter (λ i, init k i = 1) (seqZ 0 n))).
Fixpoint wait_workers (fuel : nat) (init : nat → Z → Z) (n : Z) (k : nat) : result nat :=
  match fuel with
  | O => Err OutOfFuel
  | S fuel => if ready init n k =? n then Ok k else wait_workers fuel init n (S k)
  end.

(** [mega_init_config] with or without [TWO_PORTS]. *)
Definition init_config (two_ports : bool) : mega_config_t :=
  if two_ports then with_start mega_init_config (interval mega_init_config) 3 (2 * 3)
  else mega_init_config.

(** [mega_print_arg]: besides printing, it refuses [KEY_MATCH] with [COMPACT_JOB]. *)
Definition mega_print_arg (COMPACT_JOB KEY_MATCH : bool) : result () :=
  if KEY_MATCH && COMPACT_JOB then Err Exit else Ok ().

Record startup := Startup {
  su_cfg : mega_config_t;
  su_dpdk : list dpdk_call;
  su_slabs : slabs_t;
  su_receivers : list mega_context_t;
  su_senders : list mega_context_t;
  su_rounds : nat;
  su_scheduler : Z;
}.

(** Up to the start of the Scheduler; [nb_ports] and [fails] are DPDK's. *)
Definition main (COMPACT_JOB KEY_MATCH LOCAL_TEST two_ports : bool) (aff : affinity) (uninit_core uninit_initialized : Z → Z)
    (malloc_ok : Z → bool) (thread_ok : Z → bool) (fails : dpdk_call → bool) (nb_ports : Z)
    (t : Z → nat) (opts : list opt) (fuel : nat) : result startup :=
  let cfg := init_config two_ports in
  _ ← mega_print_arg COMPACT_JOB KEY_MATCH;
  tr ← (if LOCAL_TEST then Ok [] else mega_init_dpdk fails two_ports (num_queue_per_port cfg) nb_ports fuel);
  let cfg := mega_parse_option cfg opts in
  s ← slabs_init malloc_ok cfg slabs0 (cfg_mem_limit cfg) (factor cfg) (prealloc cfg);
  let rs := mega_launch_receivers two_ports aff uninit_core uninit_initialized cfg in
  let '(ss, _) := mega_launch_senders two_ports aff uninit_core uninit_initialized cfg thread_ok in
  k ← wait_workers fuel (init_field uninit_initialized t) (cpu_worker_num cfg) 0;
  core ← mega_launch_scheduler aff cfg;
  Ok (Startup cfg tr s rs ss k core).

(** ** Lemmas *)

Lemma s32_small k : - 2 ^ 31 ≤ k < 2 ^ 31 → s32 k = k.
Proof. intros Hk. unfold s32. rewrite wrap_id; [lia|]. unfold in_range. lia. Qed.

Lemma parse_option_eq cfg opts :
  ∃ itv q, mega_parse_option cfg opts = with_start cfg itv q (cpu_worker_num cfg).
Proof.
  unfold mega_parse_option. assert (∃ itv q, cfg = with_start cfg itv q (cpu_worker_num cfg)) as H
    by (exists (interval cfg), (num_queue_per_port cfg); by destruct cfg).
  assert (Hgen : ∀ c, (∃ itv q, c = with_start cfg itv q (cpu_worker_num cfg)) →
    ∃ itv q, foldl parse_one c opts = with_start cfg itv q (cpu_worker_num cfg)); [|by apply Hgen].
  clear H. induction opts as [|o opts IH]; intros c Hc; [done|]. cbn [foldl]. apply IH.
  destruct Hc as (itv & q & ->). destruct o; by eexists _, _.
Qed.

Lemma ready_all init n k :
  0 ≤ n → ready init n k = n ↔ ∀ i, 0 ≤ i < n → init k i = 1.
Proof.
  intros Hn. unfold ready. assert (Hl : length (seqZ 0 n) = Z.to_nat n) by apply length_seqZ. split.
  - intros H i Hi. destruct (decide (init k i = 1)); [done|].
    assert (Hin : i ∈ seqZ 0 n) by (apply elem_of_seqZ; lia).
    pose proof (length_filter_lt (λ i, init k i = 1) (seqZ 0 n) i Hin n0). lia.
  - intros H. assert (Hf : ∀ l : list Z, (∀ i, i ∈ l → init k i = 1) → filter (λ i, init k i = 1) l = l).
    { intros l. induction l as [|i l IH]; intros Hi; [done|].
      rewrite filter_cons_True by (apply Hi; left). f_equal. apply IH. intros j Hj. apply Hi. by right. }
    rewrite Hf; [lia|]. intros i Hi%elem_of_seqZ. apply H. lia.
Qed.

(** The wait ends in the first round in which all are ready. *)
Lemma wait_workers_spec init n m fuel k :
  ready init n (k + m) = n → (m < fuel)%nat →
  ∃ k', wait_workers fuel init n k = Ok k' ∧ (k ≤ k' ≤ k + m)%nat ∧ ready init n k' = n.
Proof.
  revert fuel k. induction m as [|m IH]; intros [|fuel] k Hr Hf; try lia; cbn [wait_workers].
  - rewrite Nat.add_0_r in Hr. rewrite (proj2 (Z.eqb_eq _ _) Hr). exists k. split_and!; lia || done.
  - destruct (Z.eqb_spec (ready init n k) n) as [H|H].
    + exists k. split_and!; lia || done.
    + destruct (IH fuel (S k)) as (k' & Hw & Hk & Hr'); [by replace (S k + m)%nat with (k + S m)%nat by lia|lia|].
      exists k'. split_and!; lia || done.
Qed.

Lemma ready_init_field uninit_initialized t n k :
  0 ≤ n → (∀ i, uninit_initialized i ≠ 1) →
  ready (init_field uninit_initialized t) n k = n ↔ ∀ i, 0 ≤ i < n → (t i ≤ k)%nat.
Proof.
  intros Hn Hui. rewrite ready_all by done. unfold init_field. split; intros H i Hi; specialize (H i Hi).
  - destruct (Nat.ltb_spec k (t i)); [by apply Hui in H|lia].
  - destruct (Nat.ltb_spec k (t i)); [lia|done].
Qed.

Lemma launch_senders_ok two_ports aff uc ui cfg thread_ok ids :
  (∀ i, i ∈ ids → thread_ok i = true) →
  launch_senders two_ports aff uc ui cfg thread_ok ids =
    ((λ i, context two_ports ui cfg (sender_core aff uc cfg i) i) <$> ids, 0).
Proof.
  induction ids as [|i ids IH]; intros H; [done|]. cbn [launch_senders].
  rewrite H by left. rewrite IH by (intros j Hj; apply H; by right). done.
Qed.

Lemma init_config_ok two_ports itv q n :
  cfg_ok (with_start (init_config two_ports) itv q n) ∧
  cfg_perslab_bits (with_start (init_config two_ports) itv q n) ≤ 19.
Proof. destruct two_ports; (split; [by split|by vm_compute]). Qed.

Lemma init_config_workers two_ports : cpu_worker_num (init_config two_ports) = if two_ports then 6 else 7.
Proof. by destruct two_ports. Qed.

Lemma port_queue_nodup two_ports cfg :
  ifindex0 cfg ≠ ifindex1 cfg → 0 ≤ cpu_worker_num cfg < 2 ^ 31 →
  NoDup (port_queue two_ports cfg <$> seqZ 0 (cpu_worker_num cfg)).
Proof.
  intros Hne Hn. apply NoDup_fmap_2_strong; [|apply NoDup_seqZ].
  intros i j Hi%elem_of_seqZ Hj%elem_of_seqZ. unfold port_queue.
  destruct two_ports; [|by intros [= ->]].
  pose proof (Z.div_pos (cpu_worker_num cfg) 2 ltac:(lia) ltac:(lia)).
  pose proof (Z.div_le_upper_bound (cpu_worker_num cfg) 2 (cpu_worker_num cfg)).
  cmp_cases; intros [=]; rewrite ?s32_small in * by lia; try congruence; lia.
Qed.

(** The cores of all threads. *)
Definition cores (aff : affinity) (uninit_core : Z → Z) (cfg : mega_config_t) : list Z :=
  scheduler_core aff :: (receiver_core aff uninit_core <$> seqZ 0 (cpu_worker_num cfg)) ++
  (sender_core aff uninit_core cfg <$> seqZ 0 (cpu_worker_num cfg)).

Lemma affinity_4_cores uninit_core cfg :
  1 ≤ cpu_worker_num cfg ≤ 14 →
  let n := cpu_worker_num cfg in
  cores AFFINITY_4 uninit_core cfg =
    0 :: seqZ 1 n ++ seqZ (if n mod 2 =? 0 then n + 1 else n + 2) n.
Proof.
  intros Hn n. unfold cores, scheduler_core, receiver_core, sender_core. f_equal. fold n.
  set (st := if n mod 2 =? 0 then n + 1 else n + 2).
  assert (n + 1 ≤ st ≤ n + 2) by (unfold st; destruct (_ =? 0); lia).
  assert (Hmap : ∀ a (f : Z → Z), (∀ i, 0 ≤ i < n → f i = i + a) → f <$> seqZ 0 n = seqZ a n).
  { intros a f Hf. transitivity (Z.add a <$> seqZ 0 n); [|by rewrite fmap_add_seqZ, Z.add_0_r].
    apply list_fmap_ext. intros j i [-> Hj]%lookup_seqZ. rewrite Hf by lia. lia. }
  f_equal; apply Hmap; intros i Hi; rewrite !s32_small by (rewrite ?s32_small; lia); lia.
Qed.

(** [main] step by step; [itv] and [q] are what the options say. *)
Lemma main_ok COMPACT_JOB KEY_MATCH LOCAL_TEST two_ports aff uninit_core uninit_initialized malloc_ok thread_ok fails
    nb_ports t opts fuel m :
  KEY_MATCH && COMPACT_JOB = false →
  LOCAL_TEST = true ∨ (two_ports = false ∧ nb_ports = 1 ∧ (∀ c, fails c = false) ∧ (7 < fuel)%nat) →
  (∀ k, 0 ≤ k < 8 → malloc_ok k = true) → (∀ i, thread_ok i = true) →
  (∀ i, uninit_initialized i ≠ 1) → (∀ i, t i ≤ m)%nat → (m < fuel)%nat →
  let n := if two_ports then 6 else 7 in
  ∃ su itv q, main COMPACT_JOB KEY_MATCH LOCAL_TEST two_ports aff uninit_core uninit_initialized malloc_ok thread_ok fails nb_ports
      t opts fuel = Ok su ∧
    su_dpdk su = (if LOCAL_TEST then [] else
      (MempoolCreate <$> seqZ 0 7) ++ [SendMempoolCreate; PciProbe] ++ port_calls 7 0) ∧
    slabs_wf (su_cfg su) (su_slabs su) ∧
    su_cfg su = with_start (init_config two_ports) itv q (cpu_worker_num (init_config two_ports)) ∧
    su_receivers su = mega_launch_receivers two_ports aff uninit_core uninit_initialized (su_cfg su) ∧
    su_senders su = (λ i, context two_ports uninit_initialized (su_cfg su)
      (sender_core aff uninit_core (su_cfg su) i) i) <$> seqZ 0 n ∧
    su_scheduler su = scheduler_core aff ∧ ∀ i, 0 ≤ i < n → (t i ≤ su_rounds su)%nat.
Proof.
  intros Hkm Hdpdk Hmalloc Hthread Hui Ht Hm n. unfold main, mega_print_arg. rewrite Hkm, bind_Ok.
  assert ((if LOCAL_TEST then Ok [] else
      mega_init_dpdk fails two_ports (num_queue_per_port (init_config two_ports)) nb_ports fuel) =
    Ok (if LOCAL_TEST then [] else
      (MempoolCreate <$> seqZ 0 7) ++ [SendMempoolCreate; PciProbe] ++ port_calls 7 0)) as ->.
  { destruct LOCAL_TEST; [done|]. destruct Hdpdk as [|(-> & -> & Hc & Hf)]; [done|].
    by rewrite mega_init_dpdk_spec by (done || simpl; lia). }
  rewrite bind_Ok. destruct (parse_option_eq (init_config two_ports) opts) as (itv & q & ->).
  set (cfg := with_start _ _ _ _). assert (Hn : cpu_worker_num cfg = n) by apply init_config_workers.
  destruct (init_config_ok two_ports itv q (cpu_worker_num (init_config two_ports))) as [Hcfg Hbits].
  destruct (slabs_init_spec malloc_ok cfg (cfg_mem_limit cfg) Hcfg Hbits Hmalloc) as (s & Hs & Hwf & _).
  assert (prealloc cfg = false) as -> by (by destruct two_ports).
  assert (factor cfg = double_of_Z 2) as -> by (by destruct two_ports).
  rewrite Hs, bind_Ok. unfold mega_launch_senders. rewrite launch_senders_ok by done.
  pose proof (λ k, ready_init_field uninit_initialized t n k ltac:(unfold n; destruct two_ports; lia) Hui) as Hready.
  rewrite Hn. destruct (wait_workers_spec (init_field uninit_initialized t) n m fuel 0) as (k & Hk & _ & Hr);
    [by apply Hready|done|].
  rewrite Hk, bind_Ok. unfold mega_launch_scheduler.
  assert (scheduler_num cfg = 1) as -> by (by destruct two_ports). cbn [Z.eqb Pos.eqb assert_]. rewrite !bind_Ok.
  eexists _, itv, q. split; [reflexivity|]. cbn [su_dpdk su_cfg su_slabs su_receivers su_senders su_rounds su_scheduler].
  split_and!; try done. by apply Hready.
Qed.

(** ** Properties *)

(** C27: start-up.  When [KEY_MATCH] and [COMPACT_JOB] are not both defined, memory and threads are available, DPDK's calls succeed, the
    fresh contexts do not hold a 1 by accident and every Receiver gets ready, [main]
    reaches the Scheduler: the allocator's invariant holds, there are as many
    Receivers and Senders as workers, worker [i]'s two threads share batch [i], port
    and queue, no two workers share a queue, every Receiver is initialised, and the
    batches are as the rotation of the buffers needs them.  The option [-n] changes
    neither the number of workers nor that of the queues that are set up. *)
Theorem main_starts COMPACT_JOB KEY_MATCH LOCAL_TEST two_ports aff uninit_core uninit_initialized malloc_ok thread_ok fails
    nb_ports t opts fuel m uninit :
  KEY_MATCH && COMPACT_JOB = false →
  LOCAL_TEST = true ∨ (two_ports = false ∧ nb_ports = 1 ∧ (∀ c, fails c = false) ∧ (7 < fuel)%nat) →
  (∀ k, 0 ≤ k < 8 → malloc_ok k = true) → (∀ i, thread_ok i = true) →
  (∀ i, uninit_initialized i ≠ 1) → (∀ i, t i ≤ m)%nat → (m < fuel)%nat →
  let n := if two_ports then 6 else 7 in
  ∃ su, main COMPACT_JOB KEY_MATCH LOCAL_TEST two_ports aff uninit_core uninit_initialized malloc_ok thread_ok fails nb_ports
      t opts fuel = Ok su ∧
    su_dpdk su = (if LOCAL_TEST then [] else
      (MempoolCreate <$> seqZ 0 7) ++ [SendMempoolCreate; PciProbe] ++ port_calls 7 0) ∧
    slabs_wf (su_cfg su) (su_slabs su) ∧ cpu_worker_num (su_cfg su) = n ∧
    Z.of_nat (length (su_receivers su)) = n ∧ Z.of_nat (length (su_senders su)) = n ∧
    NoDup ((λ r, (cx_ifindex r, cx_queue_id r)) <$> su_receivers su) ∧
    (∀ i r s, su_receivers su !! Z.to_nat i = Some r → su_senders su !! Z.to_nat i = Some s → 0 ≤ i →
       cx_batch r = i ∧ cx_batch s = i ∧ cx_ifindex r = cx_ifindex s ∧ cx_queue_id r = cx_queue_id s ∧
       (t i ≤ su_rounds su)%nat) ∧
    batch_ready (mega_receiver_batch_init uninit (su_cfg su) (slabclass (su_slabs su))).
Proof.
  intros Hkm Hdpdk Hmalloc Hthread Hui Ht Hm n.
  destruct (main_ok COMPACT_JOB KEY_MATCH LOCAL_TEST two_ports aff uninit_core uninit_initialized malloc_ok thread_ok
    fails nb_ports t opts fuel m) as (su & itv & q & Hsu & Hdp & Hwf & Hcfg & Hrs & Hss & _ & Hr); try done.
  assert (Hn : cpu_worker_num (su_cfg su) = n) by (rewrite Hcfg; apply init_config_workers).
  exists su. do 4 (split; [done|]). rewrite Hrs, Hss. unfold mega_launch_receivers. rewrite Hn.
  rewrite !length_fmap, !length_seqZ. split; [unfold n; by destruct two_ports|].
  split; [unfold n; by destruct two_ports|]. split; [|split; [|by split_and!]].
  - rewrite <-list_fmap_compose. rewrite <-Hn.
    rewrite (list_fmap_ext _ (port_queue two_ports (su_cfg su))).
    + apply port_queue_nodup; [rewrite Hcfg; by destruct two_ports|]. rewrite Hn. unfold n. destruct two_ports; lia.
    + intros j i _. simpl. by destruct (port_queue two_ports (su_cfg su) i).
  - intros i r s' Hi Hi' H0. rewrite list_lookup_fmap, fmap_Some in Hi, Hi'.
    destruct Hi as (j & [-> Hj]%lookup_seqZ & ->). destruct Hi' as (j' & [-> _]%lookup_seqZ & ->).
    rewrite Z.add_0_l, Z2Nat.id by done. split_and!; try done. apply Hr. fold n. lia.
Qed.

(** The placement of the threads.  With [AFFINITY_4] and up to 14 workers every
    thread gets a core of its own, whose mask can be computed.  The other placements
    do not fit the configured seven workers: with [AFFINITY_1] the Scheduler shares a
    core with the first Sender, with [AFFINITY_5] the last Receiver does, and with
    [AFFINITY_2] the mask of the Scheduler's core 31 overflows an [int]. *)
Theorem core_placement uninit_core cfg :
  1 ≤ cpu_worker_num cfg ≤ 14 →
  (NoDup (cores AFFINITY_4 uninit_core cfg) ∧
   ∀ c, c ∈ cores AFFINITY_4 uninit_core cfg → affinity_mask c = Ok (2 ^ c)) ∧
  (cpu_worker_num cfg = 7 →
   scheduler_core AFFINITY_1 = sender_core AFFINITY_1 uninit_core cfg 0 ∧
   receiver_core AFFINITY_5 uninit_core 6 = sender_core AFFINITY_5 uninit_core cfg 0 ∧
   affinity_mask (scheduler_core AFFINITY_2) = Err SignedOverflow).
Proof.
  intros Hn. rewrite affinity_4_cores by done. cbv zeta. set (n := cpu_worker_num cfg) in *.
  set (st := if n mod 2 =? 0 then n + 1 else n + 2).
  assert (Hst : n + 1 ≤ st ≤ n + 2) by (unfold st; destruct (_ =? 0); lia).
  split; [split|].
  - apply NoDup_cons. split.
    + rewrite elem_of_app, !elem_of_seqZ. lia.
    + apply NoDup_app. split; [apply NoDup_seqZ|]. split; [|apply NoDup_seqZ].
      intros x. rewrite !elem_of_seqZ. lia.
  - intros c. rewrite elem_of_cons, elem_of_app, !elem_of_seqZ. intros Hc.
    assert (0 ≤ c < 31) by lia. unfold affinity_mask. cmp_cases. by rewrite shiftl1_pow2 by lia.
  - intros H7. unfold sender_core. fold n. by rewrite H7.
Qed.

(** ** The properties at concrete start-ups *)

Lemma main_starts_witness :
  ∃ su, main true false false false AFFINITY_4 (λ _, 0) (λ _, 0) (λ _, true) (λ _, true) (λ _, false) 1
      (λ i, Nat.min (Z.to_nat i) 7) [OptN 3; OptI 40] 100 = Ok su ∧ cpu_worker_num (su_cfg su) = 7 ∧
    Z.of_nat (length (su_receivers su)) = 7.
Proof.
  destruct (main_starts true false false false AFFINITY_4 (λ _, 0) (λ _, 0) (λ _, true) (λ _, true) (λ _, false) 1
    (λ i, Nat.min (Z.to_nat i) 7) [OptN 3; OptI 40] 100 7 (Uninit (λ _, 0) (λ _, Ielem 0 0 0)
      (λ _, JobSearch 0 0 0 0 0))) as (su & H & _ & _ & Hn & Hr & _).
  - done.
  - right. split_and!; done || lia.
  - done.
  - done.
  - done.
  - lia.
  - lia.
  - exists su. split; [exact H|]. split; [exact Hn | exact Hr].
Defined.

Lemma core_placement_witness :
  NoDup (cores AFFINITY_4 (λ _, 0) mega_init_config).
Proof. apply (core_placement (λ _, 0) mega_init_config). by vm_compute. Defined.
