(* ===== verification/Program.v ===== *)
(** * The program, from its start to any round (src/src/mega.c)

    [Main] starts the threads; this file lets them start: every Receiver does
    [mega_receiver_init] on its batch, every Sender [mega_sender_init], in any order; then
    the Scheduler's loop runs, the other threads doing what they like between its accesses.
    The threads' own work before the Scheduler's first access belongs to what happens
    before that access.  The theorem composes start-up with the theorems on the running
    server: nothing of what those assume of the batches, the index or the configuration is
    left open.

    [main] waits for the Receivers only; that the Senders' initialisation is over when the
    Scheduler hands out the first buffers is assumed here, and
    [Rotation.late_sender_init_loses_buffer] is what happens otherwise. *)

From S2P Require Import Prelude GpuHash Config Slabs Batch Rotation Items Packet Receiver Receive Sender.
From S2P Require Import SenderStart Index Scheduler Server SchedulerMain Dpdk Main.

(** ** The start of the threads *)

(** [CPU_AFFINITY] is defined with each of the five macros. *)
Definition cpu_affinity (aff : affinity) : bool :=
  match aff with AFFINITY_NONE => false | _ => true end.

(** [mega_init_batch_set]: what [malloc] returned for 32 batches.  Null is used as the set
    all the same. *)
Definition mega_init_batch_set (malloc : option (list mega_batch_t)) : result (list mega_batch_t) :=
  match malloc with Some batch_set => Ok batch_set | None => Err NullDeref end.

Inductive thread := TReceiver (i : Z) | TSender (i : Z).

(** What the initialisations write: the batches and the two arrays of statistics. *)
Record threads_t := Threads {
  th_batches : list mega_batch_t;
  th_receivers : list (mega_receiver_t * (Z * Z));
  th_senders : list mega_sender_t;
}.

Section start.
Context (CPU_AFFINITY : bool) (sched_setaffinity : Z → Z) (uninit : Z → uninit_t) (su : startup).

(** The thread with context number [i], up to its loop. *)
Definition start_thread (ts : threads_t) (t : thread) : result threads_t :=
  match t with
  | TReceiver i =>
      c ← arr_get (su_receivers su) i;
      '(rs, b) ← mega_receiver_init CPU_AFFINITY sched_setaffinity (cx_core_id c) (uninit (cx_batch c))
        (su_cfg su) (slabclass (su_slabs su)) (th_receivers ts);
      l ← arr_set (th_batches ts) (cx_batch c) b;
      Ok (Threads l rs (th_senders ts))
  | TSender i =>
      c ← arr_get (su_senders su) i;
      b ← arr_get (th_batches ts) (cx_batch c);
      '(ss, b) ← mega_sender_init CPU_AFFINITY sched_setaffinity (cx_core_id c) (su_cfg su) (th_senders ts) b;
      l ← arr_set (th_batches ts) (cx_batch c) b;
      Ok (Threads l (th_receivers ts) ss)
  end.

Fixpoint start_threads (order : list thread) (ts : threads_t) : result threads_t :=
  match order with
  | [] => Ok ts
  | t :: order => ts ← start_thread ts t; start_threads order ts
  end.

(** The global arrays are zero at first. *)
Definition threads0 (batch_set : list mega_batch_t) : threads_t :=
  Threads batch_set (replicate (Z.to_nat MAX_WORKER_NUM) (ReceiverStat 0 0, (0, 0)))
    (replicate (Z.to_nat MAX_WORKER_NUM) (SenderStat 0 0 0 0 0)).

(** The batches as the Scheduler finds them. *)
Definition initial_batches : list mega_batch_t :=
  (λ i, mega_receiver_batch_init (uninit i) (su_cfg su) (slabclass (su_slabs su)))
    <$> seqZ 0 (cpu_worker_num (su_cfg su)).

(** The Scheduler looks at the batches of the workers, at the beginning of [batch_set]. *)
Definition workers_shared (batch_set : list mega_batch_t) : shared :=
  let n := Z.to_nat (cpu_worker_num (su_cfg su)) in
  Shared (take n batch_set) (replicate n TWait) (replicate n RIdle).
End start.

(** The whole program up to the Scheduler's round [rounds]. *)
Definition megakv (COMPACT_JOB KEY_MATCH LOCAL_TEST two_ports : bool) (aff : affinity)
    (uninit_core uninit_initialized : Z → Z) (malloc_ok thread_ok : Z → bool) (fails : dpdk_call → bool)
    (nb_ports : Z) (t : Z → nat) (opts : list opt) (main_fuel : nat)
    (batch_set_memory : option (list mega_batch_t)) (sched_setaffinity : Z → Z) (uninit : Z → uninit_t)
    (order : list thread)
    (kind : hash_kind) (w : winner_t) (fuel : nat) (env : nat → shared → shared) (spins rounds : nat)
    : result (nat * shared * table * counters * Z) :=
  su ← main COMPACT_JOB KEY_MATCH LOCAL_TEST two_ports aff uninit_core uninit_initialized malloc_ok thread_ok
    fails nb_ports t opts main_fuel;
  batch_set ← mega_init_batch_set batch_set_memory;
  ts ← start_threads (cpu_affinity aff) sched_setaffinity uninit su order (threads0 batch_set);
  mega_scheduler_main (su_cfg su) kind w fuel env spins 0 rounds (cpu_affinity aff) sched_setaffinity
    (su_scheduler su) (workers_shared su (th_batches ts)).

(** ** Lemmas: the cores *)

(** But for the Scheduler's core of [AFFINITY_2] every core has a mask. *)
Lemma set_affinity_ok aff sched_setaffinity core :
  (aff ≠ AFFINITY_NONE → 0 ≤ core < 31) → (∀ m, 0 ≤ sched_setaffinity m) →
  set_affinity (cpu_affinity aff) sched_setaffinity core = Ok ().
Proof.
  intros Hcore Hset. unfold set_affinity. destruct (decide (aff = AFFINITY_NONE)) as [->|Hne]; [done|].
  specialize (Hcore Hne). assert (cpu_affinity aff = true) as -> by (by destruct aff).
  unfold affinity_mask. rewrite (proj2 (Z.ltb_ge core 0)), (proj2 (Z.leb_gt 32 core)) by lia. cbn [orb].
  rewrite (proj2 (Z.eqb_neq core 31)), bind_Ok by lia. by apply assert_true, Z.leb_le.
Qed.

Lemma receiver_core_range aff uninit_core i :
  aff ≠ AFFINITY_NONE → 0 ≤ i < 7 → 0 ≤ receiver_core aff uninit_core i < 31.
Proof. intros Ha Hi. destruct aff; try done; simpl; rewrite s32_small by lia; lia. Qed.

Lemma sender_core_range aff uninit_core cfg i :
  aff ≠ AFFINITY_NONE → 0 ≤ i < cpu_worker_num cfg → cpu_worker_num cfg ≤ 7 →
  0 ≤ sender_core aff uninit_core cfg i < 31.
Proof.
  intros Ha Hi Hn. destruct aff; try done; simpl; try (rewrite s32_small by lia; lia).
  destruct (_ =? 0); rewrite (s32_small (cpu_worker_num cfg + _)), s32_small by lia; lia.
Qed.

(** ** Lemmas: the start of the threads *)

Lemma mega_receiver_init_ok a setaff core uninit cfg cs rs :
  cpu_worker_num cfg ≤ Z.of_nat (length rs) → set_affinity a setaff core = Ok () →
  ∃ rs', mega_receiver_init a setaff core uninit cfg cs rs = Ok (rs', mega_receiver_batch_init uninit cfg cs) ∧
    length rs' = length rs.
Proof.
  intros Hn Ha. unfold mega_receiver_init. rewrite (proj2 (Z.leb_le _ _) Hn), Ha, bind_Ok.
  eexists. split; [done|]. rewrite length_app, length_replicate, length_drop. lia.
Qed.

Lemma mega_sender_init_ok a setaff core cfg ss b :
  cpu_worker_num cfg ≤ Z.of_nat (length ss) → set_affinity a setaff core = Ok () →
  ∃ ss', mega_sender_init a setaff core cfg ss b = Ok (ss', set_sender b (-1)) ∧ length ss' = length ss.
Proof.
  intros Hn Ha. unfold mega_sender_init. rewrite (proj2 (Z.leb_le _ _) Hn), Ha, bind_Ok.
  eexists. split; [done|]. rewrite length_app, length_fmap, length_take, length_drop. lia.
Qed.

Section started.
Context (aff : affinity) (setaff : Z → Z) (uninit : Z → uninit_t) (su : startup).
Context (two_ports : bool) (uninit_core uninit_initialized : Z → Z).
Abbreviation n := (cpu_worker_num (su_cfg su)).
Hypothesis receivers_launched :
  su_receivers su = mega_launch_receivers two_ports aff uninit_core uninit_initialized (su_cfg su).
Hypothesis senders_launched : su_senders su =
  (λ i, context two_ports uninit_initialized (su_cfg su) (sender_core aff uninit_core (su_cfg su) i) i) <$> seqZ 0 n.
Hypothesis workers : 0 < n ≤ 7.
Hypothesis setaff_ok : ∀ m, 0 ≤ setaff m.

Abbreviation init_batch i := (mega_receiver_batch_init (uninit i) (su_cfg su) (slabclass (su_slabs su))).

(** The threads [done] have been started. *)
Record started (done : list thread) (ts : threads_t) : Prop := {
  st_batches : length (th_batches ts) = 32%nat;
  st_receivers : length (th_receivers ts) = Z.to_nat MAX_WORKER_NUM;
  st_senders : length (th_senders ts) = Z.to_nat MAX_WORKER_NUM;
  st_init : ∀ i, 0 ≤ i < n → TReceiver i ∈ done → th_batches ts !! Z.to_nat i = Some (init_batch i);
}.

Definition launched (t : thread) : Prop :=
  match t with TReceiver i => 0 ≤ i < n | TSender i => 0 ≤ i < n end.

Lemma context_at (f : Z → mega_context_t) i : 0 ≤ i < n → arr_get (f <$> seqZ 0 n) i = Ok (f i).
Proof.
  intros Hi. apply arr_get_lookup; [lia|]. rewrite list_lookup_fmap, lookup_seqZ_lt by lia. simpl. f_equal. f_equal. lia.
Qed.

Lemma start_thread_ok done ts t :
  started done ts → launched t →
  ∃ ts', start_thread (cpu_affinity aff) setaff uninit su ts t = Ok ts' ∧ started (t :: done) ts'.
Proof.
  intros [Hb Hr Hs Hi] Ht. change (Z.to_nat MAX_WORKER_NUM) with 12%nat in *.
  destruct t as [i|i]; cbn [launched start_thread] in *.
  - rewrite receivers_launched. unfold mega_launch_receivers. rewrite context_at, bind_Ok by lia. cbn [context cx_core_id cx_batch].
    destruct (mega_receiver_init_ok (cpu_affinity aff) setaff (receiver_core aff uninit_core i) (uninit i) (su_cfg su)
      (slabclass (su_slabs su)) (th_receivers ts)) as (rs & -> & Hrs); [lia| |].
    { apply set_affinity_ok; [|done]. intros Ha. apply receiver_core_range; [done|lia]. }
    rewrite bind_Ok. cbv beta iota. rewrite arr_set_in_bounds, bind_Ok by lia.
    eexists. split; [reflexivity|]. split; cbn [th_batches th_receivers th_senders]; change (Z.to_nat MAX_WORKER_NUM) with 12%nat; rewrite ?length_insert; try lia.
    intros j Hj Hin. destruct (decide (j = i)) as [->|Hne]; [by apply list_lookup_insert_eq; lia|].
    rewrite list_lookup_insert_ne by lia. apply Hi; [done|].
    apply elem_of_cons in Hin as [[= ->]|Hin]; done.
  - rewrite senders_launched, context_at, bind_Ok by lia. cbn [context cx_core_id cx_batch].
    destruct (arr_get_in_bounds (th_batches ts) i) as (b & Hb1 & Hb2); [lia|]. rewrite Hb1, bind_Ok.
    destruct (mega_sender_init_ok (cpu_affinity aff) setaff (sender_core aff uninit_core (su_cfg su) i) (su_cfg su)
      (th_senders ts) b) as (ss & -> & Hss); [lia| |].
    { apply set_affinity_ok; [|done]. intros Ha. apply sender_core_range; [done|lia|lia]. }
    rewrite bind_Ok. cbv beta iota. rewrite arr_set_in_bounds, bind_Ok by lia.
    eexists. split; [reflexivity|]. split; cbn [th_batches th_receivers th_senders]; change (Z.to_nat MAX_WORKER_NUM) with 12%nat; rewrite ?length_insert; try lia.
    intros j Hj Hin. apply elem_of_cons in Hin as [[=]|Hin]. specialize (Hi j Hj Hin).
    destruct (decide (j = i)) as [->|Hne]; [|by rewrite list_lookup_insert_ne by lia].
    rewrite Hb2 in Hi. injection Hi as ->. rewrite list_lookup_insert_eq by lia. done.
Qed.

Lemma start_threads_started done order ts :
  started done ts → Forall launched order →
  ∃ ts', start_threads (cpu_affinity aff) setaff uninit su order ts = Ok ts' ∧ started (rev order ++ done) ts'.
Proof.
  revert done ts. induction order as [|t order IH]; intros done ts Hts Hl; [by exists ts|].
  apply Forall_cons in Hl as [Ht Hl]. cbn [start_threads].
  destruct (start_thread_ok done ts t Hts Ht) as (ts1 & -> & H1). rewrite bind_Ok.
  destruct (IH _ _ H1 Hl) as (ts' & H & Hst). exists ts'. split; [done|].
  cbn [rev]. by rewrite <-app_assoc.
Qed.

(** In any order the threads leave the batches as the Scheduler needs them. *)
Lemma start_threads_ok order batch_set :
  length batch_set = 32%nat → order ≡ₚ (TReceiver <$> seqZ 0 n) ++ (TSender <$> seqZ 0 n) →
  ∃ ts, start_threads (cpu_affinity aff) setaff uninit su order (threads0 batch_set) = Ok ts ∧
    take (Z.to_nat n) (th_batches ts) = initial_batches uninit su.
Proof.
  intros Hlen Hperm. destruct (start_threads_started [] order (threads0 batch_set)) as (ts & H & [Hb _ _ Hi]).
  - split; simpl; rewrite ?length_replicate; try done. by intros i _ ?%not_elem_of_nil.
  - rewrite Hperm. apply Forall_app. split; apply Forall_fmap, Forall_forall; intros i Hi%elem_of_seqZ; simpl; lia.
  - exists ts. split; [done|]. apply list_eq. intros k. unfold initial_batches. rewrite list_lookup_fmap.
    destruct (decide (k < Z.to_nat n)%nat) as [Hk|Hk].
    + rewrite lookup_take_lt, lookup_seqZ_lt by lia. simpl. specialize (Hi (Z.of_nat k)).
      rewrite Nat2Z.id in Hi. apply Hi; [lia|]. rewrite app_nil_r, list_elem_of_In, <-in_rev, <-list_elem_of_In, Hperm.
      apply elem_of_app. left. apply list_elem_of_fmap. exists (Z.of_nat k). split; [done|]. apply elem_of_seqZ. lia.
    + rewrite lookup_take_ge by lia. rewrite lookup_seqZ_ge by lia. done.
Qed.
End started.

(** What the theorems on the server assume holds of what [main] has set up. *)
Lemma initial_ok uninit su two_ports itv q :
  su_cfg su = with_start (init_config two_ports) itv q (cpu_worker_num (init_config two_ports)) →
  server_cfg_ok (su_cfg su) ∧ Forall (server_ready (su_cfg su)) (initial_batches uninit su) ∧
  Z.of_nat (length (initial_batches uninit su)) = cpu_worker_num (su_cfg su) ∧ initial_batches uninit su ≠ [].
Proof.
  intros Hcfg. unfold initial_batches. rewrite Hcfg. set (cs := slabclass (su_slabs su)). clearbody cs. clear Hcfg.
  split_and!.
  - destruct ex_server_cfg as [[] ?]. destruct two_ports; split; [by split|done|by split|done].
  - apply Forall_fmap, Forall_forall. intros i _. simpl.
    apply server_init_ready; destruct two_ports; by vm_compute.
  - rewrite length_fmap, length_seqZ. by destruct two_ports.
  - by destruct two_ports.
Qed.

(** ** Properties *)

(** C8: the program runs.  When memory, threads and the network are as start-up needs
    them, every thread can be placed on its core and the Senders' initialisation is over in
    time, then - whatever the options, the order in which the threads start, what the fresh
    memory holds and what Receivers and Senders do between the Scheduler's accesses - the
    program does any number of rounds, as long as the Senders give their buffers back: no
    assertion fails, no null pointer is used, no array is overrun.  The states it reaches are
    those of the server of [Server], started with the batches that the Receivers have
    initialised and an empty index.  The index keeps eight signatures and eight locations in every bucket (not
    more: [Units.same_signature_stored_twice]), and if no Receiver is late, a Sender that
    works on a buffer finds in it the answers of the index at the beginning of one of the
    last two cycles, whose kernels run in the order of their launches. *)
Theorem program_runs COMPACT_JOB KEY_MATCH LOCAL_TEST two_ports aff uninit_core uninit_initialized malloc_ok
    thread_ok fails nb_ports t opts main_fuel m memory sched_setaffinity uninit order kind w fuel timely :
  KEY_MATCH && COMPACT_JOB = false →
  LOCAL_TEST = true ∨ (two_ports = false ∧ nb_ports = 1 ∧ (∀ c, fails c = false) ∧ (7 < main_fuel)%nat) →
  (∀ k, 0 ≤ k < 8 → malloc_ok k = true) → (∀ i, thread_ok i = true) →
  (∀ i, uninit_initialized i ≠ 1) → (∀ i, t i ≤ m)%nat → (m < main_fuel)%nat →
  length memory = 32%nat → aff ≠ AFFINITY_2 → (∀ mask, 0 ≤ sched_setaffinity mask) →
  let n := if two_ports then 6 else 7 in
  order ≡ₚ (TReceiver <$> seqZ 0 n) ++ (TSender <$> seqZ 0 n) →
  ∃ su, main COMPACT_JOB KEY_MATCH LOCAL_TEST two_ports aff uninit_core uninit_initialized malloc_ok thread_ok fails
      nb_ports t opts main_fuel = Ok su ∧
    let reach := server_reach (su_cfg su) kind w fuel 0 timely (initial_batches uninit su) ∅ in
    ∀ env spins rounds, env_reach reach env → senders_return (su_cfg su) reach env spins →
    ∃ k s, megakv COMPACT_JOB KEY_MATCH LOCAL_TEST two_ports aff uninit_core uninit_initialized malloc_ok thread_ok
        fails nb_ports t opts main_fuel (Some memory) sched_setaffinity uninit order kind w fuel env spins rounds =
      Ok (k, shared_of s, index s, stats s, 0) ∧
      reach s ∧ length (starts s) = rounds ∧ table_shape (index s) ∧
      (timely = true → ∀ i b, batch_set (sys s) !! i = Some b → senders (sys s) !! i = Some TWork →
        ∃ t' bf, t' ∈ take 2 (starts s) ∧ buf b !! Z.to_nat (sender_buf_id b) = Some bf ∧ answers w t' bf).
Proof.
  intros Hkm Hdpdk Hmalloc Hthread Hui Ht Hm Hmem Haff Hset n Horder.
  destruct (main_ok COMPACT_JOB KEY_MATCH LOCAL_TEST two_ports aff uninit_core uninit_initialized malloc_ok thread_ok
    fails nb_ports t opts main_fuel m) as (su & itv & q & Hsu & _ & _ & Hcfg & Hrs & Hss & Hsched & _); try done.
  assert (Hn : cpu_worker_num (su_cfg su) = n) by (rewrite Hcfg; apply init_config_workers).
  destruct (initial_ok uninit su two_ports itv q Hcfg) as (Hok & Hbs & Hlen & Hne).
  exists su. split; [done|]. intros reach env spins rounds Henv Hret.
  destruct (start_threads_ok aff sched_setaffinity uninit su two_ports uninit_core uninit_initialized Hrs) with
    (order := order) (batch_set := memory) as (ts & Hts & Htake); rewrite ?Hn; try done.
  { unfold n. destruct two_ports; lia. }
  unfold megakv. rewrite Hsu, bind_Ok. cbn [mega_init_batch_set]. rewrite bind_Ok, Hts, bind_Ok.
  unfold workers_shared. rewrite Htake. replace (Z.to_nat (cpu_worker_num (su_cfg su))) with (length (initial_batches uninit su)) by lia.
  destruct (scheduler_main_steps (su_cfg su) kind w fuel env spins timely (cpu_affinity aff) sched_setaffinity
    (su_scheduler su) (initial_batches uninit su) rounds) as (k & s & H & Hs & _ & Hst); try done.
  { rewrite Hn. unfold n. destruct two_ports; lia. }
  { apply set_affinity_ok; [|done]. rewrite Hsched. destruct aff; simpl; lia || done. }
  exists k, s. split; [done|]. split; [done|]. split; [done|].
  destruct (server_reach_inv _ _ _ _ _ Hok _ _ _ _ Hbs Hne empty_table_shape Hs) as [r Hinv]. split; [apply Hinv|].
  intros -> i b Hb Hsnd. exact (sees_answers _ kind w fuel 0 Hok _ _ s i b Hbs Hne empty_table_shape Hs Hb Hsnd).
Qed.

(** ** The property at a start with seven workers *)

Definition ex_order : list thread := reverse ((TReceiver <$> seqZ 0 7) ++ (TSender <$> seqZ 0 7)).

Lemma program_runs_witness :
  ∃ k s, megakv true false false false AFFINITY_4 (λ _, 0) (λ _, 0) (λ _, true) (λ _, true) (λ _, false) 1
      (λ i, Nat.min (Z.to_nat i) 7) [OptN 3; OptI 40] 100 (Some (replicate 32 ex_batch)) (λ _, 0) (λ _, ex_uninit)
      ex_order HASH_CUCKOO ex_w 0 senders_env 1 5 = Ok (k, shared_of s, index s, stats s, 0) ∧
    length (starts s) = 5%nat.
Proof.
  destruct (program_runs true false false false AFFINITY_4 (λ _, 0) (λ _, 0) (λ _, true) (λ _, true) (λ _, false) 1
    (λ i, Nat.min (Z.to_nat i) 7) [OptN 3; OptI 40] 100 7 (replicate 32 ex_batch) (λ _, 0) (λ _, ex_uninit) ex_order
    HASH_CUCKOO ex_w 0 true) as (su & Hsu & Hrun).
  - done.
  - right. split_and!; done || lia.
  - done.
  - done.
  - done.
  - lia.
  - lia.
  - done.
  - done.
  - done.
  - apply reverse_Permutation.
  - destruct (main_ok true false false false AFFINITY_4 (λ _, 0) (λ _, 0) (λ _, true) (λ _, true) (λ _, false) 1
      (λ i, Nat.min (Z.to_nat i) 7) [OptN 3; OptI 40] 100 7) as (su' & itv & q & Hsu' & _ & _ & Hcfg & _);
      [done|by right; split_and!; done || lia|done..|lia|lia|].
    rewrite Hsu in Hsu'. injection Hsu' as <-.
    destruct (initial_ok (λ _, ex_uninit) su false itv q Hcfg) as (Hok & Hbs & Hlen & Hne).
    destruct (Hrun senders_env 1%nat 5%nat) as (k & s & H & _ & Hst & _).
    + by apply senders_env_reach.
    + by apply senders_env_return.
    + exists k, s. split; [exact H|exact Hst].
Defined.
