(* ===== verification/Benchmark.v ===== *)
(** * The benchmark client (src/benchmark/benchmark.c)

    [tx_loop] of the client program, with [PRELOAD] not defined and the uniform
    distribution, as in benchmark.h: it writes frames of GETs and SETs, of seven
    workloads, over one buffer and sends them; [rx_loop] counts what comes back.
    The properties say that the server understands the client.  [PRELOAD] and the
    rest of the client are in [Client]; the set-up of the ports is a copy of the server's,
    see [Dpdk]. *)

From S2P Require Import Prelude GpuHash Config Slabs Batch Items Packet Receiver Zipf LoadGen LocalTest.

(** ** benchmark.h *)

Definition BITS_INSERT_BUF : Z := 3.
Definition BENCH_KEY_LEN : Z := 8.
Definition BENCH_VALUE_LEN : Z := 8.
Definition TOTAL_CNT : Z := Z.shiftl 1 31 - 1.
Definition PRELOAD_CNT : result Z :=
  u32_of_double (dmul (ddiv (double_of_Z 2) (double_of_Z 10)) (double_of_Z (Z.shiftl 1 30 / 8))).
(** The arrays have eight elements, the last of which is 0. *)
Definition number_packet_set : list Z := [0; 5; 11; 20; 27; 34; 40; 0].
Definition number_packet_get : list Z := [122; 95; 99; 80; 63; 51; 40; 0].
Definition length_packet : list Z := [1510; 1306; 1498; 1486; 1450; 1474; 1486; 0].
Definition EIU_HEADER_LEN : Z := 42.
Definition KV_IP_ADDR : Z := 789.
Definition KV_UDP_PORT : Z := 124.
Definition LOCAL_IP_ADDR : Z := 456.
Definition LOCAL_UDP_PORT : Z := 123.

(** ** The buffer *)

(** What is written once: the headers, with big-endian lengths, and the magic
    number; the other bytes are those of the buffer [rte_pktmbuf_alloc] returned. *)
Definition tx_headers : list (Z * nat * Z) :=
  [(12, 2%nat, be16 0x0800); (14, 1%nat, Z.lor 0x40 0x05); (15, 1%nat, 0); (18, 2%nat, 0); (20, 2%nat, 0);
   (22, 1%nat, 64); (23, 1%nat, 17); (24, 2%nat, 0); (26, 4%nat, LOCAL_IP_ADDR); (30, 4%nat, KV_IP_ADDR);
   (34, 2%nat, LOCAL_UDP_PORT); (36, 2%nat, KV_UDP_PORT); (40, 2%nat, 0); (42, 2%nat, PROTOCOL_MAGIC)].
Definition tx_lengths (pktlen : Z) : list (Z * nat * Z) :=
  [(16, 2%nat, be16 (u16 (pktlen - 14))); (38, 2%nat, be16 (u16 (pktlen - 14 - 20)))].
Definition tx_setup (WORKLOAD_ID : Z) (pkt : list Z) : result (list Z) :=
  pktlen ← arr_get length_packet WORKLOAD_ID;
  stores pkt (tx_headers ++ tx_lengths pktlen).

(** ** One frame *)

Definition bench_hash (key : Z) : Z :=
  if BITS_INSERT_BUF =? 0 then key
  else Z.lor (u32 (Z.shiftl (bswap32 (Z.land key 0xff)) (8 - BITS_INSERT_BUF))) key.

Fixpoint tx_gets (n : nat) (preload_cnt : Z) (pkt : list Z) (ptr : Z) (z : zipf_gen_state)
    : result (list Z * Z * zipf_gen_state) :=
  match n with
  | O => Ok (pkt, ptr, z)
  | S n =>
      pkt ← store pkt ptr 2 MEGA_JOB_GET;
      pkt ← store pkt (ptr + 2) 2 BENCH_KEY_LEN;
      '(z, v) ← mehcached_zipf_next z;
      let get_key := u32 (u32 v + 1) in
      _ ← assert_ ((1 <=? get_key) && (get_key <=? preload_cnt));
      pkt ← store pkt (ptr + 4 + 4) 4 (bench_hash get_key);
      pkt ← store pkt (ptr + 4) 4 get_key;
      tx_gets n preload_cnt pkt (ptr + 4 + BENCH_KEY_LEN) z
  end.

Definition next_set_key (set_key : Z) : Z :=
  let set_key := u32 (set_key + 1) in if TOTAL_CNT <=? set_key then 1 else set_key.

(** [set_key] without [PRELOAD]; [Client] has the other one. *)
Definition wrap_set_key (set_key : Z) : result Z := Ok (next_set_key set_key).

(** One SET; the value is what the buffer holds. *)
Definition tx_set (pkt : list Z) (ptr set_key : Z) : result (list Z) :=
  pkt ← store pkt ptr 2 MEGA_JOB_SET;
  pkt ← store pkt (ptr + 2) 2 BENCH_KEY_LEN;
  pkt ← store pkt (ptr + 4) 4 BENCH_VALUE_LEN;
  pkt ← store pkt (ptr + 8 + 4) 4 (bench_hash set_key);
  store pkt (ptr + 8) 4 set_key.

Fixpoint tx_sets (next : Z → result Z) (n : nat) (pkt : list Z) (ptr set_key : Z) : result (list Z * Z * Z) :=
  match n with
  | O => Ok (pkt, ptr, set_key)
  | S n =>
      set_key ← next set_key;
      pkt ← tx_set pkt ptr set_key;
      tx_sets next n pkt (ptr + 8 + BENCH_KEY_LEN + BENCH_VALUE_LEN) set_key
  end.

Record tx_state := TxState { tx_ip_ctr : Z; tx_set_key : Z; tx_zipf : zipf_gen_state }.

Definition tx_packet (next : Z → result Z) (WORKLOAD_ID preload_cnt : Z) (pkt : list Z) (t : tx_state)
    : result (list Z * tx_state) :=
  pkt ← store pkt 26 4 (tx_ip_ctr t);
  num_get ← arr_get number_packet_get WORKLOAD_ID;
  num_set ← arr_get number_packet_set WORKLOAD_ID;
  '(pkt, ptr, z) ← tx_gets (Z.to_nat num_get) preload_cnt pkt (EIU_HEADER_LEN + MEGA_MAGIC_NUM_LEN) (tx_zipf t);
  '(pkt, ptr, set_key) ← tx_sets next (Z.to_nat num_set) pkt ptr (tx_set_key t);
  pkt ← store pkt ptr 2 0xFFFF;
  Ok (pkt, TxState (u32 (tx_ip_ctr t + 1)) set_key z).

(** What the network interface takes: the first [length_packet] bytes. *)
Definition frame_sent (WORKLOAD_ID : Z) (pkt : list Z) : result (list Z) :=
  len ← arr_get length_packet WORKLOAD_ID; bytes_at pkt 0 len.

(** ** The statistics *)

Record core_stat := CoreStat { st_tx : Z; st_rx : Z; st_dropped : Z }.
Definition MAX_PKT_BURST : Z := 1.

(** [ret] is the number of packets [rte_eth_tx_burst] took. *)
Definition count_tx (s : core_stat) (ret : Z) : core_stat :=
  CoreStat (u64 (st_tx s + ret)) (st_rx s)
    (if ret <? MAX_PKT_BURST then u64 (st_dropped s + (MAX_PKT_BURST - ret)) else st_dropped s).

(** [ts_total] and [ts_count]: the eight bytes behind the first four of the IP
    header count as the time the packet was sent, unless they are 0. *)
Definition rx_latency (now : Z) (pkt : list Z) (total count : Z) : result (Z * Z) :=
  ts ← load pkt (14 + 4) 8;
  Ok (if negb (ts =? 0) then (u64 (total + u64 (now - ts)), u64 (count + 1)) else (total, count)).

(** ** Lemmas *)

(** The client writes a key as the server's own generator does. *)
Lemma bench_hash_gen key : bench_hash key = gen_hash mega_init_config key.
Proof. done. Qed.

Definition next_key (v : Z) : Z := u32 (u32 v + 1).

Lemma tx_gets_bytes cnt vs pre mid post z z' :
  length mid = (12 * length vs)%nat → zipf_draw (length vs) z = Ok (z', vs) →
  Forall (λ v, 1 ≤ next_key v ≤ cnt) vs →
  tx_gets (length vs) cnt (pre ++ mid ++ post) (Z.of_nat (length pre)) z =
    Ok (pre ++ gets (key_bytes mega_init_config <$> (next_key <$> vs)) ++ post,
        Z.of_nat (length pre) + 12 * Z.of_nat (length vs), z').
Proof.
  revert pre mid z. induction vs as [|v vs IH]; intros pre mid z Hmid Hdraw Hvs.
  { injection Hdraw as <-. destruct mid; [|done]. cbn [tx_gets]. ok_tuple. }
  cbn [length zipf_draw] in *. apply bind_Ok_inv in Hdraw as ([z1 v1] & Hz & Hdraw).
  apply bind_Ok_inv in Hdraw as ([z2 vs1] & Hdraw & [= <- -> ->]).
  apply Forall_cons in Hvs as [Hv Hvs].
  destruct (split_at mid 12 (12 * length vs)) as (a & b & -> & Ha & Hb); [lia|].
  pose proof (put_get_bytes mega_init_config pre a (b ++ post) (next_key v) Ha) as Hput.
  rewrite <-app_assoc. cbn [tx_gets]. unfold put_get, put_key in Hput.
  change (KEY_LEN 0) with BENCH_KEY_LEN in Hput.
  apply bind_Ok_inv in Hput as (p1 & -> & Hput). rewrite bind_Ok.
  apply bind_Ok_inv in Hput as (p2 & -> & Hput). rewrite bind_Ok, Hz, bind_Ok. fold (next_key v).
  rewrite assert_true, bind_Ok by (apply andb_true_iff; rewrite !Z.leb_le; lia). rewrite bench_hash_gen.
  apply bind_Ok_inv in Hput as (p4 & Hput & Heq). apply (inj Ok), pair_equal_spec in Heq as [-> Hptr].
  apply bind_Ok_inv in Hput as (p3 & -> & Hput). rewrite bind_Ok, Hput, bind_Ok.
  rewrite Hptr, app_assoc.
  replace (Z.of_nat (length pre) + 12)
    with (Z.of_nat (length (pre ++ encode_get (key_bytes mega_init_config (next_key v)))))
    by (rewrite length_app, length_encode_get, length_key_bytes; lia).
  rewrite IH by done. rewrite length_app, length_encode_get, length_key_bytes.
  unfold gets. rewrite !fmap_cons, concat_cons, <-!app_assoc. ok_tuple.
Qed.

(** The set keys of a frame. *)
Fixpoint set_keys (n : nat) (k : Z) : list Z :=
  match n with O => [] | S n => next_set_key k :: set_keys n (next_set_key k) end.

Definition sets (jobs : list (Z * list Z)) : list Z :=
  concat ((λ '(k, value), encode_set (key_bytes mega_init_config k) value) <$> jobs).

Lemma length_encode_set key value : length (encode_set key value) = (8 + length key + length value)%nat.
Proof. unfold encode_set. rewrite !length_app, !length_store_le. lia. Qed.

Lemma tx_set_bytes pre mid value post k :
  length mid = 16%nat → length value = 8%nat →
  tx_set (pre ++ mid ++ value ++ post) (Z.of_nat (length pre)) k =
    Ok (pre ++ encode_set (key_bytes mega_init_config k) value ++ post).
Proof.
  intros Hm Hv. pose proof (put_set_bytes mega_init_config pre mid value post k Hm Hv) as Hput.
  unfold tx_set. unfold put_set, put_key in Hput.
  change (KEY_LEN 0) with BENCH_KEY_LEN in Hput. change (VALUE_LEN 0) with BENCH_VALUE_LEN in Hput.
  apply bind_Ok_inv in Hput as (p1 & -> & Hput). rewrite bind_Ok.
  apply bind_Ok_inv in Hput as (p2 & -> & Hput). rewrite bind_Ok.
  apply bind_Ok_inv in Hput as (p3 & -> & Hput). rewrite bind_Ok, bench_hash_gen.
  apply bind_Ok_inv in Hput as (p5 & Hput & Heq). apply (inj Ok), pair_equal_spec in Heq as [-> _].
  apply bind_Ok_inv in Hput as (p4 & -> & Hput). by rewrite bind_Ok, Hput.
Qed.

(** The values are what the buffer held before. *)
Lemma tx_sets_bytes n pre mid post k :
  length mid = (24 * n)%nat →
  ∃ jobs k', tx_sets wrap_set_key n (pre ++ mid ++ post) (Z.of_nat (length pre)) k =
      Ok (pre ++ sets jobs ++ post, Z.of_nat (length pre) + 24 * Z.of_nat n, k') ∧
    jobs.*1 = set_keys n k ∧ Forall (λ '(_, value), length value = 8%nat) jobs ∧
    length (sets jobs) = (24 * n)%nat.
Proof.
  revert pre mid k. induction n as [|n IH]; intros pre mid k Hmid.
  { exists [], k. destruct mid; [|done]. split; [cbn [tx_sets]; ok_tuple|done]. }
  destruct (split_at mid 16 (8 + 24 * n)) as (a & b & -> & Ha & Hb); [lia|].
  destruct (split_at b 8 (24 * n)) as (value & c & -> & Hv & Hc); [lia|].
  rewrite <-!app_assoc. cbn [tx_sets]. change (wrap_set_key k) with (Ok (next_set_key k)). rewrite bind_Ok, tx_set_bytes, bind_Ok, app_assoc by done.
  set (job := encode_set (key_bytes mega_init_config (next_set_key k)) value).
  assert (Hjob : length job = 24%nat) by (unfold job; rewrite length_encode_set, length_key_bytes; lia).
  replace (Z.of_nat (length pre) + 8 + BENCH_KEY_LEN + BENCH_VALUE_LEN) with (Z.of_nat (length (pre ++ job)))
    by (rewrite length_app; unfold BENCH_KEY_LEN, BENCH_VALUE_LEN; lia).
  destruct (IH (pre ++ job) c (next_set_key k) Hc) as (jobs & k' & -> & Hkeys & Hvals & Hl).
  exists ((next_set_key k, value) :: jobs), k'. split; [|split; [|split]].
  - rewrite length_app, Hjob. unfold sets. rewrite fmap_cons, concat_cons, <-!app_assoc. ok_tuple.
  - rewrite fmap_cons, Hkeys. done.
  - by constructor.
  - unfold sets in *. rewrite fmap_cons, concat_cons, length_app, Hl. fold job. lia.
Qed.

(** The seven workloads. *)
Lemma workload_cases W g s l :
  0 ≤ W < 7 → arr_get number_packet_get W = Ok g → arr_get number_packet_set W = Ok s →
  arr_get length_packet W = Ok l →
  0 ≤ g ∧ 0 ≤ s ∧ l = 46 + 12 * g + 24 * s ∧ l ≤ ETHERNET_MAX_FRAME_LEN.
Proof.
  intros HW. assert (W = 0 ∨ W = 1 ∨ W = 2 ∨ W = 3 ∨ W = 4 ∨ W = 5 ∨ W = 6) as Hc by lia.
  destruct Hc as [->|[->|[->|[->|[->|[->| ->]]]]]]; by intros [= <-] [= <-] [= <-].
Qed.

Lemma workload_total W :
  0 ≤ W < 7 → ∃ g s l, arr_get number_packet_get W = Ok g ∧ arr_get number_packet_set W = Ok s ∧
    arr_get length_packet W = Ok l.
Proof.
  intros HW. assert (W = 0 ∨ W = 1 ∨ W = 2 ∨ W = 3 ∨ W = 4 ∨ W = 5 ∨ W = 6) as Hc by lia.
  destruct Hc as [->|[->|[->|[->|[->|[->| ->]]]]]]; by eexists _, _, _.
Qed.

Lemma tx_packet_spec W cnt hdr body t z' vs g s l :
  0 ≤ W < 7 → arr_get number_packet_get W = Ok g → arr_get number_packet_set W = Ok s →
  arr_get length_packet W = Ok l →
  length hdr = 42%nat → (1470 ≤ length body)%nat →
  zipf_draw (Z.to_nat g) (tx_zipf t) = Ok (z', vs) → Forall (λ v, 1 ≤ next_key v ≤ cnt) vs →
  let hdr' := header_with_ip hdr (tx_ip_ctr t) in
  ∃ jobs rest k', tx_packet wrap_set_key W cnt (hdr ++ store_le 2 PROTOCOL_MAGIC ++ body) t =
      Ok (packet hdr' (gets (key_bytes mega_init_config <$> (next_key <$> vs)) ++ sets jobs) rest,
          TxState (u32 (tx_ip_ctr t + 1)) k' z') ∧
    jobs.*1 = set_keys (Z.to_nat s) (tx_set_key t) ∧ Forall (λ '(_, value), length value = 8%nat) jobs ∧
    frame_sent W (packet hdr' (gets (key_bytes mega_init_config <$> (next_key <$> vs)) ++ sets jobs) rest) =
      Ok (packet hdr' (gets (key_bytes mega_init_config <$> (next_key <$> vs)) ++ sets jobs) []).
Proof.
  intros HW Hg Hs Hl Hh Hb Hdraw Hvs hdr'.
  destruct (workload_cases W g s l HW Hg Hs Hl) as (Hg0 & Hs0 & Hll & Hmax).
  change ETHERNET_MAX_FRAME_LEN with 1514 in Hmax. pose proof (zipf_draw_length _ _ _ _ Hdraw) as Hnv.
  destruct (split_at body (12 * length vs) (length body - 12 * length vs)) as (mg & b1 & -> & Hmg & Hb1); [lia|].
  destruct (split_at b1 (24 * Z.to_nat s) (length b1 - 24 * Z.to_nat s)) as (ms & b2 & -> & Hms & Hb2); [lia|].
  destruct (split_at b2 2 (length b2 - 2)) as (em & rest & -> & Hem & Hrest); [lia|].
  assert (Hl' : length hdr' = 42%nat) by (by apply length_header_with_ip).
  unfold tx_packet. rewrite store_ip_bytes, bind_Ok by done. fold hdr'. rewrite Hg, Hs, !bind_Ok.
  change (EIU_HEADER_LEN + MEGA_MAGIC_NUM_LEN) with 44. set (pre := hdr' ++ store_le 2 PROTOCOL_MAGIC).
  assert (Hpre : length pre = 44%nat) by (unfold pre; rewrite length_app, length_store_le; lia).
  assert (Hng : Z.to_nat g = length vs) by lia. rewrite Hng in *.
  pose proof (tx_gets_bytes cnt vs pre mg (ms ++ em ++ rest) (tx_zipf t) z' Hmg Hdraw Hvs) as Hgets.
  rewrite app_assoc. fold pre. rewrite Hpre in Hgets. change (Z.of_nat 44) with 44 in Hgets.
  rewrite Hgets, bind_Ok. set (G := gets _) in *.
  assert (HG : length G = (12 * length vs)%nat) by (unfold G; by rewrite length_gets, length_fmap).
  destruct (tx_sets_bytes (Z.to_nat s) (pre ++ G) ms (em ++ rest) (tx_set_key t) Hms)
    as (jobs & k' & Hsets & Hkeys & Hvals & HS).
  rewrite (app_assoc pre). replace (44 + 12 * Z.of_nat (length vs)) with (Z.of_nat (length (pre ++ G)))
    by (rewrite length_app; lia).
  rewrite Hsets, bind_Ok, app_assoc. exists jobs, rest, k'.
  rewrite (store_app_at _ em), bind_Ok by (rewrite ?length_app; lia). split.
  { unfold packet, pre, end_mark. rewrite <-!app_assoc. done. }
  split; [done|]. split; [done|]. unfold frame_sent. rewrite Hl, bind_Ok.
  replace (packet hdr' (G ++ sets jobs) rest) with ([] ++ packet hdr' (G ++ sets jobs) [] ++ rest)
    by (unfold packet; rewrite <-!app_assoc; done).
  apply bytes_at_app; [done|]. unfold packet, end_mark. rewrite !length_app, !length_store_le. simpl. lia.
Qed.

(** ** Properties *)

(** The client's frames.  For each of the seven workloads, when the generator's
    keys are in range, the client writes the configured numbers of GETs and SETs
    behind the headers and sends exactly [length_packet] bytes, at most a frame, the
    last two of which are the end mark; the SETs carry consecutive keys. *)
Theorem client_frames W cnt hdr body t z' vs g s :
  0 ≤ W < 7 → arr_get number_packet_get W = Ok g → arr_get number_packet_set W = Ok s →
  length hdr = 42%nat → (1470 ≤ length body)%nat →
  zipf_draw (Z.to_nat g) (tx_zipf t) = Ok (z', vs) → Forall (λ v, 1 ≤ next_key v ≤ cnt) vs →
  ∃ jobs rest t', let jobs_of := gets (key_bytes mega_init_config <$> (next_key <$> vs)) ++ sets jobs in
    let sent := packet (header_with_ip hdr (tx_ip_ctr t)) jobs_of [] in
    tx_packet wrap_set_key W cnt (hdr ++ store_le 2 PROTOCOL_MAGIC ++ body) t =
      Ok (packet (header_with_ip hdr (tx_ip_ctr t)) jobs_of rest, t') ∧
    frame_sent W (packet (header_with_ip hdr (tx_ip_ctr t)) jobs_of rest) = Ok sent ∧
    arr_get length_packet W = Ok (Z.of_nat (length sent)) ∧
    Z.of_nat (length sent) ≤ ETHERNET_MAX_FRAME_LEN ∧
    jobs.*1 = set_keys (Z.to_nat s) (tx_set_key t) ∧ Forall (λ '(_, value), length value = 8%nat) jobs ∧
    tx_ip_ctr t' = u32 (tx_ip_ctr t + 1) ∧ tx_zipf t' = z'.
Proof.
  intros HW Hg Hs Hh Hb Hdraw Hvs. destruct (workload_total W HW) as (g' & s' & l & Hg' & Hs' & Hl).
  destruct (workload_cases W g s l HW Hg Hs Hl) as (Hg0 & Hs0 & Hll & Hmax).
  destruct (tx_packet_spec W cnt hdr body t z' vs g s l) as (jobs & rest & k' & Htx & Hkeys & Hvals & Hsent);
    [done..|].
  exists jobs, rest, (TxState (u32 (tx_ip_ctr t + 1)) k' z'). cbv zeta.
  split; [exact Htx|]. split; [exact Hsent|].
  assert (Z.of_nat (length (packet (header_with_ip hdr (tx_ip_ctr t))
    (gets (key_bytes mega_init_config <$> (next_key <$> vs)) ++ sets jobs) [])) = l) as ->; [|by split_and!].
  unfold frame_sent in Hsent. rewrite Hl, bind_Ok in Hsent. unfold bytes_at in Hsent.
  destruct (Z.leb_spec (0 + l) (Z.of_nat (length (packet (header_with_ip hdr (tx_ip_ctr t))
    (gets (key_bytes mega_init_config <$> (next_key <$> vs)) ++ sets jobs) rest)))); [|by rewrite andb_false_r in Hsent].
  destruct (_ && _ && _); [|done]. apply (inj Ok) in Hsent. rewrite <-Hsent, length_take, length_drop. lia.
Qed.

(** C16: the server understands the client.  A frame of the workload of GETs only, as
    the client sends it, is accepted in full by the Receiver: with room in the buffer
    all 122 keys drawn by the client are appended to the batch, with the client's
    number as signature and its spread as hash, and are counted to the address the
    client gave itself for this frame. *)
Theorem client_gets_accepted malloc_ok garbage cnt hdr body t z' vs jobs fuel st bf :
  let hdr' := header_with_ip hdr (tx_ip_ctr t) in
  let es := (λ v, Selem (next_key v) (gen_hash mega_init_config (next_key v))) <$> vs in
  length hdr = 42%nat → (1470 ≤ length body)%nat →
  zipf_draw 122 (tx_zipf t) = Ok (z', vs) → Forall (λ v, 1 ≤ next_key v ≤ cnt) vs →
  current_buf st bf → search_room mega_init_config (header_client hdr') 122 bf → (122 < jobs)%nat →
  ∃ pkt t' sent, tx_packet wrap_set_key 0 cnt (hdr ++ store_le 2 PROTOCOL_MAGIC ++ body) t = Ok (pkt, t') ∧
    frame_sent 0 pkt = Ok sent ∧
    process_packet malloc_ok garbage mega_init_config 0 quiet jobs (S fuel) true sent 1510 st =
      Ok (searched st (add_keys (header_client hdr') es bf) 122, 122).
Proof.
  intros hdr' es Hh Hb Hdraw Hvs Hcur Hroom Hjobs. pose proof (zipf_draw_length _ _ _ _ Hdraw) as Hnv.
  destruct (tx_packet_spec 0 cnt hdr body t z' vs 122 0 1510) as (sjobs & rest & k' & Htx & Hkeys & _ & Hsent);
    [lia|done..|]. fold hdr' in Htx, Hsent.
  destruct sjobs; [|done]. change (sets []) with (@nil Z) in *. rewrite app_nil_r in Htx, Hsent.
  eexists _, _, _. split; [exact Htx|]. split; [exact Hsent|].
  rewrite (process_packet_gets_spec malloc_ok garbage mega_init_config 0 hdr' _ [] 1510 jobs fuel st bf);
    rewrite ?length_fmap, ?length_gets, ?Hnv; try done.
  - assert (elem_of_key <$> (key_bytes mega_init_config <$> (next_key <$> vs)) = es) as ->; [|done].
    rewrite elems_of_keys; [by rewrite <-list_fmap_compose|].
    apply Forall_fmap, Forall_true. intros v. apply (wrap_range 32). lia.
  - by apply length_header_with_ip.
  - apply Forall_fmap, Forall_true. intros k. apply key_bytes_ok.
  - rewrite length_fmap, Hnv. lia.
Qed.

(** ** The properties at a concrete client *)

Definition ex_tx : tx_state := TxState 7 1 ex_zipf.
Definition ex_body : list Z := replicate (Z.to_nat 2004) 0.
Definition ex_draw95 : zipf_gen_state * list Z :=
  Eval cbv in match zipf_draw 95 ex_zipf with Ok r => r | Err _ => (ex_zipf, []) end.

Lemma client_frames_witness :
  ∃ pkt t' sent, tx_packet wrap_set_key 1 1000 (ex_hdr ++ store_le 2 PROTOCOL_MAGIC ++ ex_body) ex_tx = Ok (pkt, t') ∧
    frame_sent 1 pkt = Ok sent ∧ Z.of_nat (length sent) ≤ ETHERNET_MAX_FRAME_LEN.
Proof.
  destruct (client_frames 1 1000 ex_hdr ex_body ex_tx ex_draw95.1 ex_draw95.2 95 5)
    as (jobs & rest & t' & H & Hs & _ & Hl & _).
  - lia.
  - reflexivity.
  - reflexivity.
  - reflexivity.
  - unfold ex_body. rewrite length_replicate. lia.
  - vm_compute. reflexivity.
  - apply (bool_decide_unpack _). vm_compute. exact I.
  - eexists _, _, _. split; [exact H|]. split; [exact Hs | exact Hl].
Defined.

Lemma client_gets_accepted_witness :
  ∃ pkt t' sent st', tx_packet wrap_set_key 0 1000 (ex_hdr ++ store_le 2 PROTOCOL_MAGIC ++ ex_body) ex_tx = Ok (pkt, t') ∧
    frame_sent 0 pkt = Ok sent ∧
    process_packet (λ _, true) (λ _, 0) mega_init_config 0 quiet 123 1 true sent 1510 ex_rstate = Ok (st', 122).
Proof.
  destruct (client_gets_accepted (λ _, true) (λ _, 0) 1000 ex_hdr ex_body ex_tx ex_draw.1 ex_draw.2 123 0
    ex_rstate ex_rbuf) as (pkt & t' & sent & H & Hs & Hp).
  - reflexivity.
  - unfold ex_body. rewrite length_replicate. lia.
  - vm_compute. reflexivity.
  - apply (bool_decide_unpack _). vm_compute. exact I.
  - exact ex_current.
  - apply ex_search_room; [vm_compute; reflexivity | lia].
  - lia.
  - exists pkt, t', sent. eexists. split; [exact H|]. split; [exact Hs | exact Hp].
Defined.
