(* ===== verification/Client.v ===== *)
(** * The benchmark client as a program (src/benchmark/benchmark.c)

    What [Benchmark] leaves out of the client: with [PRELOAD], the frames that load the
    table and the ranges of keys the queues insert afterwards; the receive loop with its
    timer; the statistics; and [MAIN], which sets up the port and starts the threads.  The
    calls of DPDK are those of [Dpdk]. *)

From S2P Require Import Prelude GpuHash Config Slabs Batch Items Packet Receiver Zipf LoadGen LocalTest.
From S2P Require Import Dpdk Benchmark.

(** ** benchmark.h *)

Definition SET_LEN : Z := BENCH_KEY_LEN + BENCH_VALUE_LEN + 8.
Definition MEGA_END_MARK_LEN : Z := 2.
Definition NUM_MAX_CORE : Z := 32.
(** With the uniform distribution; 7 with Zipf's. *)
Definition NUM_QUEUE : Z := 4.

(** ** PRELOAD: the frames that load the table *)

(** The SETs of one frame: the packet, [ptr], [payload_len] and [set_key]. *)
Fixpoint preload_sets (fuel : nat) (preload_cnt : Z) (pkt : list Z) (ptr payload_len set_key : Z)
    : result (list Z * Z * Z * Z) :=
  match fuel with
  | O => Err OutOfFuel
  | S fuel =>
      if payload_len + SET_LEN <=? ETHERNET_MAX_FRAME_LEN then
        pkt ← tx_set pkt ptr set_key;
        let ptr := ptr + 8 + BENCH_KEY_LEN + BENCH_VALUE_LEN in
        let payload_len := payload_len + SET_LEN in
        let set_key := u32 (set_key + 1) in
        if preload_cnt <=? set_key then Ok (pkt, ptr, payload_len, set_key)
        else preload_sets fuel preload_cnt pkt ptr payload_len set_key
      else Ok (pkt, ptr, payload_len, set_key)
  end.

Definition preload_frame (fuel : nat) (preload_cnt : Z) (pkt : list Z) (ip_ctr set_key : Z)
    : result (list Z * Z) :=
  pkt ← store pkt 26 4 ip_ctr;
  '(pkt, ptr, payload_len, set_key) ← preload_sets fuel preload_cnt pkt (EIU_HEADER_LEN + MEGA_MAGIC_NUM_LEN)
    (EIU_HEADER_LEN + MEGA_MAGIC_NUM_LEN + MEGA_END_MARK_LEN) set_key;
  _ ← assert_ (payload_len <? ETHERNET_MAX_FRAME_LEN);
  pkt ← store pkt ptr 2 0xFFFF;
  Ok (pkt, set_key).

(** [while (set_key < preload_cnt)]: what the interface takes of every packet, [pktlen]
    bytes, and the buffer and the counters afterwards. *)
Fixpoint preload_frames (fuel : nat) (pktlen preload_cnt : Z) (pkt : list Z) (ip_ctr set_key : Z)
    : result (list (list Z) * list Z * Z * Z) :=
  match fuel with
  | O => Err OutOfFuel
  | S fuel' =>
      if set_key <? preload_cnt then
        '(pkt, set_key) ← preload_frame fuel preload_cnt pkt ip_ctr set_key;
        sent ← bytes_at pkt 0 pktlen;
        '(frames, pkt, ip_ctr, set_key) ← preload_frames fuel' pktlen preload_cnt pkt (u32 (ip_ctr + 1)) set_key;
        Ok (sent :: frames, pkt, ip_ctr, set_key)
      else Ok ([], pkt, ip_ctr, set_key)
  end.

(** The packet as it is set up for 1510 bytes, then the frames, by queue 0. *)
Definition preload (fuel : nat) (preload_cnt : Z) (pkt : list Z) : result (list (list Z) * list Z * Z * Z) :=
  let pktlen := 1510 in
  pkt ← stores pkt (tx_headers ++ tx_lengths pktlen);
  preload_frames fuel pktlen preload_cnt pkt 1 1.

(** *** The keys of the queues afterwards *)

Definition queue_keys (preload_cnt : Z) : Z := (TOTAL_CNT - preload_cnt) / NUM_QUEUE.
Definition first_set_key (preload_cnt queue_id : Z) : Z :=
  u32 (preload_cnt + u32 (queue_id * queue_keys preload_cnt)).
Definition bound_set_key (preload_cnt queue_id : Z) : Z :=
  u32 (preload_cnt + u32 (u32 (queue_id + 1) * queue_keys preload_cnt)).

(** [set_key ++] with [PRELOAD]: the client stops when its keys are used up. *)
Definition next_queue_key (preload_cnt queue_id set_key : Z) : result Z :=
  let set_key := u32 (set_key + 1) in
  if bound_set_key preload_cnt queue_id <=? set_key then Err AssertFail else Ok set_key.

(** ** rx_loop *)

(** The timer: the counter at the last iteration, and what has added up. *)
Record rx_timer := RxTimer { prev_tsc : Z; timer_tsc : Z }.

(** One iteration reads the counter; [true] if the statistics are printed.  [loaded] is
    [loading_mode == 0], or true without [PRELOAD]. *)
Definition rx_tick (timer_period queue_id : Z) (loaded : bool) (cur_tsc : Z) (t : rx_timer) : rx_timer * bool :=
  let diff_tsc := u64 (cur_tsc - prev_tsc t) in
  if 0 <? timer_period then
    let timer := u64 (timer_tsc t + diff_tsc) in
    if (timer_period <=? timer) && ((queue_id =? 0) && loaded) then (RxTimer cur_tsc 0, true)
    else (RxTimer cur_tsc timer, false)
  else (RxTimer cur_tsc (timer_tsc t), false).

(** [core_statistics], with [enable], and [ts_total] and [ts_count]. *)
Record client_stats := ClientStats {
  cores : list (core_stat * bool);
  ts_total : list Z;
  ts_count : list Z;
}.

Definition count_rx (nb_rx : Z) (s : core_stat) : core_stat :=
  CoreStat (st_tx s) (u64 (st_rx s + nb_rx)) (st_dropped s).

(** The packets of one burst: only the first one's time is looked at. *)
Definition rx_burst (core_id queue_id now : Z) (pkts : list (list Z)) (s : client_stats) : result client_stats :=
  '(c, enable) ← arr_get (cores s) core_id;
  cs ← arr_set (cores s) core_id (count_rx (Z.of_nat (length pkts)) c, enable);
  match pkts with
  | [] => Ok (ClientStats cs (ts_total s) (ts_count s))
  | m :: _ =>
      total ← arr_get (ts_total s) queue_id;
      count ← arr_get (ts_count s) queue_id;
      '(total, count) ← rx_latency now m total count;
      totals ← arr_set (ts_total s) queue_id total;
      counts ← arr_set (ts_count s) queue_id count;
      Ok (ClientStats cs totals counts)
  end.

(** ** print_stats *)

(** What is printed, but for the speeds, which are quotients by the time since the last
    report. *)
Record stats_report := StatsReport {
  rp_tx : Z;
  rp_get : Z;
  rp_set : Z;
  rp_rx : Z;
  rp_dropped : Z;
  rp_latency_cnt : Z;
  rp_latency : Z;   (** [total_latency / total_latency_cnt] *)
}.

Definition sum_cores (f : core_stat → Z) (l : list (core_stat * bool)) : Z :=
  foldl (λ n c, if (c.2 : bool) then u64 (n + f c.1) else n) 0 l.

Definition print_stats (WORKLOAD_ID : Z) (s : client_stats) : result (stats_report * client_stats) :=
  let tx := sum_cores st_tx (cores s) in
  let latency := foldl (λ n x, u64 (n + x)) 0 (ts_total s) in
  let cnt := foldl (λ n x, u64 (n + x)) 0 (ts_count s) in
  num_get ← arr_get number_packet_get WORKLOAD_ID;
  num_set ← arr_get number_packet_set WORKLOAD_ID;
  if cnt =? 0 then Err DivByZero
  else Ok (StatsReport tx (u64 (tx * num_get)) (u64 (tx * num_set)) (sum_cores st_rx (cores s))
             (sum_cores st_dropped (cores s)) cnt (latency / cnt),
           ClientStats ((λ c, if (c.2 : bool) then (CoreStat 0 0 0, true) else c) <$> cores s)
             ((λ _, 0) <$> ts_total s) ((λ _, 1) <$> ts_count s)).

(** ** MAIN *)

Section main.
Context (fails : dpdk_call → bool) (nb_ports : Z).

(** The pools come before the number of ports is known. *)
Definition client_init_dpdk (fuel : nat) : result (list dpdk_call) :=
  tr ← create_pools fails NUM_QUEUE 1 fuel 0 [];
  tr ← call fails tr SendMempoolCreate;
  tr ← call fails tr PciProbe;
  _ ← assert_ (nb_ports =? 1);
  init_ports fails NUM_QUEUE nb_ports 3 fuel 0 tr.

Definition client_stats0 : client_stats :=
  ClientStats (replicate (Z.to_nat NUM_MAX_CORE) (CoreStat 0 0 0, false))
    (replicate (Z.to_nat NUM_QUEUE) 0) (replicate (Z.to_nat NUM_QUEUE) 1).

Inductive client_thread :=
  | RxLoop (core_id queue_id : Z)
  | TxLoop (core_id queue_id : Z).

(** [AFFINITY_ONE_NODE], which goes with the uniform distribution, or
    [AFFINITY_MAX_QUEUE]. *)
Definition launch_threads (one_node : bool) : list client_thread :=
  concat ((λ i, (if i =? 0 then [RxLoop 0 i] else []) ++
                [TxLoop (if one_node then i * 2 + 1 else i + 1) i]) <$> seqZ 0 NUM_QUEUE).

(** The client's copy of the function is that of dpdk.c, word for word. *)
Definition check_all_ports_link_status := Dpdk.check_all_ports_link_status.

Definition client_main (link_status : Z → Z → Z) (one_node : bool) (fuel : nat)
    : result (list dpdk_call * link_trace * client_stats * list client_thread) :=
  tr ← client_init_dpdk fuel;
  lt ← check_all_ports_link_status link_status nb_ports 0 fuel;
  Ok (tr, lt, client_stats0, launch_threads one_node).
End main.

(** ** Lemmas: loading the table *)

Lemma sets_cons k value jobs :
  sets ((k, value) :: jobs) = encode_set (key_bytes mega_init_config k) value ++ sets jobs.
Proof. done. Qed.

(** [n] SETs fit behind the [j] that are there, or finish the keys. *)
Lemma preload_sets_spec cnt n : ∀ j k pre mid post fuel,
  length mid = (24 * n)%nat → (0 < n)%nat → 0 ≤ k → k < cnt → cnt < 2 ^ 32 → 0 ≤ j →
  Z.of_nat n = Z.min (61 - j) (cnt - k) → (n < fuel)%nat →
  ∃ jobs, preload_sets fuel cnt (pre ++ mid ++ post) (Z.of_nat (length pre)) (46 + 24 * j) k =
      Ok (pre ++ sets jobs ++ post, Z.of_nat (length pre) + 24 * Z.of_nat n, 46 + 24 * (j + Z.of_nat n), k + Z.of_nat n) ∧
    jobs.*1 = seqZ k (Z.of_nat n) ∧ Forall (λ '(_, value), length value = 8%nat) jobs ∧
    length (sets jobs) = (24 * n)%nat.
Proof.
  induction n as [|n IH]; intros j k pre mid post fuel Hmid Hn Hk Hkc Hc Hj Hmin Hf; [lia|].
  destruct fuel as [|fuel]; [lia|].
  destruct (split_at mid 16 (8 + 24 * n)) as (a & b & -> & Ha & Hb); [lia|].
  destruct (split_at b 8 (24 * n)) as (value & c & -> & Hv & Hcl); [lia|].
  cbn [preload_sets]. change SET_LEN with 24. change ETHERNET_MAX_FRAME_LEN with 1514.
  rewrite (proj2 (Z.leb_le _ _)) by lia. rewrite <-!app_assoc, tx_set_bytes, bind_Ok by done.
  set (job := encode_set (key_bytes mega_init_config k) value). cbv zeta.
  assert (Hjob : length job = 24%nat) by (unfold job; rewrite length_encode_set, length_key_bytes; lia).
  rewrite (wrap_id 32) by (unfold in_range; lia). destruct (Z.leb_spec cnt (k + 1)) as [Hend|Hmore].
  - assert (n = 0%nat) as -> by lia. destruct c; [|done]. exists [(k, value)].
    rewrite sets_cons. fold job. change (sets []) with (@nil Z). rewrite app_nil_r. split_and!.
    + cbn [app]. unfold BENCH_KEY_LEN, BENCH_VALUE_LEN. ok_tuple.
    + change (Z.of_nat 1) with 1. by rewrite seqZ_cons by lia.
    + by repeat constructor.
    + lia.
  - replace (Z.of_nat (length pre) + 8 + BENCH_KEY_LEN + BENCH_VALUE_LEN) with (Z.of_nat (length (pre ++ job)))
      by (rewrite length_app; unfold BENCH_KEY_LEN, BENCH_VALUE_LEN; lia).
    rewrite app_assoc. replace (46 + 24 * j + 24) with (46 + 24 * (j + 1)) by lia.
    destruct n as [|n].
    { destruct c; [|done]. destruct fuel as [|fuel]; [lia|]. cbn [preload_sets].
      change SET_LEN with 24. change ETHERNET_MAX_FRAME_LEN with 1514.
      rewrite (proj2 (Z.leb_gt _ _)) by lia. exists [(k, value)]. rewrite sets_cons. fold job.
      change (sets []) with (@nil Z). rewrite app_nil_r. split_and!.
      + rewrite length_app, Hjob, <-app_assoc. cbn [app]. ok_tuple.
      + change (Z.of_nat 1) with 1. by rewrite seqZ_cons by lia.
      + by repeat constructor.
      + lia. }
    destruct (IH (j + 1) (k + 1) (pre ++ job) c post fuel) as (jobs & -> & Hkeys & Hvals & Hl); [lia..|].
    exists ((k, value) :: jobs). rewrite sets_cons. fold job. split_and!.
    + rewrite length_app, Hjob, <-!app_assoc. ok_tuple.
    + rewrite (seqZ_cons k) by lia. rewrite fmap_cons, Hkeys. cbn [fst]. do 2 f_equal; lia.
    + by constructor.
    + rewrite length_app, Hl. lia.
Qed.

(** A frame as it is sent: 1510 bytes, the last ones of an earlier frame if the keys ran
    out. *)
Record load_frame := LoadFrame { lf_hdr : list Z; lf_jobs : list (Z * list Z); lf_rest : list Z }.
Definition frame_bytes (f : load_frame) : list Z := packet (lf_hdr f) (sets (lf_jobs f)) (lf_rest f).
Definition load_frame_ok (f : load_frame) : Prop :=
  length (lf_hdr f) = 42%nat ∧ length (frame_bytes f) = Z.to_nat 1510 ∧ (length (lf_jobs f) ≤ 61)%nat ∧
  Forall (λ '(_, value), length value = 8%nat) (lf_jobs f).

Lemma preload_frame_spec fuel cnt hdr body ip k :
  length hdr = 42%nat → (1466 ≤ length body)%nat → 0 ≤ k < cnt → cnt < 2 ^ 32 → (61 < fuel)%nat →
  let n := Z.min 61 (cnt - k) in
  ∃ f body', preload_frame fuel cnt (hdr ++ store_le 2 PROTOCOL_MAGIC ++ body) ip k =
      Ok (header_with_ip hdr ip ++ store_le 2 PROTOCOL_MAGIC ++ body', k + n) ∧
    length body' = length body ∧
    bytes_at (header_with_ip hdr ip ++ store_le 2 PROTOCOL_MAGIC ++ body') 0 1510 = Ok (frame_bytes f) ∧
    lf_hdr f = header_with_ip hdr ip ∧ (lf_jobs f).*1 = seqZ k n ∧ load_frame_ok f.
Proof.
  intros Hh Hb Hk Hc Hf n. assert (0 < n ≤ 61) as Hn by lia. set (m := Z.to_nat n).
  destruct (split_at body (24 * m) (length body - 24 * m)) as (ms & b1 & -> & Hms & Hb1); [lia|].
  rewrite length_app in Hb.
  destruct (split_at b1 2 (length b1 - 2)) as (em & rest & -> & Hem & Hrest); [lia|]. rewrite length_app in Hb.
  set (hdr' := header_with_ip hdr ip). assert (Hh' : length hdr' = 42%nat) by (by apply length_header_with_ip).
  unfold preload_frame. rewrite store_ip_bytes, bind_Ok by done. fold hdr'.
  change (EIU_HEADER_LEN + MEGA_MAGIC_NUM_LEN + MEGA_END_MARK_LEN) with (46 + 24 * 0).
  set (pre := hdr' ++ store_le 2 PROTOCOL_MAGIC).
  assert (Hpre : length pre = 44%nat) by (unfold pre; rewrite length_app, length_store_le; lia).
  change (EIU_HEADER_LEN + MEGA_MAGIC_NUM_LEN) with (Z.of_nat 44). rewrite <-Hpre, app_assoc. fold pre.
  destruct (preload_sets_spec cnt m 0 k pre ms (em ++ rest) fuel) as (jobs & -> & Hkeys & Hvals & HS); [lia..|].
  assert (Hjl : length jobs = m) by (rewrite <-(length_fmap fst), Hkeys, length_seqZ; lia).
  rewrite bind_Ok. cbv beta iota. change ETHERNET_MAX_FRAME_LEN with 1514.
  rewrite assert_true, bind_Ok by (apply Z.ltb_lt; lia).
  rewrite app_assoc, (store_app_at _ em), bind_Ok by (rewrite ?length_app; lia).
  set (tail := take (1464 - 24 * m) rest).
  exists (LoadFrame hdr' jobs tail), (sets jobs ++ end_mark ++ rest).
  assert (Hlen : length (frame_bytes (LoadFrame hdr' jobs tail)) = Z.to_nat 1510).
  { unfold frame_bytes, packet, end_mark, tail. cbn [lf_hdr lf_jobs lf_rest].
    rewrite !length_app, !length_store_le, HS, length_take. lia. }
  split_and!; try done.
  - unfold m. rewrite Z2Nat.id by lia. unfold pre, end_mark. by rewrite <-!app_assoc.
  - unfold end_mark. rewrite !length_app, length_store_le. lia.
  - replace (hdr' ++ store_le 2 PROTOCOL_MAGIC ++ sets jobs ++ end_mark ++ rest)
      with ([] ++ frame_bytes (LoadFrame hdr' jobs tail) ++ drop (1464 - 24 * m) rest).
    { apply bytes_at_app; [done|]. rewrite Hlen. lia. }
    unfold frame_bytes, packet, tail. cbn [lf_hdr lf_jobs lf_rest app].
    rewrite <-!app_assoc, take_drop. done.
  - cbn [lf_jobs]. rewrite Hkeys. f_equal. lia.
  - split_and!; try done. cbn [lf_jobs]. lia.
Qed.

Lemma preload_frames_spec cnt (Hc : cnt < 2 ^ 32) r : ∀ fuel hdr body ip k,
  length hdr = 42%nat → (1466 ≤ length body)%nat → 0 ≤ k ≤ cnt → Z.to_nat (cnt - k) = r →
  (r + 62 < fuel)%nat →
  ∃ fs pkt ip', preload_frames fuel 1510 cnt (hdr ++ store_le 2 PROTOCOL_MAGIC ++ body) ip k =
      Ok (frame_bytes <$> fs, pkt, ip', cnt) ∧
    Forall load_frame_ok fs ∧ concat ((λ f, (lf_jobs f).*1) <$> fs) = seqZ k (cnt - k).
Proof.
  induction (lt_wf r) as [r _ IH]. intros fuel hdr body ip k Hh Hb Hk Hr Hf.
  destruct fuel as [|fuel]; [lia|]. cbn [preload_frames]. destruct (Z.ltb_spec k cnt) as [Hlt|Hge].
  - destruct (preload_frame_spec (S fuel) cnt hdr body ip k Hh Hb) as (f & body' & -> & Hb' & Hsent & Hhdr & Hkeys & Hok);
      [lia..|].
    rewrite bind_Ok. cbv beta iota. rewrite Hsent, bind_Ok. set (n := Z.min 61 (cnt - k)) in *.
    destruct (IH (Z.to_nat (cnt - (k + n)))) with (fuel := fuel) (hdr := header_with_ip hdr ip) (body := body')
      (ip := u32 (ip + 1)) (k := k + n) as (fs & pkt & ip' & -> & Hfs & Hcat);
      [lia|by apply length_header_with_ip|lia|lia|done|lia|].
    rewrite bind_Ok. cbv beta iota. exists (f :: fs), pkt, ip'. split_and!; [done|by constructor|].
    rewrite fmap_cons, concat_cons, Hcat, Hkeys.
    replace (cnt - k) with (n + (cnt - (k + n))) by lia. rewrite seqZ_app by lia. done.
  - assert (k = cnt) as -> by lia. exists [], (hdr ++ store_le 2 PROTOCOL_MAGIC ++ body), ip.
    split_and!; [done|done|]. by rewrite Z.sub_diag.
Qed.

(** *** The set-up of the packet *)

Lemma store_prefix h t off n x :
  0 ≤ off → off + Z.of_nat n ≤ Z.of_nat (length h) →
  ∃ h', store (h ++ t) off n x = Ok (h' ++ t) ∧ length h' = length h.
Proof.
  intros H0 H1. exists (write_run h (Z.to_nat off) (store_le n x)).
  assert (length (store_le n x) = n) as Hn by apply length_store_le. split.
  - unfold store. rewrite length_app. cmp_cases. f_equal. unfold write_run.
    rewrite take_app_le by lia. rewrite drop_app_le by lia. by rewrite <-!app_assoc.
  - apply write_run_length. lia.
Qed.

Lemma stores_prefix l h t :
  Forall (λ '(off, n, _), 0 ≤ off ∧ off + Z.of_nat n ≤ Z.of_nat (length h)) l →
  ∃ h', stores (h ++ t) l = Ok (h' ++ t) ∧ length h' = length h.
Proof.
  revert h. induction l as [|[[off n] x] l IH]; intros h Hl; [by exists h|].
  apply Forall_cons in Hl as [[H0 H1] Hl]. cbn [stores].
  destruct (store_prefix h t off n x H0 H1) as (h1 & -> & L1). rewrite bind_Ok. rewrite <-L1 in Hl.
  destruct (IH h1 Hl) as (h2 & -> & L2). exists h2. split; [done|congruence].
Qed.

Lemma stores_app l1 l2 pkt : stores pkt (l1 ++ l2) = (pkt ← stores pkt l1; stores pkt l2).
Proof.
  revert pkt. induction l1 as [|[[off n] x] l1 IH]; intros pkt; [done|]. cbn [app stores].
  destruct (store pkt off n x); [|done]. rewrite !bind_Ok. apply IH.
Qed.

Lemma tx_setup_spec pktlen h m body :
  length h = 42%nat → length m = 2%nat →
  ∃ h', stores (h ++ m ++ body) (tx_headers ++ tx_lengths pktlen) = Ok (h' ++ store_le 2 PROTOCOL_MAGIC ++ body) ∧
    length h' = 42%nat.
Proof.
  intros Hh Hm. change tx_headers with (take 13 tx_headers ++ [(42, 2%nat, PROTOCOL_MAGIC)]).
  rewrite !stores_app.
  destruct (stores_prefix (take 13 tx_headers) h (m ++ body)) as (h1 & -> & L1).
  { rewrite Hh. apply (bool_decide_unpack _). by vm_compute. }
  rewrite bind_Ok. cbn [stores]. rewrite (store_app_at h1 m), !bind_Ok by (done || lia).
  destruct (stores_prefix (tx_lengths pktlen) h1 (store_le 2 PROTOCOL_MAGIC ++ body)) as (h2 & -> & L2).
  { rewrite L1, Hh. unfold tx_lengths. repeat constructor; simpl; lia. }
  exists h2. split; [done|lia].
Qed.

(** *** The port *)

(** With one port the client makes the calls of the server's initialisation. *)
Lemma client_init_as_server fails fuel :
  client_init_dpdk fails 1 fuel = mega_init_dpdk fails false NUM_QUEUE 1 fuel.
Proof.
  unfold client_init_dpdk, mega_init_dpdk. cbn [Z.eqb Pos.eqb assert_]. rewrite bind_Ok.
  destruct (create_pools fails NUM_QUEUE 1 fuel 0 []) as [tr|]; [|done]. rewrite !bind_Ok.
  destruct (call fails tr SendMempoolCreate) as [tr1|]; [|done]. rewrite !bind_Ok.
  destruct (call fails tr1 PciProbe) as [tr2|]; [|done]. by rewrite !bind_Ok.
Qed.

(** Every queue is set up, but only queue 0 is read: what RSS puts into the others is
    never received. *)
Lemma one_receiver one_node q :
  RxLoop 0 q ∈ launch_threads one_node → q = 0.
Proof.
  destruct one_node; vm_compute; intros H;
    repeat (apply elem_of_cons in H as [H|H]; [solve [done | by injection H as ->]|]); by apply elem_of_nil in H.
Qed.

(** *** The statistics *)

(** The first iteration adds the whole counter to the timer: the first report is printed
    at once when the machine has been up for [timer_period]. *)
Lemma first_report_at_once timer_period cur_tsc :
  0 < timer_period ≤ cur_tsc → cur_tsc < 2 ^ 64 →
  rx_tick timer_period 0 true cur_tsc (RxTimer 0 0) = (RxTimer cur_tsc 0, true).
Proof.
  intros Hp Hc. unfold rx_tick. cbn [prev_tsc timer_tsc]. rewrite Z.sub_0_r, Z.add_0_l.
  rewrite !(wrap_id 64 cur_tsc) by (unfold in_range; lia). by cmp_cases.
Qed.

(** Any IP packet's bytes count as a time: the eight bytes contain the time to live. *)
Lemma latency_counts_any_packet now pkt total count ts :
  load pkt 18 8 = Ok ts → ts ≠ 0 →
  rx_latency now pkt total count = Ok (u64 (total + u64 (now - ts)), u64 (count + 1)).
Proof.
  intros Hl Hts. unfold rx_latency. change (14 + 4) with 18. rewrite Hl, bind_Ok.
  by destruct (Z.eqb_spec ts 0).
Qed.

Lemma sum_cores_eq (f : core_stat → Z) (l : list (core_stat * bool)) n :
  Forall (λ c, 0 ≤ f c.1) l → 0 ≤ n → n + zsum (λ c, if (c.2 : bool) then f c.1 else 0) l < 2 ^ 64 →
  foldl (λ n c, if (c.2 : bool) then u64 (n + f c.1) else n) n l = n + zsum (λ c, if (c.2 : bool) then f c.1 else 0) l.
Proof.
  revert n. induction l as [|[c e] l IH]; intros n Hl Hn Hs; simpl in *; [lia|].
  apply Forall_cons in Hl as [Hc Hl]. simpl in Hc.
  assert (0 ≤ zsum (λ c, if (c.2 : bool) then f c.1 else 0) l) as H0.
  { clear -Hl. induction Hl as [|[c e] l Hc _ IH]; simpl in *; [lia|]. destruct e; lia. }
  destruct e.
  - rewrite (wrap_id 64) by (unfold in_range; lia). rewrite IH by (done || lia). lia.
  - rewrite IH by (done || lia). lia.
Qed.

Lemma sum_u64_eq l n :
  Forall (λ x, 0 ≤ x) l → 0 ≤ n → n + zsum id l < 2 ^ 64 → foldl (λ n x, u64 (n + x)) n l = n + zsum id l.
Proof.
  revert n. induction l as [|x l IH]; intros n Hl Hn Hs; simpl in *; [lia|].
  apply Forall_cons in Hl as [Hx Hl]. unfold id in *.
  assert (0 ≤ zsum (λ x, x) l) by (clear -Hl; induction Hl; simpl; lia).
  rewrite (wrap_id 64) by (unfold in_range; lia). rewrite IH by (done || lia). lia.
Qed.

(** The keys the queues insert after the load, and those that are loaded, are all
    different. *)
Lemma queue_keys_bounds cnt q :
  0 < cnt < TOTAL_CNT → 0 ≤ q < NUM_QUEUE →
  first_set_key cnt q = cnt + q * queue_keys cnt ∧ bound_set_key cnt q = cnt + (q + 1) * queue_keys cnt ∧
  0 ≤ queue_keys cnt ∧ bound_set_key cnt q ≤ TOTAL_CNT.
Proof.
  intros Hc Hq. unfold first_set_key, bound_set_key, queue_keys, NUM_QUEUE in *.
  change TOTAL_CNT with 2147483647 in *. pose proof (Z.div_mod (2147483647 - cnt) 4).
  pose proof (Z.mod_pos_bound (2147483647 - cnt) 4). set (d := (2147483647 - cnt) / 4) in *.
  specialize (H ltac:(lia)). specialize (H0 ltac:(lia)). clearbody d. assert (0 ≤ d) by lia.
  assert (0 ≤ q * d ∧ (q + 1) * d ≤ 4 * d) as (? & ?) by nia.
  rewrite (wrap_id 32 (q + 1)), (wrap_id 32 (q * d)), (wrap_id 32 ((q + 1) * d)) by (unfold in_range; nia).
  rewrite !(wrap_id 32) by (unfold in_range; nia). split_and!; lia.
Qed.

(** The keys of a queue's SETs, while they last. *)
Fixpoint queue_run (cnt q : Z) (n : nat) (k : Z) : result (list Z) :=
  match n with
  | O => Ok []
  | S n => k ← next_queue_key cnt q k; ks ← queue_run cnt q n k; Ok (k :: ks)
  end.

Lemma queue_run_spec cnt q n k ks :
  0 < cnt < TOTAL_CNT → 0 ≤ q < NUM_QUEUE → 0 ≤ k < bound_set_key cnt q →
  queue_run cnt q n k = Ok ks → ks = seqZ (k + 1) (Z.of_nat n) ∧ k + Z.of_nat n < bound_set_key cnt q.
Proof.
  intros Hc Hq. destruct (queue_keys_bounds cnt q Hc Hq) as (_ & _ & _ & Hmax).
  change TOTAL_CNT with 2147483647 in Hmax.
  revert k ks. induction n as [|n IH]; intros k ks Hk H; [injection H as <-; split; [done|lia]|].
  cbn [queue_run] in H. unfold next_queue_key in H. rewrite (wrap_id 32) in H by (unfold in_range; lia).
  destruct (Z.leb_spec (bound_set_key cnt q) (k + 1)); [done|]. rewrite bind_Ok in H.
  apply bind_Ok_inv in H as (ks' & H & [= <-]). apply IH in H as [-> Hb]; [|lia].
  rewrite (seqZ_cons (k + 1)) by lia. split; [|lia]. repeat f_equal; lia.
Qed.

(** ** Properties *)

(** The client loads every key once.  With [PRELOAD], from a packet buffer with any
    contents, the client sends frames of 1510 bytes, each a packet of at most 61 SETs with
    values of eight bytes, as the server's Receiver expects it; the keys of all frames
    together, in order, are 1, 2, ..., up to the last one before [preload_cnt]. *)
Theorem client_preload_covers cnt h m body fuel :
  1 ≤ cnt < 2 ^ 32 → length h = 42%nat → length m = 2%nat → (1466 ≤ length body)%nat →
  (Z.to_nat cnt + 62 < fuel)%nat →
  ∃ fs pkt ip, preload fuel cnt (h ++ m ++ body) = Ok (frame_bytes <$> fs, pkt, ip, cnt) ∧
    Forall load_frame_ok fs ∧ concat ((λ f, (lf_jobs f).*1) <$> fs) = seqZ 1 (cnt - 1).
Proof.
  intros Hc Hh Hm Hb Hf. unfold preload.
  destruct (tx_setup_spec 1510 h m body Hh Hm) as (h' & -> & Hh'). rewrite bind_Ok.
  apply (preload_frames_spec cnt ltac:(lia) (Z.to_nat (cnt - 1))); done || lia.
Qed.

(** The keys of two queues, and the loaded ones, are disjoint. *)
Theorem client_keys_disjoint cnt q1 q2 n1 n2 ks1 ks2 :
  0 < cnt < TOTAL_CNT → 0 ≤ q1 < q2 → q2 < NUM_QUEUE →
  first_set_key cnt q1 < bound_set_key cnt q1 → first_set_key cnt q2 < bound_set_key cnt q2 →
  queue_run cnt q1 n1 (first_set_key cnt q1) = Ok ks1 → queue_run cnt q2 n2 (first_set_key cnt q2) = Ok ks2 →
  (∀ k, k ∈ ks1 → ¬ k ∈ ks2) ∧ ∀ k, k ∈ seqZ 1 (cnt - 1) → ¬ k ∈ ks1 ∧ ¬ k ∈ ks2.
Proof.
  intros Hc Hq1 Hq2 Hb1 Hb2 H1 H2.
  destruct (queue_keys_bounds cnt q1 Hc) as (F1 & B1 & Hd & _); [lia|].
  destruct (queue_keys_bounds cnt q2 Hc) as (F2 & B2 & _ & _); [lia|].
  apply queue_run_spec in H1 as [-> E1]; [|done|lia|nia].
  apply queue_run_spec in H2 as [-> E2]; [|done|lia|nia].
  split; intros k; rewrite ?elem_of_seqZ; nia.
Qed.

(** A report adds up the cores and clears them; the next division by the number of
    replies is safe. *)
Theorem print_stats_totals W s r s' :
  Forall (λ c, 0 ≤ st_tx c.1) (cores s) → zsum (λ c, if (c.2 : bool) then st_tx c.1 else 0) (cores s) < 2 ^ 64 →
  length (ts_count s) = Z.to_nat NUM_QUEUE →
  print_stats W s = Ok (r, s') →
  rp_tx r = zsum (λ c, if (c.2 : bool) then st_tx c.1 else 0) (cores s) ∧
  Forall (λ c, c.2 = true → c.1 = CoreStat 0 0 0) (cores s') ∧
  ∀ s2, ts_count s2 = ts_count s' → ∃ r2, print_stats W s2 = Ok r2.
Proof.
  intros Htx Hsum Hl H. unfold print_stats in H. apply bind_Ok_inv in H as (g & Hg & H).
  apply bind_Ok_inv in H as (st & Hst & H). destruct (_ =? 0); [done|]. injection H as <- <-. cbn [rp_tx cores].
  split; [unfold sum_cores; by rewrite sum_cores_eq by (done || lia)|]. split.
  { apply Forall_fmap, Forall_true. intros [c []]; simpl; [done|]. intros [=]. }
  intros s2 Hcnt. unfold print_stats. rewrite Hg, Hst, !bind_Ok, Hcnt. cbn [ts_count].
  destruct (ts_count s) as [|? [|? [|? [|? []]]]]; try done. by eexists.
Qed.

(** ** The property at a small table

    99 keys, two frames. *)
Lemma client_preload_covers_witness :
  ∃ fs pkt ip, preload 200 100 (replicate 42 0 ++ replicate 2 0 ++ replicate 1500 0) =
      Ok (frame_bytes <$> fs, pkt, ip, 100) ∧
    concat ((λ f, (lf_jobs f).*1) <$> fs) = seqZ 1 99.
Proof.
  destruct (client_preload_covers 100 (replicate 42 0) (replicate 2 0) (replicate 1500 0) 200)
    as (fs & pkt & ip & H & _ & Hkeys); [lia | by rewrite length_replicate | by rewrite length_replicate
    | rewrite length_replicate; lia | lia |].
  exists fs, pkt, ip. split; [exact H | exact Hkeys].
Defined.
